(** * A segregated-fits memory allocator: shallow embedding and properties

    The development follows [mm-segregated_fits.c].  The heap is a flat,
    byte-addressed memory; headers, footers, free-list links and the
    lookup table are 8-byte little-endian words read and written through
    the macros of the C file (LP64: [sizeof(size_t) = sizeof(void* ) = 8]).
    Pointers are addresses in [Z], [NULL] is [0], and [size_t] arithmetic
    wraps modulo [2^64] where the C code computes with it.  Loops whose
    termination depends on the heap contents take a fuel argument and
    return [None] only when the fuel runs out. *)

From Stdlib Require Import ZArith Lia List Bool.
From coqutil Require Import Byte Word.LittleEndianList.
Import ListNotations.
Local Open Scope Z_scope.

(** ** Machine arithmetic *)

Definition wrap (x : Z) : Z := x mod 2 ^ 64.

Definition NULL : Z := 0.

(** ** Macros *)

Definition ALIGNMENT : Z := 8.
Definition CLASSES : Z := 20.
Definition LIMIT_COALESCE : Z := 2.

(** [~0x7] is the [int] [-8]; converted to [size_t] it is [2^64 - 8]. *)
Definition ALIGN (size : Z) : Z :=
  Z.land (wrap (size + (ALIGNMENT - 1))) (wrap (Z.lnot 7)).

Definition ADDRESS_SIZE : Z := 8.
Definition LOOKUP_TABLE_SIZE : Z := CLASSES * ADDRESS_SIZE.

(** [GET_CLASS(ind, size)]: the [for] loop runs while [ind < CLASSES];
    [n] counts the iterations that are left. *)
Fixpoint GET_CLASS_loop (n : nat) (ind value size : Z) : Z :=
  match n with
  | O => ind
  | S n' =>
      if size <? value then ind
      else GET_CLASS_loop n' (ind + 1) (wrap (value * 2)) size
  end.

Definition GET_CLASS (size : Z) : Z :=
  GET_CLASS_loop (Z.to_nat CLASSES) 0 64 size.

Definition GET_MAX_DIM (class : Z) : Z := Z.shiftl 1 (class + 6) - 1.

Definition HEADER_SIZE : Z := 8.
Definition FOOTER_SIZE : Z := 8.
Definition MAX_OVERHEAD : Z := HEADER_SIZE + FOOTER_SIZE + 2 * ADDRESS_SIZE.
Definition HF_OVERHEAD : Z := HEADER_SIZE + FOOTER_SIZE.
Definition MBS : Z := ALIGN MAX_OVERHEAD.

Definition PACK (data bit : Z) : Z := data + bit.

(** ** The heap state *)

(** The three globals of the C file, the memory, and the two words of
    the heap-extension primitive ([mem_brk], [mem_max_addr]). *)
Record state : Type := mkState {
  mem : Z -> byte;
  mem_brk : Z;
  mem_max_addr : Z;
  lookup_table : Z;
  first_block : Z;
  end_heap : Z
}.

Definition set_mem (st : state) (m : Z -> byte) : state :=
  mkState m (mem_brk st) (mem_max_addr st)
          (lookup_table st) (first_block st) (end_heap st).

Definition set_end_heap (st : state) (p : Z) : state :=
  mkState (mem st) (mem_brk st) (mem_max_addr st)
          (lookup_table st) (first_block st) p.

(** *** Word accesses *)

Definition load8 (m : Z -> byte) (p : Z) : Z :=
  le_combine (map (fun i => m (p + Z.of_nat i)) (seq 0 8)).

Definition store8 (m : Z -> byte) (p : Z) (v : Z) : Z -> byte :=
  fun a =>
    if (p <=? a) && (a <? p + 8)
    then nth (Z.to_nat (a - p)) (le_split 8 v) Byte.x00
    else m a.

Definition READ_DATA (st : state) (p : Z) : Z := load8 (mem st) p.
Definition WRITE_DATA (st : state) (p data : Z) : state :=
  set_mem st (store8 (mem st) p data).
Definition READ_ADDR (st : state) (p : Z) : Z := load8 (mem st) p.
Definition WRITE_ADDR (st : state) (p addr : Z) : state :=
  set_mem st (store8 (mem st) p addr).

Definition GET_SIZE (st : state) (p : Z) : Z :=
  Z.land (READ_DATA st p) (wrap (Z.lnot 7)).
Definition BIT (st : state) (p : Z) : Z := Z.land (READ_DATA st p) 1.

Definition LOOKUP_TABLE (st : state) (i : Z) : Z :=
  lookup_table st + ADDRESS_SIZE * i.

(** Addresses are integers, and the address macros add and subtract
    in [Z].  The pointer arithmetic of the source gives the same result
    as long as that result is an address, that is lies in [0, 2^64);
    the statements about a block keep its words there, through
    [heap_layout] or through bounds of their own. *)
Definition HEADER (ptr : Z) : Z := ptr - HEADER_SIZE.
Definition FOOTER (st : state) (ptr : Z) : Z :=
  ptr + GET_SIZE st (HEADER ptr) - HF_OVERHEAD.

Definition PREV (ptr : Z) : Z := ptr.
Definition NEXT (ptr : Z) : Z := ptr + ADDRESS_SIZE.

Definition LEFT (st : state) (ptr : Z) : Z :=
  ptr - GET_SIZE st (ptr - HF_OVERHEAD).
Definition RIGHT (st : state) (ptr : Z) : Z :=
  ptr + GET_SIZE st (HEADER ptr).

(** ** External collaborators *)

(** Modelled from the spec: the grow primitive [mem_sbrk] of [memlib.h]
    is not part of the sources.  Section 6 of the specification says
    that [grow(n)] extends the heap by exactly [n] bytes and returns the
    address of the first new byte, and that on failure it returns
    "none" and leaves the heap state unchanged.  The break and the
    limit of the backing store are the two words [mem_brk] and
    [mem_max_addr]; the request fails when it does not fit. *)
Definition mem_sbrk (st : state) (incr : Z) : Z * state :=
  if mem_max_addr st <? mem_brk st + incr then (NULL, st)
  else (mem_brk st,
        mkState (mem st) (mem_brk st + incr) (mem_max_addr st)
                (lookup_table st) (first_block st) (end_heap st)).

(** [memcpy] of the C library, on regions that do not overlap: the [n]
    bytes at [src] are copied to [dst]. *)
Definition memcpy (st : state) (dst src n : Z) : state :=
  set_mem st (fun a =>
    if (dst <=? a) && (a <? dst + n) then mem st (src + (a - dst))
    else mem st a).

(** ** List maintenance *)

Definition remove_from_free_list (st : state) (class ptr : Z) : state :=
  let class_addr := LOOKUP_TABLE st class in
  if (READ_ADDR st class_addr =? NULL) || (ptr =? NULL) then st
  else if (READ_ADDR st (PREV ptr) =? NULL) && (READ_ADDR st (NEXT ptr) =? NULL)
  then WRITE_ADDR st class_addr NULL
  else
    let st1 :=
      if negb (READ_ADDR st (PREV ptr) =? NULL)
      then WRITE_ADDR st (NEXT (READ_ADDR st (PREV ptr))) (READ_ADDR st (NEXT ptr))
      else WRITE_ADDR st class_addr (READ_ADDR st (NEXT ptr)) in
    if negb (READ_ADDR st1 (NEXT ptr) =? NULL)
    then WRITE_ADDR st1 (PREV (READ_ADDR st1 (NEXT ptr))) (READ_ADDR st1 (PREV ptr))
    else st1.

Definition put_on_front_of_class_list (st : state) (class ptr : Z) : state :=
  if (class <? 0) || (CLASSES <=? class) then st
  else
    let class_addr := LOOKUP_TABLE st class in
    let st1 :=
      if READ_ADDR st class_addr =? NULL
      then
        let s := WRITE_ADDR st (PREV ptr) NULL in
        WRITE_ADDR s (NEXT ptr) NULL
      else
        let s := WRITE_ADDR st (PREV (READ_ADDR st class_addr)) ptr in
        let s := WRITE_ADDR s (NEXT ptr) (READ_ADDR s class_addr) in
        WRITE_ADDR s (PREV ptr) NULL in
    WRITE_ADDR st1 class_addr ptr.

(** ** Placement search (the [BEST_FIT] branch, which the file compiles) *)

Fixpoint best_fit_loop (fuel : nat) (st : state) (size_req rover best : Z)
  : option Z :=
  match fuel with
  | O => None
  | S fuel' =>
      let take :=
        (size_req <=? GET_SIZE st (HEADER rover))
        && ((best =? NULL)
            || (GET_SIZE st (HEADER rover) <? GET_SIZE st (HEADER best))) in
      let best' := if take then rover else best in
      if take && (GET_SIZE st (HEADER best') =? size_req) then Some best'
      else if READ_ADDR st (NEXT rover) =? NULL then Some best'
      else best_fit_loop fuel' st size_req (READ_ADDR st (NEXT rover)) best'
  end.

Definition search_free_list (fuel : nat) (st : state) (class size_req : Z)
  : option Z :=
  if (class <? 0) || (CLASSES <=? class) then Some NULL
  else
    let rover := READ_ADDR st (LOOKUP_TABLE st class) in
    if rover =? NULL then Some NULL
    else best_fit_loop fuel st size_req rover NULL.

(** ** Split and coalesce *)

Definition split (st : state) (ptr newsize : Z) : state :=
  let remaining_size := wrap (GET_SIZE st (HEADER ptr) - newsize) in
  let old_class := GET_CLASS (GET_SIZE st (HEADER ptr)) in
  let st1 :=
    if BIT st (HEADER ptr) =? 0
    then remove_from_free_list st old_class ptr
    else st in
  let st2 := WRITE_DATA st1 (HEADER ptr) (PACK newsize 1) in
  let st3 := WRITE_DATA st2 (FOOTER st2 ptr) (PACK newsize 1) in
  let newblock := ptr + GET_SIZE st3 (HEADER ptr) in
  let st4 := WRITE_DATA st3 (HEADER newblock) (PACK remaining_size 0) in
  let st5 := WRITE_DATA st4 (FOOTER st4 newblock) (PACK remaining_size 0) in
  let new_class := GET_CLASS remaining_size in
  let st6 := put_on_front_of_class_list st5 new_class newblock in
  if end_heap st6 =? ptr then set_end_heap st6 newblock else st6.

(** The guard of the two scanning loops of [coalesce] and of the first
    loop of [mm_check]: a free neighbour above the coalescing limit. *)
Definition big_free (st : state) (p : Z) : bool :=
  (BIT st (HEADER p) =? 0)
  && (GET_MAX_DIM LIMIT_COALESCE <? GET_SIZE st (HEADER p)).

Fixpoint coalesce_right (fuel : nat) (st : state) (iterator total_size : Z)
  : option (state * Z * Z) :=
  match fuel with
  | O => None
  | S fuel' =>
      if negb (iterator =? end_heap st) && big_free st (RIGHT st iterator)
      then
        let total_size' :=
          wrap (total_size + GET_SIZE st (HEADER (RIGHT st iterator))) in
        let class := GET_CLASS (GET_SIZE st (HEADER (RIGHT st iterator))) in
        let st' := remove_from_free_list st class (RIGHT st iterator) in
        coalesce_right fuel' st' (RIGHT st' iterator) total_size'
      else Some (st, iterator, total_size)
  end.

Fixpoint coalesce_left (fuel : nat) (st : state) (ptr total_size : Z)
  : option (state * Z * Z) :=
  match fuel with
  | O => None
  | S fuel' =>
      if negb (ptr =? first_block st) && big_free st (LEFT st ptr)
      then
        let total_size' :=
          wrap (total_size + GET_SIZE st (HEADER (LEFT st ptr))) in
        let class := GET_CLASS (GET_SIZE st (HEADER (LEFT st ptr))) in
        let st' := remove_from_free_list st class (LEFT st ptr) in
        coalesce_left fuel' st' (LEFT st' ptr) total_size'
      else Some (st, ptr, total_size)
  end.

Definition coalesce (fuel : nat) (st : state) (ptr : Z) : option (Z * state) :=
  match coalesce_right fuel st ptr (GET_SIZE st (HEADER ptr)) with
  | None => None
  | Some (st1, iterator, total1) =>
      match coalesce_left fuel st1 ptr total1 with
      | None => None
      | Some (st2, ptr', total_size) =>
          let st3 := WRITE_DATA st2 (HEADER ptr') (PACK total_size 0) in
          let st4 := WRITE_DATA st3 (FOOTER st3 ptr') (PACK total_size 0) in
          Some (ptr', if end_heap st4 =? iterator
                      then set_end_heap st4 ptr' else st4)
      end
  end.

Fixpoint simulate_right_coalesce_loop (fuel : nat) (st : state)
  (ptr diff total_size : Z) : option bool :=
  match fuel with
  | O => None
  | S fuel' =>
      if negb (ptr =? end_heap st) && (BIT st (HEADER (RIGHT st ptr)) =? 0)
      then
        let total_size' :=
          wrap (total_size + GET_SIZE st (HEADER (RIGHT st ptr))) in
        if diff <=? total_size' then Some true
        else simulate_right_coalesce_loop fuel' st (RIGHT st ptr) diff total_size'
      else Some false
  end.

Definition simulate_right_coalesce (fuel : nat) (st : state) (ptr diff : Z)
  : option bool :=
  simulate_right_coalesce_loop fuel st ptr diff 0.

(** ** Entry points *)

Definition mm_init (st : state) : Z * state :=
  let padd :=
    wrap (wrap (ALIGN (LOOKUP_TABLE_SIZE + HEADER_SIZE) - LOOKUP_TABLE_SIZE)
          - HEADER_SIZE) in
  let '(p, st0) := mem_sbrk st (padd + LOOKUP_TABLE_SIZE + MBS) in
  if p =? NULL
  then (-1, mkState (mem st0) (mem_brk st0) (mem_max_addr st0)
                    NULL (first_block st0) (end_heap st0))
  else
    let st1 := mkState (mem st0) (mem_brk st0) (mem_max_addr st0)
                       (p + padd) (first_block st0) (end_heap st0) in
    let st2 :=
      fold_left (fun s i => WRITE_ADDR s (LOOKUP_TABLE s (Z.of_nat i)) NULL)
                (seq 0 (Z.to_nat CLASSES)) st1 in
    let fb := lookup_table st2 + LOOKUP_TABLE_SIZE + HEADER_SIZE in
    let st3 := mkState (mem st2) (mem_brk st2) (mem_max_addr st2)
                       (lookup_table st2) fb (end_heap st2) in
    let st4 := WRITE_DATA st3 (HEADER fb) (PACK MBS 0) in
    let st5 := WRITE_DATA st4 (FOOTER st4 fb) (PACK MBS 0) in
    let st6 := put_on_front_of_class_list st5 0 fb in
    (0, set_end_heap st6 fb).

(** The [while (class < CLASSES)] loop of [mm_malloc]; [n] counts the
    classes that are left.  The result is the block found (or [NULL])
    together with the class it was found in. *)
Fixpoint mm_malloc_search (n : nat) (fuel : nat) (st : state)
  (class newsize : Z) : option (Z * Z) :=
  match n with
  | O => Some (NULL, class)
  | S n' =>
      if class <? CLASSES then
        match search_free_list fuel st class newsize with
        | None => None
        | Some ptr =>
            if negb (ptr =? NULL) then Some (ptr, class)
            else mm_malloc_search n' fuel st (class + 1) newsize
        end
      else Some (NULL, class)
  end.

(** The end of [mm_malloc], reached when no list gave a block: the heap
    is extended by a block of [newsize] bytes. *)
Definition mm_malloc_grow (st : state) (newsize : Z) : Z * state :=
  let '(p, st0) := mem_sbrk st newsize in
  if p =? NULL then (NULL, st0)
  else
    let ptr := p + HEADER_SIZE in
    let st1 := WRITE_DATA st0 (HEADER ptr) (PACK newsize 1) in
    let st2 := WRITE_DATA st1 (FOOTER st1 ptr) (PACK newsize 1) in
    (ptr, set_end_heap st2 ptr).

(** The body of the [if] inside the loop of [mm_malloc]: the block found
    is taken whole or split. *)
Definition mm_malloc_place (st : state) (ptr class newsize : Z) : Z * state :=
  let remaining_size := wrap (GET_SIZE st (HEADER ptr) - newsize) in
  if remaining_size <=? MBS then
    let st1 :=
      WRITE_DATA st (HEADER ptr) (PACK (GET_SIZE st (HEADER ptr)) 1) in
    let st2 :=
      WRITE_DATA st1 (FOOTER st1 ptr) (PACK (GET_SIZE st1 (HEADER ptr)) 1) in
    (ptr, remove_from_free_list st2 class ptr)
  else (ptr, split st ptr newsize).

Definition mm_malloc (fuel : nat) (st : state) (size : Z)
  : option (Z * state) :=
  let newsize := ALIGN (size + HF_OVERHEAD) in
  if size <=? 0 then Some (NULL, st)
  else
    let newsize := if newsize <? MBS then MBS else newsize in
    let class := GET_CLASS newsize in
    match mm_malloc_search (Z.to_nat CLASSES) fuel st class newsize with
    | None => None
    | Some (ptr, class) =>
        if negb (ptr =? NULL) then Some (mm_malloc_place st ptr class newsize)
        else Some (mm_malloc_grow st newsize)
    end.

Definition mm_free (fuel : nat) (st : state) (ptr : Z) : option state :=
  if ptr =? NULL then Some st
  else
    let st1 :=
      WRITE_DATA st (HEADER ptr) (PACK (GET_SIZE st (HEADER ptr)) 0) in
    let st2 :=
      WRITE_DATA st1 (FOOTER st1 ptr) (PACK (GET_SIZE st1 (HEADER ptr)) 0) in
    let class := GET_CLASS (GET_SIZE st2 (HEADER ptr)) in
    if LIMIT_COALESCE <? class then
      match coalesce fuel st2 ptr with
      | None => None
      | Some (ptr', st3) =>
          let class' := GET_CLASS (GET_SIZE st3 (HEADER ptr')) in
          Some (put_on_front_of_class_list st3 class' ptr')
      end
    else Some (put_on_front_of_class_list st2 class ptr).

(** The absorbing loop of [mm_realloc]. *)
Fixpoint absorb_right (fuel : nat) (st : state)
  (iterator last diff total_size : Z) : option (state * Z * Z) :=
  match fuel with
  | O => None
  | S fuel' =>
      if negb (iterator =? end_heap st)
         && (BIT st (HEADER (RIGHT st iterator)) =? 0)
      then
        let total_size' :=
          wrap (total_size + GET_SIZE st (HEADER (RIGHT st iterator))) in
        let class := GET_CLASS (GET_SIZE st (HEADER (RIGHT st iterator))) in
        let st' := remove_from_free_list st class (RIGHT st iterator) in
        let last' := RIGHT st' iterator in
        let iterator' := RIGHT st' iterator in
        if diff <=? total_size' then Some (st', last', total_size')
        else absorb_right fuel' st' iterator' last' diff total_size'
      else Some (st, last, total_size)
  end.

Definition mm_realloc (fuel : nat) (st : state) (ptr size : Z)
  : option (Z * state) :=
  if (ptr =? NULL) && (0 <? size) then mm_malloc fuel st size
  else if size =? 0 then
    match mm_free fuel st ptr with
    | None => None
    | Some st' => Some (ptr, st')
    end
  else if negb (ptr =? NULL) && (0 <? size) then
    let block_size := GET_SIZE st (HEADER ptr) in
    let newsize := ALIGN (size + HF_OVERHEAD) in
    let newsize := if newsize <? MBS then MBS else newsize in
    if newsize =? block_size then Some (ptr, st)
    else if block_size <? newsize then
      let diff := wrap (newsize - block_size) in
      match simulate_right_coalesce fuel st ptr diff with
      | None => None
      | Some true =>
          match absorb_right fuel st ptr ptr diff 0 with
          | None => None
          | Some (st1, last, total_size) =>
              let st2 :=
                WRITE_DATA st1 (HEADER ptr)
                           (PACK (wrap (block_size + total_size)) 1) in
              let st3 :=
                WRITE_DATA st2 (FOOTER st2 ptr)
                           (PACK (wrap (block_size + total_size)) 1) in
              Some (ptr, if last =? end_heap st3
                         then set_end_heap st3 ptr else st3)
          end
      | Some false =>
          match mm_malloc fuel st newsize with
          | None => None
          | Some (new_ptr, st1) =>
              if new_ptr =? NULL then Some (NULL, st1)
              else
                let st2 :=
                  memcpy st1 new_ptr ptr (wrap (block_size - HF_OVERHEAD)) in
                match mm_free fuel st2 ptr with
                | None => None
                | Some st3 => Some (new_ptr, st3)
                end
          end
      end
    else
      let diff := wrap (block_size - newsize) in
      if diff <=? MBS then Some (ptr, st)
      else Some (ptr, split st ptr newsize)
  else Some (NULL, st).

(** ** Integrity checker *)

Inductive report : Type :=
| EscapedCoalescing (p q : Z)
| NotMarkedFree (p : Z).

(** First loop: [for (ptr = first_block; ptr != end_heap; ptr = RIGHT(ptr))]. *)
Fixpoint mm_check_blocks (fuel : nat) (st : state) (ptr : Z)
  : option (list report) :=
  match fuel with
  | O => None
  | S fuel' =>
      if ptr =? end_heap st then Some []
      else
        let here :=
          if big_free st ptr && big_free st (RIGHT st ptr)
          then [EscapedCoalescing ptr (RIGHT st ptr)] else [] in
        match mm_check_blocks fuel' st (RIGHT st ptr) with
        | None => None
        | Some rest => Some (here ++ rest)
        end
  end.

(** Inner [while] of the second loop. *)
Fixpoint mm_check_list (fuel : nat) (st : state) (fl : Z)
  : option (list report) :=
  match fuel with
  | O => None
  | S fuel' =>
      if negb (READ_ADDR st (NEXT fl) =? NULL) then
        let here :=
          if negb (BIT st (HEADER (READ_ADDR st (NEXT fl))) =? 0)
          then [NotMarkedFree (READ_ADDR st (NEXT fl))] else [] in
        match mm_check_list fuel' st (READ_ADDR st (NEXT fl)) with
        | None => None
        | Some rest => Some (here ++ rest)
        end
      else Some []
  end.

(** Second loop: [for (i = 0; i < CLASSES; i++)], left by [break] at the
    first empty class; [n] counts the classes that are left. *)
Fixpoint mm_check_classes (n : nat) (fuel : nat) (st : state) (i : Z)
  : option (list report) :=
  match n with
  | O => Some []
  | S n' =>
      let fl := READ_ADDR st (LOOKUP_TABLE st i) in
      if fl =? NULL then Some []
      else
        match mm_check_list fuel st fl with
        | None => None
        | Some here =>
            match mm_check_classes n' fuel st (i + 1) with
            | None => None
            | Some rest => Some (here ++ rest)
            end
        end
  end.

(** The checker prints its findings and returns nothing; the model
    returns the list of messages and the state it leaves. *)
Definition mm_check (fuel : nat) (st : state) : option (list report * state) :=
  match mm_check_blocks fuel st (first_block st) with
  | None => None
  | Some r1 =>
      match mm_check_classes (Z.to_nat CLASSES) fuel st 0 with
      | None => None
      | Some r2 => Some (r1 ++ r2, st)
      end
  end.


(** ** Sequences of public operations *)

Inductive op : Type :=
| Malloc (size : Z)
| Free (ptr : Z)
| Realloc (ptr size : Z).

Definition step (fuel : nat) (st : state) (o : op) : option (Z * state) :=
  match o with
  | Malloc size => mm_malloc fuel st size
  | Free ptr =>
      match mm_free fuel st ptr with
      | None => None
      | Some st' => Some (NULL, st')
      end
  | Realloc ptr size => mm_realloc fuel st ptr size
  end.

Fixpoint exec (fuel : nat) (st : state) (ops : list op) : option state :=
  match ops with
  | [] => Some st
  | o :: ops' =>
      match step fuel st o with
      | None => None
      | Some (_, st') => exec fuel st' ops'
      end
  end.

Definition returns {A : Type} (o : option A) : bool :=
  match o with
  | Some _ => true
  | None => false
  end.

(** A zeroed backing store of [size] bytes at address [base], before
    [mm_init]. *)
Definition backing_store (base size : Z) : state :=
  mkState (fun _ => Byte.x00) base (base + size) NULL NULL NULL.
(** * Predicates on heap states *)

(** [next_chain st p l q]: following the [next] links from [p] visits the
    blocks of [l], in order, and then arrives at [q]. *)
Fixpoint next_chain (st : state) (p : Z) (l : list Z) (q : Z) : Prop :=
  match l with
  | [] => p = q
  | b :: l' => p = b /\ b <> NULL /\ next_chain st (READ_ADDR st (NEXT b)) l' q
  end.


(** The blocks of the heap: the first block and, from a block that is
    not the last one, its right neighbour. *)
Inductive heap_block (st : state) : Z -> Prop :=
| hb_first p : p = first_block st -> heap_block st p
| hb_right p q :
    heap_block st p -> p <> end_heap st -> q = RIGHT st p -> heap_block st q.

(** The coalesce invariant of the specification, which is what the first
    loop of [mm_check] tests: no block and its right neighbour are both
    free and both above [GET_MAX_DIM LIMIT_COALESCE]. *)
Definition coalesce_invariant (st : state) : Prop :=
  forall p, heap_block st p -> p <> end_heap st ->
            ~ (big_free st p = true /\ big_free st (RIGHT st p) = true).

(** ** Concrete heaps *)

(** The heap of the scenarios of the specification: a zeroed 1 MiB
    backing store at address [4096], initialised by [mm_init]. *)
Definition heap_1MiB : state := snd (mm_init (backing_store 4096 1048576)).

(** The state after a sequence of operations (the state itself when the
    fuel does not suffice). *)
Definition after (fuel : nat) (st : state) (ops : list op) : state :=
  match exec fuel st ops with
  | Some st' => st'
  | None => st
  end.

(** Two blocks of 1040 bytes are allocated and the second one is freed. *)
Definition heap_before_shrink : state :=
  after 8 heap_1MiB [Malloc 1024; Malloc 1024; Free 5336].

(** A backing store that is exhausted by [mm_init]; the only block is
    then allocated. *)
Definition heap_full : state :=
  after 8 (snd (mm_init (backing_store 4096 192))) [Malloc 16].

(** Free blocks of three sizes on the list of class 1. *)
Definition heap_three_free : state :=
  after 8 heap_1MiB
    [Malloc 16; Malloc 64; Malloc 8; Malloc 80; Malloc 8; Malloc 96; Malloc 8;
     Free 4296; Free 4408; Free 4536].

(** A block is resized after it was freed: it is marked in use again
    while it is still the head of a class list. *)
Definition heap_used_on_list : state :=
  after 8 heap_1MiB
    [Malloc 64; Malloc 64; Malloc 64; Free 4376; Free 4296; Realloc 4296 100].

(** A 64 MiB backing store in which a block of [64 * 2^19 + 16] bytes
    is allocated. *)
Definition heap_huge_block : state :=
  after 8 (snd (mm_init (backing_store 4096 67108864)))
    [Malloc 16; Malloc 33554432].

(** A used block behind the head of the class 1 list, with class 0
    empty, and the same with class 0 not empty. *)
Definition heap_used_behind_head_after_empty_class : state :=
  after 8 heap_1MiB
    [Malloc 16; Malloc 64; Malloc 64; Malloc 64; Malloc 64;
     Free 4376; Free 4296; Free 4456; Realloc 4296 100].

Definition heap_used_behind_head : state :=
  after 8 heap_1MiB
    [Malloc 64; Malloc 64; Malloc 64; Malloc 64;
     Free 4376; Free 4296; Free 4456; Realloc 4296 100].

(** ** Well-formed heaps *)

(** The abstract view of a heap: its blocks in address order, each with
    the address of its payload, its total size and its in-use flag, and
    for every class the list of the free blocks linked in that class. *)
Record block : Type := mkBlock { b_ptr : Z; b_size : Z; b_used : bool }.

(** The word that header and footer of a block hold. *)
Definition tag (b : block) : Z := PACK (b_size b) (if b_used b then 1 else 0).

Definition block_ok (st : state) (b : block) : Prop :=
  MBS <= b_size b /\ b_size b mod 8 = 0 /\
  READ_DATA st (HEADER (b_ptr b)) = tag b /\
  READ_DATA st (b_ptr b + b_size b - HF_OVERHEAD) = tag b.

(** [tiles p bs e]: the blocks of [bs] follow each other without gap
    from payload address [p] up to [e]. *)
Fixpoint tiles (p : Z) (bs : list block) (e : Z) : Prop :=
  match bs with
  | [] => p = e
  | b :: bs' => b_ptr b = p /\ tiles (p + b_size b) bs' e
  end.

(** The blocks cover the heap from the end of the lookup table to the
    break, the last one is [end_heap], and every block carries matching
    boundary tags. *)
Definition heap_layout (st : state) (bs : list block) : Prop :=
  0 < lookup_table st /\
  first_block st = lookup_table st + LOOKUP_TABLE_SIZE + HEADER_SIZE /\
  mem_brk st + HEADER_SIZE <= 2 ^ 64 /\
  tiles (first_block st) bs (mem_brk st + HEADER_SIZE) /\
  (exists bs0 b, bs = bs0 ++ [b] /\ b_ptr b = end_heap st) /\
  Forall (block_ok st) bs.

(** [dll st prev l nxt]: the blocks of [l] are doubly linked in this
    order; the first one has [prev] as predecessor and the last one
    [nxt] as successor. *)
Fixpoint dll (st : state) (prev : Z) (l : list Z) (nxt : Z) : Prop :=
  match l with
  | [] => True
  | q :: l' =>
      READ_ADDR st (PREV q) = prev /\
      READ_ADDR st (NEXT q) = hd nxt l' /\
      dll st q l' nxt
  end.

(** Every class list is a doubly-linked list of blocks of that class. *)
Definition free_lists (st : state) (bs : list block) (FL : Z -> list Z)
  : Prop :=
  forall c, 0 <= c < CLASSES ->
    READ_ADDR st (LOOKUP_TABLE st c) = hd NULL (FL c) /\
    dll st NULL (FL c) NULL /\
    NoDup (FL c) /\
    forall q, In q (FL c) ->
              exists s u, In (mkBlock q s u) bs /\ GET_CLASS s = c.

(** The free-list membership invariant of the specification: a block is
    free exactly when it is linked in the list of its class. *)
Definition linked_iff_free (bs : list block) (FL : Z -> list Z) : Prop :=
  forall b, In b bs ->
    (b_used b = false <->
     0 <= GET_CLASS (b_size b) < CLASSES /\
     In (b_ptr b) (FL (GET_CLASS (b_size b)))).

Definition heap_ok (st : state) (bs : list block) (FL : Z -> list Z) : Prop :=
  heap_layout st bs /\ free_lists st bs FL /\ linked_iff_free bs FL.

(** The lists of [FL] with the list of class [c] replaced by [l]. *)
Definition upd (FL : Z -> list Z) (c : Z) (l : list Z) : Z -> list Z :=
  fun c' => if c' =? c then l else FL c'.

Definition total_size (bs : list block) : Z :=
  fold_right (fun b acc => b_size b + acc) 0 bs.

(** The link words of two list nodes do not overlap. *)
Definition sep16 (x y : Z) : Prop := x + 16 <= y \/ y + 16 <= x.

(** Two states with the same break, table and block anchors. *)
Definition same_globals (st st' : state) : Prop :=
  mem_brk st' = mem_brk st /\ mem_max_addr st' = mem_max_addr st /\
  lookup_table st' = lookup_table st /\ first_block st' = first_block st /\
  end_heap st' = end_heap st.

(** The bytes that hold list links: the lookup table and the two link
    words of every listed block. *)
Definition link_area (st : state) (FL : Z -> list Z) (a : Z) : Prop :=
  lookup_table st <= a < lookup_table st + LOOKUP_TABLE_SIZE \/
  exists c x, 0 <= c < CLASSES /\ In x (FL c) /\ x <= a < x + 16.

(** ** An executable check of well-formedness *)

Definition block_ok_b (st : state) (b : block) : bool :=
  (MBS <=? b_size b) && (b_size b mod 8 =? 0)
  && (READ_DATA st (HEADER (b_ptr b)) =? tag b)
  && (READ_DATA st (b_ptr b + b_size b - HF_OVERHEAD) =? tag b).

Fixpoint tiles_b (p : Z) (bs : list block) (e : Z) : bool :=
  match bs with
  | [] => p =? e
  | b :: bs' => (b_ptr b =? p) && tiles_b (p + b_size b) bs' e
  end.

Definition heap_layout_b (st : state) (bs : list block) : bool :=
  (0 <? lookup_table st)
  && (first_block st =? lookup_table st + LOOKUP_TABLE_SIZE + HEADER_SIZE)
  && (mem_brk st + HEADER_SIZE <=? 2 ^ 64)
  && tiles_b (first_block st) bs (mem_brk st + HEADER_SIZE)
  && match bs with
     | [] => false
     | b :: _ => b_ptr (last bs b) =? end_heap st
     end
  && forallb (block_ok_b st) bs.

Fixpoint dll_b (st : state) (prev : Z) (l : list Z) (nxt : Z) : bool :=
  match l with
  | [] => true
  | q :: l' =>
      (READ_ADDR st (PREV q) =? prev)
      && (READ_ADDR st (NEXT q) =? hd nxt l')
      && dll_b st q l' nxt
  end.

Fixpoint nodup_b (l : list Z) : bool :=
  match l with
  | [] => true
  | x :: l' => negb (existsb (Z.eqb x) l') && nodup_b l'
  end.

Definition class_list_b (st : state) (bs : list block) (c : Z) (l : list Z)
  : bool :=
  (READ_ADDR st (LOOKUP_TABLE st c) =? hd NULL l)
  && dll_b st NULL l NULL && nodup_b l
  && forallb (fun q =>
       existsb (fun b => (b_ptr b =? q) && (GET_CLASS (b_size b) =? c)) bs) l.

(** The class lists given as the list of the 20 lists. *)
Definition lists_of (fls : list (list Z)) : Z -> list Z :=
  fun c => nth (Z.to_nat c) fls [].

Definition free_lists_b (st : state) (bs : list block) (fls : list (list Z))
  : bool :=
  forallb (fun i => class_list_b st bs (Z.of_nat i) (lists_of fls (Z.of_nat i)))
          (seq 0 (Z.to_nat CLASSES)).

Definition linked_iff_free_b (bs : list block) (fls : list (list Z)) : bool :=
  forallb (fun b =>
    Bool.eqb (negb (b_used b))
             ((GET_CLASS (b_size b) <? CLASSES)
              && existsb (Z.eqb (b_ptr b))
                         (lists_of fls (GET_CLASS (b_size b))))) bs.

Definition heap_ok_b (st : state) (bs : list block) (fls : list (list Z))
  : bool :=
  heap_layout_b st bs && free_lists_b st bs fls && linked_iff_free_b bs fls.

(** The blocks and the class lists of [heap_three_free]. *)
Definition blocks_three_free : list block :=
  [mkBlock 4264 32 true; mkBlock 4296 80 false; mkBlock 4376 32 true;
   mkBlock 4408 96 false; mkBlock 4504 32 true; mkBlock 4536 112 false;
   mkBlock 4648 32 true].

Definition lists_three_free : list (list Z) :=
  [] :: [4536; 4408; 4296] :: repeat [] 18.

(** The blocks and the class lists of [heap_before_shrink]. *)
Definition blocks_before_shrink : list block :=
  [mkBlock 4264 32 false; mkBlock 4296 1040 true; mkBlock 5336 1040 false].

Definition lists_before_shrink : list (list Z) :=
  [4264] :: repeat [] 4 ++ [5336] :: repeat [] 14.

(** Two free blocks of 80 bytes follow the used block 4296. *)
Definition heap_two_free_neighbours : state :=
  after 8 heap_1MiB
    [Malloc 64; Malloc 64; Malloc 64; Malloc 64; Free 4376; Free 4456].

Definition blocks_two_free_neighbours : list block :=
  [mkBlock 4264 32 false; mkBlock 4296 80 true; mkBlock 4376 80 false;
   mkBlock 4456 80 false; mkBlock 4536 80 true].

Definition lists_two_free_neighbours : list (list Z) :=
  [4264] :: [4456; 4376] :: repeat [] 18.

(** Two used blocks of 80 bytes; the caller has stored a word at the
    start of the payload of the first one. *)
Definition heap_pattern : state :=
  WRITE_ADDR (after 8 heap_1MiB [Malloc 64; Malloc 64]) 4296
             1234605616436508552.

Definition blocks_pattern : list block :=
  [mkBlock 4264 32 false; mkBlock 4296 80 true; mkBlock 4376 80 true].

Definition lists_pattern : list (list Z) := [4264] :: repeat [] 19.

(** The class lists without the blocks of [qs]. *)
Definition without (qs : list Z) (FL : Z -> list Z) : Z -> list Z :=
  fun c => filter (fun x => negb (existsb (Z.eqb x) qs)) (FL c).

(** A heap that is well formed except that the blocks at the addresses
    [D] are on no list, whether they are marked free or not: the state
    inside [mm_free], [coalesce] and [mm_realloc]. *)
Definition heap_ok_except (D : list Z) (st : state) (bs : list block)
  (FL : Z -> list Z) : Prop :=
  heap_layout st bs /\ free_lists st bs FL /\
  (forall b, In b bs -> ~ In (b_ptr b) D ->
     (b_used b = false <->
      0 <= GET_CLASS (b_size b) < CLASSES /\
      In (b_ptr b) (FL (GET_CLASS (b_size b))))) /\
  (forall c x, 0 <= c < CLASSES -> In x (FL c) -> ~ In x D).

(** The blocks that [coalesce] merges with: free and above the limit. *)
Definition coalescible (b : block) : bool :=
  negb (b_used b) && (GET_MAX_DIM LIMIT_COALESCE <? b_size b).

(** The longest prefix of coalescible blocks, and what follows it. *)
Fixpoint take_run (l : list block) : list block * list block :=
  match l with
  | [] => ([], [])
  | b :: l' =>
      if coalescible b
      then let '(r, rest) := take_run l' in (b :: r, rest)
      else ([], l)
  end.

(** The bytes of the payloads of the used blocks. *)
Definition used_payload (bs : list block) (a : Z) : Prop :=
  exists b, In b bs /\ b_used b = true /\
            b_ptr b <= a < b_ptr b + b_size b - HF_OVERHEAD.

(** The shortest run of free blocks at the head of [l] whose sizes,
    added to [total], reach [diff], and the blocks that follow it; [None]
    when a used block or the end of the heap comes first. *)
Fixpoint absorb_run (l : list block) (diff total : Z)
  : option (list block * list block) :=
  match l with
  | [] => None
  | b :: l' =>
      if b_used b then None
      else if diff <=? total + b_size b then Some ([b], l')
      else match absorb_run l' diff (total + b_size b) with
           | Some (r, rest) => Some (b :: r, rest)
           | None => None
           end
  end.

(** The first [n] bytes at [p'] in [st'] are the first [n] bytes at [p]
    in [st]. *)
Definition payload_preserved (st st' : state) (p p' n : Z) : Prop :=
  forall i, 0 <= i < n -> mem st' (p' + i) = mem st (p + i).

(** The caller stores two words at the start of the payload of the
    block of [64 * 2^19 + 16] bytes, and frees the block. *)
Definition heap_huge_freed : state :=
  after 8 (WRITE_ADDR (WRITE_ADDR heap_huge_block (PREV 4296) 4256)
                      (NEXT 4296) 4272)
        [Free 4296].

(** The pairs of neighbours that are both free and above 255 bytes, in
    address order, as the first loop of [mm_check] reports them. *)
Fixpoint escaped_pairs (bs : list block) : list report :=
  match bs with
  | [] => []
  | b :: rest =>
      match rest with
      | [] => []
      | b' :: _ =>
          (if coalescible b && coalescible b'
           then [EscapedCoalescing (b_ptr b) (b_ptr b')] else [])
          ++ escaped_pairs rest
      end
  end.

(** The heap of the shrinking [mm_realloc] that leaves two free
    neighbours. *)
Definition heap_after_shrink : state :=
  after 8 heap_before_shrink [Realloc 4296 16].

Definition blocks_after_shrink : list block :=
  [mkBlock 4264 32 false; mkBlock 4296 32 true; mkBlock 4328 1008 false;
   mkBlock 5336 1040 false].

Definition lists_after_shrink : list (list Z) :=
  [4264] :: repeat [] 3 ++ [4328] :: [5336] :: repeat [] 14.

(** The block of [64 * 2^19 + 16] bytes, the last block of the heap, is
    freed; the caller has written nothing into it. *)
Definition heap_huge_released : state :=
  after 8 (snd (mm_init (backing_store 4096 67108864)))
    [Malloc 16; Malloc 33554432; Free 4296].


(** A used block of 1040 bytes between the first block and a freed
    block of [64 * 2^19 + 16] bytes. *)
Definition heap_huge_right_neighbour : state :=
  after 8 (snd (mm_init (backing_store 4096 67108864)))
    [Malloc 16; Malloc 1024; Malloc 33554432; Free 5336].
(** * Properties *)

Ltac zlia := Z.div_mod_to_equations; lia.

(** Unfolds the address macros and the size constants. *)
Ltac consts :=
  change MBS with 32 in *;
  unfold HEADER, PREV, NEXT, LOOKUP_TABLE, LOOKUP_TABLE_SIZE, HF_OVERHEAD,
    HEADER_SIZE, FOOTER_SIZE, ADDRESS_SIZE, CLASSES, LIMIT_COALESCE, NULL in *.

(** ** Running sequences of operations *)

(** Closed facts about first-order data of a concrete heap. *)
Ltac by_compute :=
  vm_compute;
  first [ reflexivity | discriminate | (intro; discriminate)
        | (split; [reflexivity || discriminate | reflexivity || discriminate]) ].

Lemma exec_after fuel st ops :
  returns (exec fuel st ops) = true ->
  exec fuel st ops = Some (after fuel st ops).
Proof. unfold after. destruct (exec fuel st ops); [reflexivity | discriminate]. Qed.

Lemma after_defined fuel st ops :
  returns (exec fuel st ops) = true -> exec fuel st ops <> None.
Proof. destruct (exec fuel st ops); [discriminate | discriminate]. Qed.


(** ** Words in memory *)

Lemma wrap_range x : 0 <= wrap x < 2 ^ 64.
Proof. unfold wrap. apply Z.mod_pos_bound. lia. Qed.

Lemma wrap_small x : 0 <= x < 2 ^ 64 -> wrap x = x.
Proof. intros H. unfold wrap. apply Z.mod_small. exact H. Qed.

Lemma store8_outside m p v a : a < p \/ p + 8 <= a -> store8 m p v a = m a.
Proof.
  intros H. unfold store8.
  destruct (Z.leb_spec p a), (Z.ltb_spec a (p + 8)); simpl; try reflexivity; lia.
Qed.

Lemma store8_inside m p v k :
  (k < 8)%nat -> store8 m p v (p + Z.of_nat k) = nth k (le_split 8 v) Byte.x00.
Proof.
  intros H. unfold store8.
  destruct (Z.leb_spec p (p + Z.of_nat k)); [| lia].
  destruct (Z.ltb_spec (p + Z.of_nat k) (p + 8)); [| lia].
  cbn [andb]. replace (p + Z.of_nat k - p) with (Z.of_nat k) by lia.
  rewrite Nat2Z.id. reflexivity.
Qed.

Lemma load8_store8_same m p v : load8 (store8 m p v) p = wrap v.
Proof.
  unfold load8.
  assert (E : map (fun i => store8 m p v (p + Z.of_nat i)) (seq 0 8)
              = le_split 8 v).
  { transitivity (map (fun i => nth i (le_split 8 v) Byte.x00) (seq 0 8)).
    - apply map_ext_in. intros i Hi. apply in_seq in Hi.
      apply store8_inside. lia.
    - reflexivity. }
  rewrite E, le_combine_split. reflexivity.
Qed.

Lemma load8_store8_other m p v q :
  q + 8 <= p \/ p + 8 <= q -> load8 (store8 m p v) q = load8 m q.
Proof.
  intros H. unfold load8. f_equal.
  apply map_ext_in. intros i Hi. apply in_seq in Hi.
  apply store8_outside. lia.
Qed.

Lemma load8_ext m m' p :
  (forall a, p <= a < p + 8 -> m' a = m a) -> load8 m' p = load8 m p.
Proof.
  intros H. unfold load8. f_equal.
  apply map_ext_in. intros i Hi. apply in_seq in Hi. apply H. lia.
Qed.

Lemma load8_range m p : 0 <= load8 m p < 2 ^ 64.
Proof.
  unfold load8.
  pose proof (le_combine_bound (map (fun i => m (p + Z.of_nat i)) (seq 0 8))) as H.
  rewrite length_map, length_seq in H. exact H.
Qed.

(** Masks: the size field and the in-use bit of a header word. *)

Lemma land_size_mask x :
  0 <= x < 2 ^ 64 -> Z.land x (wrap (Z.lnot 7)) = 8 * (x / 8).
Proof.
  intros H.
  change (wrap (Z.lnot 7)) with (Z.shiftl (Z.ones 61) 3).
  replace (8 * (x / 8)) with (Z.shiftl (Z.shiftr x 3) 3)
    by (rewrite Z.shiftl_mul_pow2, Z.shiftr_div_pow2 by lia; change (2 ^ 3) with 8; lia).
  apply Z.bits_inj'. intros n Hn.
  rewrite Z.land_spec.
  destruct (Z.ltb_spec n 3).
  - rewrite !Z.shiftl_spec_low by lia. apply andb_false_r.
  - rewrite !Z.shiftl_spec by lia. rewrite Z.shiftr_spec by lia.
    replace (n - 3 + 3) with n by lia.
    destruct (Z.ltb_spec n 64).
    + rewrite Z.ones_spec_low by lia. apply andb_true_r.
    + rewrite Z.ones_spec_high by lia. rewrite andb_false_r.
      symmetry. apply Z.bits_above_log2; [lia |].
      destruct (Z.eq_dec x 0) as [-> | Hx]; [simpl; lia |].
      apply Z.log2_lt_pow2; [lia |].
      apply Z.lt_le_trans with (2 ^ 64); [lia |].
      apply Z.pow_le_mono_r; lia.
Qed.

Lemma land_bit_mask x : Z.land x 1 = x mod 2.
Proof. change 1 with (Z.ones 1) at 1. rewrite Z.land_ones by lia. reflexivity. Qed.


(** *** Reads after writes at the level of states *)

Lemma READ_WRITE_same st p v : READ_DATA (WRITE_DATA st p v) p = wrap v.
Proof. apply load8_store8_same. Qed.

Lemma READ_WRITE_other st p v q :
  q + 8 <= p \/ p + 8 <= q -> READ_DATA (WRITE_DATA st p v) q = READ_DATA st q.
Proof. apply load8_store8_other. Qed.

Lemma READ_DATA_range st p : 0 <= READ_DATA st p < 2 ^ 64.
Proof. apply load8_range. Qed.

Lemma READ_DATA_ext st st' p :
  (forall a, p <= a < p + 8 -> mem st' a = mem st a) ->
  READ_DATA st' p = READ_DATA st p.
Proof. apply load8_ext. Qed.

Lemma mem_WRITE_outside st p v a :
  a < p \/ p + 8 <= a -> mem (WRITE_DATA st p v) a = mem st a.
Proof. apply store8_outside. Qed.

Lemma GET_SIZE_spec st p : GET_SIZE st p = 8 * (READ_DATA st p / 8).
Proof. unfold GET_SIZE. apply land_size_mask, READ_DATA_range. Qed.



Lemma BIT_spec st p : BIT st p = READ_DATA st p mod 2.
Proof. unfold BIT. apply land_bit_mask. Qed.

(** A header word [PACK s b] with [s] a multiple of 8 reads back as
    size [s] and bit [b]. *)
Lemma GET_SIZE_tag st p s b :
  READ_DATA st p = PACK s b -> s mod 8 = 0 -> 0 <= b <= 1 ->
  GET_SIZE st p = s.
Proof. intros H Hs Hb. rewrite GET_SIZE_spec, H. unfold PACK. zlia. Qed.

Lemma BIT_tag st p s b :
  READ_DATA st p = PACK s b -> s mod 8 = 0 -> 0 <= b <= 1 ->
  BIT st p = b.
Proof. intros H Hs Hb. rewrite BIT_spec, H. unfold PACK. zlia. Qed.

Lemma GET_SIZE_ext st st' p :
  (forall a, p <= a < p + 8 -> mem st' a = mem st a) ->
  GET_SIZE st' p = GET_SIZE st p.
Proof. intros H. unfold GET_SIZE. rewrite (READ_DATA_ext st st' p H). reflexivity. Qed.

Lemma BIT_ext st st' p :
  (forall a, p <= a < p + 8 -> mem st' a = mem st a) ->
  BIT st' p = BIT st p.
Proof. intros H. unfold BIT. rewrite (READ_DATA_ext st st' p H). reflexivity. Qed.

(** The two writes that set the boundary tags of a block: header, then
    footer at the place the new header gives. *)
Lemma write_tags st p s b :
  0 <= s < 2 ^ 64 -> s mod 8 = 0 -> 0 <= b <= 1 ->
  let st1 := WRITE_DATA st (HEADER p) (PACK s b) in
  let st2 := WRITE_DATA st1 (FOOTER st1 p) (PACK s b) in
  FOOTER st1 p = p + s - HF_OVERHEAD /\
  READ_DATA st2 (HEADER p) = PACK s b /\
  READ_DATA st2 (p + s - HF_OVERHEAD) = PACK s b /\
  (forall a, ~ (HEADER p <= a < HEADER p + 8) ->
             ~ (p + s - HF_OVERHEAD <= a < p + s - HF_OVERHEAD + 8) ->
             mem st2 a = mem st a).
Proof.
  intros Hs Hm Hb st1 st2.
  assert (Hw : wrap (PACK s b) = PACK s b)
    by (apply wrap_small; unfold PACK; zlia).
  assert (H1 : READ_DATA st1 (HEADER p) = PACK s b)
    by (unfold st1; rewrite READ_WRITE_same; exact Hw).
  assert (Hf : FOOTER st1 p = p + s - HF_OVERHEAD).
  { unfold FOOTER. rewrite (GET_SIZE_tag st1 (HEADER p) s b H1 Hm Hb). reflexivity. }
  split; [exact Hf |]. split; [| split].
  - unfold st2. rewrite Hf.
    destruct (Z.eq_dec s 8) as [-> | Hne].
    + replace (p + 8 - HF_OVERHEAD) with (HEADER p)
        by (unfold HEADER, HF_OVERHEAD, HEADER_SIZE, FOOTER_SIZE; lia).
      rewrite READ_WRITE_same. exact Hw.
    + rewrite READ_WRITE_other; [exact H1 |].
      unfold HEADER, HF_OVERHEAD, HEADER_SIZE, FOOTER_SIZE. zlia.
  - unfold st2. rewrite Hf, READ_WRITE_same. exact Hw.
  - intros a Ha1 Ha2. unfold st2. rewrite Hf.
    rewrite mem_WRITE_outside by lia.
    unfold st1. rewrite mem_WRITE_outside by lia. reflexivity.
Qed.
(** ** Size classes *)

Lemma GET_CLASS_loop_spec n : forall ind s,
  0 <= ind -> ind + Z.of_nat n = 20 ->
  let r := GET_CLASS_loop n ind (64 * 2 ^ ind) s in
  ind <= r <= 20 /\
  (r < 20 -> s < 64 * 2 ^ r) /\
  (forall j, ind <= j < r -> 64 * 2 ^ j <= s).
Proof.
  induction n as [| n IH]; intros ind s Hind Hn; cbn [GET_CLASS_loop].
  - repeat split; intros; lia.
  - destruct (Z.ltb_spec s (64 * 2 ^ ind)) as [Hlt | Hge].
    + repeat split; intros; lia.
    + assert (Hpow : 64 * 2 ^ (ind + 1) = 64 * 2 ^ ind * 2)
        by (rewrite Z.pow_add_r by lia; lia).
      assert (Hle : 2 ^ (ind + 1) <= 2 ^ 20) by (apply Z.pow_le_mono_r; lia).
      assert (Hp : 0 < 2 ^ (ind + 1)) by (apply Z.pow_pos_nonneg; lia).
      rewrite wrap_small by (rewrite <- Hpow; lia).
      rewrite <- Hpow.
      specialize (IH (ind + 1) s ltac:(lia) ltac:(lia)). cbv zeta in IH.
      destruct IH as (Hr & Hup & Hlow).
      repeat split; try lia; try assumption.
      intros j Hj. destruct (Z.eq_dec j ind) as [-> | Hne]; [lia |].
      apply Hlow. lia.
Qed.

Lemma GET_CLASS_range s : 0 <= GET_CLASS s <= 20.
Proof.
  pose proof (GET_CLASS_loop_spec 20 0 s ltac:(lia) ltac:(lia)) as H.
  cbv zeta in H. change (64 * 2 ^ 0) with 64 in H. apply H.
Qed.

(** The class of [s] is at most [k] exactly when [s] is below [64 * 2^k]. *)
Lemma GET_CLASS_le s k :
  0 <= k < 20 -> (GET_CLASS s <= k <-> s < 64 * 2 ^ k).
Proof.
  intros Hk.
  pose proof (GET_CLASS_loop_spec 20 0 s ltac:(lia) ltac:(lia)) as H.
  cbv zeta in H. change (64 * 2 ^ 0) with 64 in H.
  change (GET_CLASS_loop 20 0 64 s) with (GET_CLASS s) in H.
  destruct H as (Hr & Hup & Hlow). split.
  - intros Hle.
    assert (2 ^ GET_CLASS s <= 2 ^ k) by (apply Z.pow_le_mono_r; lia).
    specialize (Hup ltac:(lia)). lia.
  - intros Hs. destruct (Z.le_gt_cases (GET_CLASS s) k) as [| Hgt]; [assumption |].
    specialize (Hlow k ltac:(lia)). lia.
Qed.


Lemma GET_CLASS_coalesce_gate s :
  LIMIT_COALESCE < GET_CLASS s <-> GET_MAX_DIM LIMIT_COALESCE < s.
Proof.
  pose proof (GET_CLASS_le s 2 ltac:(lia)) as H.
  change (GET_MAX_DIM LIMIT_COALESCE) with 255.
  change (64 * 2 ^ 2) with 256 in H. unfold LIMIT_COALESCE. lia.
Qed.

Lemma GET_MAX_DIM_pow c : 0 <= c -> GET_MAX_DIM c = 64 * 2 ^ c - 1.
Proof.
  intros Hc. unfold GET_MAX_DIM.
  rewrite Z.shiftl_1_l, Z.pow_add_r by lia. change (2 ^ 6) with 64. lia.
Qed.

(** C8 (as amended).  For a size below [64 * 2^19] the class is the
    smallest [c] with [64 * 2^c > s]; it lies in [0, 19]; class [0] holds
    the sizes up to [63 = GET_MAX_DIM 0] and class [k] the sizes from
    [64 * 2^(k-1)] up to [64 * 2^k - 1 = GET_MAX_DIM k]. *)
Theorem GET_CLASS_smallest_class (s : Z) :
  0 <= s < 64 * 2 ^ 19 ->
  let c := GET_CLASS s in
  0 <= c <= 19 /\
  s < 64 * 2 ^ c /\
  (forall c', 0 <= c' -> s < 64 * 2 ^ c' -> c <= c') /\
  s <= GET_MAX_DIM c /\
  (c = 0 <-> s <= 63) /\
  (forall k, 1 <= k <= 19 -> (c = k <-> 64 * 2 ^ (k - 1) <= s < 64 * 2 ^ k)).
Proof.
  intros Hs c.
  pose proof (GET_CLASS_range s) as Hr. fold c in Hr.
  assert (Hc19 : c <= 19) by (apply (GET_CLASS_le s 19); lia).
  assert (Hup : s < 64 * 2 ^ c) by (apply (GET_CLASS_le s c); [lia | unfold c; lia]).
  assert (Hmin : forall c', 0 <= c' -> s < 64 * 2 ^ c' -> c <= c').
  { intros c' Hc' Hlt. destruct (Z.le_gt_cases 20 c') as [| Hlt20]; [lia |].
    apply (GET_CLASS_le s c'); [lia | assumption]. }
  assert (Hlow : forall k, 1 <= k <= 19 -> k <= c -> 64 * 2 ^ (k - 1) <= s).
  { intros k Hk Hkc. destruct (Z.le_gt_cases (64 * 2 ^ (k - 1)) s) as [| Hgt]; [assumption |].
    assert (c <= k - 1) by (apply Hmin; lia). lia. }
  split; [lia |]. split; [assumption |]. split; [assumption |].
  split; [rewrite GET_MAX_DIM_pow by lia; lia |]. split.
  - split.
    + intros E. rewrite E in Hup. change (64 * 2 ^ 0) with 64 in Hup. lia.
    + intros Hle. assert (c <= 0) by (apply Hmin; [lia | simpl; lia]). lia.
  - intros k Hk. split.
    + intros E. split.
      * apply Hlow; lia.
      * rewrite <- E. assumption.
    + intros [Hlo Hhi]. assert (c <= k) by (apply Hmin; lia).
      destruct (Z.eq_dec c k) as [| Hne]; [assumption | exfalso].
      assert (2 ^ c <= 2 ^ (k - 1)) by (apply Z.pow_le_mono_r; lia). lia.
Qed.

Lemma GET_CLASS_smallest_class_witness :
  0 <= 100 < 64 * 2 ^ 19 /\ GET_CLASS 100 = 1.
Proof.
  split; [lia |].
  pose proof (GET_CLASS_smallest_class 100 ltac:(lia)) as H. cbv zeta in H.
  destruct H as (_ & _ & _ & _ & _ & Hk).
  apply (Hk 1); lia.
Defined.

(** The classes as the specification words them do not match the macro:
    size [64] is already in class [1], and sizes from [64 * 2^19] on get
    the index [20], which is no table slot. *)
Lemma GET_CLASS_counterexample :
  ~ (GET_CLASS 64 = 0) /\ ~ (0 <= GET_CLASS (64 * 2 ^ 19) <= 19).
Proof. split; vm_compute; intuition congruence. Qed.

(** ** Placement search *)

Lemma next_chain_app st l1 : forall p l2 q,
  next_chain st p (l1 ++ l2) q <->
  exists r, next_chain st p l1 r /\ next_chain st r l2 q.
Proof.
  induction l1 as [| b l1 IH]; intros p l2 q; cbn [app next_chain].
  - split.
    + intros H. exists p. split; [reflexivity | assumption].
    + intros (r & -> & H). assumption.
  - split.
    + intros (-> & Hb & H). apply IH in H. destruct H as (r & H1 & H2).
      exists r. repeat split; assumption.
    + intros (r & (-> & Hb & H1) & H2). repeat split; try assumption.
      apply IH. exists r. split; assumption.
Qed.

Lemma best_fit_loop_fuel_mono fuel : forall fuel' st need rover best r,
  best_fit_loop fuel st need rover best = Some r ->
  (fuel <= fuel')%nat ->
  best_fit_loop fuel' st need rover best = Some r.
Proof.
  induction fuel as [| fuel IH]; intros fuel' st need rover best r H Hle.
  - discriminate.
  - destruct fuel' as [| fuel']; [lia |].
    cbn [best_fit_loop] in *. cbv zeta in *.
    destruct (_ && (GET_SIZE st (HEADER _) =? need)); [assumption |].
    destruct (READ_ADDR st (NEXT rover) =? NULL); [assumption |].
    apply IH; [assumption | lia].
Qed.

(** The scan of a complete list: the result is the candidate kept so
    far or a block of the list, and it is the smallest that fits. *)
Lemma best_fit_loop_spec st need l : forall fuel rover best,
  l <> [] ->
  next_chain st rover l NULL ->
  (best = NULL \/ need <= GET_SIZE st (HEADER best)) ->
  (length l <= fuel)%nat ->
  exists r, best_fit_loop fuel st need rover best = Some r /\
    (r = best \/ In r l) /\
    (r = NULL <->
       best = NULL /\ forall b, In b l -> GET_SIZE st (HEADER b) < need) /\
    (r <> NULL ->
       need <= GET_SIZE st (HEADER r) /\
       (best <> NULL -> GET_SIZE st (HEADER r) <= GET_SIZE st (HEADER best)) /\
       forall b, In b l -> need <= GET_SIZE st (HEADER b) ->
                 GET_SIZE st (HEADER r) <= GET_SIZE st (HEADER b)).
Proof.
  induction l as [| x l IH]; intros fuel rover best Hne Hch Hbest Hfuel;
    [congruence |].
  destruct fuel as [| fuel]; [simpl in Hfuel; lia |].
  cbn [next_chain] in Hch. destruct Hch as (-> & Hx & Hch).
  cbn [best_fit_loop]. cbv zeta.
  set (take := (need <=? GET_SIZE st (HEADER x))
               && ((best =? NULL)
                   || (GET_SIZE st (HEADER x) <? GET_SIZE st (HEADER best)))).
  set (best' := if take then x else best).
  assert (Htake : take = true ->
            need <= GET_SIZE st (HEADER x) /\
            (best = NULL \/ GET_SIZE st (HEADER x) < GET_SIZE st (HEADER best))).
  { unfold take. intros H. apply andb_prop in H. destruct H as [H1 H2].
    apply Z.leb_le in H1. apply orb_prop in H2.
    split; [assumption |]. destruct H2 as [H2 | H2].
    - left. apply Z.eqb_eq in H2. assumption.
    - right. apply Z.ltb_lt in H2. assumption. }
  assert (Hntake : take = false ->
            GET_SIZE st (HEADER x) < need \/
            (best <> NULL /\ GET_SIZE st (HEADER best) <= GET_SIZE st (HEADER x))).
  { unfold take. intros H. apply andb_false_elim in H. destruct H as [H | H].
    - left. apply Z.leb_gt in H. assumption.
    - right. apply orb_false_elim in H. destruct H as [H1 H2].
      apply Z.eqb_neq in H1. apply Z.ltb_ge in H2. split; assumption. }
  assert (Hdone : exists r, Some best' = Some r /\
    (r = best \/ In r [x]) /\
    (r = NULL <->
       best = NULL /\ forall b, In b [x] -> GET_SIZE st (HEADER b) < need) /\
    (r <> NULL ->
       need <= GET_SIZE st (HEADER r) /\
       (best <> NULL -> GET_SIZE st (HEADER r) <= GET_SIZE st (HEADER best)) /\
       forall b, In b [x] -> need <= GET_SIZE st (HEADER b) ->
                 GET_SIZE st (HEADER r) <= GET_SIZE st (HEADER b))).
  { exists best'. split; [reflexivity |]. unfold best'.
    destruct take eqn:Et.
    - destruct (Htake eq_refl) as [H1 H2]. split; [right; left; reflexivity |].
      split.
      + split; [intros E; congruence |].
        intros [_ H]. specialize (H x (or_introl eq_refl)). lia.
      + intros _. split; [assumption |]. split.
        * intros Hb. destruct H2; [congruence | lia].
        * intros b [<- | []] _. lia.
    - destruct (Hntake eq_refl) as [H1 | [H1 H2]].
      + split; [left; reflexivity |]. split.
        * split.
          -- intros E. split; [assumption |]. intros b [<- | []]. assumption.
          -- intros [E _]. assumption.
        * intros Hb. destruct Hbest as [| Hbest]; [congruence |].
          split; [assumption |]. split; [lia |].
          intros b [<- | []] Hfit. lia.
      + split; [left; reflexivity |]. split.
        * split; [intros E; congruence | intros [E _]; congruence].
        * intros Hb. destruct Hbest as [| Hbest]; [congruence |].
          split; [assumption |]. split; [lia |].
          intros b [<- | []] Hfit. lia. }
  destruct (take && (GET_SIZE st (HEADER best') =? need)) eqn:Eexit.
  - (* exact match: the loop is left at once *)
    apply andb_prop in Eexit. destruct Eexit as [Et Eeq].
    destruct (Htake Et) as [H1 H2].
    apply Z.eqb_eq in Eeq. unfold best' in *. rewrite Et in Eeq |- *.
    exists x. split; [reflexivity |]. split; [right; left; reflexivity |].
    split.
    + split; [intros E; congruence |].
      intros [_ H]. specialize (H x (or_introl eq_refl)). lia.
    + intros _. split; [assumption |]. split.
      * intros Hb. destruct H2; [congruence | lia].
      * intros b Hb Hfit. lia.
  - destruct l as [| y l].
    + (* last block of the list *)
      cbn [next_chain] in Hch. rewrite Hch, Z.eqb_refl. exact Hdone.
    + cbn [next_chain] in Hch. destruct Hch as (Ey & Hy & Hch).
      rewrite Ey. destruct (Z.eqb_spec y NULL) as [| _]; [congruence |].
      destruct Hdone as (r0 & Er0 & Hin0 & Hnull0 & Hmin0).
      injection Er0 as <-.
      specialize (IH fuel y best' ltac:(discriminate)).
      destruct IH as (r & Er & Hin & Hnull & Hmin).
      * cbn [next_chain]. repeat split; assumption.
      * destruct (Z.eq_dec best' NULL) as [E | E]; [left; assumption | right].
        apply Hmin0. assumption.
      * simpl in Hfuel |- *. lia.
      * exists r. split; [assumption |]. split.
        { destruct Hin as [-> | Hin].
          - destruct Hin0 as [| [<- | []]]; [left; assumption | right; left; reflexivity].
          - right. right. assumption. }
        split.
        { split.
          - intros E. apply Hnull in E. destruct E as [E1 E2].
            apply Hnull0 in E1. destruct E1 as [E1 E3]. split; [assumption |].
            intros b [<- | Hb]; [apply E3; left; reflexivity | apply E2; assumption].
          - intros [E1 E2]. apply Hnull. split.
            + apply Hnull0. split; [assumption |].
              intros b [<- | []]. apply E2. left. reflexivity.
            + intros b Hb. apply E2. right. assumption. }
        { intros Hr. specialize (Hmin Hr). destruct Hmin as (M1 & M2 & M3).
          split; [assumption |]. split.
          - intros Hb. destruct (Z.eq_dec best' NULL) as [E | E].
            + apply Hnull0 in E. destruct E; congruence.
            + specialize (M2 E). specialize (Hmin0 E).
              destruct Hmin0 as (_ & N2 & _). specialize (N2 Hb). lia.
          - intros b [<- | Hb] Hfit.
            + destruct (Z.eq_dec best' NULL) as [E | E].
              * apply Hnull0 in E. destruct E as [_ E].
                specialize (E x (or_introl eq_refl)). lia.
              * specialize (M2 E). specialize (Hmin0 E).
                destruct Hmin0 as (_ & _ & N3).
                specialize (N3 x (or_introl eq_refl) Hfit). lia.
            + apply M3; assumption. }
Qed.

(** The scan stops at the first block whose size is exactly the size
    asked for: nothing behind that block is read. *)
Lemma best_fit_loop_exact st need b q l1 : forall rover best,
  next_chain st rover (l1 ++ [b]) q ->
  GET_SIZE st (HEADER b) = need ->
  (forall x, In x l1 -> GET_SIZE st (HEADER x) <> need) ->
  (best = NULL \/ need < GET_SIZE st (HEADER best)) ->
  best_fit_loop (S (length l1)) st need rover best = Some b.
Proof.
  induction l1 as [| x l1 IH]; intros rover best Hch Hb Hl1 Hbest.
  - cbn [app next_chain] in Hch. destruct Hch as (-> & Hnn & _).
    cbn [length best_fit_loop]. cbv zeta.
    assert (Et : (need <=? GET_SIZE st (HEADER b))
                 && ((best =? NULL)
                     || (GET_SIZE st (HEADER b) <? GET_SIZE st (HEADER best)))
                 = true).
    { apply andb_true_intro. split; [apply Z.leb_le; lia |].
      apply orb_true_intro. destruct Hbest as [-> | Hlt].
      - left. apply Z.eqb_refl.
      - right. apply Z.ltb_lt. lia. }
    rewrite Et. cbn [andb]. rewrite Hb, Z.eqb_refl. reflexivity.
  - cbn [app next_chain] in Hch. destruct Hch as (-> & Hnn & Hch).
    cbn [length]. cbn [best_fit_loop]. cbv zeta.
    set (take := (need <=? GET_SIZE st (HEADER x))
                 && ((best =? NULL)
                     || (GET_SIZE st (HEADER x) <? GET_SIZE st (HEADER best)))).
    assert (Hx : GET_SIZE st (HEADER x) <> need) by (apply Hl1; left; reflexivity).
    assert (Hbest' : (if take then x else best) = NULL \/
                     need < GET_SIZE st (HEADER (if take then x else best))).
    { destruct take eqn:Et; [| assumption]. right.
      unfold take in Et. apply andb_prop in Et. destruct Et as [Et _].
      apply Z.leb_le in Et. lia. }
    assert (Eexit : take && (GET_SIZE st (HEADER (if take then x else best)) =? need)
                    = false).
    { destruct take; [| reflexivity]. cbn [andb]. apply Z.eqb_neq. assumption. }
    rewrite Eexit.
    assert (Hnext : READ_ADDR st (NEXT x) <> NULL).
    { destruct l1; cbn [app next_chain] in Hch; destruct Hch as (-> & Hn & _);
        assumption. }
    destruct (Z.eqb_spec (READ_ADDR st (NEXT x)) NULL) as [| _]; [contradiction |].
    apply IH; try assumption.
    intros y Hy. apply Hl1. right. assumption.
Qed.

Lemma search_free_list_spec
  (st : state) (class need : Z) (l : list Z) (fuel : nat) :
  0 <= class < CLASSES ->
  next_chain st (READ_ADDR st (LOOKUP_TABLE st class)) l NULL ->
  (length l <= fuel)%nat ->
  exists r, search_free_list fuel st class need = Some r /\
    (r = NULL <-> forall b, In b l -> GET_SIZE st (HEADER b) < need) /\
    (r <> NULL ->
       In r l /\ need <= GET_SIZE st (HEADER r) /\
       forall b, In b l -> need <= GET_SIZE st (HEADER b) ->
                 GET_SIZE st (HEADER r) <= GET_SIZE st (HEADER b)) /\
    (forall l1 b l2, l = l1 ++ b :: l2 ->
       GET_SIZE st (HEADER b) = need ->
       (forall x, In x l1 -> GET_SIZE st (HEADER x) <> need) ->
       r = b /\ search_free_list (S (length l1)) st class need = Some b).
Proof.
  intros Hc Hch Hfuel. unfold search_free_list.
  destruct (Z.ltb_spec class 0) as [| _]; [lia |].
  destruct (Z.leb_spec CLASSES class) as [| _]; [lia |]. cbn [orb].
  destruct l as [| x l].
  - cbn [next_chain] in Hch. rewrite Hch, Z.eqb_refl.
    exists NULL. split; [reflexivity |]. split.
    + split; [intros _ b [] | reflexivity].
    + split; [congruence |]. intros [| ? ?] b l2 E; discriminate.
  - assert (Hhead : READ_ADDR st (LOOKUP_TABLE st class) = x)
      by (cbn [next_chain] in Hch; apply Hch).
    assert (Hx : x <> NULL) by (cbn [next_chain] in Hch; apply Hch).
    rewrite Hhead in *.
    destruct (Z.eqb_spec x NULL) as [| _]; [contradiction |].
    destruct (best_fit_loop_spec st need (x :: l) fuel x NULL
                ltac:(discriminate) Hch (or_introl eq_refl) Hfuel)
      as (r & Er & Hin & Hnull & Hmin).
    exists r. split; [assumption |]. split.
    + split.
      * intros E. apply Hnull. assumption.
      * intros H. apply Hnull. split; [reflexivity | assumption].
    + split.
      * intros Hr. destruct (Hmin Hr) as (M1 & _ & M3).
        destruct Hin as [| Hin]; [contradiction |].
        repeat split; assumption.
      * intros l1 b l2 El Hb Hl1.
        assert (Hpre : next_chain st x (l1 ++ [b]) (READ_ADDR st (NEXT b))).
        { rewrite El in Hch.
          change (b :: l2) with ([b] ++ l2) in Hch. rewrite app_assoc in Hch.
          apply next_chain_app in Hch. destruct Hch as (q & H1 & H2).
          apply next_chain_app. apply next_chain_app in H1.
          destruct H1 as (q1 & H1 & H3). exists q1. split; [assumption |].
          cbn [next_chain] in H3 |- *. destruct H3 as (-> & Hbn & _).
          repeat split; assumption. }
        pose proof (best_fit_loop_exact st need b _ l1 x NULL Hpre Hb Hl1
                      (or_introl eq_refl)) as Hex.
        split; [| assumption].
        assert (Hf : (S (length l1) <= fuel)%nat).
        { rewrite El, length_app in Hfuel. simpl in Hfuel. lia. }
        pose proof (best_fit_loop_fuel_mono _ _ _ _ _ _ _ Hex Hf) as Hex'.
        congruence.
Qed.

Lemma search_free_list_fuel_mono fuel fuel' st class need r :
  search_free_list fuel st class need = Some r ->
  (fuel <= fuel')%nat ->
  search_free_list fuel' st class need = Some r.
Proof.
  unfold search_free_list. intros H Hle.
  destruct (_ || _); [exact H |].
  destruct (_ =? NULL); [exact H |].
  apply (best_fit_loop_fuel_mono fuel); assumption.
Qed.

(** C7.  With the best-fit policy, the search of a class list returns a
    block of the list of minimal size among those that are large enough,
    returns [NULL] exactly when no block of the list is large enough,
    and stops at the first block whose size is exactly the size asked
    for. *)
Theorem search_free_list_best_fit
  (st : state) (class need : Z) (l : list Z) (fuel : nat) :
  0 <= class < CLASSES ->
  next_chain st (READ_ADDR st (LOOKUP_TABLE st class)) l NULL ->
  (length l <= fuel)%nat ->
  exists r, search_free_list fuel st class need = Some r /\
    (r = NULL <-> forall b, In b l -> GET_SIZE st (HEADER b) < need) /\
    (r <> NULL ->
       In r l /\ need <= GET_SIZE st (HEADER r) /\
       forall b, In b l -> need <= GET_SIZE st (HEADER b) ->
                 GET_SIZE st (HEADER r) <= GET_SIZE st (HEADER b)) /\
    (forall l1 b l2, l = l1 ++ b :: l2 ->
       GET_SIZE st (HEADER b) = need ->
       (forall x, In x l1 -> GET_SIZE st (HEADER x) <> need) ->
       r = b /\ search_free_list (S (length l1)) st class need = Some b).
Proof. exact (search_free_list_spec st class need l fuel). Qed.

Lemma search_free_list_best_fit_witness :
  search_free_list 2 heap_three_free 1 96 = Some 4408.
Proof.
  destruct (search_free_list_best_fit heap_three_free 1 96 [4536; 4408; 4296] 3)
    as (r & _ & _ & _ & Hexact).
  - unfold CLASSES. lia.
  - cbn [next_chain]. repeat split; by_compute.
  - simpl. lia.
  - destruct (Hexact [4536] 4408 [4296]) as [_ H].
    + reflexivity.
    + by_compute.
    + intros x [<- | []]. by_compute.
    + exact H.
Defined.

(** ** The coalesce invariant *)

(** C1.  The coalesce invariant does not survive a shrinking resize.
    In a fresh heap two blocks of 1040 bytes are allocated and the
    second one is freed; shrinking the first one to 16 bytes of payload
    splits it, and the free remainder of 1008 bytes is left next to the
    free block of 1040 bytes.  [mm_check] itself reports the pair. *)
Theorem coalesce_invariant_broken_by_shrink :
  fst (mm_init (backing_store 4096 1048576)) = 0 /\
  exec 8 heap_1MiB [Malloc 1024; Malloc 1024; Free 5336]
    = Some heap_before_shrink /\
  mm_check_blocks 8 heap_before_shrink (first_block heap_before_shrink)
    = Some [] /\
  exists st,
    step 8 heap_before_shrink (Realloc 4296 16) = Some (4296, st) /\
    ~ coalesce_invariant st /\
    mm_check_blocks 8 st (first_block st) = Some [EscapedCoalescing 4328 5336].
Proof.
  split; [vm_compute; reflexivity |].
  split; [apply exec_after; vm_compute; reflexivity |].
  split; [vm_compute; reflexivity |].
  assert (F : option_map fst (step 8 heap_before_shrink (Realloc 4296 16))
              = Some 4296) by (vm_compute; reflexivity).
  destruct (step 8 heap_before_shrink (Realloc 4296 16)) as [[p st] |] eqn:E;
    [| discriminate].
  injection F as ->. exists st. split; [reflexivity |].
  assert (Hst : st = after 8 heap_before_shrink [Realloc 4296 16])
    by (unfold after; cbn [exec]; rewrite E; reflexivity).
  split.
  - intros Hinv.
    assert (H1 : heap_block st 4264)
      by (apply hb_first; rewrite Hst; by_compute).
    assert (H2 : heap_block st 4296)
      by (apply (hb_right st 4264); [assumption | | ]; rewrite Hst; by_compute).
    assert (H3 : heap_block st 4328)
      by (apply (hb_right st 4296); [assumption | | ]; rewrite Hst; by_compute).
    apply (Hinv 4328 H3).
    + rewrite Hst. by_compute.
    + rewrite Hst. split; by_compute.
  - rewrite Hst. vm_compute. reflexivity.
Qed.

(** ** Failure of the fallback allocation in [mm_realloc] *)

Lemma mm_malloc_NULL_unchanged fuel st size st' :
  0 < mem_brk st ->
  mm_malloc fuel st size = Some (NULL, st') -> st' = st.
Proof.
  intros Hbrk H. unfold mm_malloc in H.
  destruct (size <=? 0); [congruence |].
  destruct (mm_malloc_search _ _ _ _ _) as [[ptr class] |]; [| discriminate].
  destruct (Z.eqb_spec ptr NULL) as [Ep | Ep]; cbn [negb] in H.
  - unfold mm_malloc_grow, mem_sbrk in H.
    destruct (mem_max_addr st <? mem_brk st + _).
    + rewrite Z.eqb_refl in H. congruence.
    + destruct (Z.eqb_spec (mem_brk st) NULL) as [E0 | Hne];
        [unfold NULL in E0; lia |].
      injection H as H _. unfold HEADER_SIZE, NULL in *. lia.
  - unfold mm_malloc_place in H.
    destruct (_ <=? MBS); injection H as H _; contradiction.
Qed.

(** C2.  When a block has to grow, the blocks on its right do not give
    enough room and the fallback [mm_malloc] returns [NULL], then
    [mm_realloc] returns [NULL] and the state it leaves is the state it
    was called in: memory (headers, footers, payloads, lists and table) and
    the last-block pointer are untouched. *)
Theorem mm_realloc_failed_fallback_unchanged
  (fuel : nat) (st st1 : state) (ptr size : Z) :
  let block_size := GET_SIZE st (HEADER ptr) in
  let newsize :=
    if ALIGN (size + HF_OVERHEAD) <? MBS then MBS
    else ALIGN (size + HF_OVERHEAD) in
  0 < mem_brk st ->
  ptr <> NULL -> 0 < size ->
  block_size < newsize ->
  simulate_right_coalesce fuel st ptr (wrap (newsize - block_size)) = Some false ->
  mm_malloc fuel st newsize = Some (NULL, st1) ->
  mm_realloc fuel st ptr size = Some (NULL, st).
Proof.
  intros block_size newsize Hbrk Hptr Hsize Hgrow Hsim Hmalloc.
  pose proof (mm_malloc_NULL_unchanged _ _ _ _ Hbrk Hmalloc) as ->.
  unfold mm_realloc.
  destruct (Z.eqb_spec ptr NULL) as [| _]; [contradiction |].
  destruct (Z.eqb_spec size 0) as [| _]; [lia |].
  destruct (Z.ltb_spec 0 size) as [_ |]; [| lia].
  cbn [andb negb]. fold newsize. fold block_size.
  destruct (Z.eqb_spec newsize block_size) as [| _]; [lia |].
  destruct (Z.ltb_spec block_size newsize) as [_ |]; [| lia].
  rewrite Hsim, Hmalloc, Z.eqb_refl. reflexivity.
Qed.

Lemma mm_realloc_failed_fallback_unchanged_witness :
  mm_realloc 8 heap_full 4264 100 = Some (NULL, heap_full).
Proof.
  assert (F : option_map fst (mm_malloc 8 heap_full 120) = Some NULL)
    by (vm_compute; reflexivity).
  destruct (mm_malloc 8 heap_full 120) as [[p st1] |] eqn:E; [| discriminate].
  injection F as ->.
  apply (mm_realloc_failed_fallback_unchanged 8 heap_full st1 4264 100).
  - by_compute.
  - discriminate.
  - reflexivity.
  - by_compute.
  - by_compute.
  - exact E.
Defined.

(** ** The integrity checker *)

Lemma mm_check_state fuel st r st' :
  mm_check fuel st = Some (r, st') -> st' = st.
Proof.
  unfold mm_check. intros H.
  destruct (mm_check_blocks fuel st (first_block st)); [| discriminate].
  destruct (mm_check_classes _ fuel st 0); [| discriminate].
  congruence.
Qed.

(** C9.  The checker leaves the state as it is, but it does not visit
    every block of every class list.  The head of a list is never
    tested: in [heap_used_on_list] the block [4296] is in use and is the
    head of the class 1 list, and nothing is reported.  The scan of the
    table stops at the first empty class: the used block [4296] behind
    the head of the class 1 list is reported when class 0 has a block
    and is missed when class 0 is empty. *)
Theorem mm_check_misses_listed_used_blocks :
  (forall fuel st r st', mm_check fuel st = Some (r, st') -> st' = st) /\
  (let st := heap_used_on_list in
   READ_ADDR st (LOOKUP_TABLE st 1) = 4296 /\
   BIT st (HEADER 4296) = 1 /\
   option_map fst (mm_check 8 st) = Some []) /\
  (let st := heap_used_behind_head in
   READ_ADDR st (LOOKUP_TABLE st 0) = 4264 /\
   READ_ADDR st (LOOKUP_TABLE st 1) = 4456 /\
   READ_ADDR st (NEXT 4456) = 4296 /\
   BIT st (HEADER 4296) = 1 /\
   option_map fst (mm_check 8 st) = Some [NotMarkedFree 4296]) /\
  (let st := heap_used_behind_head_after_empty_class in
   READ_ADDR st (LOOKUP_TABLE st 0) = NULL /\
   READ_ADDR st (LOOKUP_TABLE st 1) = 4456 /\
   READ_ADDR st (NEXT 4456) = 4296 /\
   BIT st (HEADER 4296) = 1 /\
   option_map fst (mm_check 8 st) = Some []).
Proof.
  split; [exact mm_check_state |].
  cbv zeta. repeat split; by_compute.
Qed.

(** ** Class indices outside the table *)





(** ** Blocks in address order *)

Lemma tiles_app l1 : forall p l2 e,
  tiles p (l1 ++ l2) e <-> tiles p l1 (p + total_size l1) /\ tiles (p + total_size l1) l2 e.
Proof.
  induction l1 as [| b l1 IH]; intros p l2 e; cbn [app tiles total_size fold_right].
  - rewrite Z.add_0_r. tauto.
  - fold (total_size l1). rewrite IH.
    replace (p + b_size b + total_size l1) with (p + (b_size b + total_size l1)) by lia.
    tauto.
Qed.

Lemma tiles_end bs : forall p e, tiles p bs e -> e = p + total_size bs.
Proof.
  induction bs as [| b bs IH]; intros p e H; cbn [tiles total_size fold_right] in *.
  - lia.
  - destruct H as [_ H]. apply IH in H. fold (total_size bs). lia.
Qed.

Lemma total_size_app l1 l2 : total_size (l1 ++ l2) = total_size l1 + total_size l2.
Proof.
  induction l1 as [| b l1 IH]; cbn [app total_size fold_right]; [reflexivity |].
  fold (total_size (l1 ++ l2)). fold (total_size l1). lia.
Qed.

Lemma total_size_nonneg bs :
  Forall (fun b => 0 < b_size b) bs -> 0 <= total_size bs.
Proof.
  induction 1 as [| b bs Hb _ IH]; cbn [total_size fold_right]; [lia |].
  fold (total_size bs). lia.
Qed.

Lemma tiles_bounds bs : forall p e b,
  tiles p bs e -> Forall (fun b => 0 < b_size b) bs -> In b bs ->
  p <= b_ptr b /\ b_ptr b + b_size b <= e.
Proof.
  induction bs as [| x bs IH]; intros p e b Ht Hpos Hin; [contradiction |].
  cbn [tiles] in Ht. destruct Ht as [Hx Ht].
  inversion Hpos as [| ? ? Hx0 Hpos']; subst.
  pose proof (tiles_end _ _ _ Ht) as He.
  pose proof (total_size_nonneg _ Hpos') as Hnn.
  destruct Hin as [<- | Hin].
  - lia.
  - specialize (IH _ _ _ Ht Hpos' Hin). lia.
Qed.

(** Around a block of the heap: what lies before ends at it, what lies
    behind starts after it. *)
Lemma tiles_middle l1 b l2 p e :
  tiles p (l1 ++ b :: l2) e ->
  Forall (fun b => 0 < b_size b) (l1 ++ b :: l2) ->
  tiles p l1 (b_ptr b) /\
  tiles (b_ptr b + b_size b) l2 e /\
  (forall x, In x l1 -> p <= b_ptr x /\ b_ptr x + b_size x <= b_ptr b) /\
  (forall x, In x l2 -> b_ptr b + b_size b <= b_ptr x /\ b_ptr x + b_size x <= e).
Proof.
  intros Ht Hpos. apply tiles_app in Ht. destruct Ht as [H1 H2].
  cbn [tiles] in H2. destruct H2 as [Hb H2]. rewrite <- Hb in H1.
  apply Forall_app in Hpos. destruct Hpos as [Hp1 Hp2].
  inversion Hp2 as [| ? ? Hb0 Hp2']; subst.
  rewrite <- Hb in H2.
  repeat split; try assumption.
  - apply (tiles_bounds _ _ _ _ H1 Hp1 H).
  - apply (tiles_bounds _ _ _ _ H1 Hp1 H).
  - apply (tiles_bounds _ _ _ _ H2 Hp2' H).
  - apply (tiles_bounds _ _ _ _ H2 Hp2' H).
Qed.

Lemma tiles_disjoint bs p e b1 b2 :
  tiles p bs e -> Forall (fun b => 0 < b_size b) bs ->
  In b1 bs -> In b2 bs ->
  b1 = b2 \/ b_ptr b1 + b_size b1 <= b_ptr b2 \/ b_ptr b2 + b_size b2 <= b_ptr b1.
Proof.
  intros Ht Hpos H1 H2.
  destruct (in_split _ _ H1) as (l1 & l2 & E). subst bs.
  destruct (tiles_middle _ _ _ _ _ Ht Hpos) as (_ & _ & Hl & Hr).
  apply in_app_or in H2. destruct H2 as [H2 | [H2 | H2]].
  - right. right. apply Hl. assumption.
  - left. assumption.
  - right. left. apply Hr. assumption.
Qed.

(** *** Consequences of [heap_layout] *)

Lemma block_ok_pos st bs :
  Forall (block_ok st) bs -> Forall (fun b => 0 < b_size b) bs.
Proof.
  apply Forall_impl. intros b (H & _). change MBS with 32 in H. lia.
Qed.

Lemma layout_block st bs b :
  heap_layout st bs -> In b bs ->
  block_ok st b /\
  first_block st <= b_ptr b /\ b_ptr b + b_size b <= mem_brk st + HEADER_SIZE /\
  32 <= b_size b < 2 ^ 64.
Proof.
  intros (HT & Hfb & Hbrk & Ht & _ & Hok) Hin.
  pose proof (proj1 (Forall_forall _ _) Hok b Hin) as Hb.
  pose proof (tiles_bounds _ _ _ _ Ht (block_ok_pos _ _ Hok) Hin) as Hbd.
  destruct Hb as (H1 & H2 & H3 & H4).
  unfold LOOKUP_TABLE_SIZE, CLASSES, ADDRESS_SIZE, HEADER_SIZE in *.
  change MBS with 32 in H1.
  repeat split; try assumption; lia.
Qed.

Lemma layout_ptr_inj st bs b1 b2 :
  heap_layout st bs -> In b1 bs -> In b2 bs -> b_ptr b1 = b_ptr b2 -> b1 = b2.
Proof.
  intros HL H1 H2 E.
  destruct HL as (_ & _ & _ & Ht & _ & Hok).
  pose proof (block_ok_pos _ _ Hok) as Hpos.
  destruct (tiles_disjoint _ _ _ _ _ Ht Hpos H1 H2) as [| [H | H]]; [assumption | |].
  - pose proof (proj1 (Forall_forall _ _) Hpos b1 H1). cbv beta in *. lia.
  - pose proof (proj1 (Forall_forall _ _) Hpos b2 H2). cbv beta in *. lia.
Qed.

Lemma layout_disjoint st bs b1 b2 :
  heap_layout st bs -> In b1 bs -> In b2 bs ->
  b1 = b2 \/ b_ptr b1 + b_size b1 <= b_ptr b2 \/ b_ptr b2 + b_size b2 <= b_ptr b1.
Proof.
  intros (_ & _ & _ & Ht & _ & Hok). apply (tiles_disjoint _ _ _ _ _ Ht).
  apply (block_ok_pos _ _ Hok).
Qed.

Lemma block_size_read st b :
  block_ok st b -> GET_SIZE st (HEADER (b_ptr b)) = b_size b.
Proof.
  intros (_ & Hm & Hh & _).
  apply (GET_SIZE_tag _ _ _ _ Hh Hm). destruct (b_used b); lia.
Qed.

Lemma block_bit_read st b :
  block_ok st b -> BIT st (HEADER (b_ptr b)) = if b_used b then 1 else 0.
Proof.
  intros (_ & Hm & Hh & _).
  apply (BIT_tag _ _ _ _ Hh Hm). destruct (b_used b); lia.
Qed.

Lemma block_footer_size_read st b :
  block_ok st b -> GET_SIZE st (b_ptr b + b_size b - HF_OVERHEAD) = b_size b.
Proof.
  intros (_ & Hm & _ & Hf).
  apply (GET_SIZE_tag _ _ _ _ Hf Hm). destruct (b_used b); lia.
Qed.

(** *** Walking the heap with the boundary tags *)

Lemma layout_in st bs l1 b l2 :
  heap_layout st bs -> bs = l1 ++ b :: l2 -> block_ok st b.
Proof.
  intros HL E. apply (layout_block st bs b HL). rewrite E.
  apply in_or_app. right. left. reflexivity.
Qed.

Lemma layout_RIGHT st bs l1 b b' l2 :
  heap_layout st bs -> bs = l1 ++ b :: b' :: l2 ->
  RIGHT st (b_ptr b) = b_ptr b'.
Proof.
  intros HL E. unfold RIGHT.
  rewrite (block_size_read st b (layout_in _ _ _ _ _ HL E)).
  destruct HL as (_ & _ & _ & Ht & _ & _). rewrite E in Ht.
  apply tiles_app in Ht. destruct Ht as [_ Ht].
  cbn [tiles] in Ht. destruct Ht as (Hb & Hb' & _). lia.
Qed.

Lemma layout_LEFT st bs l1 b b' l2 :
  heap_layout st bs -> bs = l1 ++ b :: b' :: l2 ->
  LEFT st (b_ptr b') = b_ptr b.
Proof.
  intros HL E. unfold LEFT.
  assert (Hb' : b_ptr b' = b_ptr b + b_size b).
  { destruct HL as (_ & _ & _ & Ht & _ & _). rewrite E in Ht.
    apply tiles_app in Ht. destruct Ht as [_ Ht].
    cbn [tiles] in Ht. destruct Ht as (Hb & Hb' & _). lia. }
  rewrite Hb'.
  replace (b_ptr b + b_size b - HF_OVERHEAD)
    with (b_ptr b + b_size b - HF_OVERHEAD) by reflexivity.
  rewrite (block_footer_size_read st b (layout_in _ _ _ _ _ HL E)). lia.
Qed.

Lemma layout_last st bs l1 b l2 :
  heap_layout st bs -> bs = l1 ++ b :: l2 ->
  (b_ptr b = end_heap st <-> l2 = []).
Proof.
  intros HL E.
  pose proof HL as (_ & _ & _ & Ht & (bs0 & z & Ez & Hz) & Hok).
  split.
  - intros Hb.
    assert (Ebz : b = z).
    { apply (layout_ptr_inj st bs); try assumption.
      - rewrite E. apply in_or_app. right. left. reflexivity.
      - rewrite Ez. apply in_or_app. right. left. reflexivity.
      - congruence. }
    subst z. destruct l2 as [| y l2]; [reflexivity | exfalso].
    pose proof (block_ok_pos _ _ Hok) as Hpos.
    rewrite E in Ht, Hpos.
    destruct (tiles_middle _ _ _ _ _ Ht Hpos) as (_ & Ht2 & _ & Hr).
    pose proof (tiles_end _ _ _ Ht) as He1.
    assert (E2 : total_size (l1 ++ b :: y :: l2) = total_size (bs0 ++ [b]))
      by (rewrite <- E, <- Ez; reflexivity).
    rewrite !total_size_app in E2. cbn [total_size fold_right] in E2.
    fold (total_size l2) in E2.
    (* the prefixes before [b] have the same size *)
    assert (Hp1 : b_ptr b = first_block st + total_size l1).
    { apply tiles_app in Ht. destruct Ht as [_ Ht]. cbn [tiles] in Ht. apply Ht. }
    assert (Hp2 : b_ptr b = first_block st + total_size bs0).
    { destruct HL as (_ & _ & _ & Ht' & _ & _). rewrite Ez in Ht'.
      apply tiles_app in Ht'. destruct Ht' as [_ Ht']. cbn [tiles] in Ht'. apply Ht'. }
    apply Forall_app in Hpos. destruct Hpos as [_ Hpos].
    inversion Hpos as [| ? ? _ Hpos']; subst.
    inversion Hpos' as [| ? ? Hy Hpos'']; subst.
    pose proof (total_size_nonneg _ Hpos''). lia.
  - intros ->.
    assert (Eq : l1 = bs0 /\ b = z).
    { rewrite E in Ez. apply app_inj_tail in Ez. exact Ez. }
    destruct Eq as [_ ->]. exact Hz.
Qed.

Lemma layout_first st bs l1 b l2 :
  heap_layout st bs -> bs = l1 ++ b :: l2 ->
  (b_ptr b = first_block st <-> l1 = []).
Proof.
  intros HL E.
  pose proof HL as (_ & _ & _ & Ht & _ & Hok).
  pose proof (block_ok_pos _ _ Hok) as Hpos.
  rewrite E in Ht, Hpos. split.
  - intros Hb. destruct l1 as [| x l1]; [reflexivity | exfalso].
    destruct (tiles_middle _ _ _ _ _ Ht Hpos) as (_ & _ & Hl & _).
    specialize (Hl x (or_introl eq_refl)).
    apply Forall_app in Hpos. destruct Hpos as [Hpos _].
    inversion Hpos as [| ? ? Hx _]; subst. lia.
  - intros ->. cbn [app tiles] in Ht. apply Ht.
Qed.

(** *** Frames *)

Lemma block_ok_frame st st' b :
  block_ok st b ->
  (forall a, HEADER (b_ptr b) <= a < HEADER (b_ptr b) + 8 -> mem st' a = mem st a) ->
  (forall a, b_ptr b + b_size b - HF_OVERHEAD <= a < b_ptr b + b_size b - HF_OVERHEAD + 8 ->
             mem st' a = mem st a) ->
  block_ok st' b.
Proof.
  intros (H1 & H2 & H3 & H4) Hh Hf. repeat split; try assumption.
  - rewrite (READ_DATA_ext st st' _ Hh). assumption.
  - rewrite (READ_DATA_ext st st' _ Hf). assumption.
Qed.

Lemma dll_frame st st' l : forall prev nxt,
  dll st prev l nxt ->
  (forall q a, In q l -> q <= a < q + 16 -> mem st' a = mem st a) ->
  dll st' prev l nxt.
Proof.
  induction l as [| q l IH]; intros prev nxt H Hfr; cbn [dll] in *; [exact I |].
  destruct H as (Hp & Hn & H). split; [| split].
  - unfold READ_ADDR, PREV in *. rewrite <- Hp. apply load8_ext.
    intros a Ha. apply (Hfr q); [left; reflexivity | lia].
  - unfold READ_ADDR, NEXT, ADDRESS_SIZE in *. rewrite <- Hn. apply load8_ext.
    intros a Ha. apply (Hfr q); [left; reflexivity | lia].
  - apply IH; [assumption |]. intros x a Hx. apply Hfr. right. assumption.
Qed.

Lemma last_cons (l : list Z) : forall d q, last (q :: l) d = last l q.
Proof.
  induction l as [| x l IH]; intros d q; [reflexivity |].
  change (last (q :: x :: l) d) with (last (x :: l) d).
  rewrite (IH d x), (IH q x). reflexivity.
Qed.

Lemma dll_app st l1 : forall prev l2 nxt,
  dll st prev (l1 ++ l2) nxt <->
  dll st prev l1 (hd nxt l2) /\ dll st (last l1 prev) l2 nxt.
Proof.
  induction l1 as [| q l1 IH]; intros prev l2 nxt.
  - cbn [app dll last]. tauto.
  - cbn [app dll]. rewrite IH.
    assert (E1 : hd nxt (l1 ++ l2) = hd (hd nxt l2) l1) by (destruct l1; reflexivity).
    rewrite E1, last_cons. tauto.
Qed.

(** ** The doubly-linked class lists *)

Lemma READ_ADDR_WRITE_same st p v : READ_ADDR (WRITE_ADDR st p v) p = wrap v.
Proof. apply load8_store8_same. Qed.

Lemma READ_ADDR_WRITE_other st p v q :
  q + 8 <= p \/ p + 8 <= q -> READ_ADDR (WRITE_ADDR st p v) q = READ_ADDR st q.
Proof. apply load8_store8_other. Qed.

Lemma READ_ADDR_range st p : 0 <= READ_ADDR st p < 2 ^ 64.
Proof. apply load8_range. Qed.

Lemma mem_WRITE_ADDR_outside st p v a :
  a < p \/ p + 8 <= a -> mem (WRITE_ADDR st p v) a = mem st a.
Proof. apply store8_outside. Qed.

Lemma hd_app_nonempty (l1 l2 : list Z) d :
  l1 <> [] -> hd d (l1 ++ l2) = hd d l1.
Proof. destruct l1; [congruence | reflexivity]. Qed.

Lemma hd_app_hd (l1 l2 : list Z) d : hd d (l1 ++ l2) = hd (hd d l2) l1.
Proof. destruct l1; reflexivity. Qed.

Lemma hd_in (l : list Z) d : l <> [] -> In (hd d l) l.
Proof. destruct l; [congruence | left; reflexivity]. Qed.

Lemma last_in (l : list Z) d : l <> [] -> In (last l d) l.
Proof.
  induction l as [| x l IH]; [congruence |]. intros _.
  destruct l as [| y l]; [left; reflexivity |].
  right. apply IH. discriminate.
Qed.

(** [remove_from_free_list] as two updates: the successor of the
    predecessor (or the head slot), then the predecessor of the
    successor. *)
Lemma remove_from_free_list_eq st c q pv nx :
  let slot := LOOKUP_TABLE st c in
  READ_ADDR st slot <> NULL -> q <> NULL ->
  READ_ADDR st (PREV q) = pv -> READ_ADDR st (NEXT q) = nx ->
  let st1 :=
    if pv =? NULL then WRITE_ADDR st slot nx else WRITE_ADDR st (NEXT pv) nx in
  READ_ADDR st1 (PREV q) = pv -> READ_ADDR st1 (NEXT q) = nx ->
  remove_from_free_list st c q =
  (if nx =? NULL then st1 else WRITE_ADDR st1 (PREV nx) pv).
Proof.
  intros slot Hhead Hq Hpv Hnx st1 Hpv1 Hnx1.
  unfold remove_from_free_list. fold slot.
  destruct (Z.eqb_spec (READ_ADDR st slot) NULL) as [| _]; [contradiction |].
  destruct (Z.eqb_spec q NULL) as [| _]; [contradiction |].
  cbn [orb]. rewrite Hpv, Hnx.
  destruct (Z.eqb_spec pv NULL) as [Ep | Ep];
    destruct (Z.eqb_spec nx NULL) as [En | En]; cbn [andb negb].
  - unfold st1. rewrite En. reflexivity.
  - fold st1. rewrite Hnx1, Hpv1.
    destruct (Z.eqb_spec nx NULL) as [| _]; [contradiction | reflexivity].
  - fold st1. rewrite Hnx1.
    destruct (Z.eqb_spec nx NULL) as [_ |]; [reflexivity | contradiction].
  - fold st1. rewrite Hnx1, Hpv1.
    destruct (Z.eqb_spec nx NULL) as [| _]; [contradiction | reflexivity].
Qed.

Section RemoveOne.
Variables (st : state) (c : Z) (l1 l2 : list Z) (q : Z).
Let slot := LOOKUP_TABLE st c.
Let l := l1 ++ q :: l2.
Let pv := last l1 NULL.
Let nx := hd NULL l2.
Hypothesis Hhead : READ_ADDR st slot = hd NULL l.
Hypothesis Hdll : dll st NULL l NULL.
Hypothesis Hnd : NoDup l.
Hypothesis Hpos :
  forall x, In x l -> 0 < x /\ (x + 16 <= slot \/ slot + 8 <= x).
Hypothesis Hsep : forall x y, In x l -> In y l -> x = y \/ sep16 x y.

Let st1 :=
  if pv =? NULL then WRITE_ADDR st slot nx else WRITE_ADDR st (NEXT pv) nx.
Let st' := if nx =? NULL then st1 else WRITE_ADDR st1 (PREV nx) pv.

Local Lemma in_l1 x : In x l1 -> In x l.
Proof. intros H. apply in_or_app. left. exact H. Qed.

Local Lemma in_l2 x : In x l2 -> In x l.
Proof. intros H. apply in_or_app. right. right. exact H. Qed.

Local Lemma in_q : In q l.
Proof. apply in_or_app. right. left. reflexivity. Qed.

Local Lemma l1_not_q x : In x l1 -> x <> q.
Proof.
  intros H ->. unfold l in Hnd. apply NoDup_remove_2 in Hnd.
  apply Hnd. apply in_or_app. left. exact H.
Qed.

Local Lemma l2_not_q x : In x l2 -> x <> q.
Proof.
  intros H ->. unfold l in Hnd. apply NoDup_remove_2 in Hnd.
  apply Hnd. apply in_or_app. right. exact H.
Qed.

Local Lemma l1_not_l2 x y : In x l1 -> In y l2 -> x <> y.
Proof.
  intros Hx Hy ->. unfold l in Hnd.
  apply NoDup_remove_1 in Hnd.
  revert Hnd Hx Hy. clear. induction l1 as [| z l1' IH]; intros Hnd Hx Hy.
  - contradiction.
  - cbn [app] in Hnd. inversion Hnd as [| ? ? Hz Hnd']; subst.
    destruct Hx as [-> | Hx].
    + apply Hz. apply in_or_app. right. exact Hy.
    + apply IH; assumption.
Qed.

Local Lemma dll_parts :
  dll st NULL l1 q /\ READ_ADDR st (PREV q) = pv /\
  READ_ADDR st (NEXT q) = nx /\ dll st q l2 NULL.
Proof.
  unfold l in Hdll. apply dll_app in Hdll. cbn [hd dll] in Hdll.
  destruct Hdll as (H1 & H2 & H3 & H4). repeat split; assumption.
Qed.

Local Lemma pv_cases :
  (l1 = [] /\ pv = NULL) \/
  (exists l1', l1 = l1' ++ [pv] /\ pv <> NULL /\ In pv l1).
Proof.
  destruct l1 as [| x l1'] eqn:E; [left; split; reflexivity | right].
  assert (Hne : x :: l1' <> []) by discriminate.
  destruct (exists_last Hne) as (l0 & z & Ez).
  assert (Hz : pv = z) by (unfold pv; rewrite Ez; apply last_last).
  exists l0. rewrite Hz. split; [exact Ez |].
  assert (Hin : In z (x :: l1')) by (rewrite Ez; apply in_or_app; right; left; reflexivity).
  split; [| exact Hin].
  assert (In z l) by (unfold l; apply in_or_app; left; exact Hin).
  destruct (Hpos z H) as [Hz0 _]. unfold NULL. lia.
Qed.

Local Lemma nx_cases :
  (l2 = [] /\ nx = NULL) \/
  (exists l2', l2 = nx :: l2' /\ nx <> NULL /\ In nx l2).
Proof.
  destruct l2 as [| x l2'] eqn:E; [left; split; reflexivity | right].
  exists l2'. cbn [nx hd]. split; [reflexivity |].
  split; [| left; reflexivity].
  assert (In x l) by (unfold l; apply in_or_app; right; right; left; reflexivity).
  destruct (Hpos x H) as [Hz0 _]. unfold NULL. lia.
Qed.

Local Lemma nx_range : wrap nx = nx.
Proof.
  destruct dll_parts as (_ & _ & H & _). rewrite <- H.
  apply wrap_small, READ_ADDR_range.
Qed.

Local Lemma pv_range : wrap pv = pv.
Proof.
  destruct dll_parts as (_ & H & _). rewrite <- H.
  apply wrap_small, READ_ADDR_range.
Qed.

(** The first update leaves all link words alone, except the
    successor of [pv]. *)
Local Lemma st1_frame a :
  ~ (slot <= a < slot + 8) ->
  (pv <> NULL -> ~ (pv + 8 <= a < pv + 16)) ->
  mem st1 a = mem st a.
Proof.
  intros Hs Hp. unfold st1.
  destruct (Z.eqb_spec pv NULL) as [E | E].
  - apply mem_WRITE_ADDR_outside. lia.
  - apply mem_WRITE_ADDR_outside. specialize (Hp E).
    unfold NEXT, ADDRESS_SIZE. lia.
Qed.

Local Lemma st1_node x a :
  In x l -> x <> pv -> x <= a < x + 16 -> mem st1 a = mem st a.
Proof.
  intros Hx Hne Ha. apply st1_frame.
  - destruct (Hpos x Hx) as [_ H]. lia.
  - intros Hpv. destruct pv_cases as [[_ E] | (l1' & _ & _ & Hin)]; [contradiction |].
    destruct (Hsep x pv Hx (in_l1 _ Hin)) as [| H]; [contradiction |].
    unfold sep16 in H. lia.
Qed.

Local Lemma st1_q :
  READ_ADDR st1 (PREV q) = pv /\ READ_ADDR st1 (NEXT q) = nx.
Proof.
  destruct dll_parts as (_ & Hp & Hn & _).
  assert (Hq : q <> pv).
  { intros E. destruct pv_cases as [[_ E0] | (l1' & _ & _ & Hin)].
    - destruct (Hpos q in_q) as [H _]. unfold NULL in *. lia.
    - apply (l1_not_q pv Hin). congruence. }
  split.
  - rewrite <- Hp. apply load8_ext. intros a Ha.
    apply (st1_node q a in_q Hq). unfold PREV in Ha. lia.
  - rewrite <- Hn. apply load8_ext. intros a Ha.
    apply (st1_node q a in_q Hq). unfold NEXT, ADDRESS_SIZE in Ha. lia.
Qed.

Local Lemma st1_head : READ_ADDR st1 slot = hd nx l1.
Proof.
  destruct pv_cases as [[E Ep] | (l1' & E & Hne & Hin)].
  - unfold st1. rewrite Ep, Z.eqb_refl, READ_ADDR_WRITE_same, E.
    apply nx_range.
  - unfold st1. destruct (Z.eqb_spec pv NULL) as [| _]; [contradiction |].
    rewrite READ_ADDR_WRITE_other.
    + rewrite Hhead. unfold l.
      assert (Hl1 : l1 <> []) by (rewrite E; destruct l1'; discriminate).
      rewrite hd_app_nonempty by exact Hl1. destruct l1; [congruence | reflexivity].
    + destruct (Hpos pv (in_l1 _ Hin)) as [_ H].
      unfold NEXT, ADDRESS_SIZE. lia.
Qed.

Local Lemma st1_left : dll st1 NULL l1 nx.
Proof.
  destruct dll_parts as (H1 & _).
  destruct pv_cases as [[E Ep] | (l1' & E & Hne & Hin)].
  - rewrite E. exact I.
  - rewrite E in H1 |- *. apply dll_app in H1. apply dll_app.
    cbn [hd dll] in H1 |- *. destruct H1 as (Ha & Hb & Hc & _).
    split; [| split; [| split; [| exact I]]].
    + apply (dll_frame st); [exact Ha |].
      intros x a Hx Hax. apply (st1_node x a); [| | exact Hax].
      * apply in_l1. rewrite E. apply in_or_app. left. exact Hx.
      * intros ->. pose proof Hnd as Hnd'. unfold l in Hnd'. rewrite E in Hnd'.
        rewrite <- app_assoc in Hnd'. apply NoDup_remove_2 in Hnd'.
        apply Hnd'. apply in_or_app. left. exact Hx.
    + rewrite <- Hb. apply load8_ext. intros a Ha'. apply st1_frame.
      * destruct (Hpos pv (in_l1 _ Hin)) as [_ H]. unfold PREV in Ha'. lia.
      * intros _. unfold PREV in Ha'. lia.
    + unfold st1. destruct (Z.eqb_spec pv NULL) as [| _]; [contradiction |].
      rewrite READ_ADDR_WRITE_same. apply nx_range.
Qed.

Local Lemma st1_right : dll st1 q l2 NULL.
Proof.
  destruct dll_parts as (_ & _ & _ & H).
  apply (dll_frame st); [exact H |].
  intros x a Hx Hax. apply (st1_node x a (in_l2 _ Hx)); [| exact Hax].
  intros ->. destruct pv_cases as [[_ Ep] | (l1' & _ & _ & Hin)].
  - destruct (Hpos pv (in_l2 _ Hx)) as [H0 _]. unfold NULL in *. lia.
  - apply (l1_not_l2 pv pv Hin Hx). reflexivity.
Qed.

Local Lemma st'_frame a :
  (nx <> NULL -> ~ (nx <= a < nx + 8)) -> mem st' a = mem st1 a.
Proof.
  intros H. unfold st'. destruct (Z.eqb_spec nx NULL) as [| E]; [reflexivity |].
  apply mem_WRITE_ADDR_outside. specialize (H E). unfold PREV. lia.
Qed.

Local Lemma st'_node x a :
  In x l -> x <> nx -> x <= a < x + 16 -> mem st' a = mem st1 a.
Proof.
  intros Hx Hne Ha. apply st'_frame. intros Hn.
  destruct nx_cases as [[_ E] | (l2' & _ & _ & Hin)]; [contradiction |].
  destruct (Hsep x nx Hx (in_l2 _ Hin)) as [| H]; [contradiction |].
  unfold sep16 in H. lia.
Qed.

Lemma remove_one_dll :
  remove_from_free_list st c q = st' /\
  READ_ADDR st' slot = hd NULL (l1 ++ l2) /\
  dll st' NULL (l1 ++ l2) NULL /\
  (forall a, ~ (slot <= a < slot + 8) ->
             (forall x, In x (l1 ++ l2) -> ~ (x <= a < x + 16)) ->
             mem st' a = mem st a).
Proof.
  destruct dll_parts as (_ & Hp & Hn & _).
  destruct st1_q as [Hp1 Hn1].
  split; [| split; [| split]].
  - apply remove_from_free_list_eq; try assumption.
    + fold slot. rewrite Hhead.
      assert (Hl : l <> []) by (unfold l; destruct l1; discriminate).
      destruct (Hpos _ (hd_in l NULL Hl)) as [H _]. unfold NULL in *. lia.
    + destruct (Hpos q in_q) as [H _]. unfold NULL. lia.
  - transitivity (READ_ADDR st1 slot).
    + apply load8_ext. intros a Ha. apply st'_frame. intros Hnx.
      destruct nx_cases as [[_ E] | (l2' & _ & _ & Hin)]; [contradiction |].
      destruct (Hpos nx (in_l2 _ Hin)) as [_ H]. lia.
    + rewrite st1_head. unfold nx. symmetry. apply hd_app_hd.
  - apply dll_app. fold nx. fold pv. split.
    + apply (dll_frame st1); [exact st1_left |].
      intros x a Hx Hax. apply (st'_node x a (in_l1 _ Hx)); [| exact Hax].
      intros ->. destruct nx_cases as [[_ E] | (l2' & _ & _ & Hin)].
      * destruct (Hpos nx (in_l1 _ Hx)) as [H0 _]. unfold NULL in *. lia.
      * apply (l1_not_l2 nx nx Hx Hin). reflexivity.
    + pose proof st1_right as Hr.
      destruct nx_cases as [[E _] | (l2' & E & Hne & Hin)].
      * rewrite E. exact I.
      * rewrite E in Hr |- *. cbn [dll] in Hr |- *.
        destruct Hr as (Ha & Hb & Hc).
        unfold st'. destruct (Z.eqb_spec nx NULL) as [| _]; [contradiction |].
        split; [| split].
        -- unfold PREV. rewrite READ_ADDR_WRITE_same. apply pv_range.
        -- rewrite READ_ADDR_WRITE_other; [exact Hb |].
           unfold PREV, NEXT, ADDRESS_SIZE. lia.
        -- apply (dll_frame st1); [exact Hc |].
           intros x a Hx Hax. apply mem_WRITE_ADDR_outside.
           assert (Hxl : In x l) by (apply in_l2; rewrite E; right; exact Hx).
           assert (Hxn : x <> nx).
           { intros ->. pose proof Hnd as Hnd'. unfold l in Hnd'.
             rewrite E in Hnd'.
             change (l1 ++ q :: nx :: l2') with (l1 ++ [q] ++ nx :: l2') in Hnd'.
             rewrite app_assoc in Hnd'. apply NoDup_remove_2 in Hnd'.
             apply Hnd'. apply in_or_app. right. exact Hx. }
           destruct (Hsep x nx Hxl (in_l2 _ Hin)) as [| H]; [contradiction |].
           unfold sep16 in H. unfold PREV. lia.
  - intros a Hs Hnodes.
    transitivity (mem st1 a).
    + apply st'_frame. intros Hnx.
      destruct nx_cases as [[_ E] | (l2' & _ & _ & Hin)]; [contradiction |].
      specialize (Hnodes nx (in_or_app _ _ _ (or_intror Hin))). lia.
    + apply st1_frame; [exact Hs |]. intros Hpv.
      destruct pv_cases as [[_ E] | (l1' & _ & _ & Hin)]; [contradiction |].
      specialize (Hnodes pv (in_or_app _ _ _ (or_introl Hin))). lia.
Qed.
End RemoveOne.

Section InsertOne.
Variables (st : state) (c : Z) (l : list Z) (q : Z).
Let slot := LOOKUP_TABLE st c.
Hypothesis Hc : 0 <= c < CLASSES.
Hypothesis Hhead : READ_ADDR st slot = hd NULL l.
Hypothesis Hdll : dll st NULL l NULL.
Hypothesis Hnd : NoDup l.
Hypothesis Hpos :
  forall x, In x l -> 0 < x /\ (x + 16 <= slot \/ slot + 8 <= x).
Hypothesis Hsep : forall x y, In x l -> In y l -> x = y \/ sep16 x y.
Hypothesis Hq : 0 < q < 2 ^ 64 /\ (q + 16 <= slot \/ slot + 8 <= q).
Hypothesis Hqsep : forall x, In x l -> sep16 x q.

Let st' := put_on_front_of_class_list st c q.

Lemma insert_one_dll :
  READ_ADDR st' slot = q /\
  dll st' NULL (q :: l) NULL /\
  (forall a, ~ (slot <= a < slot + 8) -> ~ (q <= a < q + 16) ->
             (forall x, In x l -> ~ (x <= a < x + 8)) ->
             mem st' a = mem st a).
Proof.
  assert (Hwq : wrap q = q) by (apply wrap_small; lia).
  unfold st', put_on_front_of_class_list. fold slot.
  destruct (Z.ltb_spec c 0) as [| _]; [lia |].
  destruct (Z.leb_spec CLASSES c) as [| _]; [lia |]. cbn [orb].
  destruct l as [| h l'] eqn:El.
  - (* empty list *)
    cbn [hd] in Hhead. rewrite Hhead, Z.eqb_refl.
    split; [| split].
    + rewrite READ_ADDR_WRITE_same. exact Hwq.
    + cbn [dll hd]. split; [| split; [| exact I]].
      * rewrite READ_ADDR_WRITE_other by (unfold PREV; lia).
        rewrite READ_ADDR_WRITE_other by (unfold PREV, NEXT, ADDRESS_SIZE; lia).
        rewrite READ_ADDR_WRITE_same. reflexivity.
      * rewrite READ_ADDR_WRITE_other by (unfold NEXT, ADDRESS_SIZE; lia).
        rewrite READ_ADDR_WRITE_same. reflexivity.
    + intros a Hs Hqa _.
      rewrite !mem_WRITE_ADDR_outside; [reflexivity | | |];
        unfold PREV, NEXT, ADDRESS_SIZE; lia.
  - (* the old head [h] gets [q] as predecessor *)
    cbn [hd] in Hhead. cbn [dll] in Hdll. destruct Hdll as (Hhp & Hhn & Hrest).
    assert (Hh : In h (h :: l')) by (left; reflexivity).
    destruct (Hpos h Hh) as [Hh0 Hhs].
    pose proof (Hqsep h Hh) as Hhq. unfold sep16 in Hhq.
    assert (Hwh : wrap h = h)
      by (rewrite <- Hhead; apply wrap_small, READ_ADDR_range).
    rewrite Hhead.
    destruct (Z.eqb_spec h NULL) as [E | _]; [unfold NULL in E; lia |].
    set (s1 := WRITE_ADDR st (PREV h) q).
    assert (Hs1 : READ_ADDR s1 slot = h).
    { unfold s1. rewrite READ_ADDR_WRITE_other by (unfold PREV; lia). exact Hhead. }
    rewrite Hs1.
    set (s2 := WRITE_ADDR s1 (NEXT q) h).
    set (s3 := WRITE_ADDR s2 (PREV q) NULL).
    split; [| split].
    + rewrite READ_ADDR_WRITE_same. exact Hwq.
    + cbn [dll hd]. split; [| split; [| split; [| split]]].
      * rewrite READ_ADDR_WRITE_other by (unfold PREV; lia).
        unfold s3. rewrite READ_ADDR_WRITE_same. reflexivity.
      * rewrite READ_ADDR_WRITE_other by (unfold NEXT, ADDRESS_SIZE; lia).
        unfold s3. rewrite READ_ADDR_WRITE_other by (unfold PREV, NEXT, ADDRESS_SIZE; lia).
        unfold s2. rewrite READ_ADDR_WRITE_same. exact Hwh.
      * rewrite READ_ADDR_WRITE_other by (unfold PREV; lia).
        unfold s3. rewrite READ_ADDR_WRITE_other by (unfold PREV; lia).
        unfold s2. rewrite READ_ADDR_WRITE_other by (unfold PREV, NEXT, ADDRESS_SIZE; lia).
        unfold s1. rewrite READ_ADDR_WRITE_same. exact Hwq.
      * rewrite READ_ADDR_WRITE_other by (unfold NEXT, ADDRESS_SIZE; lia).
        unfold s3. rewrite READ_ADDR_WRITE_other by (unfold PREV, NEXT, ADDRESS_SIZE; lia).
        unfold s2. rewrite READ_ADDR_WRITE_other by (unfold NEXT, ADDRESS_SIZE; lia).
        unfold s1. rewrite READ_ADDR_WRITE_other by (unfold PREV, NEXT, ADDRESS_SIZE; lia).
        exact Hhn.
      * apply (dll_frame st); [exact Hrest |].
        intros x a Hx Hax.
        assert (Hxl : In x (h :: l')) by (right; exact Hx).
        destruct (Hpos x Hxl) as [_ Hxs].
        pose proof (Hqsep x Hxl) as Hxq. unfold sep16 in Hxq.
        assert (Hxh : sep16 x h).
        { destruct (Hsep x h Hxl Hh) as [-> | H]; [| exact H].
          inversion Hnd; subst. contradiction. }
        unfold sep16 in Hxh. unfold s3, s2, s1.
        rewrite !mem_WRITE_ADDR_outside; [reflexivity | | | |];
          unfold PREV, NEXT, ADDRESS_SIZE; lia.
    + intros a Hs Hqa Hnodes. specialize (Hnodes h Hh). unfold s3, s2, s1.
      rewrite !mem_WRITE_ADDR_outside; [reflexivity | | | |];
        unfold PREV, NEXT, ADDRESS_SIZE; lia.
Qed.
End InsertOne.

(** ** List operations on a well-formed heap *)

Lemma same_globals_refl st : same_globals st st.
Proof. repeat split. Qed.

Lemma same_globals_trans st1 st2 st3 :
  same_globals st1 st2 -> same_globals st2 st3 -> same_globals st1 st3.
Proof. unfold same_globals. intuition congruence. Qed.

Lemma same_globals_WRITE_DATA st p v : same_globals st (WRITE_DATA st p v).
Proof. repeat split. Qed.

Lemma same_globals_WRITE_ADDR st p v : same_globals st (WRITE_ADDR st p v).
Proof. repeat split. Qed.

Lemma remove_from_free_list_globals st c q :
  same_globals st (remove_from_free_list st c q).
Proof.
  unfold remove_from_free_list.
  destruct (_ || _); [apply same_globals_refl |].
  destruct (_ && _); [apply same_globals_WRITE_ADDR |].
  destruct (negb (READ_ADDR st (PREV q) =? NULL));
    match goal with
    | |- context [if ?b then _ else _] => destruct b
    end; repeat split.
Qed.

Lemma put_on_front_of_class_list_globals st c q :
  same_globals st (put_on_front_of_class_list st c q).
Proof.
  unfold put_on_front_of_class_list.
  destruct (_ || _); [apply same_globals_refl |].
  destruct (READ_ADDR st (LOOKUP_TABLE st c) =? NULL); repeat split.
Qed.

Lemma heap_layout_frame st st' bs :
  heap_layout st bs -> same_globals st st' ->
  (forall b a, In b bs ->
     HEADER (b_ptr b) <= a < HEADER (b_ptr b) + 8 \/
     b_ptr b + b_size b - HF_OVERHEAD <= a < b_ptr b + b_size b - HF_OVERHEAD + 8 ->
     mem st' a = mem st a) ->
  heap_layout st' bs.
Proof.
  intros (H1 & H2 & H3 & H4 & H5 & H6) (G1 & G2 & G3 & G4 & G5) Hfr.
  unfold heap_layout. rewrite G1, G3, G4, G5.
  repeat split; try assumption.
  apply Forall_forall. intros b Hb.
  apply (block_ok_frame st).
  - apply (proj1 (Forall_forall _ _) H6 b Hb).
  - intros a Ha. apply (Hfr b a Hb). left. exact Ha.
  - intros a Ha. apply (Hfr b a Hb). right. exact Ha.
Qed.

Section Nodes.
Variables (st : state) (bs : list block) (FL : Z -> list Z).
Hypothesis HL : heap_layout st bs.
Hypothesis HF : free_lists st bs FL.

Lemma node_block c q :
  0 <= c < CLASSES -> In q (FL c) ->
  exists s u, In (mkBlock q s u) bs /\ GET_CLASS s = c /\
              first_block st <= q /\ q + s <= mem_brk st + HEADER_SIZE /\
              32 <= s < 2 ^ 64.
Proof.
  intros Hc Hq. destruct (HF c Hc) as (_ & _ & _ & Hm).
  destruct (Hm q Hq) as (s & u & Hin & Hcl).
  exists s, u. destruct (layout_block st bs _ HL Hin) as (_ & B1 & B2 & B3).
  cbn [b_ptr b_size] in *. repeat split; try assumption; lia.
Qed.

Lemma slot_before_blocks c :
  0 <= c < CLASSES ->
  lookup_table st <= LOOKUP_TABLE st c /\
  LOOKUP_TABLE st c + 8 <= lookup_table st + LOOKUP_TABLE_SIZE /\
  lookup_table st + LOOKUP_TABLE_SIZE + 8 = first_block st.
Proof.
  intros Hc. destruct HL as (_ & Hfb & _).
  unfold LOOKUP_TABLE, LOOKUP_TABLE_SIZE, ADDRESS_SIZE, HEADER_SIZE, CLASSES in *.
  lia.
Qed.

Lemma node_pos c c' q :
  0 <= c < CLASSES -> 0 <= c' < CLASSES -> In q (FL c) ->
  0 < q < 2 ^ 64 /\
  (q + 16 <= LOOKUP_TABLE st c' \/ LOOKUP_TABLE st c' + 8 <= q).
Proof.
  intros Hc Hc' Hq.
  destruct (node_block c q Hc Hq) as (s & u & _ & _ & B1 & B2 & B3).
  destruct (slot_before_blocks c' Hc') as (S1 & S2 & S3).
  destruct HL as (HT & _ & Hbrk & _).
  unfold HEADER_SIZE in *. lia.
Qed.

Lemma nodes_sep c c' q q' :
  0 <= c < CLASSES -> 0 <= c' < CLASSES -> In q (FL c) -> In q' (FL c') ->
  q = q' \/ sep16 q q'.
Proof.
  intros Hc Hc' Hq Hq'.
  destruct (node_block c q Hc Hq) as (s & u & Hin & _ & _ & _ & B).
  destruct (node_block c' q' Hc' Hq') as (s' & u' & Hin' & _ & _ & _ & B').
  destruct (layout_disjoint st bs _ _ HL Hin Hin') as [E | H].
  - left. congruence.
  - right. unfold sep16. cbn [b_ptr b_size] in H. lia.
Qed.

Lemma node_class_unique c c' q :
  0 <= c < CLASSES -> 0 <= c' < CLASSES -> In q (FL c) -> In q (FL c') ->
  c = c'.
Proof.
  intros Hc Hc' Hq Hq'.
  destruct (node_block c q Hc Hq) as (s & u & Hin & Hcl & _).
  destruct (node_block c' q Hc' Hq') as (s' & u' & Hin' & Hcl' & _).
  pose proof (layout_ptr_inj st bs _ _ HL Hin Hin' eq_refl) as E.
  congruence.
Qed.

(** The link words of a node lie inside its block, away from the
    boundary tags of every block. *)
Lemma node_words_not_tags c q b a :
  0 <= c < CLASSES -> In q (FL c) -> In b bs ->
  q <= a < q + 16 ->
  ~ (HEADER (b_ptr b) <= a < HEADER (b_ptr b) + 8) /\
  ~ (b_ptr b + b_size b - HF_OVERHEAD <= a
     < b_ptr b + b_size b - HF_OVERHEAD + 8).
Proof.
  intros Hc Hq Hb Ha.
  destruct (node_block c q Hc Hq) as (s & u & Hin & _ & _ & _ & B).
  destruct (layout_block st bs b HL Hb) as (_ & _ & _ & Bb).
  destruct (layout_disjoint st bs _ _ HL Hin Hb) as [E | H].
  - subst b. cbn [b_ptr b_size] in *. consts. lia.
  - cbn [b_ptr b_size] in H. consts. lia.
Qed.

Lemma slot_not_tags c b a :
  0 <= c < CLASSES -> In b bs ->
  LOOKUP_TABLE st c <= a < LOOKUP_TABLE st c + 8 ->
  ~ (HEADER (b_ptr b) <= a < HEADER (b_ptr b) + 8) /\
  ~ (b_ptr b + b_size b - HF_OVERHEAD <= a
     < b_ptr b + b_size b - HF_OVERHEAD + 8).
Proof.
  intros Hc Hb Ha.
  destruct (slot_before_blocks c Hc) as (S1 & S2 & S3).
  destruct (layout_block st bs b HL Hb) as (_ & B1 & _ & Bb).
  consts. lia.
Qed.
End Nodes.

Lemma upd_same FL c l : upd FL c l c = l.
Proof. unfold upd. rewrite Z.eqb_refl. reflexivity. Qed.

Lemma upd_other FL c l c' : c' <> c -> upd FL c l c' = FL c'.
Proof. intros H. unfold upd. destruct (Z.eqb_spec c' c); [contradiction | reflexivity]. Qed.

Lemma free_lists_frame st st' bs bs' FL :
  free_lists st bs FL ->
  lookup_table st' = lookup_table st ->
  (forall a, lookup_table st <= a < lookup_table st + LOOKUP_TABLE_SIZE ->
             mem st' a = mem st a) ->
  (forall c q a, 0 <= c < CLASSES -> In q (FL c) -> q <= a < q + 16 ->
                 mem st' a = mem st a) ->
  (forall c q s u, 0 <= c < CLASSES -> In q (FL c) -> In (mkBlock q s u) bs ->
                   exists u', In (mkBlock q s u') bs') ->
  free_lists st' bs' FL.
Proof.
  intros HF HT Htab Hnodes Hblocks c Hc.
  destruct (HF c Hc) as (Hh & Hd & Hn & Hm).
  split; [| split; [| split]].
  - rewrite <- Hh. unfold LOOKUP_TABLE. rewrite HT. apply load8_ext.
    intros a Ha. apply Htab. consts. lia.
  - apply (dll_frame st); [exact Hd |].
    intros q a Hq Ha. apply (Hnodes c q a Hc Hq Ha).
  - exact Hn.
  - intros q Hq. destruct (Hm q Hq) as (s & u & Hin & Hcl).
    destruct (Hblocks c q s u Hc Hq Hin) as (u' & Hin').
    exists s, u'. split; assumption.
Qed.

Lemma remove_free_lists st bs FL c l1 q l2 :
  heap_layout st bs -> free_lists st bs FL ->
  0 <= c < CLASSES -> FL c = l1 ++ q :: l2 ->
  let st' := remove_from_free_list st c q in
  heap_layout st' bs /\
  free_lists st' bs (upd FL c (l1 ++ l2)) /\
  same_globals st st' /\
  (forall a, ~ (LOOKUP_TABLE st c <= a < LOOKUP_TABLE st c + 8) ->
             (forall x, In x (l1 ++ l2) -> ~ (x <= a < x + 16)) ->
             mem st' a = mem st a).
Proof.
  intros HL HF Hc El st'.
  destruct (HF c Hc) as (Hh & Hd & Hn & Hm).
  rewrite El in Hh, Hd, Hn.
  assert (Hpos : forall x, In x (l1 ++ q :: l2) ->
            0 < x /\ (x + 16 <= LOOKUP_TABLE st c \/ LOOKUP_TABLE st c + 8 <= x)).
  { intros x Hx. rewrite <- El in Hx.
    destruct (node_pos st bs FL HL HF c c x Hc Hc Hx) as [H1 H2].
    split; [lia | exact H2]. }
  assert (Hsep : forall x y, In x (l1 ++ q :: l2) -> In y (l1 ++ q :: l2) ->
            x = y \/ sep16 x y).
  { intros x y Hx Hy. rewrite <- El in Hx, Hy.
    apply (nodes_sep st bs FL HL HF c c x y Hc Hc Hx Hy). }
  destruct (remove_one_dll st c l1 l2 q Hh Hd Hn Hpos Hsep)
    as (Est & Hh' & Hd' & Hfr).
  fold st' in Est. rewrite <- Est in Hh', Hd', Hfr.
  pose proof (remove_from_free_list_globals st c q) as HG. fold st' in HG.
  assert (Hsub : forall x, In x (l1 ++ l2) -> In x (FL c)).
  { intros x Hx. rewrite El. apply in_app_or in Hx. apply in_or_app.
    destruct Hx; [left | right; right]; assumption. }
  assert (Hchanged : forall a, mem st' a <> mem st a ->
            (LOOKUP_TABLE st c <= a < LOOKUP_TABLE st c + 8) \/
            exists x, In x (l1 ++ l2) /\ x <= a < x + 16).
  { intros a Ha.
    destruct (Z_le_dec (LOOKUP_TABLE st c) a) as [H1 |];
      [destruct (Z_lt_dec a (LOOKUP_TABLE st c + 8)) as [H2 |] |];
      [left; lia | |].
    all: right.
    all: assert (Hs : ~ (LOOKUP_TABLE st c <= a < LOOKUP_TABLE st c + 8)) by lia.
    all: destruct (Exists_dec (fun x => x <= a < x + 16) (l1 ++ l2)) as [He | Hne];
      [ intros x; destruct (Z_le_dec x a); destruct (Z_lt_dec a (x + 16));
        (left; lia) || (right; lia)
      | apply Exists_exists in He; exact He
      | exfalso; apply Ha; apply (Hfr a Hs); intros x Hx Hax; apply Hne;
        apply Exists_exists; exists x; split; assumption ]. }
  split; [| split; [| split; [exact HG | exact Hfr]]].
  - apply (heap_layout_frame st); [exact HL | exact HG |].
    intros b a Hb Ha.
    destruct (Byte.byte_eq_dec (mem st' a) (mem st a)) as [E | E]; [exact E |].
    exfalso. destruct (Hchanged a E) as [Hs | (x & Hx & Hax)].
    + destruct (slot_not_tags st bs HL c b a Hc Hb Hs). tauto.
    + destruct (node_words_not_tags st bs FL HL HF c x b a Hc (Hsub x Hx) Hb Hax).
      tauto.
  - intros c' Hc'. destruct (Z.eq_dec c' c) as [-> | Hne].
    + rewrite upd_same. split; [| split; [| split]].
      * destruct HG as (_ & _ & G3 & _). unfold LOOKUP_TABLE in *. rewrite G3.
        exact Hh'.
      * exact Hd'.
      * apply NoDup_remove_1 in Hn. exact Hn.
      * intros x Hx. apply Hm. apply Hsub. exact Hx.
    + rewrite upd_other by exact Hne.
      destruct (HF c' Hc') as (Hh2 & Hd2 & Hn2 & Hm2).
      split; [| split; [| split]]; try assumption.
      * rewrite <- Hh2. destruct HG as (_ & _ & G3 & _).
        unfold LOOKUP_TABLE. rewrite G3. apply load8_ext. intros a Ha.
        apply Hfr.
        -- consts. lia.
        -- intros x Hx Hax.
           destruct (node_pos st bs FL HL HF c c' x Hc Hc' (Hsub x Hx)) as [_ H].
           consts. lia.
      * apply (dll_frame st); [exact Hd2 |].
        intros y a Hy Hay. apply Hfr.
        -- destruct (node_pos st bs FL HL HF c' c y Hc' Hc Hy) as [_ H]. lia.
        -- intros x Hx Hax.
           destruct (nodes_sep st bs FL HL HF c c' x y Hc Hc' (Hsub x Hx) Hy)
             as [E | H].
           ++ subst y. apply Hne. symmetry.
              apply (node_class_unique st bs FL HL HF c c' x Hc Hc' (Hsub x Hx) Hy).
           ++ unfold sep16 in H. lia.
Qed.

Lemma insert_free_lists st bs FL c q s u :
  heap_layout st bs -> free_lists st bs FL ->
  0 <= c < CLASSES -> In (mkBlock q s u) bs -> GET_CLASS s = c ->
  ~ In q (FL c) ->
  let st' := put_on_front_of_class_list st c q in
  heap_layout st' bs /\
  free_lists st' bs (upd FL c (q :: FL c)) /\
  same_globals st st' /\
  (forall a, ~ (LOOKUP_TABLE st c <= a < LOOKUP_TABLE st c + 8) ->
             ~ (q <= a < q + 16) ->
             (forall x, In x (FL c) -> ~ (x <= a < x + 8)) ->
             mem st' a = mem st a).
Proof.
  intros HL HF Hc Hin Hcl Hnotin st'.
  destruct (HF c Hc) as (Hh & Hd & Hn & Hm).
  destruct (layout_block st bs _ HL Hin) as (_ & B1 & B2 & B3).
  cbn [b_ptr b_size] in B1, B2, B3.
  destruct (slot_before_blocks st bs HL c Hc) as (S1 & S2 & S3).
  pose proof HL as (HT & _ & Hbrk & _).
  assert (Hpos : forall x, In x (FL c) ->
            0 < x /\ (x + 16 <= LOOKUP_TABLE st c \/ LOOKUP_TABLE st c + 8 <= x)).
  { intros x Hx.
    destruct (node_pos st bs FL HL HF c c x Hc Hc Hx) as [H1 H2].
    split; [lia | exact H2]. }
  assert (Hsep : forall x y, In x (FL c) -> In y (FL c) -> x = y \/ sep16 x y).
  { intros x y Hx Hy. apply (nodes_sep st bs FL HL HF c c x y Hc Hc Hx Hy). }
  assert (Hq : 0 < q < 2 ^ 64 /\
               (q + 16 <= LOOKUP_TABLE st c \/ LOOKUP_TABLE st c + 8 <= q))
    by (consts; lia).
  assert (Hnode_sep : forall c' x, 0 <= c' < CLASSES -> In x (FL c') ->
                                   x = q \/ sep16 x q).
  { intros c' x Hc' Hx.
    destruct (node_block st bs FL HL HF c' x Hc' Hx) as (sx & ux & Hinx & _ & _ & _ & Bx).
    destruct (layout_disjoint st bs _ _ HL Hinx Hin) as [E | H].
    - left. congruence.
    - right. unfold sep16. cbn [b_ptr b_size] in H. lia. }
  assert (Hqsep : forall x, In x (FL c) -> sep16 x q).
  { intros x Hx. destruct (Hnode_sep c x Hc Hx) as [-> | H]; [contradiction | exact H]. }
  destruct (insert_one_dll st c (FL c) q Hc Hh Hd Hn Hpos Hsep Hq Hqsep)
    as (Hh' & Hd' & Hfr).
  fold st' in Hh', Hd', Hfr.
  pose proof (put_on_front_of_class_list_globals st c q) as HG. fold st' in HG.
  assert (Hfr16 : forall a, ~ (LOOKUP_TABLE st c <= a < LOOKUP_TABLE st c + 8) ->
             ~ (q <= a < q + 16) ->
             (forall x, In x (FL c) -> ~ (x <= a < x + 16)) ->
             mem st' a = mem st a).
  { intros a H1 H2 H3. apply Hfr; try assumption.
    intros x Hx Hax. apply (H3 x Hx). lia. }
  assert (Hchanged : forall a, mem st' a <> mem st a ->
            (LOOKUP_TABLE st c <= a < LOOKUP_TABLE st c + 8) \/
            (q <= a < q + 16) \/
            exists x, In x (FL c) /\ x <= a < x + 16).
  { intros a Ha.
    destruct (Z_le_dec (LOOKUP_TABLE st c) a) as [H1 |];
      [destruct (Z_lt_dec a (LOOKUP_TABLE st c + 8)) as [H2 |] |];
      [left; lia | |].
    all: right.
    all: assert (Hs : ~ (LOOKUP_TABLE st c <= a < LOOKUP_TABLE st c + 8)) by lia.
    all: destruct (Z_le_dec q a) as [Q1 |];
      [destruct (Z_lt_dec a (q + 16)) as [Q2 |] |]; [left; lia | |].
    all: right.
    all: assert (Hqa : ~ (q <= a < q + 16)) by lia.
    all: destruct (Exists_dec (fun x => x <= a < x + 16) (FL c)) as [He | Hne];
      [ intros x; destruct (Z_le_dec x a); destruct (Z_lt_dec a (x + 16));
        (left; lia) || (right; lia)
      | apply Exists_exists in He; exact He
      | exfalso; apply Ha; apply (Hfr16 a Hs Hqa); intros x Hx Hax; apply Hne;
        apply Exists_exists; exists x; split; assumption ]. }
  split; [| split; [| split; [exact HG | exact Hfr]]].
  - apply (heap_layout_frame st); [exact HL | exact HG |].
    intros b a Hb Ha.
    destruct (Byte.byte_eq_dec (mem st' a) (mem st a)) as [E | E]; [exact E |].
    exfalso. destruct (Hchanged a E) as [Hs | [Hqa | (x & Hx & Hax)]].
    + destruct (slot_not_tags st bs HL c b a Hc Hb Hs). tauto.
    + destruct (layout_block st bs b HL Hb) as (_ & _ & _ & Bb).
      destruct (layout_disjoint st bs _ _ HL Hin Hb) as [Eb | H].
      * subst b. cbn [b_ptr b_size] in *. consts. lia.
      * cbn [b_ptr b_size] in H. consts. lia.
    + destruct (node_words_not_tags st bs FL HL HF c x b a Hc Hx Hb Hax).
      tauto.
  - intros c' Hc'. destruct (Z.eq_dec c' c) as [-> | Hne].
    + rewrite upd_same. split; [| split; [| split]].
      * destruct HG as (_ & _ & G3 & _). unfold LOOKUP_TABLE in *. rewrite G3.
        exact Hh'.
      * exact Hd'.
      * constructor; assumption.
      * intros x [<- | Hx]; [exists s, u; split; assumption | apply Hm; exact Hx].
    + rewrite upd_other by exact Hne.
      destruct (HF c' Hc') as (Hh2 & Hd2 & Hn2 & Hm2).
      split; [| split; [| split]]; try assumption.
      * rewrite <- Hh2. destruct HG as (_ & _ & G3 & _).
        unfold LOOKUP_TABLE. rewrite G3. apply load8_ext. intros a Ha.
        apply Hfr16.
        -- consts. lia.
        -- consts. lia.
        -- intros x Hx Hax.
           destruct (node_pos st bs FL HL HF c c' x Hc Hc' Hx) as [_ H].
           consts. lia.
      * apply (dll_frame st); [exact Hd2 |].
        intros y a Hy Hay.
        assert (Hyq : sep16 y q).
        { destruct (Hnode_sep c' y Hc' Hy) as [-> | H]; [| exact H].
          exfalso. destruct (Hm2 q Hy) as (s2 & u2 & Hin2 & Hcl2).
          pose proof (layout_ptr_inj st bs _ _ HL Hin Hin2 eq_refl) as E.
          apply Hne. injection E as -> _. congruence. }
        apply Hfr16.
        -- destruct (node_pos st bs FL HL HF c' c y Hc' Hc Hy) as [_ H]. lia.
        -- unfold sep16 in Hyq. lia.
        -- intros x Hx Hax.
           destruct (nodes_sep st bs FL HL HF c c' x y Hc Hc' Hx Hy)
             as [E | H].
           ++ subst y. apply Hne. symmetry.
              apply (node_class_unique st bs FL HL HF c c' x Hc Hc' Hx Hy).
           ++ unfold sep16 in H. lia.
Qed.

(** ** Rewriting the boundary tags of a run of blocks *)

Lemma tiles_run l1 run l2 p e :
  tiles p (l1 ++ run ++ l2) e ->
  Forall (fun b => 0 < b_size b) (l1 ++ run ++ l2) ->
  let a := p + total_size l1 in
  let z := a + total_size run in
  tiles p l1 a /\ tiles a run z /\ tiles z l2 e /\
  p <= a /\ a <= z /\ z <= e /\
  (forall x, In x l1 -> p <= b_ptr x /\ b_ptr x + b_size x <= a) /\
  (forall x, In x run -> a <= b_ptr x /\ b_ptr x + b_size x <= z) /\
  (forall x, In x l2 -> z <= b_ptr x /\ b_ptr x + b_size x <= e).
Proof.
  intros Ht Hpos a z.
  apply tiles_app in Ht. destruct Ht as [H1 H2]. fold a in H1, H2.
  apply tiles_app in H2. destruct H2 as [H2 H3]. fold z in H2, H3.
  apply Forall_app in Hpos. destruct Hpos as [P1 P23].
  apply Forall_app in P23. destruct P23 as [P2 P3].
  pose proof (total_size_nonneg _ P1) as N1.
  pose proof (total_size_nonneg _ P2) as N2.
  pose proof (total_size_nonneg _ P3) as N3.
  pose proof (tiles_end _ _ _ H3) as E3.
  split; [exact H1 |]. split; [exact H2 |]. split; [exact H3 |].
  split; [unfold a; lia |]. split; [unfold z; lia |]. split; [lia |].
  split; [| split].
  - intros x Hx. apply (tiles_bounds _ _ _ _ H1 P1 Hx).
  - intros x Hx. apply (tiles_bounds _ _ _ _ H2 P2 Hx).
  - intros x Hx. apply (tiles_bounds _ _ _ _ H3 P3 Hx).
Qed.

Lemma last_app_nonempty (l1 l2 : list block) d :
  l2 <> [] -> last (l1 ++ l2) d = last l2 d.
Proof.
  intros Hne. destruct (exists_last Hne) as (l0 & z & ->).
  rewrite app_assoc, !last_last. reflexivity.
Qed.

Lemma layout_end_heap st bs d :
  heap_layout st bs -> bs <> [] /\ b_ptr (last bs d) = end_heap st.
Proof.
  intros (_ & _ & _ & _ & (bs0 & b & E & Hb) & _). subst bs.
  split; [destruct bs0; discriminate |].
  rewrite last_last. exact Hb.
Qed.

Lemma heap_layout_intro st bs d :
  0 < lookup_table st ->
  first_block st = lookup_table st + LOOKUP_TABLE_SIZE + HEADER_SIZE ->
  mem_brk st + HEADER_SIZE <= 2 ^ 64 ->
  tiles (first_block st) bs (mem_brk st + HEADER_SIZE) ->
  bs <> [] -> b_ptr (last bs d) = end_heap st ->
  Forall (block_ok st) bs ->
  heap_layout st bs.
Proof.
  intros H1 H2 H3 H4 Hne Hlast H6. repeat split; try assumption.
  destruct (exists_last Hne) as (bs0 & b & E). exists bs0, b.
  split; [exact E |]. rewrite E, last_last in Hlast. exact Hlast.
Qed.

(** The run [run] of blocks is replaced by the run [run'], which covers
    the same bytes; nothing outside these bytes has changed. *)
Lemma heap_layout_replace st st' l1 run run' l2 d :
  heap_layout st (l1 ++ run ++ l2) ->
  run' <> [] ->
  let a := first_block st + total_size l1 in
  let z := a + total_size run in
  tiles a run' z ->
  Forall (block_ok st') run' ->
  mem_brk st' = mem_brk st -> lookup_table st' = lookup_table st ->
  first_block st' = first_block st ->
  (l2 = [] -> end_heap st' = b_ptr (last run' d)) ->
  (l2 <> [] -> end_heap st' = end_heap st) ->
  (forall x, a - 8 <= x < z - 8 \/ mem st' x = mem st x) ->
  heap_layout st' (l1 ++ run' ++ l2).
Proof.
  intros HL Hne a z Hrun' Hok' G1 G3 G4 Hend1 Hend2 Hfr.
  pose proof HL as (H1 & H2 & H3 & H4 & H5 & H6).
  pose proof (block_ok_pos _ _ H6) as Hpos.
  destruct (tiles_run _ _ _ _ _ H4 Hpos) as (T1 & T2 & T3 & B1 & B2 & B3 & X1 & X2 & X3).
  fold a in T1, T2, T3, B1, B2, X1, X2, X3. fold z in T2, T3, B2, B3, X2, X3.
  apply Forall_app in H6. destruct H6 as [O1 O23].
  apply Forall_app in O23. destruct O23 as [_ O3].
  apply (heap_layout_intro st' _ d).
  - rewrite G3. exact H1.
  - rewrite G3, G4. exact H2.
  - rewrite G1. exact H3.
  - rewrite G1, G4. apply tiles_app. split.
    + assert (E : first_block st + total_size l1 = a) by reflexivity.
      rewrite E. exact T1.
    + fold a. apply tiles_app.
      pose proof (tiles_end _ _ _ Hrun') as Ez. rewrite <- Ez. split; assumption.
  - destruct l1; destruct run'; try discriminate; congruence.
  - destruct l2 as [| y l2'].
    + rewrite app_nil_r. rewrite last_app_nonempty by exact Hne.
      symmetry. apply Hend1. reflexivity.
    + rewrite Hend2 by discriminate.
      rewrite app_assoc. rewrite last_app_nonempty by discriminate.
      destruct (layout_end_heap st _ d HL) as [_ E].
      rewrite app_assoc in E. rewrite last_app_nonempty in E by discriminate.
      exact E.
  - apply Forall_app. split; [| apply Forall_app; split; [exact Hok' |]].
    + apply Forall_forall. intros x Hx.
      pose proof (proj1 (Forall_forall _ _) O1 x Hx) as Ox.
      destruct (X1 x Hx) as [Xa Xb]. pose proof Ox as (S1 & _).
      apply (block_ok_frame st); [exact Ox | |];
        intros y Hy; destruct (Hfr y) as [Hin | E]; try exact E;
        exfalso; consts; lia.
    + apply Forall_forall. intros x Hx.
      pose proof (proj1 (Forall_forall _ _) O3 x Hx) as Ox.
      destruct (X3 x Hx) as [Xa Xb]. pose proof Ox as (S1 & _).
      apply (block_ok_frame st); [exact Ox | |];
        intros y Hy; destruct (Hfr y) as [Hin | E]; try exact E;
        exfalso; consts; lia.
Qed.

(** ** Soundness of the executable check *)

Lemma tiles_b_sound bs : forall p e, tiles_b p bs e = true -> tiles p bs e.
Proof.
  induction bs as [| b bs IH]; intros p e H; cbn [tiles_b tiles] in *.
  - apply Z.eqb_eq. exact H.
  - apply andb_prop in H. destruct H as [H1 H2]. apply Z.eqb_eq in H1.
    split; [exact H1 | apply IH; exact H2].
Qed.

Lemma block_ok_b_sound st b : block_ok_b st b = true -> block_ok st b.
Proof.
  unfold block_ok_b, block_ok. intros H.
  apply andb_prop in H. destruct H as [H H4].
  apply andb_prop in H. destruct H as [H H3].
  apply andb_prop in H. destruct H as [H1 H2].
  apply Z.leb_le in H1. apply Z.eqb_eq in H2, H3, H4.
  repeat split; assumption.
Qed.

Lemma heap_layout_b_sound st bs : heap_layout_b st bs = true -> heap_layout st bs.
Proof.
  unfold heap_layout_b. intros H.
  apply andb_prop in H. destruct H as [H H6].
  apply andb_prop in H. destruct H as [H H5].
  apply andb_prop in H. destruct H as [H H4].
  apply andb_prop in H. destruct H as [H H3].
  apply andb_prop in H. destruct H as [H1 H2].
  apply Z.ltb_lt in H1. apply Z.eqb_eq in H2. apply Z.leb_le in H3.
  destruct bs as [| b0 bs0] eqn:E; [discriminate |]. rewrite <- E in *.
  apply Z.eqb_eq in H5.
  apply (heap_layout_intro st bs b0); try assumption.
  - apply tiles_b_sound. exact H4.
  - rewrite E. discriminate.
  - apply Forall_forall. intros b Hb. apply block_ok_b_sound.
    apply (proj1 (forallb_forall _ _) H6 b Hb).
Qed.

Lemma dll_b_sound st l : forall prev nxt,
  dll_b st prev l nxt = true -> dll st prev l nxt.
Proof.
  induction l as [| q l IH]; intros prev nxt H; cbn [dll_b dll] in *; [exact I |].
  apply andb_prop in H. destruct H as [H H3].
  apply andb_prop in H. destruct H as [H1 H2].
  apply Z.eqb_eq in H1, H2. repeat split; try assumption. apply IH. exact H3.
Qed.

Lemma existsb_eqb_In x l : existsb (Z.eqb x) l = true <-> In x l.
Proof.
  rewrite existsb_exists. split.
  - intros (y & Hy & E). apply Z.eqb_eq in E. subst y. exact Hy.
  - intros H. exists x. split; [exact H | apply Z.eqb_refl].
Qed.

Lemma nodup_b_sound l : nodup_b l = true -> NoDup l.
Proof.
  induction l as [| x l IH]; intros H; cbn [nodup_b] in H; constructor.
  - apply andb_prop in H. destruct H as [H _]. intros Hin.
    apply existsb_eqb_In in Hin. rewrite Hin in H. discriminate.
  - apply IH. apply andb_prop in H. apply H.
Qed.

Lemma free_lists_b_sound st bs fls :
  free_lists_b st bs fls = true -> free_lists st bs (lists_of fls).
Proof.
  unfold free_lists_b. intros H c Hc.
  assert (Hi : In (Z.to_nat c) (seq 0 (Z.to_nat CLASSES)))
    by (apply in_seq; lia).
  pose proof (proj1 (forallb_forall _ _) H _ Hi) as Hcl. cbv beta in Hcl.
  rewrite Z2Nat.id in Hcl by lia. unfold class_list_b in Hcl.
  apply andb_prop in Hcl. destruct Hcl as [Hcl H4].
  apply andb_prop in Hcl. destruct Hcl as [Hcl H3].
  apply andb_prop in Hcl. destruct Hcl as [H1 H2].
  apply Z.eqb_eq in H1.
  split; [exact H1 |]. split; [apply dll_b_sound; exact H2 |].
  split; [apply nodup_b_sound; exact H3 |].
  intros q Hq. pose proof (proj1 (forallb_forall _ _) H4 q Hq) as He.
  apply existsb_exists in He. destruct He as (b & Hb & E).
  apply andb_prop in E. destruct E as [E1 E2]. apply Z.eqb_eq in E1, E2.
  exists (b_size b), (b_used b). split; [| exact E2].
  rewrite <- E1. destruct b. exact Hb.
Qed.

Lemma linked_iff_free_b_sound bs fls :
  linked_iff_free_b bs fls = true -> linked_iff_free bs (lists_of fls).
Proof.
  unfold linked_iff_free_b. intros H b Hb.
  pose proof (proj1 (forallb_forall _ _) H b Hb) as E. cbv beta in E.
  apply eqb_prop in E. pose proof (GET_CLASS_range (b_size b)) as Hr.
  split.
  - intros Hu. rewrite Hu in E. cbn [negb] in E. symmetry in E.
    apply andb_prop in E. destruct E as [E1 E2]. apply Z.ltb_lt in E1.
    split; [lia |]. apply existsb_eqb_In. exact E2.
  - intros [Hc Hin]. apply existsb_eqb_In in Hin. rewrite Hin in E.
    destruct (Z.ltb_spec (GET_CLASS (b_size b)) CLASSES); [| lia].
    cbn [andb] in E. destruct (b_used b); [discriminate | reflexivity].
Qed.

Lemma heap_ok_b_sound st bs fls :
  heap_ok_b st bs fls = true -> heap_ok st bs (lists_of fls).
Proof.
  unfold heap_ok_b. intros H.
  apply andb_prop in H. destruct H as [H H3].
  apply andb_prop in H. destruct H as [H1 H2].
  split; [apply heap_layout_b_sound; exact H1 |].
  split; [apply free_lists_b_sound; exact H2 |].
  apply linked_iff_free_b_sound. exact H3.
Qed.

(** ** Marking a block *)

Lemma in_middle {A : Type} (l1 : list A) (x : A) (l2 : list A) :
  In x (l1 ++ x :: l2).
Proof. apply in_or_app. right. left. reflexivity. Qed.

Lemma in_replace_middle {A : Type} (l1 l2 : list A) (x x' y : A) :
  In y (l1 ++ x :: l2) -> y = x \/ In y (l1 ++ x' :: l2).
Proof.
  intros H. apply in_app_or in H. destruct H as [H | [H | H]].
  - right. apply in_or_app. left. exact H.
  - left. symmetry. exact H.
  - right. apply in_or_app. right. right. exact H.
Qed.

Lemma layout_block_start st l1 b l2 :
  heap_layout st (l1 ++ b :: l2) ->
  b_ptr b = first_block st + total_size l1.
Proof.
  intros (_ & _ & _ & Ht & _ & _). apply tiles_app in Ht.
  destruct Ht as [_ Ht]. cbn [tiles] in Ht. apply Ht.
Qed.

(** The in-use bit of the block [b] is rewritten in header and footer,
    as [mm_malloc] and [mm_free] do it. *)
Lemma retag_block st l1 b l2 FL (u' : bool) :
  let bs := l1 ++ b :: l2 in
  let p := b_ptr b in
  let bit := if u' then 1 else 0 in
  heap_layout st bs -> free_lists st bs FL ->
  let st1 := WRITE_DATA st (HEADER p) (PACK (GET_SIZE st (HEADER p)) bit) in
  let st2 :=
    WRITE_DATA st1 (FOOTER st1 p) (PACK (GET_SIZE st1 (HEADER p)) bit) in
  let bs' := l1 ++ mkBlock p (b_size b) u' :: l2 in
  heap_layout st2 bs' /\ free_lists st2 bs' FL /\ same_globals st st2 /\
  (forall a, ~ (HEADER p <= a < HEADER p + 8) ->
             ~ (p + b_size b - HF_OVERHEAD <= a < p + b_size b - HF_OVERHEAD + 8) ->
             mem st2 a = mem st a).
Proof.
  intros bs p bit HL HF st1 st2 bs'.
  assert (Hb : In b bs) by apply in_middle.
  destruct (layout_block st bs b HL Hb) as (Hok & B1 & B2 & B3).
  pose proof Hok as (_ & Hm & _).
  assert (Hbit : 0 <= bit <= 1) by (unfold bit; destruct u'; lia).
  assert (Hs : 0 <= b_size b < 2 ^ 64) by lia.
  pose proof (block_size_read st b Hok) as Hsz. fold p in Hsz.
  destruct (write_tags st p (b_size b) bit Hs Hm Hbit) as (Hf & Hh & Hft & Hfr).
  cbv zeta in Hf, Hh, Hft, Hfr.
  assert (E1 : st1 = WRITE_DATA st (HEADER p) (PACK (b_size b) bit))
    by (unfold st1; rewrite Hsz; reflexivity).
  assert (Hsz1 : GET_SIZE st1 (HEADER p) = b_size b).
  { rewrite E1. apply (GET_SIZE_tag _ _ (b_size b) bit); [| exact Hm | exact Hbit].
    rewrite READ_WRITE_same. apply wrap_small. unfold PACK. zlia. }
  assert (E2 : st2 = WRITE_DATA st1 (FOOTER st1 p) (PACK (b_size b) bit))
    by (unfold st2; rewrite Hsz1; reflexivity).
  rewrite E1 in E2. rewrite <- E2 in Hh, Hft, Hfr. clear E1 E2.
  assert (HG : same_globals st st2) by (repeat split).
  assert (Hfr' : forall a, ~ (HEADER p <= a < HEADER p + 8) ->
             ~ (p + b_size b - HF_OVERHEAD <= a < p + b_size b - HF_OVERHEAD + 8) ->
             mem st2 a = mem st a) by exact Hfr.
  pose proof (layout_block_start st l1 b l2 HL) as Hstart. fold p in Hstart.
  split; [| split; [| split; [exact HG | exact Hfr']]].
  - change (l1 ++ b :: l2) with (l1 ++ [b] ++ l2) in HL.
    apply (heap_layout_replace st st2 l1 [b] [mkBlock p (b_size b) u'] l2 b HL).
    + discriminate.
    + cbn [tiles total_size fold_right b_ptr b_size]. split; lia.
    + constructor; [| constructor].
      unfold block_ok, tag. cbn [b_ptr b_size b_used]. fold bit.
      destruct Hok as (O1 & _). repeat split; assumption.
    + reflexivity.
    + reflexivity.
    + reflexivity.
    + intros ->. cbn [last b_ptr].
      change (end_heap st2) with (end_heap st). symmetry.
      apply (layout_last st (l1 ++ [b] ++ []) l1 b [] HL); reflexivity.
    + intros _. reflexivity.
    + intros x. cbn [total_size fold_right]. rewrite <- Hstart.
      destruct (Z_le_dec (p - 8) x); [destruct (Z_lt_dec x (p + (b_size b + 0) - 8)) |];
        [left; lia | |]; right; apply Hfr'; consts; lia.
  - apply (free_lists_frame st st2 bs bs' FL HF).
    + reflexivity.
    + intros a Ha. pose proof HL as (_ & Hfb & _).
      apply Hfr'; unfold p in *; consts; lia.
    + intros c q a Hc Hq Ha.
      destruct (node_words_not_tags st bs FL HL HF c q b a Hc Hq Hb Ha) as [N1 N2].
      apply Hfr'; assumption.
    + intros c q s u Hc Hq Hin.
      destruct (in_replace_middle l1 l2 b (mkBlock p (b_size b) u') _ Hin) as [E | H].
      * exists u'. subst b. cbn [b_ptr b_size] in *. unfold bs'. apply in_middle.
      * exists u. exact H.
Qed.

(** ** What the search finds *)

Lemma dll_next_chain st l : forall prev,
  dll st prev l NULL -> (forall x, In x l -> x <> NULL) ->
  next_chain st (hd NULL l) l NULL.
Proof.
  induction l as [| q l IH]; intros prev Hd Hnn; cbn [dll next_chain hd] in *.
  - reflexivity.
  - destruct Hd as (_ & Hn & Hd). split; [reflexivity |].
    split; [apply Hnn; left; reflexivity |].
    rewrite Hn. apply (IH q Hd). intros x Hx. apply Hnn. right. exact Hx.
Qed.

Lemma search_found st bs FL fuel c need B :
  heap_layout st bs -> free_lists st bs FL ->
  search_free_list fuel st c need = Some B -> B <> NULL ->
  0 <= c < CLASSES /\ In B (FL c) /\ need <= GET_SIZE st (HEADER B).
Proof.
  intros HL HF Hs HB.
  assert (Hc : 0 <= c < CLASSES).
  { unfold search_free_list in Hs.
    destruct (Z.ltb_spec c 0); [cbn [orb] in Hs; congruence |].
    destruct (Z.leb_spec CLASSES c); [cbn [orb] in Hs; congruence |]. lia. }
  split; [exact Hc |].
  destruct (HF c Hc) as (Hh & Hd & _ & _).
  assert (Hnn : forall x, In x (FL c) -> x <> NULL).
  { intros x Hx. destruct (node_pos st bs FL HL HF c c x Hc Hc Hx) as [H _].
    unfold NULL. lia. }
  pose proof (dll_next_chain st (FL c) NULL Hd Hnn) as Hch.
  rewrite <- Hh in Hch.
  destruct (search_free_list_spec st c need (FL c) (Nat.max fuel (length (FL c)))
              Hc Hch (Nat.le_max_r _ _)) as (r & Er & _ & Hr & _).
  pose proof (search_free_list_fuel_mono _ _ _ _ _ _ Hs (Nat.le_max_l fuel (length (FL c))))
    as Er'.
  assert (r = B) by congruence. subst r.
  destruct (Hr HB) as (H1 & H2 & _). split; assumption.
Qed.

Lemma mm_malloc_search_found n : forall fuel st c0 need B c,
  mm_malloc_search n fuel st c0 need = Some (B, c) -> B <> NULL ->
  c0 <= c /\ search_free_list fuel st c need = Some B.
Proof.
  induction n as [| n IH]; intros fuel st c0 need B c H HB;
    cbn [mm_malloc_search] in H.
  - injection H as <- _. contradiction.
  - destruct (c0 <? CLASSES); [| injection H as <- _; contradiction].
    destruct (search_free_list fuel st c0 need) as [ptr |] eqn:Es; [| discriminate].
    destruct (Z.eqb_spec ptr NULL) as [-> | Hne]; cbn [negb] in H.
    + apply IH in H; [| exact HB]. destruct H as [H1 H2]. split; [lia | exact H2].
    + injection H as <- <-. split; [lia | exact Es].
Qed.

(** ** The membership invariant under list updates *)

Lemma linked_iff_free_update bs FL bs' FL' :
  linked_iff_free bs FL ->
  (forall b, In b bs' ->
     (In b bs /\
      forall c, 0 <= c < CLASSES ->
                (In (b_ptr b) (FL' c) <-> In (b_ptr b) (FL c))) \/
     (b_used b = false <->
      0 <= GET_CLASS (b_size b) < CLASSES /\
      In (b_ptr b) (FL' (GET_CLASS (b_size b))))) ->
  linked_iff_free bs' FL'.
Proof.
  intros HI H b Hb. destruct (H b Hb) as [[Hin Hsame] | Hnew]; [| exact Hnew].
  rewrite (HI b Hin). split.
  - intros [Hc Hl]. split; [exact Hc |]. apply Hsame; assumption.
  - intros [Hc Hl]. split; [exact Hc |]. apply Hsame; assumption.
Qed.

Lemma in_upd_remove FL c m1 q m2 c' x :
  FL c = m1 ++ q :: m2 -> x <> q ->
  (In x (upd FL c (m1 ++ m2) c') <-> In x (FL c')).
Proof.
  intros E Hne. destruct (Z.eq_dec c' c) as [-> | Hc].
  - rewrite upd_same, E. rewrite !in_app_iff. cbn [In]. intuition congruence.
  - rewrite upd_other by exact Hc. tauto.
Qed.

Lemma in_upd_cons FL c q c' x :
  x <> q -> (In x (upd FL c (q :: FL c) c') <-> In x (FL c')).
Proof.
  intros Hne. destruct (Z.eq_dec c' c) as [-> | Hc].
  - rewrite upd_same. cbn [In]. intuition congruence.
  - rewrite upd_other by exact Hc. tauto.
Qed.

Lemma NoDup_middle_not_in {A : Type} (l1 l2 : list A) (x : A) :
  NoDup (l1 ++ x :: l2) -> ~ In x (l1 ++ l2).
Proof. apply NoDup_remove_2. Qed.

Lemma link_area_frame_remove st bs FL c m1 q m2 a :
  heap_layout st bs -> 0 <= c < CLASSES -> FL c = m1 ++ q :: m2 ->
  ~ link_area st FL a ->
  ~ (LOOKUP_TABLE st c <= a < LOOKUP_TABLE st c + 8) /\
  (forall x, In x (m1 ++ m2) -> ~ (x <= a < x + 16)).
Proof.
  intros HL Hc E Hn. split.
  - intros H. apply Hn. left. consts. lia.
  - intros x Hx Ha. apply Hn. right. exists c, x. split; [exact Hc |].
    split; [| exact Ha]. rewrite E. apply in_app_or in Hx. apply in_or_app.
    destruct Hx; [left | right; right]; assumption.
Qed.

(** ** [mm_malloc]: the block found is taken whole *)

Lemma place_whole st bs FL c B sB l1 l2 m1 m2 need :
  heap_ok st bs FL ->
  bs = l1 ++ mkBlock B sB false :: l2 ->
  0 <= c < CLASSES -> GET_CLASS sB = c -> FL c = m1 ++ B :: m2 ->
  0 <= need <= sB -> sB - need <= MBS ->
  exists st',
    mm_malloc_place st B c need = (B, st') /\
    heap_ok st' (l1 ++ mkBlock B sB true :: l2) (upd FL c (m1 ++ m2)) /\
    same_globals st st' /\
    (forall a, ~ link_area st FL a ->
               ~ (HEADER B <= a < HEADER B + 8) ->
               ~ (B + sB - HF_OVERHEAD <= a < B + sB - HF_OVERHEAD + 8) ->
               mem st' a = mem st a).
Proof.
  intros (HL & HF & HI) Ebs Hc Hcl EFL Hneed Hrem.
  set (b := mkBlock B sB false).
  assert (Hb : In b bs) by (rewrite Ebs; apply in_middle).
  destruct (layout_block st bs b HL Hb) as (Hok & B1 & B2 & B3).
  pose proof (block_size_read st b Hok) as Hsz.
  change (b_ptr b) with B in *. change (b_size b) with sB in *.
  unfold mm_malloc_place. rewrite Hsz.
  rewrite wrap_small by lia.
  destruct (Z.leb_spec (sB - need) MBS) as [_ |]; [| lia].
  rewrite Ebs in HL, HF.
  destruct (retag_block st l1 b l2 FL true HL HF) as (HL2 & HF2 & HG2 & Hfr2).
  change (b_ptr b) with B in *. change (b_size b) with sB in *.
  rewrite Hsz in HL2, HF2, HG2, Hfr2.
  set (st1 := WRITE_DATA st (HEADER B) (PACK sB 1)) in *.
  set (st2 := WRITE_DATA st1 (FOOTER st1 B) (PACK (GET_SIZE st1 (HEADER B)) 1)) in *.
  set (bs' := l1 ++ mkBlock B sB true :: l2) in *.
  destruct (remove_free_lists st2 bs' FL c m1 B m2 HL2 HF2 Hc EFL)
    as (HL3 & HF3 & HG3 & Hfr3).
  cbv zeta in HL3, HF3, HG3, Hfr3.
  eexists. split; [reflexivity |].
  split; [split; [exact HL3 | split; [exact HF3 |]] |].
  - (* membership *)
    apply (linked_iff_free_update bs FL); [exact HI |].
    intros x Hx. unfold bs' in Hx.
    destruct (HF c Hc) as (_ & _ & Hnd & _). rewrite EFL in Hnd.
    apply in_app_or in Hx. destruct Hx as [Hx | [Hx | Hx]].
    + left. assert (Hxin : In x bs) by (rewrite Ebs; apply in_or_app; left; exact Hx).
      split; [exact Hxin |]. intros c' Hc'. apply (in_upd_remove _ _ _ _ _ _ _ EFL).
      intros E. rewrite <- Ebs in HL.
      assert (x = b) by (apply (layout_ptr_inj st bs); assumption).
      subst x. rewrite Ebs in HL. destruct HL as (_ & _ & _ & Ht & _ & Hok').
      pose proof (block_ok_pos _ _ Hok') as Hpos.
      destruct (tiles_middle _ _ _ _ _ Ht Hpos) as (_ & _ & Hl & _).
      specialize (Hl b Hx). subst b. cbn [b_ptr b_size] in *. lia.
    + right. subst x. cbn [b_used b_size b_ptr]. rewrite Hcl, upd_same.
      split; [discriminate |]. intros [_ H]. exfalso.
      apply (NoDup_middle_not_in _ _ _ Hnd H).
    + left. assert (Hxin : In x bs) by (rewrite Ebs; apply in_or_app; right; right; exact Hx).
      split; [exact Hxin |]. intros c' Hc'. apply (in_upd_remove _ _ _ _ _ _ _ EFL).
      intros E. rewrite <- Ebs in HL.
      assert (x = b) by (apply (layout_ptr_inj st bs); assumption).
      subst x. rewrite Ebs in HL. destruct HL as (_ & _ & _ & Ht & _ & Hok').
      pose proof (block_ok_pos _ _ Hok') as Hpos.
      destruct (tiles_middle _ _ _ _ _ Ht Hpos) as (_ & _ & _ & Hr).
      specialize (Hr b Hx). subst b. cbn [b_ptr b_size] in *. lia.
  - split; [apply (same_globals_trans _ st2); assumption |].
    intros a Hla Hh Hf.
    rewrite <- Ebs in HL.
    assert (Hla2 : ~ link_area st2 FL a) by exact Hla.
    destruct (link_area_frame_remove st2 bs' FL c m1 B m2 a HL2 Hc EFL Hla2)
      as [N1 N2].
    rewrite (Hfr3 a N1 N2). apply Hfr2; assumption.
Qed.

(** ** Splitting a block *)

Lemma put_on_front_set_end_heap st e c q :
  put_on_front_of_class_list (set_end_heap st e) c q
  = set_end_heap (put_on_front_of_class_list st c q) e.
Proof.
  unfold put_on_front_of_class_list.
  destruct (_ || _); [reflexivity |].
  change (READ_ADDR (set_end_heap st e)) with (READ_ADDR st).
  change (LOOKUP_TABLE (set_end_heap st e)) with (LOOKUP_TABLE st).
  destruct (READ_ADDR st (LOOKUP_TABLE st c) =? NULL); reflexivity.
Qed.

Section Split.
Variables (st : state) (FL FL1 : Z -> list Z).
Variables (l1 l2 : list block) (B sB : Z) (u : bool) (need : Z).
Let b0 := mkBlock B sB u.
Let bs := l1 ++ b0 :: l2.
Let R := B + need.
Let rem := sB - need.
Let cR := GET_CLASS rem.
Let b1 := mkBlock B need true.
Let bR := mkBlock R rem false.
Let bs' := l1 ++ b1 :: bR :: l2.
Hypothesis HL : heap_layout st bs.
Hypothesis HF : free_lists st bs FL.
Hypothesis Hneed : 32 <= need.
Hypothesis Hneed8 : need mod 8 = 0.
Hypothesis Hrem : 32 < rem.
Hypothesis HcR : cR < CLASSES.
Hypothesis Hlinked :
  if u then (forall c, 0 <= c < CLASSES -> ~ In B (FL c)) /\ FL1 = FL
  else exists m1 m2,
      0 <= GET_CLASS sB < CLASSES /\
      FL (GET_CLASS sB) = m1 ++ B :: m2 /\
      FL1 = upd FL (GET_CLASS sB) (m1 ++ m2).

Let st1 :=
  if BIT st (HEADER B) =? 0
  then remove_from_free_list st (GET_CLASS (GET_SIZE st (HEADER B))) B
  else st.

Local Lemma split_b0 :
  In b0 bs /\ block_ok st b0 /\ first_block st <= B /\
  B + sB <= mem_brk st + HEADER_SIZE /\ 32 <= sB < 2 ^ 64 /\ sB mod 8 = 0 /\
  GET_SIZE st (HEADER B) = sB.
Proof.
  assert (Hb : In b0 bs) by apply in_middle.
  destruct (layout_block st bs b0 HL Hb) as (Hok & B1 & B2 & B3).
  pose proof (block_size_read st b0 Hok) as Hsz.
  pose proof Hok as (_ & Hm & _).
  split; [exact Hb |]. split; [exact Hok |]. split; [exact B1 |].
  split; [exact B2 |]. split; [exact B3 |]. split; [exact Hm | exact Hsz].
Qed.

Local Lemma split_others x :
  In x bs -> x <> b0 ->
  (In x l1 \/ In x l2) /\ In x bs' /\
  (b_ptr x + b_size x <= B \/ B + sB <= b_ptr x).
Proof.
  intros Hx Hne.
  pose proof HL as (_ & _ & _ & Ht & _ & Hok).
  pose proof (block_ok_pos _ _ Hok) as Hpos.
  destruct (tiles_middle _ _ _ _ _ Ht Hpos) as (_ & _ & Hl & Hr).
  unfold bs in Hx. apply in_app_or in Hx. destruct Hx as [Hx | [Hx | Hx]].
  - split; [left; exact Hx |]. split; [apply in_or_app; left; exact Hx |].
    left. apply (Hl x Hx).
  - congruence.
  - split; [right; exact Hx |].
    split; [apply in_or_app; right; right; right; exact Hx |].
    right. apply (Hr x Hx).
Qed.

(** After the block has been taken off its list (when it was free). *)
Local Lemma split_st1 :
  heap_layout st1 bs /\ free_lists st1 bs FL1 /\ same_globals st st1 /\
  (forall a, ~ link_area st FL a -> mem st1 a = mem st a) /\
  (forall c, 0 <= c < CLASSES -> ~ In B (FL1 c)) /\
  (forall c x, 0 <= c < CLASSES -> In x (FL1 c) -> In x (FL c)).
Proof.
  destruct split_b0 as (Hb & Hok & _ & _ & _ & _ & Hsz).
  pose proof (block_bit_read st b0 Hok) as Hbit.
  change (b_ptr b0) with B in Hbit. change (b_used b0) with u in Hbit.
  unfold st1. rewrite Hbit, Hsz. destruct u.
  - destruct Hlinked as [Hn ->]. cbn [Z.eqb].
    split; [exact HL |]. split; [exact HF |]. split; [apply same_globals_refl |].
    split; [reflexivity |]. split; [exact Hn |]. intros c x _ H. exact H.
  - destruct Hlinked as (m1 & m2 & Hc & EFL & ->). rewrite Z.eqb_refl.
    destruct (remove_free_lists st bs FL _ m1 B m2 HL HF Hc EFL)
      as (HL1 & HF1 & HG1 & Hfr1).
    cbv zeta in HL1, HF1, HG1, Hfr1.
    split; [exact HL1 |]. split; [exact HF1 |]. split; [exact HG1 |].
    destruct (HF _ Hc) as (_ & _ & Hnd & _). rewrite EFL in Hnd.
    split; [| split].
    + intros a Hla.
      destruct (link_area_frame_remove st bs FL _ m1 B m2 a HL Hc EFL Hla) as [N1 N2].
      apply Hfr1; assumption.
    + intros c Hc' Hin. destruct (Z.eq_dec c (GET_CLASS sB)) as [-> | Hne].
      * rewrite upd_same in Hin. apply (NoDup_middle_not_in _ _ _ Hnd Hin).
      * rewrite upd_other in Hin by exact Hne. apply Hne.
        apply (node_class_unique st bs FL HL HF c (GET_CLASS sB) B Hc' Hc Hin).
        rewrite EFL. apply in_middle.
    + intros c x Hc' Hin. destruct (Z.eq_dec c (GET_CLASS sB)) as [-> | Hne].
      * rewrite upd_same in Hin. rewrite EFL. apply in_app_or in Hin.
        apply in_or_app. destruct Hin; [left | right; right]; assumption.
      * rewrite upd_other in Hin by exact Hne. exact Hin.
Qed.

Let st2 := WRITE_DATA st1 (HEADER B) (PACK need 1).
Let st3 := WRITE_DATA st2 (FOOTER st2 B) (PACK need 1).
Let st4 := WRITE_DATA st3 (HEADER R) (PACK rem 0).
Let st5 := WRITE_DATA st4 (FOOTER st4 R) (PACK rem 0).

Local Lemma split_tags :
  block_ok st5 b1 /\ block_ok st5 bR /\
  GET_SIZE st3 (HEADER B) = need /\
  (forall a, B - 8 <= a < B + sB - 8 \/ mem st5 a = mem st1 a).
Proof.
  destruct split_b0 as (_ & _ & _ & _ & HsB & HsB8 & _).
  assert (Hn : 0 <= need < 2 ^ 64) by (unfold rem in Hrem; lia).
  assert (Hr : 0 <= rem < 2 ^ 64) by (unfold rem in *; lia).
  assert (Hr8 : rem mod 8 = 0) by (unfold rem; zlia).
  destruct (write_tags st1 B need 1 Hn Hneed8 ltac:(lia)) as (F1 & H1 & T1 & Fr1).
  cbv zeta in F1, H1, T1, Fr1. fold st2 in F1, H1, T1, Fr1. fold st3 in H1, T1, Fr1.
  destruct (write_tags st3 R rem 0 Hr Hr8 ltac:(lia)) as (F2 & H2 & T2 & Fr2).
  cbv zeta in F2, H2, T2, Fr2. fold st4 in F2, H2, T2, Fr2. fold st5 in H2, T2, Fr2.
  assert (Hsz3 : GET_SIZE st3 (HEADER B) = need)
    by (apply (GET_SIZE_tag _ _ need 1 H1 Hneed8); lia).
  split; [| split; [| split; [exact Hsz3 |]]].
  - unfold block_ok, tag, b1. cbn [b_ptr b_size b_used].
    split; [consts; lia |]. split; [exact Hneed8 |]. split.
    + rewrite <- H1. apply READ_DATA_ext. intros a Ha. apply Fr2;
        unfold R, rem in *; consts; lia.
    + rewrite <- T1. apply READ_DATA_ext. intros a Ha. apply Fr2;
        unfold R, rem in *; consts; lia.
  - unfold block_ok, tag, bR. cbn [b_ptr b_size b_used].
    split; [consts; lia |]. split; [exact Hr8 |]. split; assumption.
  - intros a.
    destruct (Z_le_dec (B - 8) a); [destruct (Z_lt_dec a (B + sB - 8)) |];
      [left; lia | |]; right.
    + rewrite Fr2 by (unfold R, rem in *; consts; lia).
      apply Fr1; unfold R, rem in *; consts; lia.
    + rewrite Fr2 by (unfold R, rem in *; consts; lia).
      apply Fr1; unfold R, rem in *; consts; lia.
Qed.

Let st5' := if end_heap st =? B then set_end_heap st5 R else st5.

Local Lemma split_eq :
  split st B need = put_on_front_of_class_list st5' cR R /\
  end_heap (split st B need) = (if end_heap st =? B then R else end_heap st).
Proof.
  destruct split_b0 as (_ & _ & _ & _ & HsB & _ & Hsz).
  destruct split_tags as (_ & _ & Hsz3 & _).
  destruct split_st1 as (_ & _ & (_ & _ & _ & _ & G5) & _).
  assert (Erem : wrap (GET_SIZE st (HEADER B) - need) = rem).
  { rewrite Hsz. apply wrap_small. unfold rem in *. lia. }
  unfold split. rewrite Erem. fold st1. fold st2. fold st3.
  rewrite Hsz3. fold R. fold st4. fold st5. fold cR.
  pose proof (put_on_front_of_class_list_globals st5 cR R) as (_ & _ & _ & _ & G).
  rewrite G. change (end_heap st5) with (end_heap st1). rewrite G5.
  unfold st5'. destruct (end_heap st =? B).
  - rewrite put_on_front_set_end_heap. split; reflexivity.
  - split; [reflexivity |]. rewrite G. change (end_heap st5) with (end_heap st1).
    exact G5.
Qed.

Local Lemma split_layout5 : heap_layout st5' bs'.
Proof.
  destruct split_b0 as (Hb & _ & _ & _ & HsB & _ & _).
  destruct split_st1 as (HL1 & _ & HG1 & _).
  destruct split_tags as (O1 & OR & _ & Hfr).
  destruct HG1 as (G1 & G2 & G3 & G4 & G5).
  pose proof (layout_block_start st l1 b0 l2 HL) as Hstart.
  change (b_ptr b0) with B in Hstart.
  assert (Hmem : mem st5' = mem st5) by (unfold st5'; destruct (_ =? B); reflexivity).
  assert (HO : Forall (block_ok st5') [b1; bR]).
  { constructor; [| constructor; [| constructor]].
    - apply (block_ok_frame st5); [exact O1 | |]; intros; rewrite Hmem; reflexivity.
    - apply (block_ok_frame st5); [exact OR | |]; intros; rewrite Hmem; reflexivity. }
  change bs' with (l1 ++ [b1; bR] ++ l2).
  apply (heap_layout_replace st1 st5' l1 [b0] [b1; bR] l2 b0).
  - exact HL1.
  - discriminate.
  - unfold b1, bR, b0. cbn [tiles total_size fold_right b_ptr b_size].
    rewrite G4. unfold R, rem. repeat split; lia.
  - exact HO.
  - unfold st5'. destruct (_ =? B); reflexivity.
  - unfold st5'. destruct (_ =? B); reflexivity.
  - unfold st5'. destruct (_ =? B); reflexivity.
  - intros El2. unfold bR. cbn [last b_ptr].
    assert (E : B = end_heap st).
    { apply (layout_last st bs l1 b0 l2 HL eq_refl). exact El2. }
    unfold st5'. rewrite <- E, Z.eqb_refl. reflexivity.
  - intros El2.
    assert (E : B <> end_heap st).
    { intros E. apply El2. apply (layout_last st bs l1 b0 l2 HL eq_refl). exact E. }
    unfold st5'. destruct (Z.eqb_spec (end_heap st) B) as [E' |]; [congruence |].
    change (end_heap st5) with (end_heap st1). rewrite G5. reflexivity.
  - intros x. rewrite G4, Hmem. unfold b0. cbn [total_size fold_right b_size].
    rewrite <- Hstart. destruct (Hfr x) as [H | H]; [left; lia | right; exact H].
Qed.

Local Lemma split_lists5 : free_lists st5' bs' FL1.
Proof.
  destruct split_b0 as (Hb & _ & Hfb & _ & HsB & _ & _).
  destruct split_st1 as (HL1 & HF1 & HG1 & _ & HnB & _).
  destruct split_tags as (_ & _ & _ & Hfr).
  assert (Hmem : mem st5' = mem st5) by (unfold st5'; destruct (_ =? B); reflexivity).
  pose proof HL1 as (_ & HT & _).
  destruct HG1 as (_ & _ & G3 & G4 & _).
  apply (free_lists_frame st1 st5' bs bs' FL1 HF1).
  - unfold st5'. destruct (_ =? B); reflexivity.
  - intros a Ha. rewrite Hmem. destruct (Hfr a) as [H | H]; [| exact H].
    exfalso. rewrite G4 in HT. consts. lia.
  - intros c q a Hc Hq Ha. rewrite Hmem.
    destruct (Hfr a) as [H | H]; [| exact H]. exfalso.
    destruct (node_block st1 bs FL1 HL1 HF1 c q Hc Hq) as (s & uq & Hin & _ & _ & _ & Bq).
    assert (Hne : mkBlock q s uq <> b0).
    { intros E. injection E as -> _ _. apply (HnB c Hc Hq). }
    destruct (split_others _ Hin Hne) as (_ & _ & Hd).
    cbn [b_ptr b_size] in Hd. lia.
  - intros c q s uq Hc Hq Hin. exists uq.
    assert (Hne : mkBlock q s uq <> b0).
    { intros E. injection E as -> _ _. apply (HnB c Hc Hq). }
    apply (split_others _ Hin Hne).
Qed.

Lemma split_spec :
  heap_layout (split st B need) bs' /\
  free_lists (split st B need) bs' (upd FL1 cR (R :: FL1 cR)) /\
  end_heap (split st B need) = (if end_heap st =? B then R else end_heap st) /\
  mem_brk (split st B need) = mem_brk st /\
  mem_max_addr (split st B need) = mem_max_addr st /\
  (forall c, 0 <= c < CLASSES -> ~ In B (upd FL1 cR (R :: FL1 cR) c)) /\
  (forall c x, 0 <= c < CLASSES -> In x (FL1 c) -> In x (FL c) /\ x <> R) /\
  (forall a, ~ link_area st FL a -> ~ (B - 8 <= a < B + sB - 8) ->
             mem (split st B need) a = mem st a).
Proof.
  destruct split_eq as [Eq Eend]. rewrite Eq in *.
  destruct split_b0 as (Hb & _ & Hfb & _ & HsB & _ & _).
  destruct split_st1 as (HL1 & HF1 & HG1 & Hfr1 & HnB & Hsub).
  destruct split_tags as (_ & _ & _ & Hfr5).
  pose proof split_layout5 as HL5. pose proof split_lists5 as HF5.
  assert (Hmem : mem st5' = mem st5) by (unfold st5'; destruct (_ =? B); reflexivity).
  assert (HcR' : 0 <= cR < CLASSES)
    by (pose proof (GET_CLASS_range rem); fold cR in H; lia).
  assert (HinR : In bR bs') by (unfold bs'; apply in_or_app; right; right; left; reflexivity).
  assert (HnR : forall c, 0 <= c < CLASSES -> ~ In R (FL1 c)).
  { intros c Hc Hin.
    destruct (node_block st1 bs FL1 HL1 HF1 c R Hc Hin) as (s & uq & Hin' & _ & _ & _ & Bq).
    assert (Hne : mkBlock R s uq <> b0).
    { intros E. injection E as E _ _. unfold R in E. lia. }
    destruct (split_others _ Hin' Hne) as (_ & _ & Hd).
    cbn [b_ptr b_size] in Hd. unfold R, rem in *. lia. }
  destruct (insert_free_lists st5' bs' FL1 cR R rem false HL5 HF5 HcR' HinR eq_refl
              (HnR cR HcR')) as (HL6 & HF6 & HG6 & Hfr6).
  cbv zeta in HL6, HF6, HG6, Hfr6.
  split; [exact HL6 |]. split; [exact HF6 |]. split; [exact Eend |].
  destruct HG6 as (G1 & G2 & _). destruct HG1 as (G1' & G2' & G3' & _).
  split; [| split; [| split; [| split]]].
  - rewrite G1. unfold st5'. destruct (_ =? B); exact G1'.
  - rewrite G2. unfold st5'. destruct (_ =? B); exact G2'.
  - intros c Hc Hin. destruct (Z.eq_dec c cR) as [-> | Hne].
    + rewrite upd_same in Hin. destruct Hin as [E | Hin].
      * unfold R in E. lia.
      * apply (HnB cR Hc Hin).
    + rewrite upd_other in Hin by exact Hne. apply (HnB c Hc Hin).
  - intros c x Hc Hx. split; [apply (Hsub c x Hc Hx) |].
    intros ->. apply (HnR c Hc Hx).
  - intros a Hla Hext.
    rewrite Hfr6.
    + rewrite Hmem. destruct (Hfr5 a) as [H | H]; [lia |].
      rewrite H. apply Hfr1. exact Hla.
    + intros H. apply Hla. left.
      change (LOOKUP_TABLE st5' cR) with (lookup_table st5' + ADDRESS_SIZE * cR) in H.
      assert (E : lookup_table st5' = lookup_table st)
        by (unfold st5'; destruct (_ =? B); exact G3').
      rewrite E in H. consts. lia.
    + unfold R, rem in *. lia.
    + intros x Hx Ha. apply Hla. right. exists cR, x.
      split; [exact HcR' |]. split; [apply (Hsub cR x HcR' Hx) | lia].
Qed.
End Split.

(** ** [mm_malloc] on a well-formed heap *)

Lemma ALIGN_spec x : ALIGN x = 8 * (wrap (x + 7) / 8).
Proof. unfold ALIGN. apply land_size_mask, wrap_range. Qed.

(** The block size that [mm_malloc] and [mm_realloc] compute. *)
Lemma newsize_props size :
  let need :=
    if ALIGN (size + HF_OVERHEAD) <? MBS then MBS
    else ALIGN (size + HF_OVERHEAD) in
  32 <= need < 2 ^ 64 /\ need mod 8 = 0.
Proof.
  cbv zeta. rewrite ALIGN_spec.
  pose proof (wrap_range (size + HF_OVERHEAD + 7)) as Hw.
  change MBS with 32.
  destruct (Z.ltb_spec (8 * (wrap (size + HF_OVERHEAD + 7) / 8)) 32); zlia.
Qed.

Lemma newsize_no_overflow size :
  0 <= size -> size + 23 < 2 ^ 64 ->
  size + HF_OVERHEAD <= ALIGN (size + HF_OVERHEAD) < size + HF_OVERHEAD + 8.
Proof.
  intros H0 H1. rewrite ALIGN_spec. rewrite wrap_small by (consts; lia).
  consts. zlia.
Qed.

Lemma found_block st bs FL fuel c0 need B c :
  heap_ok st bs FL ->
  mm_malloc_search (Z.to_nat CLASSES) fuel st c0 need = Some (B, c) ->
  B <> NULL ->
  exists sB l1 l2 m1 m2,
    bs = l1 ++ mkBlock B sB false :: l2 /\ 0 <= c < CLASSES /\
    GET_CLASS sB = c /\ FL c = m1 ++ B :: m2 /\ need <= sB /\
    sB < 64 * 2 ^ 19.
Proof.
  intros (HL & HF & HI) Hs HB.
  destruct (mm_malloc_search_found _ _ _ _ _ _ _ Hs HB) as [_ Hs'].
  destruct (search_found st bs FL fuel c need B HL HF Hs' HB) as (Hc & Hin & Hsz).
  destruct (node_block st bs FL HL HF c B Hc Hin) as (sB & u & Hb & Hcl & _).
  assert (Hu : u = false).
  { apply (HI _ Hb). cbn [b_size b_ptr]. rewrite Hcl. split; assumption. }
  subst u.
  destruct (in_split _ _ Hb) as (l1 & l2 & Ebs).
  destruct (in_split _ _ Hin) as (m1 & m2 & EFL).
  destruct (layout_block st bs _ HL Hb) as (Hok & _).
  pose proof (block_size_read st _ Hok) as E. cbn [b_ptr b_size] in E.
  rewrite E in Hsz.
  exists sB, l1, l2, m1, m2. repeat split; try assumption; try apply Hc.
  apply (GET_CLASS_le sB 19); [lia |]. unfold CLASSES in Hc. lia.
Qed.

Lemma place_split st bs FL c B sB l1 l2 m1 m2 need :
  heap_ok st bs FL ->
  bs = l1 ++ mkBlock B sB false :: l2 ->
  0 <= c < CLASSES -> GET_CLASS sB = c -> FL c = m1 ++ B :: m2 ->
  32 <= need -> need mod 8 = 0 -> MBS < sB - need -> sB < 64 * 2 ^ 19 ->
  let R := B + need in
  let FL1 := upd FL c (m1 ++ m2) in
  let cR := GET_CLASS (sB - need) in
  exists st',
    mm_malloc_place st B c need = (B, st') /\
    heap_ok st' (l1 ++ mkBlock B need true :: mkBlock R (sB - need) false :: l2)
            (upd FL1 cR (R :: FL1 cR)) /\
    end_heap st' = (if end_heap st =? B then R else end_heap st) /\
    mem_brk st' = mem_brk st /\ mem_max_addr st' = mem_max_addr st /\
    (forall a, ~ link_area st FL a -> ~ (B - 8 <= a < B + sB - 8) ->
               mem st' a = mem st a).
Proof.
  intros (HL & HF & HI) Ebs Hc Hcl EFL Hneed Hneed8 Hrem Hbig R FL1 cR.
  set (b0 := mkBlock B sB false).
  assert (Hb : In b0 bs) by (rewrite Ebs; apply in_middle).
  destruct (layout_block st bs b0 HL Hb) as (Hok & B1 & B2 & B3).
  pose proof (block_size_read st b0 Hok) as Hsz.
  change (b_ptr b0) with B in *. change (b_size b0) with sB in *.
  change MBS with 32 in Hrem.
  assert (HcR : cR < CLASSES).
  { unfold cR. assert (GET_CLASS (sB - need) <= 19); [| unfold CLASSES; lia].
    apply GET_CLASS_le; lia. }
  assert (Hlinked : exists m1' m2',
             0 <= GET_CLASS sB < CLASSES /\
             FL (GET_CLASS sB) = m1' ++ B :: m2' /\
             FL1 = upd FL (GET_CLASS sB) (m1' ++ m2')).
  { exists m1, m2. rewrite Hcl. repeat split; try assumption; apply Hc. }
  rewrite Ebs in HL, HF.
  destruct (split_spec st FL FL1 l1 l2 B sB false need HL HF Hneed Hneed8 Hrem HcR Hlinked)
    as (HL' & HF' & Hend & Hbrk & Hmax & HnB & Hsub & Hfr).
  fold R in HL', HF', Hend, HnB, Hsub. fold cR in HL', HF', HnB.
  exists (split st B need). split.
  { unfold mm_malloc_place. rewrite Hsz. rewrite wrap_small by lia.
    destruct (Z.leb_spec (sB - need) MBS) as [H |]; [change MBS with 32 in H; lia |].
    reflexivity. }
  split; [| repeat split; assumption].
  split; [exact HL' |]. split; [exact HF' |].
  rewrite <- Ebs in HL.
  assert (HcR' : 0 <= cR < CLASSES)
    by (pose proof (GET_CLASS_range (sB - need)); fold cR in H; lia).
  apply (linked_iff_free_update bs FL); [exact HI |].
  intros x Hx.
  assert (Hold : In x l1 \/ In x l2 ->
     In x bs /\
     forall c', 0 <= c' < CLASSES ->
       (In (b_ptr x) (upd FL1 cR (R :: FL1 cR) c') <-> In (b_ptr x) (FL c'))).
  { intros Hx12.
    assert (Hxin : In x bs).
    { rewrite Ebs. apply in_or_app. destruct Hx12; [left | right; right]; assumption. }
    split; [exact Hxin |]. intros c' Hc'.
    destruct (layout_block st bs x HL Hxin) as (_ & _ & _ & Bx).
    assert (Hd : b_ptr x + b_size x <= B \/ B + sB <= b_ptr x).
    { pose proof HL as (_ & _ & _ & Ht & _ & Hok').
      pose proof (block_ok_pos _ _ Hok') as Hpos. rewrite Ebs in Ht, Hpos.
      destruct (tiles_middle _ _ _ _ _ Ht Hpos) as (_ & _ & Hl & Hr).
      destruct Hx12 as [H | H]; [left; apply (Hl x H) | right; apply (Hr x H)]. }
    rewrite in_upd_cons by (unfold R; lia).
    unfold FL1. apply (in_upd_remove _ _ _ _ _ _ _ EFL). lia. }
  apply in_app_or in Hx. destruct Hx as [Hx | [Hx | [Hx | Hx]]].
  - left. apply Hold. left. exact Hx.
  - right. subst x. cbn [b_used b_size b_ptr].
    split; [discriminate |]. intros [Hcn H]. exfalso. apply (HnB _ Hcn H).
  - right. subst x. cbn [b_used b_size b_ptr]. fold cR. rewrite upd_same.
    split; [| reflexivity]. intros _. split; [exact HcR' | left; reflexivity].
  - left. apply Hold. right. exact Hx.
Qed.


Lemma heap_three_free_ok :
  heap_ok heap_three_free blocks_three_free (lists_of lists_three_free).
Proof. apply heap_ok_b_sound. vm_compute. reflexivity. Qed.


(** ** Heaps with detached blocks *)

Lemma free_lists_ext st bs FL FL' :
  (forall c, 0 <= c < CLASSES -> FL' c = FL c) ->
  free_lists st bs FL -> free_lists st bs FL'.
Proof. intros E HF c Hc. rewrite (E c Hc). apply (HF c Hc). Qed.

Lemma in_without qs FL c x :
  In x (without qs FL c) <-> In x (FL c) /\ ~ In x qs.
Proof.
  unfold without. rewrite filter_In. split.
  - intros [H1 H2]. split; [exact H1 |]. intros Hin.
    apply existsb_eqb_In in Hin. rewrite Hin in H2. discriminate.
  - intros [H1 H2]. split; [exact H1 |].
    destruct (existsb (Z.eqb x) qs) eqn:E; [| reflexivity].
    apply existsb_eqb_In in E. contradiction.
Qed.

Lemma filter_id {A : Type} (f : A -> bool) (l : list A) :
  (forall x, In x l -> f x = true) -> filter f l = l.
Proof.
  induction l as [| x l IH]; intros H; cbn [filter]; [reflexivity |].
  rewrite (H x (or_introl eq_refl)). f_equal. apply IH.
  intros y Hy. apply H. right. exact Hy.
Qed.

Lemma without_one_middle (m1 m2 : list Z) q :
  NoDup (m1 ++ q :: m2) ->
  filter (fun x => negb (existsb (Z.eqb x) [q])) (m1 ++ q :: m2) = m1 ++ m2.
Proof.
  intros Hnd. pose proof (NoDup_remove_2 _ _ _ Hnd) as Hq.
  rewrite filter_app. cbn [filter existsb]. rewrite Z.eqb_refl. cbn [orb negb].
  rewrite !filter_id; [reflexivity | |].
  - intros x Hx. cbn [existsb]. destruct (Z.eqb_spec x q) as [-> |]; [| reflexivity].
    exfalso. apply Hq. apply in_or_app. right. exact Hx.
  - intros x Hx. cbn [existsb]. destruct (Z.eqb_spec x q) as [-> |]; [| reflexivity].
    exfalso. apply Hq. apply in_or_app. left. exact Hx.
Qed.

Lemma without_one_absent (l : list Z) q :
  ~ In q l -> filter (fun x => negb (existsb (Z.eqb x) [q])) l = l.
Proof.
  intros Hq. apply filter_id. intros x Hx. cbn [existsb].
  destruct (Z.eqb_spec x q) as [-> |]; [contradiction | reflexivity].
Qed.

Lemma without_without q qs FL c :
  without [q] (without qs FL) c = without (q :: qs) FL c.
Proof.
  unfold without. induction (FL c) as [| x l IH]; cbn [filter]; [reflexivity |].
  cbn [existsb]. destruct (existsb (Z.eqb x) qs) eqn:E; cbn [negb].
  - rewrite orb_true_r. cbn [negb]. exact IH.
  - cbn [filter existsb]. rewrite orb_false_r.
    destruct (x =? q); cbn [negb orb]; [exact IH | f_equal; exact IH].
Qed.

Lemma heap_ok_except_nil st bs FL : heap_ok st bs FL <-> heap_ok_except [] st bs FL.
Proof.
  unfold heap_ok, heap_ok_except, linked_iff_free. split.
  - intros (HL & HF & HI). split; [exact HL |]. split; [exact HF |]. split.
    + intros b Hb _. apply (HI b Hb).
    + intros c x _ _ [].
  - intros (HL & HF & HI & _). split; [exact HL |]. split; [exact HF |].
    intros b Hb. apply (HI b Hb). intros [].
Qed.

Lemma link_area_globals st st' FL a :
  lookup_table st' = lookup_table st -> link_area st' FL a -> link_area st FL a.
Proof. unfold link_area. intros ->. tauto. Qed.

(** A free block that is on its list is taken off it. *)
Lemma unlink_block D st bs FL b :
  heap_ok_except D st bs FL ->
  In b bs -> b_used b = false -> ~ In (b_ptr b) D ->
  let r := b_ptr b in
  let c := GET_CLASS (b_size b) in
  let st' := remove_from_free_list st c r in
  heap_ok_except (r :: D) st' bs (without [r] FL) /\
  same_globals st st' /\
  (forall a, ~ link_area st FL a -> mem st' a = mem st a) /\
  0 <= c < CLASSES.
Proof.
  intros (HL & HF & HI & HD) Hb Hu HnD r c st'.
  destruct (proj1 (HI b Hb HnD) Hu) as [Hc Hin]. fold c in Hc, Hin. fold r in Hin.
  destruct (in_split _ _ Hin) as (m1 & m2 & EFL).
  destruct (remove_free_lists st bs FL c m1 r m2 HL HF Hc EFL)
    as (HL' & HF' & HG & Hfr).
  cbv zeta in HL', HF', HG, Hfr. fold st' in HL', HF', HG, Hfr.
  destruct (HF c Hc) as (_ & _ & Hnd & _).
  assert (Eext : forall c', 0 <= c' < CLASSES ->
            without [r] FL c' = upd FL c (m1 ++ m2) c').
  { intros c' Hc'. unfold without. destruct (Z.eq_dec c' c) as [-> | Hne].
    - rewrite upd_same, EFL. rewrite EFL in Hnd. apply without_one_middle. exact Hnd.
    - rewrite upd_other by exact Hne. apply without_one_absent.
      intros Hin'. apply Hne.
      apply (node_class_unique st bs FL HL HF c' c r Hc' Hc Hin' Hin). }
  split; [| split; [exact HG | split; [| exact Hc]]].
  - split; [exact HL' |]. split; [apply (free_lists_ext _ _ _ _ Eext HF') |].
    split.
    + intros x Hx HxD.
      assert (Hxr : b_ptr x <> r) by (intros E; apply HxD; left; symmetry; exact E).
      assert (HxD' : ~ In (b_ptr x) D) by (intros H; apply HxD; right; exact H).
      rewrite (HI x Hx HxD'). rewrite in_without. cbn [In]. intuition.
    + intros c' x Hc' Hx. apply in_without in Hx. destruct Hx as [Hx Hxr].
      intros [E | H].
      * apply Hxr. left. exact E.
      * apply (HD c' x Hc' Hx H).
  - intros a Hla.
    destruct (link_area_frame_remove st bs FL c m1 r m2 a HL Hc EFL Hla) as [N1 N2].
    apply Hfr; assumption.
Qed.

Lemma without_app qs1 qs2 FL c :
  without qs1 (without qs2 FL) c = without (qs2 ++ qs1) FL c.
Proof.
  unfold without. induction (FL c) as [| x l IH]; cbn [filter]; [reflexivity |].
  rewrite existsb_app.
  destruct (existsb (Z.eqb x) qs2); cbn [negb orb].
  - exact IH.
  - cbn [filter]. destruct (existsb (Z.eqb x) qs1); cbn [negb];
      [exact IH | f_equal; exact IH].
Qed.

Lemma without_nil FL c : without [] FL c = FL c.
Proof. unfold without. apply filter_id. reflexivity. Qed.

Lemma heap_ok_except_ext D D' st bs FL FL' :
  (forall x, In x D <-> In x D') ->
  (forall c, FL' c = FL c) ->
  heap_ok_except D st bs FL -> heap_ok_except D' st bs FL'.
Proof.
  intros ED EF (HL & HF & HI & HD).
  split; [exact HL |]. split; [apply (free_lists_ext st bs FL); auto |].
  split.
  - intros b Hb HnD. rewrite EF. apply (HI b Hb). rewrite ED. exact HnD.
  - intros c x Hc Hx. rewrite EF in Hx. rewrite <- ED. apply (HD c x Hc Hx).
Qed.

Lemma big_free_block st b :
  block_ok st b -> big_free st (b_ptr b) = coalescible b.
Proof.
  intros Hok. unfold big_free, coalescible.
  rewrite (block_bit_read st b Hok), (block_size_read st b Hok).
  destruct (b_used b); reflexivity.
Qed.

Lemma last_cons_app (P : block) (done : list block) :
  exists pre, P :: done = pre ++ [last (P :: done) P].
Proof.
  destruct (@exists_last _ (P :: done) ltac:(discriminate)) as (pre & z & E).
  exists pre. rewrite E at 2. rewrite last_last. exact E.
Qed.

Section RightWalk.
Variables (l1 : list block) (P : block).

(** The scan to the right of [coalesce]: the blocks [done] have been
    taken off their lists, the blocks [rest] lie ahead. *)
Lemma coalesce_right_spec fuel : forall st FL D done rest total,
  let bs := l1 ++ P :: done ++ rest in
  heap_ok_except D st bs FL ->
  (forall b, In b rest -> ~ In (b_ptr b) D) ->
  0 <= total -> total + total_size rest < 2 ^ 64 ->
  (length rest < fuel)%nat ->
  let rr := fst (take_run rest) in
  exists st',
    coalesce_right fuel st (b_ptr (last (P :: done) P)) total
      = Some (st', b_ptr (last (P :: done ++ rr) P), total + total_size rr) /\
    heap_ok_except (map b_ptr rr ++ D) st' bs (without (map b_ptr rr) FL) /\
    same_globals st st' /\
    (forall a, ~ link_area st FL a -> mem st' a = mem st a).
Proof.
  induction fuel as [| fuel IH]; intros st FL D done rest total bs HE HD Ht0 Ht Hfuel rr;
    [lia |].
  pose proof HE as (HL & HF & HI & HDl).
  destruct (last_cons_app P done) as (pre & Epre).
  set (it := last (P :: done) P) in *.
  cbn [coalesce_right].
  destruct rest as [| b rest1].
  - (* [it] is the last block *)
    assert (Eend : b_ptr it = end_heap st).
    { apply (layout_last st bs (l1 ++ pre) it [] HL); [| reflexivity].
      unfold bs. rewrite app_nil_r.
      change (l1 ++ P :: done) with (l1 ++ (P :: done)).
      rewrite Epre, app_assoc. reflexivity. }
    destruct (Z.eqb_spec (b_ptr it) (end_heap st)) as [_ |]; [| contradiction].
    cbn [negb andb].
    exists st. unfold rr. cbn [take_run fst map app total_size fold_right].
    rewrite app_nil_r, Z.add_0_r. split; [reflexivity |].
    split; [| split; [apply same_globals_refl | reflexivity]].
    apply (heap_ok_except_ext D _ st bs FL); [tauto | | exact HE].
    intros c. apply without_nil.
  - assert (Ebs : bs = (l1 ++ pre) ++ it :: b :: rest1).
    { unfold bs. change (l1 ++ P :: done ++ b :: rest1)
        with (l1 ++ (P :: done) ++ b :: rest1).
      rewrite Epre. rewrite <- !app_assoc. reflexivity. }
    assert (Hnend : b_ptr it <> end_heap st).
    { intros E. apply (layout_last st bs (l1 ++ pre) it (b :: rest1) HL Ebs) in E.
      discriminate. }
    destruct (Z.eqb_spec (b_ptr it) (end_heap st)) as [| _]; [contradiction |].
    cbn [negb andb].
    pose proof (layout_RIGHT st bs _ it b rest1 HL Ebs) as ER. rewrite ER.
    assert (Hb : In b bs) by (rewrite Ebs; apply in_or_app; right; right; left; reflexivity).
    destruct (layout_block st bs b HL Hb) as (Hok & _ & _ & Bs).
    rewrite (big_free_block st b Hok).
    unfold rr. cbn [take_run].
    destruct (coalescible b) eqn:Ecb.
    + (* [b] is merged *)
      assert (Hu : b_used b = false).
      { unfold coalescible in Ecb. destruct (b_used b); [discriminate | reflexivity]. }
      assert (HbD : ~ In (b_ptr b) D) by (apply HD; left; reflexivity).
      destruct (unlink_block D st bs FL b HE Hb Hu HbD) as (HE' & HG & Hfr & Hc).
      cbv zeta in HE', HG, Hfr.
      rewrite (block_size_read st b Hok).
      set (st' := remove_from_free_list st (GET_CLASS (b_size b)) (b_ptr b)) in *.
      pose proof HE' as (HL' & _).
      pose proof (layout_RIGHT st' bs _ it b rest1 HL' Ebs) as ER'. rewrite ER'.
      cbn [total_size fold_right] in Ht. fold (total_size rest1) in Ht.
      assert (Hpos1 : 0 <= total_size rest1).
      { apply total_size_nonneg. destruct HL as (_ & _ & _ & _ & _ & Hok').
        apply block_ok_pos in Hok'. rewrite Ebs in Hok'.
        apply Forall_app in Hok'. destruct Hok' as [_ Hok'].
        inversion Hok' as [| ? ? _ Hok'']; subst.
        inversion Hok'' as [| ? ? _ Hok3]; subst. exact Hok3. }
      rewrite wrap_small by lia.
      assert (Elast : b = last (P :: done ++ [b]) P).
      { change (P :: done ++ [b]) with ((P :: done) ++ [b]). rewrite last_last.
        reflexivity. }
      assert (Ebs' : bs = l1 ++ P :: (done ++ [b]) ++ rest1).
      { unfold bs. rewrite <- app_assoc. reflexivity. }
      destruct (IH st' (without [b_ptr b] FL) (b_ptr b :: D) (done ++ [b]) rest1
                  (total + b_size b)) as (st2 & Eloop & HE2 & HG2 & Hfr2).
      * rewrite <- Ebs'. exact HE'.
      * intros x Hx [E | H].
        -- (* two different blocks at the same address *)
           assert (Hxin : In x bs)
             by (rewrite Ebs; apply in_or_app; right; right; right; exact Hx).
           pose proof (layout_ptr_inj st bs _ _ HL Hb Hxin E) as Exb. subst x.
           pose proof HL as (_ & _ & _ & Htl & _ & Hok').
           apply block_ok_pos in Hok'. rewrite Ebs in Htl, Hok'.
           change ((l1 ++ pre) ++ it :: b :: rest1)
             with ((l1 ++ pre) ++ [it] ++ b :: rest1) in Htl, Hok'.
           rewrite !app_assoc in Htl, Hok'.
           destruct (tiles_middle _ _ _ _ _ Htl Hok') as (_ & _ & _ & Hr).
           specialize (Hr b Hx). lia.
        -- apply (HD x (or_intror Hx) H).
      * lia.
      * lia.
      * cbn [length] in Hfuel. lia.
      * rewrite <- Elast in Eloop.
        destruct (take_run rest1) as [r rest'] eqn:Etr. cbn [fst] in *.
        exists st2. split; [| split; [| split]].
        -- rewrite Eloop. cbn [total_size fold_right]. fold (total_size r).
           f_equal. f_equal; [| lia]. f_equal. f_equal.
           rewrite <- app_assoc. reflexivity.
        -- rewrite <- Ebs' in HE2.
           refine (heap_ok_except_ext _ _ _ _ _ _ _ _ HE2).
           ++ intros x. cbn [map]. rewrite !in_app_iff. cbn [In]. tauto.
           ++ intros c. cbn [map]. rewrite without_app. reflexivity.
        -- apply (same_globals_trans _ st'); assumption.
        -- intros a Hla. rewrite Hfr2; [apply Hfr; exact Hla |].
           intros Hla'. apply Hla.
           destruct HG as (_ & _ & G3 & _).
           destruct Hla' as [Ht' | (c & x & Hc' & Hx & Hax)].
           ++ left. rewrite <- G3. exact Ht'.
           ++ right. exists c, x. apply in_without in Hx. tauto.
    + (* [b] stops the scan *)
      exists st. cbn [fst map app total_size fold_right].
      rewrite app_nil_r, Z.add_0_r. split; [reflexivity |].
      split; [| split; [apply same_globals_refl | reflexivity]].
      apply (heap_ok_except_ext D _ st bs FL); [tauto | | exact HE].
      intros c. apply without_nil.
Qed.
End RightWalk.

Section LeftWalk.
Variables (P : block) (right : list block).

(** The scan to the left of [coalesce]; [rrest] are the blocks that
    lie ahead, the nearest one first. *)
Lemma coalesce_left_spec fuel : forall st FL D done rrest total,
  let bs := rev rrest ++ done ++ P :: right in
  heap_ok_except D st bs FL ->
  (forall b, In b rrest -> ~ In (b_ptr b) D) ->
  0 <= total -> total + total_size rrest < 2 ^ 64 ->
  (length rrest < fuel)%nat ->
  let lr := fst (take_run rrest) in
  exists st',
    coalesce_left fuel st (b_ptr (hd P done)) total
      = Some (st', b_ptr (hd P (rev lr ++ done)), total + total_size lr) /\
    heap_ok_except (map b_ptr lr ++ D) st' bs (without (map b_ptr lr) FL) /\
    same_globals st st' /\
    (forall a, ~ link_area st FL a -> mem st' a = mem st a).
Proof.
  induction fuel as [| fuel IH]; intros st FL D done rrest total bs HE HD Ht0 Ht Hfuel lr;
    [lia |].
  pose proof HE as (HL & HF & HI & HDl).
  set (it := hd P done) in *.
  assert (Eit : exists post, done ++ P :: right = it :: post).
  { unfold it. destruct done as [| d done']; cbn [hd app]; eexists; reflexivity. }
  destruct Eit as (post & Epost).
  cbn [coalesce_left].
  destruct rrest as [| b rrest1].
  - (* [it] is the first block *)
    assert (Efirst : b_ptr it = first_block st).
    { apply (layout_first st bs [] it post HL); [| reflexivity].
      unfold bs. cbn [rev app]. exact Epost. }
    destruct (Z.eqb_spec (b_ptr it) (first_block st)) as [_ |]; [| contradiction].
    cbn [negb andb].
    exists st. unfold lr. cbn [take_run fst map app total_size fold_right rev].
    rewrite Z.add_0_r. split; [reflexivity |].
    split; [| split; [apply same_globals_refl | reflexivity]].
    apply (heap_ok_except_ext D _ st bs FL); [tauto | | exact HE].
    intros c. apply without_nil.
  - assert (Ebs : bs = rev rrest1 ++ b :: it :: post).
    { unfold bs. cbn [rev]. rewrite <- app_assoc. cbn [app]. rewrite Epost.
      reflexivity. }
    assert (Hnfirst : b_ptr it <> first_block st).
    { intros E.
      assert (Ebs2 : bs = (rev rrest1 ++ [b]) ++ it :: post)
        by (rewrite Ebs, <- app_assoc; reflexivity).
      apply (layout_first st bs _ it post HL Ebs2) in E.
      destruct (rev rrest1); discriminate. }
    destruct (Z.eqb_spec (b_ptr it) (first_block st)) as [| _]; [contradiction |].
    cbn [negb andb].
    pose proof (layout_LEFT st bs _ b it post HL Ebs) as ELf. rewrite ELf.
    assert (Hb : In b bs) by (rewrite Ebs; apply in_middle).
    destruct (layout_block st bs b HL Hb) as (Hok & _ & _ & Bs).
    rewrite (big_free_block st b Hok).
    unfold lr. cbn [take_run].
    destruct (coalescible b) eqn:Ecb.
    + assert (Hu : b_used b = false).
      { unfold coalescible in Ecb. destruct (b_used b); [discriminate | reflexivity]. }
      assert (HbD : ~ In (b_ptr b) D) by (apply HD; left; reflexivity).
      destruct (unlink_block D st bs FL b HE Hb Hu HbD) as (HE' & HG & Hfr & Hc).
      cbv zeta in HE', HG, Hfr.
      rewrite (block_size_read st b Hok).
      set (st' := remove_from_free_list st (GET_CLASS (b_size b)) (b_ptr b)) in *.
      pose proof HE' as (HL' & _).
      pose proof (layout_LEFT st' bs _ b it post HL' Ebs) as ELf'. rewrite ELf'.
      cbn [total_size fold_right] in Ht. fold (total_size rrest1) in Ht.
      assert (Hposall : Forall (fun x => 0 < b_size x) bs).
      { destruct HL as (_ & _ & _ & _ & _ & Hok'). apply (block_ok_pos st). exact Hok'. }
      assert (Hpos1 : 0 <= total_size rrest1).
      { apply total_size_nonneg. rewrite Ebs in Hposall.
        apply Forall_app in Hposall. destruct Hposall as [Hp _].
        apply Forall_forall. intros x Hx.
        apply (proj1 (Forall_forall _ _) Hp x). apply -> in_rev. exact Hx. }
      rewrite wrap_small by lia.
      assert (Ebs' : bs = rev rrest1 ++ (b :: done) ++ P :: right).
      { unfold bs. cbn [rev]. rewrite <- app_assoc. reflexivity. }
      destruct (IH st' (without [b_ptr b] FL) (b_ptr b :: D) (b :: done) rrest1
                  (total + b_size b)) as (st2 & Eloop & HE2 & HG2 & Hfr2).
      * rewrite <- Ebs'. exact HE'.
      * intros x Hx [E | H].
        -- assert (Hxin : In x bs).
           { rewrite Ebs. apply in_or_app. left. apply -> in_rev. exact Hx. }
           pose proof (layout_ptr_inj st bs _ _ HL Hb Hxin E) as Exb. subst x.
           pose proof HL as (_ & _ & _ & Htl & _ & _).
           rewrite Ebs in Htl, Hposall.
           destruct (tiles_middle _ _ _ _ _ Htl Hposall) as (_ & _ & Hl & _).
           assert (Hx' : In b (rev rrest1)) by (apply -> in_rev; exact Hx).
           specialize (Hl b Hx').
           pose proof (proj1 (Forall_forall _ _) Hposall b
                         (in_middle _ _ _)) as Hp. cbv beta in Hp. lia.
        -- apply (HD x (or_intror Hx) H).
      * lia.
      * lia.
      * cbn [length] in Hfuel. lia.
      * cbn [hd] in Eloop.
        destruct (take_run rrest1) as [r rest'] eqn:Etr. cbn [fst] in *.
        exists st2. split; [| split; [| split]].
        -- rewrite Eloop. cbn [total_size fold_right rev]. fold (total_size r).
           f_equal. f_equal; [| lia]. f_equal. f_equal.
           rewrite <- app_assoc. reflexivity.
        -- rewrite <- Ebs' in HE2.
           refine (heap_ok_except_ext _ _ _ _ _ _ _ _ HE2).
           ++ intros x. cbn [map]. rewrite !in_app_iff. cbn [In]. tauto.
           ++ intros c. cbn [map]. rewrite without_app. reflexivity.
        -- apply (same_globals_trans _ st'); assumption.
        -- intros a Hla. rewrite Hfr2; [apply Hfr; exact Hla |].
           intros Hla'. apply Hla.
           destruct HG as (_ & _ & G3 & _).
           destruct Hla' as [Ht' | (c & x & Hc' & Hx & Hax)].
           ++ left. rewrite <- G3. exact Ht'.
           ++ right. exists c, x. apply in_without in Hx. tauto.
    + exists st. cbn [fst map app total_size fold_right rev].
      rewrite Z.add_0_r. split; [reflexivity |].
      split; [| split; [apply same_globals_refl | reflexivity]].
      apply (heap_ok_except_ext D _ st bs FL); [tauto | | exact HE].
      intros c. apply without_nil.
Qed.
End LeftWalk.

(** ** [mm_free] on a well-formed heap *)

(** The detached free block at [q] is pushed on the list of its class. *)
Lemma push_block st bs FL q s :
  heap_ok_except [q] st bs FL ->
  In (mkBlock q s false) bs ->
  let c := GET_CLASS s in
  c < CLASSES ->
  let st' := put_on_front_of_class_list st c q in
  heap_ok st' bs (upd FL c (q :: FL c)) /\
  same_globals st st' /\
  (forall a, ~ link_area st FL a -> ~ (q <= a < q + 16) -> mem st' a = mem st a).
Proof.
  intros (HL & HF & HI & HD) Hin c Hc st'.
  assert (Hc' : 0 <= c < CLASSES) by (pose proof (GET_CLASS_range s); fold c in H; lia).
  assert (Hnotin : ~ In q (FL c)).
  { intros H. apply (HD c q Hc' H). left. reflexivity. }
  destruct (insert_free_lists st bs FL c q s false HL HF Hc' Hin eq_refl Hnotin)
    as (HL' & HF' & HG & Hfr).
  cbv zeta in HL', HF', HG, Hfr. fold st' in HL', HF', HG, Hfr.
  split; [| split; [exact HG |]].
  - split; [exact HL' |]. split; [exact HF' |].
    intros b Hb. destruct (Z.eq_dec (b_ptr b) q) as [E | Hne].
    + assert (b = mkBlock q s false) by (apply (layout_ptr_inj st bs); assumption).
      subst b. cbn [b_used b_size b_ptr]. fold c. rewrite upd_same.
      split; [| reflexivity]. intros _. split; [exact Hc' | left; reflexivity].
    + assert (HnD : ~ In (b_ptr b) [q]) by (intros [E | []]; congruence).
      rewrite (HI b Hb HnD). split.
      * intros [H1 H2]. split; [exact H1 |]. apply in_upd_cons; assumption.
      * intros [H1 H2]. split; [exact H1 |].
        apply (in_upd_cons FL c q) in H2; assumption.
  - intros a Hla Hq. apply Hfr.
    + intros H. apply Hla. left. consts. lia.
    + exact Hq.
    + intros x Hx Ha. apply Hla. right. exists c, x.
      split; [exact Hc' |]. split; [exact Hx | lia].
Qed.

(** The first step of [mm_free]: the used block at [p] is marked free;
    it is on no list yet. *)
Lemma mark_free st FL l1 l2 p s :
  heap_ok st (l1 ++ mkBlock p s true :: l2) FL ->
  let st1 := WRITE_DATA st (HEADER p) (PACK (GET_SIZE st (HEADER p)) 0) in
  let st2 :=
    WRITE_DATA st1 (FOOTER st1 p) (PACK (GET_SIZE st1 (HEADER p)) 0) in
  heap_ok_except [p] st2 (l1 ++ mkBlock p s false :: l2) FL /\
  same_globals st st2 /\
  GET_SIZE st2 (HEADER p) = s /\
  (forall a, ~ (HEADER p <= a < HEADER p + 8) ->
             ~ (p + s - HF_OVERHEAD <= a < p + s - HF_OVERHEAD + 8) ->
             mem st2 a = mem st a).
Proof.
  intros (HL & HF & HI) st1 st2.
  destruct (retag_block st l1 (mkBlock p s true) l2 FL false HL HF)
    as (HL2 & HF2 & HG2 & Hfr2).
  cbn [b_ptr b_size] in HL2, HF2, HG2, Hfr2. fold st1 in HL2, HF2, HG2, Hfr2.
  fold st2 in HL2, HF2, HG2, Hfr2.
  assert (Hp : forall c, 0 <= c < CLASSES -> ~ In p (FL c)).
  { intros c Hc Hin.
    destruct (node_block st _ FL HL HF c p Hc Hin) as (s' & u' & Hb & Hcl & _).
    assert (E : mkBlock p s' u' = mkBlock p s true).
    { apply (layout_ptr_inj st _ _ _ HL Hb); [apply in_middle | reflexivity]. }
    injection E as -> ->.
    assert (Hf : true = false); [| discriminate].
    apply (HI _ Hb). cbn [b_size b_ptr]. rewrite Hcl. split; assumption. }
  split; [| split; [exact HG2 | split; [| exact Hfr2]]].
  - split; [exact HL2 |]. split; [exact HF2 |]. split.
    + intros b Hb HnD.
      assert (Hne : b <> mkBlock p s true).
      { intros ->. cbn [b_ptr] in HnD. apply HnD. left. reflexivity. }
      destruct (in_replace_middle l1 l2 _ (mkBlock p s true) _ Hb) as [E | Hb'].
      * subst b. exfalso. apply HnD. left. reflexivity.
      * apply (HI b Hb').
    + intros c x Hc Hx [E | []]. subst x. apply (Hp c Hc Hx).
  - assert (Hb : In (mkBlock p s false) (l1 ++ mkBlock p s false :: l2))
      by apply in_middle.
    destruct (layout_block st2 _ _ HL2 Hb) as (Hok & _).
    apply (block_size_read st2 _ Hok).
Qed.

Lemma take_run_app l : l = fst (take_run l) ++ snd (take_run l).
Proof.
  induction l as [| b l IH]; cbn [take_run]; [reflexivity |].
  destruct (coalescible b); [| reflexivity].
  destruct (take_run l) as [r rest]. cbn [fst snd app] in *. f_equal. exact IH.
Qed.

Lemma total_size_rev l : total_size (rev l) = total_size l.
Proof.
  induction l as [| b l IH]; [reflexivity |].
  cbn [rev]. rewrite total_size_app. cbn [total_size fold_right].
  fold (total_size l). lia.
Qed.

Lemma total_size_mod8 st l :
  Forall (block_ok st) l -> total_size l mod 8 = 0.
Proof.
  induction 1 as [| b l Hb _ IH]; cbn [total_size fold_right]; [reflexivity |].
  fold (total_size l). destruct Hb as (_ & Hm & _). zlia.
Qed.

Lemma layout_total st bs :
  heap_layout st bs -> total_size bs < 2 ^ 64.
Proof.
  intros (HT & Hfb & Hbrk & Ht & _). apply tiles_end in Ht. consts. lia.
Qed.

Lemma hd_app_single (l : list block) (P : block) : hd P (l ++ [P]) = hd P l.
Proof. destruct l; reflexivity. Qed.

Section Coalesce.
Variables (st : state) (FL : Z -> list Z) (l1 l2 : list block) (P : block).
Variable fuel : nat.
Let bs := l1 ++ P :: l2.
Let rr := fst (take_run l2).
Let l2' := snd (take_run l2).
Let lrr := fst (take_run (rev l1)).
Let l1' := rev (snd (take_run (rev l1))).
Let lr := rev lrr.
Let p' := b_ptr (hd P lr).
Let t := total_size (lr ++ P :: rr).
Let M := mkBlock p' t false.
Let FL2 := without (map b_ptr (rr ++ lrr)) FL.
Hypothesis HE : heap_ok_except [b_ptr P] st bs FL.
Hypothesis Hf1 : (length l1 < fuel)%nat.
Hypothesis Hf2 : (length l2 < fuel)%nat.

Local Lemma co_split : bs = l1' ++ (lr ++ P :: rr) ++ l2'.
Proof.
  unfold bs, l1', lr, lrr, rr, l2'.
  rewrite (take_run_app l2) at 1.
  rewrite <- (rev_involutive l1) at 1. rewrite (take_run_app (rev l1)) at 1.
  rewrite rev_app_distr. rewrite <- !app_assoc. reflexivity.
Qed.

Local Lemma co_others x :
  In x l1' \/ In x l2' ->
  In x bs /\ ~ In (b_ptr x) (map b_ptr (lr ++ P :: rr)) /\
  (b_ptr x + b_size x <= p' \/ p' + t <= b_ptr x).
Proof.
  intros Hx. pose proof HE as (HL & _).
  pose proof HL as (_ & _ & _ & Ht & _ & Hok).
  pose proof (block_ok_pos _ _ Hok) as Hpos.
  rewrite co_split in Ht, Hpos.
  destruct (tiles_run _ _ _ _ _ Ht Hpos) as (T1 & T2 & T3 & _ & _ & _ & X1 & X2 & X3).
  assert (Ep : p' = first_block st + total_size l1').
  { unfold p'. destruct lr as [| y lr0]; cbn [app hd tiles] in T2 |- *;
      destruct T2 as [T2 _]; exact T2. }
  fold t in T2, T3, X2, X3. rewrite <- Ep in *.
  assert (Hin : In x bs).
  { rewrite co_split. apply in_or_app. destruct Hx as [Hx | Hx];
      [left; exact Hx | right; apply in_or_app; right; exact Hx]. }
  assert (Hd : b_ptr x + b_size x <= p' \/ p' + t <= b_ptr x).
  { destruct Hx as [Hx | Hx]; [left; apply (X1 x Hx) | right; apply (X3 x Hx)]. }
  split; [exact Hin |]. split; [| exact Hd].
  intros Hm. apply in_map_iff in Hm. destruct Hm as (y & Ey & Hy).
  specialize (X2 y Hy).
  pose proof (proj1 (Forall_forall _ _) Hpos x) as Px.
  rewrite <- co_split in Px. specialize (Px Hin). cbv beta in Px.
  pose proof (proj1 (Forall_forall _ _) Hpos y) as Py.
  assert (Hyin : In y (l1' ++ (lr ++ P :: rr) ++ l2'))
    by (apply in_or_app; right; apply in_or_app; left; exact Hy).
  specialize (Py Hyin). cbv beta in Py. lia.
Qed.

Lemma coalesce_spec :
  exists st',
    coalesce fuel st (b_ptr P) = Some (p', st') /\
    heap_ok_except [p'] st' (l1' ++ M :: l2') FL2 /\
    mem_brk st' = mem_brk st /\ mem_max_addr st' = mem_max_addr st /\
    lookup_table st' = lookup_table st /\
    GET_SIZE st' (HEADER p') = t /\
    b_size P <= t /\
    (forall c x, 0 <= c < CLASSES -> In x (FL2 c) -> In x (FL c)) /\
    (forall a, ~ link_area st FL a -> ~ (p' - 8 <= a < p' + t - 8) ->
               mem st' a = mem st a).
Proof.
  pose proof HE as (HL & HF & HI & HD).
  pose proof HL as (HT & Hfb & Hbrk & Htl & _ & Hok).
  pose proof (block_ok_pos _ _ Hok) as Hpos.
  pose proof (layout_total st bs HL) as Htot.
  assert (HP : In P bs) by apply in_middle.
  destruct (layout_block st bs P HL HP) as (HokP & _ & _ & BP).
  destruct (tiles_middle _ _ _ _ _ Htl Hpos) as (_ & _ & Xl & Xr).
  assert (Etot : total_size bs = total_size l1 + (b_size P + total_size l2)).
  { unfold bs. rewrite total_size_app. reflexivity. }
  assert (Hp1 : 0 <= total_size l1).
  { apply total_size_nonneg. apply Forall_app in Hpos. apply Hpos. }
  assert (Hp2 : 0 <= total_size l2).
  { apply total_size_nonneg. apply Forall_app in Hpos. destruct Hpos as [_ Hp].
    inversion Hp; assumption. }
  (* to the right *)
  destruct (coalesce_right_spec l1 P fuel st FL [b_ptr P] [] l2 (b_size P))
    as (st1 & ER & HE1 & HG1 & Hfr1).
  { exact HE. }
  { intros b Hb [E | []]. specialize (Xr b Hb). lia. }
  { lia. }
  { lia. }
  { exact Hf2. }
  cbn [app] in ER, HE1. fold bs in HE1. fold rr in ER, HE1.
  (* to the left *)
  assert (Ebs : bs = rev (rev l1) ++ [] ++ P :: l2)
    by (rewrite rev_involutive; reflexivity).
  rewrite Ebs in HE1.
  destruct (coalesce_left_spec P l2 fuel st1 _ _ [] (rev l1)
              (b_size P + total_size rr) HE1) as (st2 & EL & HE2 & HG2 & Hfr2).
  { intros b Hb Hin. apply in_rev in Hb. specialize (Xl b Hb).
    pose proof (proj1 (Forall_forall _ _) Hpos b (in_or_app _ _ _ (or_introl Hb))) as Pb.
    cbv beta in Pb.
    apply in_app_or in Hin. destruct Hin as [Hin | [E | []]]; [| lia].
    apply in_map_iff in Hin. destruct Hin as (y & Ey & Hy).
    assert (Hy2 : In y l2).
    { rewrite (take_run_app l2). apply in_or_app. left. exact Hy. }
    specialize (Xr y Hy2). lia. }
  { pose proof (total_size_nonneg rr) as Hr.
    assert (Forall (fun b => 0 < b_size b) rr).
    { apply Forall_forall. intros y Hy. apply (proj1 (Forall_forall _ _) Hpos y).
      apply in_or_app. right. right. rewrite (take_run_app l2).
      apply in_or_app. left. exact Hy. }
    specialize (Hr H). lia. }
  { rewrite total_size_rev.
    assert (El2 : total_size l2 = total_size rr + total_size l2')
      by (unfold rr, l2'; rewrite <- total_size_app, <- take_run_app; reflexivity).
    assert (0 <= total_size l2'); [| lia].
    apply total_size_nonneg. apply Forall_forall. intros y Hy.
    apply (proj1 (Forall_forall _ _) Hpos y).
    apply in_or_app. right. right. rewrite (take_run_app l2).
    apply in_or_app. right. exact Hy. }
  { rewrite length_rev. exact Hf1. }
  rewrite <- Ebs in HE2. fold lrr in EL, HE2. cbn [hd] in EL.
  rewrite app_nil_r in EL. fold lr in EL. fold p' in EL.
  assert (Et : b_size P + total_size rr + total_size lrr = t).
  { unfold t. rewrite total_size_app. cbn [total_size fold_right].
    fold (total_size rr). unfold lr. rewrite total_size_rev. lia. }
  rewrite Et in EL.
  (* the merged block *)
  pose proof HE2 as (HL2 & HF2 & HI2 & HD2).
  assert (Hrun : Forall (block_ok st) (lr ++ P :: rr)).
  { apply Forall_forall. intros y Hy. apply (proj1 (Forall_forall _ _) Hok y).
    rewrite co_split. apply in_or_app. right. apply in_or_app. left. exact Hy. }
  assert (Ht8 : t mod 8 = 0) by (apply (total_size_mod8 st); exact Hrun).
  assert (HtP : b_size P <= t).
  { rewrite <- Et.
    assert (0 <= total_size rr /\ 0 <= total_size lrr); [| lia]. split.
    - apply total_size_nonneg. apply Forall_forall. intros y Hy.
      apply (proj1 (Forall_forall _ _) (block_ok_pos _ _ Hrun) y).
      apply in_or_app. right. right. exact Hy.
    - rewrite <- total_size_rev. apply total_size_nonneg.
      apply Forall_forall. intros y Hy.
      apply (proj1 (Forall_forall _ _) (block_ok_pos _ _ Hrun) y).
      apply in_or_app. left. exact Hy. }
  assert (Htr : 0 <= t < 2 ^ 64).
  { split; [lia |].
    assert (Etb : total_size bs = total_size l1' + (t + total_size l2')).
    { rewrite co_split. rewrite total_size_app.
      rewrite (total_size_app (lr ++ P :: rr) l2'). reflexivity. }
    assert (0 <= total_size l1' /\ 0 <= total_size l2'); [| lia].
    rewrite co_split in Hpos. apply Forall_app in Hpos. destruct Hpos as [Q1 Q2].
    apply Forall_app in Q2. destruct Q2 as [_ Q3].
    split; apply total_size_nonneg; assumption. }
  destruct (write_tags st2 p' t 0 Htr Ht8 ltac:(lia)) as (F1 & H1 & T1 & Fr).
  cbv zeta in F1, H1, T1, Fr.
  set (st3 := WRITE_DATA st2 (HEADER p') (PACK t 0)) in *.
  set (st4 := WRITE_DATA st3 (FOOTER st3 p') (PACK t 0)) in *.
  set (it := b_ptr (last (P :: rr) P)) in *.
  set (st5 := if end_heap st4 =? it then set_end_heap st4 p' else st4).
  assert (Eco : coalesce fuel st (b_ptr P) = Some (p', st5)).
  { unfold coalesce. rewrite (block_size_read st P HokP).
    change (b_ptr (last [P] P)) with (b_ptr P) in ER. rewrite ER.
    change (b_ptr (hd P [])) with (b_ptr P) in EL. rewrite EL. reflexivity. }
  assert (HG12 : same_globals st st2) by (apply (same_globals_trans _ st1); assumption).
  destruct HG12 as (G1 & G2 & G3 & G4 & G5).
  assert (Hmem5 : mem st5 = mem st4) by (unfold st5; destruct (_ =? it); reflexivity).
  (* where the merged block lies *)
  rewrite co_split in Htl. pose proof Hpos as Hpos'. rewrite co_split in Hpos'.
  destruct (tiles_run _ _ _ _ _ Htl Hpos') as (T1' & T2' & T3' & Ba & Bz & Be & X1 & X2 & X3).
  assert (Ep : p' = first_block st + total_size l1').
  { unfold p'. destruct lr as [| y lr0]; cbn [app hd tiles] in T2' |- *;
      destruct T2' as [T2' _]; exact T2'. }
  fold t in T2', T3', X2, X3, Bz, Be. rewrite <- Ep in *.
  assert (Hfr5 : forall a, p' - 8 <= a < p' + t - 8 \/ mem st5 a = mem st2 a).
  { intros a. destruct (Z_le_dec (p' - 8) a); [destruct (Z_lt_dec a (p' + t - 8)) |];
      [left; lia | |]; right; rewrite Hmem5; apply Fr; consts; lia. }
  assert (Hlast : l2' = [] <-> it = end_heap st).
  { destruct (last_cons_app P rr) as (pre & Epre). unfold it.
    set (lb := last (P :: rr) P) in *.
    assert (Ebs2 : bs = (l1 ++ pre) ++ lb :: l2').
    { unfold bs. rewrite (take_run_app l2). fold rr. fold l2'.
      change (l1 ++ P :: rr ++ l2') with (l1 ++ (P :: rr) ++ l2').
      rewrite Epre. rewrite <- !app_assoc. reflexivity. }
    split; intros H.
    - apply (layout_last st bs _ _ _ HL Ebs2). exact H.
    - apply (layout_last st bs _ _ _ HL Ebs2). exact H. }
  assert (HL5 : heap_layout st5 (l1' ++ [M] ++ l2')).
  { rewrite co_split in HL2.
    apply (heap_layout_replace st2 st5 l1' (lr ++ P :: rr) [M] l2' M HL2).
    - discriminate.
    - rewrite G4. fold t. rewrite <- Ep. unfold M.
      cbn [tiles b_ptr b_size]. split; [reflexivity | reflexivity].
    - constructor; [| constructor]. unfold block_ok, tag, M.
      cbn [b_ptr b_size b_used]. rewrite Hmem5 || idtac.
      split; [consts; lia |]. split; [exact Ht8 |]. split.
      + rewrite <- H1. apply READ_DATA_ext. intros a _. rewrite Hmem5. reflexivity.
      + rewrite <- T1. apply READ_DATA_ext. intros a _. rewrite Hmem5. reflexivity.
    - unfold st5. destruct (_ =? it); reflexivity.
    - unfold st5. destruct (_ =? it); reflexivity.
    - unfold st5. destruct (_ =? it); reflexivity.
    - intros El2. cbn [last b_ptr M]. apply Hlast in El2.
      unfold st5. change (end_heap st4) with (end_heap st2).
      rewrite G5, El2, Z.eqb_refl. reflexivity.
    - intros El2. unfold st5. change (end_heap st4) with (end_heap st2).
      rewrite G5. destruct (Z.eqb_spec (end_heap st) it) as [E |]; [| exact G5].
      exfalso. apply El2. apply Hlast. symmetry. exact E.
    - intros a. rewrite G4. fold t. rewrite <- Ep. apply Hfr5. }
  assert (Hnode : forall c x, 0 <= c < CLASSES ->
            In x (without (map b_ptr lrr) (without (map b_ptr rr) FL) c) ->
            exists s u, In (mkBlock x s u) bs /\ (In (mkBlock x s u) l1' \/ In (mkBlock x s u) l2')).
  { intros c x Hc Hx.
    destruct (node_block st2 bs _ HL2 HF2 c x Hc Hx) as (s & u & Hb & _).
    exists s, u. split; [exact Hb |].
    specialize (HD2 c x Hc Hx).
    rewrite co_split in Hb. apply in_app_or in Hb. destruct Hb as [Hb | Hb];
      [left; exact Hb |].
    apply in_app_or in Hb. destruct Hb as [Hb | Hb]; [| right; exact Hb].
    exfalso. apply HD2. apply in_app_or in Hb. destruct Hb as [Hb | [Hb | Hb]].
    - apply in_or_app. left. apply in_map_iff. exists (mkBlock x s u).
      split; [reflexivity |]. unfold lr in Hb. apply in_rev in Hb. exact Hb.
    - apply in_or_app. right. apply in_or_app. right. left. rewrite Hb. reflexivity.
    - apply in_or_app. right. apply in_or_app. left. apply in_map_iff.
      exists (mkBlock x s u). split; [reflexivity | exact Hb]. }
  assert (HF5 : free_lists st5 (l1' ++ [M] ++ l2')
                           (without (map b_ptr lrr) (without (map b_ptr rr) FL))).
  { apply (free_lists_frame st2 st5 bs _ _ HF2).
    - unfold st5. destruct (_ =? it); reflexivity.
    - intros a Ha. destruct (Hfr5 a) as [H | H]; [| exact H].
      exfalso. rewrite G3 in Ha. consts. lia.
    - intros c x a Hc Hx Ha. destruct (Hfr5 a) as [H | H]; [| exact H].
      exfalso. destruct (Hnode c x Hc Hx) as (s & u & Hb & Hside).
      destruct (co_others _ Hside) as (_ & _ & Hd). cbn [b_ptr b_size] in Hd.
      destruct (layout_block st bs _ HL Hb) as (_ & _ & _ & Bx).
      cbn [b_size] in Bx. lia.
    - intros c x s u Hc Hx Hb. exists u.
      destruct (Hnode c x Hc Hx) as (s' & u' & Hb' & Hside).
      assert (E : mkBlock x s u = mkBlock x s' u')
        by (apply (layout_ptr_inj st bs); try assumption; reflexivity).
      rewrite E. apply in_or_app.
      destruct Hside; [left | right; right]; assumption. }
  exists st5. split; [exact Eco |].
  assert (Eext : forall c,
            FL2 c = without (map b_ptr lrr) (without (map b_ptr rr) FL) c).
  { intros c. rewrite without_app. unfold FL2. rewrite map_app. reflexivity. }
  split; [| split; [| split; [| split; [| split; [| split; [| split]]]]]].
  - apply (heap_ok_except_ext [p'] [p'] st5 _
             (without (map b_ptr lrr) (without (map b_ptr rr) FL)));
      [tauto | exact Eext |].
    split; [exact HL5 |]. split; [exact HF5 |]. split.
    + intros b Hb HnD.
      apply in_app_or in Hb. destruct Hb as [Hb | [Hb | Hb]].
      * destruct (co_others b (or_introl Hb)) as (Hin & Hnr & _).
        apply (HI2 b Hin). intros HinD. apply Hnr.
        rewrite map_app. cbn [map]. rewrite in_app_iff. cbn [In].
        unfold lr. rewrite map_rev, <- in_rev.
        rewrite !in_app_iff in HinD. cbn [In] in HinD. tauto.
      * subst b. exfalso. apply HnD. left. reflexivity.
      * destruct (co_others b (or_intror Hb)) as (Hin & Hnr & _).
        apply (HI2 b Hin). intros HinD. apply Hnr.
        rewrite map_app. cbn [map]. rewrite in_app_iff. cbn [In].
        unfold lr. rewrite map_rev, <- in_rev.
        rewrite !in_app_iff in HinD. cbn [In] in HinD. tauto.
    + intros c x Hc Hx [E | []]. subst x.
      destruct (Hnode c p' Hc Hx) as (s & u & Hb & Hside).
      destruct (co_others _ Hside) as (_ & _ & Hd). cbn [b_ptr b_size] in Hd.
      destruct (layout_block st bs _ HL Hb) as (_ & _ & _ & Bx).
      cbn [b_size] in Bx. lia.
  - unfold st5. destruct (_ =? it); exact G1.
  - unfold st5. destruct (_ =? it); exact G2.
  - unfold st5. destruct (_ =? it); exact G3.
  - apply (GET_SIZE_tag _ _ t 0); [| exact Ht8 | lia].
    rewrite <- H1. apply READ_DATA_ext. intros a _. rewrite Hmem5. reflexivity.
  - exact HtP.
  - intros c x Hc Hx. rewrite Eext in Hx.
    apply in_without in Hx. destruct Hx as [Hx _].
    apply in_without in Hx. apply Hx.
  - intros a Hla Hext. destruct (Hfr5 a) as [H | H]; [lia |].
    rewrite H. rewrite Hfr2; [apply Hfr1; exact Hla |].
    intros Hla'. apply Hla. destruct HG1 as (_ & _ & G3' & _).
    destruct Hla' as [Ht' | (c & x & Hc' & Hx & Hax)].
    + left. rewrite <- G3'. exact Ht'.
    + right. exists c, x. apply in_without in Hx. tauto.
Qed.
End Coalesce.

Lemma heap_ok_ext st bs FL FL' :
  (forall c, FL' c = FL c) -> heap_ok st bs FL -> heap_ok st bs FL'.
Proof.
  intros E H. apply heap_ok_except_nil. apply heap_ok_except_nil in H.
  apply (heap_ok_except_ext [] [] st bs FL FL'); [tauto | exact E | exact H].
Qed.

Lemma upd_ext FL FL' c l l' :
  (forall c', FL' c' = FL c') -> l' = l ->
  forall c', upd FL' c l' c' = upd FL c l c'.
Proof. intros E -> c'. unfold upd. destruct (c' =? c); [reflexivity | apply E]. Qed.

Lemma mm_free_spec st FL l1 l2 p s fuel :
  heap_ok st (l1 ++ mkBlock p s true :: l2) FL ->
  (length l1 < fuel)%nat -> (length l2 < fuel)%nat ->
  let P := mkBlock p s false in
  let coal := LIMIT_COALESCE <? GET_CLASS s in
  let rr := if coal then fst (take_run l2) else [] in
  let l2' := if coal then snd (take_run l2) else l2 in
  let lrr := if coal then fst (take_run (rev l1)) else [] in
  let l1' := if coal then rev (snd (take_run (rev l1))) else l1 in
  let p' := b_ptr (hd P (rev lrr)) in
  let t := total_size (rev lrr ++ P :: rr) in
  let M := mkBlock p' t false in
  let FL2 := without (map b_ptr (rr ++ lrr)) FL in
  let cM := GET_CLASS t in
  exists st',
    mm_free fuel st p = Some st' /\
    (if cM <? CLASSES
     then heap_ok st' (l1' ++ M :: l2') (upd FL2 cM (p' :: FL2 cM))
     else heap_ok_except [p'] st' (l1' ++ M :: l2') FL2) /\
    mem_brk st' = mem_brk st /\ mem_max_addr st' = mem_max_addr st /\
    (forall a, ~ link_area st FL a -> ~ (p' - 8 <= a < p' + t - 8) ->
               mem st' a = mem st a).
Proof.
  intros Hok Hf1 Hf2. cbv zeta. set (P := mkBlock p s false).
  pose proof Hok as (HL & HF & HI).
  assert (HPin : In (mkBlock p s true) (l1 ++ mkBlock p s true :: l2)) by apply in_middle.
  destruct (layout_block st _ _ HL HPin) as (_ & Bp1 & _ & Bs).
  cbn [b_ptr b_size] in Bp1, Bs.
  assert (Hp0 : p <> NULL).
  { destruct HL as (HT & Hfb & _). consts. lia. }
  destruct (mark_free st FL l1 l2 p s Hok) as (HE & HG & Hsz & Hfr).
  cbv zeta in HE, HG, Hsz, Hfr.
  set (st1 := WRITE_DATA st (HEADER p) (PACK (GET_SIZE st (HEADER p)) 0)) in *.
  set (st2 := WRITE_DATA st1 (FOOTER st1 p) (PACK (GET_SIZE st1 (HEADER p)) 0)) in *.
  fold P in HE.
  assert (Hfr' : forall a, ~ (p - 8 <= a < p + s - 8) -> mem st2 a = mem st a).
  { intros a Ha. apply Hfr; consts; lia. }
  unfold mm_free. destruct (Z.eqb_spec p NULL) as [| _]; [contradiction |].
  fold st1. fold st2. rewrite Hsz.
  destruct (LIMIT_COALESCE <? GET_CLASS s) eqn:Ecoal.
  - (* the block is above the limit: coalesce *)
    destruct (coalesce_spec st2 FL l1 l2 P fuel HE Hf1 Hf2)
      as (st3 & Eco & HE3 & G1 & G2 & G3 & Hsz3 & HtP & Hsub & Hfr3).
    change (b_ptr P) with p in Eco. rewrite Eco.
    set (rr := fst (take_run l2)) in *. set (l2' := snd (take_run l2)) in *.
    set (q := b_ptr (hd P (rev (fst (take_run (rev l1)))))) in *.
    set (tt := total_size (rev (fst (take_run (rev l1))) ++ P :: rr)) in *.
    set (F2 := without (map b_ptr (rr ++ fst (take_run (rev l1)))) FL) in *.
    rewrite Hsz3.
    assert (Hrun : forall a, ~ (q - 8 <= a < q + tt - 8) -> ~ (p - 8 <= a < p + s - 8)).
    { intros a Ha Hp.
      pose proof HE as (HL2 & _).
      pose proof HL2 as (_ & _ & _ & Htl & _ & Hok2).
      pose proof (block_ok_pos _ _ Hok2) as Hpos.
      assert (Esp : l1 ++ P :: l2 =
                rev (snd (take_run (rev l1)))
                ++ (rev (fst (take_run (rev l1))) ++ P :: rr) ++ l2').
      { unfold rr, l2'. rewrite (take_run_app l2) at 1.
        rewrite <- (rev_involutive l1) at 1. rewrite (take_run_app (rev l1)) at 1.
        rewrite rev_app_distr. rewrite <- !app_assoc. reflexivity. }
      rewrite Esp in Htl, Hpos.
      destruct (tiles_run _ _ _ _ _ Htl Hpos) as (_ & T2 & _ & _ & _ & _ & _ & X2 & _).
      fold tt in T2, X2.
      assert (Eq : q = first_block st2 + total_size (rev (snd (take_run (rev l1))))).
      { unfold q. destruct (rev (fst (take_run (rev l1)))) as [| y l0];
          cbn [app hd tiles] in T2 |- *; destruct T2 as [T2 _]; exact T2. }
      rewrite <- Eq in X2.
      specialize (X2 P (in_middle _ _ _)). change (b_ptr P) with p in X2.
      change (b_size P) with s in X2. lia. }
    destruct (Z.ltb_spec (GET_CLASS tt) CLASSES) as [HcM | HcM].
    + pose proof HE3 as (HL3 & _).
      assert (HM : In (mkBlock q tt false)
                      (rev (snd (take_run (rev l1))) ++ mkBlock q tt false :: l2'))
        by apply in_middle.
      destruct (push_block st3 _ F2 q tt HE3 HM HcM) as (Hok4 & HG4 & Hfr4).
      cbv zeta in Hok4, HG4, Hfr4.
      eexists. split; [reflexivity |]. split; [exact Hok4 |].
      destruct HG4 as (G1' & G2' & _). destruct HG as (G1'' & G2'' & G3'' & _).
      split; [congruence |]. split; [congruence |].
      intros a Hla Hext. rewrite Hfr4.
      * rewrite Hfr3; [apply Hfr'; apply Hrun; exact Hext | | exact Hext].
        intros H. apply Hla. apply (link_area_globals _ _ _ _ G3'' H).
      * intros H. apply Hla. destruct H as [H | (c & x & Hc & Hx & Hax)].
        -- left. rewrite G3, G3'' in H. exact H.
        -- right. exists c, x. split; [exact Hc |]. split; [| exact Hax].
           apply (Hsub c x Hc Hx).
      * destruct (layout_block st3 _ _ HL3 HM) as (_ & _ & _ & BM).
        cbn [b_size] in BM. lia.
    + assert (Eid : put_on_front_of_class_list st3 (GET_CLASS tt) q = st3).
      { unfold put_on_front_of_class_list.
        destruct (Z.leb_spec CLASSES (GET_CLASS tt)); [| lia].
        rewrite orb_true_r. reflexivity. }
      rewrite Eid. exists st3. split; [reflexivity |]. split; [exact HE3 |].
      destruct HG as (G1'' & G2'' & G3'' & _).
      split; [congruence |]. split; [congruence |].
      intros a Hla Hext.
      rewrite Hfr3; [apply Hfr'; apply Hrun; exact Hext | | exact Hext].
      intros H. apply Hla. apply (link_area_globals _ _ _ _ G3'' H).
  - (* a small block: no coalescing *)
    cbn [rev app hd map total_size fold_right b_ptr b_size P].
    rewrite Z.add_0_r.
    assert (Hc : GET_CLASS s < CLASSES).
    { apply Z.ltb_ge in Ecoal. consts. lia. }
    assert (HM : In (mkBlock p s false) (l1 ++ P :: l2)) by apply in_middle.
    destruct (push_block st2 _ FL p s HE HM Hc) as (Hok4 & HG4 & Hfr4).
    cbv zeta in Hok4, HG4, Hfr4.
    destruct (Z.ltb_spec (GET_CLASS s) CLASSES) as [_ |]; [| lia].
    eexists. split; [reflexivity |]. split.
    + refine (heap_ok_ext _ _ _ _ _ Hok4). apply upd_ext.
      * intros c. apply without_nil.
      * rewrite without_nil. reflexivity.
    + destruct HG4 as (G1' & G2' & _). destruct HG as (G1'' & G2'' & G3'' & _).
      split; [congruence |]. split; [congruence |].
      intros a Hla Hext. rewrite Hfr4.
      * apply Hfr'. exact Hext.
      * intros H. apply Hla. apply (link_area_globals _ _ _ _ G3'' H).
      * lia.
Qed.
(** ** [mm_free] *)

(** C6 (the code misses what the claim and its own comment say).  The
    comment of [mm_free] says that the freed block is inserted at the
    beginning of the free list of the class to which it belongs.  In a
    store of 64 MiB a block of [64 * 2^19 + 16] bytes is allocated and
    freed.  The block is marked free, [GET_CLASS] gives the index 20
    for it, one past the table, and [put_on_front_of_class_list]
    returns at once for that index: the block is the head of no class
    list, and all 20 lists stay empty. *)
Lemma mm_free_top_class_block_not_pushed :
  BIT heap_huge_block (HEADER 4296) = 1 /\
  exists st',
    mm_free 8 heap_huge_block 4296 = Some st' /\
    BIT st' (HEADER 4296) = 0 /\ BIT st' (FOOTER st' 4296) = 0 /\
    GET_SIZE st' (HEADER 4296) = 64 * 2 ^ 19 + 16 /\
    GET_CLASS (GET_SIZE st' (HEADER 4296)) = CLASSES /\
    forall c, 0 <= c < CLASSES -> READ_ADDR st' (LOOKUP_TABLE st' c) = NULL.
Proof.
  split; [by_compute |].
  assert (F : returns (mm_free 8 heap_huge_block 4296) = true) by by_compute.
  destruct (mm_free 8 heap_huge_block 4296) as [st' |] eqn:E; [| discriminate].
  exists st'. split; [reflexivity |].
  assert (Hst : st' = after 8 heap_huge_block [Free 4296])
    by (unfold after; cbn [exec step]; rewrite E; reflexivity).
  rewrite Hst.
  split; [by_compute |]. split; [by_compute |]. split; [by_compute |].
  split; [by_compute |].
  intros c Hc.
  assert (Hall : forallb (fun i =>
            READ_ADDR (after 8 heap_huge_block [Free 4296])
              (LOOKUP_TABLE (after 8 heap_huge_block [Free 4296]) (Z.of_nat i))
            =? NULL) (seq 0 (Z.to_nat CLASSES)) = true) by by_compute.
  rewrite forallb_forall in Hall.
  specialize (Hall (Z.to_nat c)). rewrite Z2Nat.id in Hall by lia.
  apply Z.eqb_eq, Hall, in_seq. unfold CLASSES in *. lia.
Qed.

(** What the block that was pushed on no list leads to.  The used block
    4296 of 1040 bytes lies between the first block, 4264, which is in
    use, and the freed block 5336 of [64 * 2^19 + 16] bytes.  When 4296
    is freed, [coalesce] merges it with that neighbour and calls
    [remove_from_free_list] with the class index 20, which is not
    tested there: the slot it computes is the header of 4264, and the
    header of that used block is overwritten with NULL. *)
Lemma mm_free_beside_top_class_block_writes_header :
  exec 8 (snd (mm_init (backing_store 4096 67108864)))
       [Malloc 16; Malloc 1024; Malloc 33554432; Free 5336]
    = Some heap_huge_right_neighbour /\
  READ_DATA heap_huge_right_neighbour (HEADER 4264) = PACK 32 1 /\
  READ_DATA heap_huge_right_neighbour (HEADER 4296) = PACK 1040 1 /\
  READ_DATA heap_huge_right_neighbour (HEADER 5336)
    = PACK (64 * 2 ^ 19 + 16) 0 /\
  LOOKUP_TABLE heap_huge_right_neighbour CLASSES = HEADER 4264 /\
  exists st',
    mm_free 8 heap_huge_right_neighbour 4296 = Some st' /\
    READ_DATA st' (HEADER 4296) = PACK (1040 + (64 * 2 ^ 19 + 16)) 0 /\
    READ_DATA st' (HEADER 4264) = 0.
Proof.
  split; [apply exec_after; vm_compute; reflexivity |].
  split; [by_compute |]. split; [by_compute |]. split; [by_compute |].
  split; [by_compute |].
  assert (F : returns (mm_free 8 heap_huge_right_neighbour 4296) = true)
    by by_compute.
  destruct (mm_free 8 heap_huge_right_neighbour 4296) as [st' |] eqn:E;
    [| discriminate].
  exists st'. split; [reflexivity |].
  assert (Hst : st' = after 8 heap_huge_right_neighbour [Free 4296])
    by (unfold after; cbn [exec step]; rewrite E; reflexivity).
  rewrite Hst. split; by_compute.
Qed.

(** [mm_free] in a well-formed heap.  [mm_free] of the used block [p]
    of size [s] returns.  It coalesces exactly when the class of [s] is
    above [LIMIT_COALESCE], that is when [s > 255]; the block is then
    merged with the run [rr] of free blocks above 255 bytes on its right
    and the run [lrr] of such blocks on its left, which leave their
    lists.  The resulting block [p'] of size [t] has its header and
    footer marked free.  When the class of [t] is below [CLASSES] the
    block is the new head of the list of that class and the heap is well
    formed again; when [t >= 64 * 2^19] the block is on no list, and
    the heap is well formed except for that.  [mm_free NULL] changes
    nothing. *)
Theorem mm_free_pushes_block_below_top_class
  (st : state) (FL : Z -> list Z) (l1 l2 : list block) (p s : Z) (fuel : nat) :
  heap_ok st (l1 ++ mkBlock p s true :: l2) FL ->
  (length l1 < fuel)%nat -> (length l2 < fuel)%nat ->
  let P := mkBlock p s false in
  let coal := LIMIT_COALESCE <? GET_CLASS s in
  let rr := if coal then fst (take_run l2) else [] in
  let l2' := if coal then snd (take_run l2) else l2 in
  let lrr := if coal then fst (take_run (rev l1)) else [] in
  let l1' := if coal then rev (snd (take_run (rev l1))) else l1 in
  let p' := b_ptr (hd P (rev lrr)) in
  let t := total_size (rev lrr ++ P :: rr) in
  let M := mkBlock p' t false in
  let FL2 := without (map b_ptr (rr ++ lrr)) FL in
  let cM := GET_CLASS t in
  mm_free fuel st NULL = Some st /\
  (coal = true <-> GET_MAX_DIM LIMIT_COALESCE < s) /\
  exists st',
    mm_free fuel st p = Some st' /\
    GET_SIZE st' (HEADER p') = t /\
    BIT st' (HEADER p') = 0 /\ BIT st' (FOOTER st' p') = 0 /\
    if cM <? CLASSES
    then heap_ok st' (l1' ++ M :: l2') (upd FL2 cM (p' :: FL2 cM))
    else 64 * 2 ^ 19 <= t /\ heap_ok_except [p'] st' (l1' ++ M :: l2') FL2.
Proof.
  intros Hok Hf1 Hf2 P coal rr l2' lrr l1' p' t M FL2 cM.
  split; [reflexivity |].
  split.
  { unfold coal. rewrite Z.ltb_lt. apply GET_CLASS_coalesce_gate. }
  destruct (mm_free_spec st FL l1 l2 p s fuel Hok Hf1 Hf2)
    as (st' & E & Hres & _).
  fold P coal rr l2' lrr l1' p' t M FL2 cM in Hres.
  exists st'. split; [exact E |].
  assert (HL : heap_layout st' (l1' ++ M :: l2')).
  { destruct (cM <? CLASSES); [apply Hres | apply Hres]. }
  assert (HM : block_ok st' M)
    by (apply (layout_block st' _ M HL), in_middle).
  pose proof (block_size_read _ _ HM) as Hs. cbn [b_ptr b_size M] in Hs.
  split; [exact Hs |].
  split; [exact (block_bit_read _ _ HM) |].
  split.
  { unfold FOOTER. rewrite Hs. destruct HM as (_ & Hm & _ & Hf).
    apply (BIT_tag _ _ _ _ Hf Hm). cbn. lia. }
  destruct (Z.ltb_spec cM CLASSES) as [Hc | Hc]; [exact Hres |].
  split; [| exact Hres].
  pose proof (GET_CLASS_le t 19 ltac:(lia)) as H19.
  unfold cM, CLASSES in Hc. lia.
Qed.

Lemma heap_before_shrink_ok :
  heap_ok heap_before_shrink blocks_before_shrink (lists_of lists_before_shrink).
Proof. apply heap_ok_b_sound. vm_compute. reflexivity. Qed.

Lemma mm_free_pushes_block_below_top_class_witness :
  heap_ok heap_before_shrink
    ([mkBlock 4264 32 false] ++ mkBlock 4296 1040 true
       :: [mkBlock 5336 1040 false])
    (lists_of lists_before_shrink) /\
  exists st',
    mm_free 8 heap_before_shrink 4296 = Some st' /\
    GET_SIZE st' (HEADER 4296) = 2080 /\
    heap_ok st' [mkBlock 4264 32 false; mkBlock 4296 2080 false]
      (upd (without [5336] (lists_of lists_before_shrink)) 6
           (4296 :: without [5336] (lists_of lists_before_shrink) 6)).
Proof.
  split; [exact heap_before_shrink_ok |].
  destruct (mm_free_pushes_block_below_top_class
              heap_before_shrink (lists_of lists_before_shrink)
              [mkBlock 4264 32 false] [mkBlock 5336 1040 false] 4296 1040 8
              heap_before_shrink_ok ltac:(cbn; lia) ltac:(cbn; lia))
    as (_ & _ & st' & E & Hs & _ & _ & H).
  exists st'. split; [exact E |]. split; [exact Hs |]. exact H.
Defined.
(** ** Growing a block in place *)

Lemma absorb_run_props l : forall diff total r rest,
  absorb_run l diff total = Some (r, rest) ->
  l = r ++ rest /\ r <> [] /\ Forall (fun b => b_used b = false) r /\
  diff <= total + total_size r.
Proof.
  induction l as [| b l IH]; intros diff total r rest H; cbn [absorb_run] in H;
    [discriminate |].
  destruct (b_used b) eqn:Eu; [discriminate |].
  destruct (Z.leb_spec diff (total + b_size b)) as [Hle | Hgt].
  - injection H as <- <-. cbn [app total_size fold_right].
    split; [reflexivity |]. split; [discriminate |].
    split; [constructor; [exact Eu | constructor] | lia].
  - destruct (absorb_run l diff (total + b_size b)) as [[r1 rest1] |] eqn:E;
      [| discriminate].
    injection H as <- <-.
    destruct (IH _ _ _ _ E) as (El & _ & Hf & Hd).
    cbn [app total_size fold_right]. fold (total_size r1).
    split; [rewrite El; reflexivity |]. split; [discriminate |].
    split; [constructor; assumption | lia].
Qed.

(** The simulation answers whether such a run exists. *)
Lemma simulate_right_coalesce_loop_spec fuel :
  forall st bs pre cur l diff total,
  heap_layout st bs -> bs = pre ++ cur :: l ->
  0 <= total -> total + total_size l < 2 ^ 64 ->
  (length l < fuel)%nat ->
  simulate_right_coalesce_loop fuel st (b_ptr cur) diff total
    = Some (match absorb_run l diff total with
            | Some _ => true
            | None => false
            end).
Proof.
  induction fuel as [| fuel IH]; intros st bs pre cur l diff total HL E Ht0 Ht Hf;
    [lia |].
  cbn [simulate_right_coalesce_loop].
  destruct l as [| b l1].
  - assert (Eend : b_ptr cur = end_heap st)
      by (apply (layout_last st bs pre cur [] HL E); reflexivity).
    destruct (Z.eqb_spec (b_ptr cur) (end_heap st)) as [_ |]; [| contradiction].
    reflexivity.
  - assert (Hnend : b_ptr cur <> end_heap st).
    { intros H. apply (layout_last st bs pre cur (b :: l1) HL E) in H.
      discriminate. }
    destruct (Z.eqb_spec (b_ptr cur) (end_heap st)) as [| _]; [contradiction |].
    cbn [negb andb].
    rewrite (layout_RIGHT st bs pre cur b l1 HL E).
    assert (Hb : In b bs)
      by (rewrite E; apply in_or_app; right; right; left; reflexivity).
    destruct (layout_block st bs b HL Hb) as (Hok & _ & _ & Bs).
    rewrite (block_bit_read st b Hok), (block_size_read st b Hok).
    cbn [absorb_run].
    destruct (b_used b); [reflexivity |].
    change (0 =? 0) with true. cbv iota.
    cbn [total_size fold_right] in Ht. fold (total_size l1) in Ht.
    assert (Hpos1 : 0 <= total_size l1).
    { apply total_size_nonneg. destruct HL as (_ & _ & _ & _ & _ & Hok').
      apply block_ok_pos in Hok'. rewrite E in Hok'.
      apply Forall_app in Hok'. destruct Hok' as [_ Hok'].
      inversion Hok' as [| ? ? _ Hok'']; subst.
      inversion Hok'' as [| ? ? _ Hok3]; subst. exact Hok3. }
    rewrite wrap_small by lia.
    destruct (diff <=? total + b_size b); [reflexivity |].
    rewrite (IH st bs (pre ++ [cur]) b l1 diff (total + b_size b) HL);
      [ destruct (absorb_run l1 diff (total + b_size b)) as [[? ?] |]; reflexivity
      | rewrite E, <- app_assoc; reflexivity | lia | lia
      | cbn [length] in Hf; lia ].
Qed.

Section AbsorbWalk.
Variables (l1 : list block) (P : block).

(** The absorbing loop of [mm_realloc] takes the blocks of that run off
    their lists. *)
Lemma absorb_right_spec fuel : forall st FL D done rest diff total lst r rest',
  let bs := l1 ++ P :: done ++ rest in
  heap_ok_except D st bs FL ->
  (forall b, In b rest -> ~ In (b_ptr b) D) ->
  0 <= total -> total + total_size rest < 2 ^ 64 ->
  (length rest < fuel)%nat ->
  absorb_run rest diff total = Some (r, rest') ->
  exists st',
    absorb_right fuel st (b_ptr (last (P :: done) P)) lst diff total
      = Some (st', b_ptr (last r P), total + total_size r) /\
    heap_ok_except (map b_ptr r ++ D) st' bs (without (map b_ptr r) FL) /\
    same_globals st st' /\
    (forall a, ~ link_area st FL a -> mem st' a = mem st a).
Proof.
  induction fuel as [| fuel IH];
    intros st FL D done rest diff total lst r rest' bs HE HD Ht0 Ht Hfuel Hrun;
    [lia |].
  pose proof HE as (HL & HF & HI & HDl).
  destruct (last_cons_app P done) as (pre & Epre).
  set (it := last (P :: done) P) in *.
  cbn [absorb_right].
  destruct rest as [| b rest1]; [discriminate |].
  cbn [absorb_run] in Hrun.
  destruct (b_used b) eqn:Hu; [discriminate |].
  assert (Ebs : bs = (l1 ++ pre) ++ it :: b :: rest1).
  { unfold bs. change (l1 ++ P :: done ++ b :: rest1)
      with (l1 ++ (P :: done) ++ b :: rest1).
    rewrite Epre. rewrite <- !app_assoc. reflexivity. }
  assert (Hnend : b_ptr it <> end_heap st).
  { intros E. apply (layout_last st bs (l1 ++ pre) it (b :: rest1) HL Ebs) in E.
    discriminate. }
  destruct (Z.eqb_spec (b_ptr it) (end_heap st)) as [| _]; [contradiction |].
  cbn [negb andb].
  pose proof (layout_RIGHT st bs _ it b rest1 HL Ebs) as ER. rewrite ER.
  assert (Hb : In b bs)
    by (rewrite Ebs; apply in_or_app; right; right; left; reflexivity).
  destruct (layout_block st bs b HL Hb) as (Hok & _ & _ & Bs).
  rewrite (block_bit_read st b Hok), (block_size_read st b Hok), Hu.
  change (0 =? 0) with true. cbv iota.
  assert (HbD : ~ In (b_ptr b) D) by (apply HD; left; reflexivity).
  destruct (unlink_block D st bs FL b HE Hb Hu HbD) as (HE' & HG & Hfr & Hc).
  cbv zeta in HE', HG, Hfr.
  set (st' := remove_from_free_list st (GET_CLASS (b_size b)) (b_ptr b)) in *.
  pose proof HE' as (HL' & _).
  pose proof (layout_RIGHT st' bs _ it b rest1 HL' Ebs) as ER'. rewrite ER'.
  cbn [total_size fold_right] in Ht. fold (total_size rest1) in Ht.
  assert (Hpos1 : 0 <= total_size rest1).
  { apply total_size_nonneg. destruct HL as (_ & _ & _ & _ & _ & Hok').
    apply block_ok_pos in Hok'. rewrite Ebs in Hok'.
    apply Forall_app in Hok'. destruct Hok' as [_ Hok'].
    inversion Hok' as [| ? ? _ Hok'']; subst.
    inversion Hok'' as [| ? ? _ Hok3]; subst. exact Hok3. }
  rewrite wrap_small by lia.
  destruct (Z.leb_spec diff (total + b_size b)) as [Hle | Hgt].
  - (* [b] gives enough room *)
    injection Hrun as <- <-. exists st'.
    cbn [last map app total_size fold_right]. rewrite Z.add_0_r.
    split; [reflexivity |]. split; [| split; [exact HG | exact Hfr]].
    refine (heap_ok_except_ext _ _ _ _ _ _ _ _ HE').
    + intros x. cbn [In]. tauto.
    + intros c. reflexivity.
  - destruct (absorb_run rest1 diff (total + b_size b)) as [[r1 rest1'] |] eqn:Erun;
      [| discriminate].
    injection Hrun as <- <-.
    assert (Elast : b = last (P :: done ++ [b]) P).
    { change (P :: done ++ [b]) with ((P :: done) ++ [b]). rewrite last_last.
      reflexivity. }
    assert (Ebs' : bs = l1 ++ P :: (done ++ [b]) ++ rest1).
    { unfold bs. rewrite <- app_assoc. reflexivity. }
    destruct (IH st' (without [b_ptr b] FL) (b_ptr b :: D) (done ++ [b]) rest1
                diff (total + b_size b) (b_ptr b) r1 rest1')
      as (st2 & Eloop & HE2 & HG2 & Hfr2).
    + rewrite <- Ebs'. exact HE'.
    + intros x Hx [E | H].
      * assert (Hxin : In x bs)
          by (rewrite Ebs; apply in_or_app; right; right; right; exact Hx).
        pose proof (layout_ptr_inj st bs _ _ HL Hb Hxin E) as Exb. subst x.
        pose proof HL as (_ & _ & _ & Htl & _ & Hok').
        apply block_ok_pos in Hok'. rewrite Ebs in Htl, Hok'.
        change ((l1 ++ pre) ++ it :: b :: rest1)
          with ((l1 ++ pre) ++ [it] ++ b :: rest1) in Htl, Hok'.
        rewrite !app_assoc in Htl, Hok'.
        destruct (tiles_middle _ _ _ _ _ Htl Hok') as (_ & _ & _ & Hr).
        specialize (Hr b Hx). lia.
      * apply (HD x (or_intror Hx) H).
    + lia.
    + lia.
    + cbn [length] in Hfuel. lia.
    + exact Erun.
    + rewrite <- Elast in Eloop.
      destruct (absorb_run_props _ _ _ _ _ Erun) as (_ & Hne & _).
      exists st2. split; [| split; [| split]].
      * rewrite Eloop. cbn [total_size fold_right]. fold (total_size r1).
        f_equal. f_equal; [| lia]. f_equal. f_equal.
        destruct r1 as [| y r1]; [contradiction |].
        cbn [last]. clear. revert y. induction r1 as [| z r1 IHr]; intros y;
          [reflexivity |]. cbn [last]. destruct r1; [reflexivity |]. reflexivity.
      * rewrite <- Ebs' in HE2.
        refine (heap_ok_except_ext _ _ _ _ _ _ _ _ HE2).
        -- intros x. cbn [map app In]. rewrite !in_app_iff. cbn [In]. tauto.
        -- intros c. cbn [map]. rewrite without_app. reflexivity.
      * apply (same_globals_trans _ st'); assumption.
      * intros a Hla. rewrite Hfr2; [apply Hfr; exact Hla |].
        intros Hla'. apply Hla.
        destruct HG as (_ & _ & G3 & _).
        destruct Hla' as [Ht' | (c & x & Hc' & Hx & Hax)].
        -- left. rewrite <- G3. exact Ht'.
        -- right. exists c, x. apply in_without in Hx. tauto.
Qed.
End AbsorbWalk.
(** The bytes of a used block, from its header to the word before its
    footer's end, hold no list link. *)
Lemma used_block_not_link D st bs FL b a :
  heap_ok_except D st bs FL -> In b bs ->
  (b_used b = true \/ In (b_ptr b) D) ->
  b_ptr b - 8 <= a < b_ptr b + b_size b - 8 ->
  ~ link_area st FL a.
Proof.
  intros (HL & HF & HI & HD) Hb Hu Ha [Ht | (c & x & Hc & Hx & Hax)].
  - destruct (layout_block st bs b HL Hb) as (_ & B1 & _).
    destruct HL as (_ & Hfb & _). consts. lia.
  - destruct (node_block st bs FL HL HF c x Hc Hx) as (s & u & Hin & Hcl & _ & _ & Bs).
    destruct (layout_disjoint st bs _ _ HL Hin Hb) as [E | Hd].
    + subst b. cbn [b_ptr b_used] in Hu. destruct Hu as [Hu | Hu].
      * destruct (Z.eq_dec 0 0) as [_ |]; [| lia].
        assert (HnD : ~ In x D) by (apply (HD c x Hc Hx)).
        pose proof (proj2 (HI _ Hin HnD)) as Hfree. cbn [b_ptr b_size b_used] in Hfree.
        rewrite Hcl in Hfree. rewrite Hfree in Hu; [discriminate | tauto].
      * apply (HD c x Hc Hx Hu).
    + cbn [b_ptr b_size] in Hd.
      destruct (layout_block st bs b HL Hb) as (_ & _ & _ & Bb). lia.
Qed.

(** A run of blocks that are on no list becomes one block: its two tags
    are written, and the last-block pointer moves to it when the run
    ended the heap. *)
Lemma merge_run D st l1 run l2 FL (u : bool) (d : block) st3 :
  heap_ok_except D st (l1 ++ run ++ l2) FL ->
  run <> [] ->
  (forall x, In x D -> In x (map b_ptr run)) ->
  (forall b c, In b run -> 0 <= c < CLASSES -> ~ In (b_ptr b) (FL c)) ->
  let p := b_ptr (hd d run) in
  let t := total_size run in
  let bit := if u then 1 else 0 in
  let st1 := WRITE_DATA st (HEADER p) (PACK t bit) in
  let st2 := WRITE_DATA st1 (FOOTER st1 p) (PACK t bit) in
  mem st3 = mem st2 -> mem_brk st3 = mem_brk st ->
  lookup_table st3 = lookup_table st -> first_block st3 = first_block st ->
  end_heap st3 = (if b_ptr (last run d) =? end_heap st then p else end_heap st) ->
  heap_ok_except [p] st3 (l1 ++ mkBlock p t u :: l2) FL /\
  READ_DATA st3 (HEADER p) = PACK t bit /\
  READ_DATA st3 (FOOTER st3 p) = PACK t bit /\
  (forall a, ~ (p - 8 <= a < p) -> ~ (p + t - 16 <= a < p + t - 8) ->
             mem st3 a = mem st a).
Proof.
  intros HE Hne HDsub Hoff p t bit st1 st2 Em G1 G3 G4 G5.
  pose proof HE as (HL & HF & HI & HD).
  pose proof HL as (HT & Hfb & Hbrk & Htl & _ & Hok).
  pose proof (block_ok_pos _ _ Hok) as Hpos.
  destruct (tiles_run _ _ _ _ _ Htl Hpos) as (T1 & T2 & T3 & Ba & Bz & Be & X1 & X2 & X3).
  fold t in T2, T3, X2, X3, Bz, Be.
  assert (Ep : p = first_block st + total_size l1).
  { unfold p. destruct run as [| y run0]; [contradiction |].
    cbn [hd tiles] in T2 |- *. apply T2. }
  rewrite <- Ep in *.
  assert (Hrun : Forall (block_ok st) run).
  { apply Forall_app in Hok. destruct Hok as [_ Hok].
    apply Forall_app in Hok. apply Hok. }
  assert (Ht8 : t mod 8 = 0) by (apply (total_size_mod8 st); exact Hrun).
  assert (Ht32 : 32 <= t).
  { unfold t. destruct run as [| y run0]; [contradiction |].
    cbn [total_size fold_right]. fold (total_size run0).
    inversion Hrun as [| ? ? Hy Hr0]; subst.
    pose proof (total_size_nonneg _ (block_ok_pos _ _ Hr0)).
    destruct Hy as (Hy & _). change MBS with 32 in Hy. lia. }
  assert (Htr : 0 <= t < 2 ^ 64).
  { split; [lia |]. apply tiles_end in T3. consts. lia. }
  assert (Hbit : 0 <= bit <= 1) by (unfold bit; destruct u; lia).
  destruct (write_tags st p t bit Htr Ht8 Hbit) as (F1 & H1 & W1 & Fr).
  cbv zeta in F1, H1, W1, Fr. fold st1 in F1, H1, W1, Fr. fold st2 in H1, W1, Fr.
  assert (Hfr3 : forall a, ~ (p - 8 <= a < p) -> ~ (p + t - 16 <= a < p + t - 8) ->
                           mem st3 a = mem st a).
  { intros a A1 A2. rewrite Em. apply Fr; consts; lia. }
  assert (Hh3 : READ_DATA st3 (HEADER p) = PACK t bit).
  { rewrite <- H1. apply READ_DATA_ext. intros a _. rewrite Em. reflexivity. }
  assert (Hf3 : READ_DATA st3 (p + t - HF_OVERHEAD) = PACK t bit).
  { rewrite <- W1. apply READ_DATA_ext. intros a _. rewrite Em. reflexivity. }
  assert (Hlast : l2 = [] <-> b_ptr (last run d) = end_heap st).
  { destruct (@exists_last _ run Hne) as (pre & lb & Erun).
    rewrite Erun, last_last.
    assert (Ebs : l1 ++ run ++ l2 = (l1 ++ pre) ++ lb :: l2)
      by (rewrite Erun, <- !app_assoc; reflexivity).
    split; intros H; apply (layout_last st _ _ _ _ HL Ebs); exact H. }
  set (M := mkBlock p t u).
  assert (HL3 : heap_layout st3 (l1 ++ [M] ++ l2)).
  { apply (heap_layout_replace st st3 l1 run [M] l2 M HL).
    - discriminate.
    - fold t. rewrite <- Ep. cbn [tiles b_ptr b_size M]. split; reflexivity.
    - constructor; [| constructor]. unfold block_ok, tag.
      cbn [b_ptr b_size b_used M]. fold bit.
      split; [change MBS with 32; lia |]. split; [exact Ht8 |].
      split; [exact Hh3 | exact Hf3].
    - exact G1.
    - exact G3.
    - exact G4.
    - intros El2. cbn [last b_ptr M]. rewrite G5.
      apply Hlast in El2. rewrite El2, Z.eqb_refl. reflexivity.
    - intros El2. rewrite G5.
      destruct (Z.eqb_spec (b_ptr (last run d)) (end_heap st)) as [E |];
        [| reflexivity].
      exfalso. apply El2. apply Hlast. exact E.
    - intros a. fold t. rewrite <- Ep.
      destruct (Z_le_dec (p - 8) a); [destruct (Z_lt_dec a (p + t - 8)) |];
        [left; lia | |]; right; apply Hfr3; lia. }
  assert (Hnode : forall c x, 0 <= c < CLASSES -> In x (FL c) ->
            exists s v, In (mkBlock x s v) (l1 ++ run ++ l2) /\
                        (In (mkBlock x s v) l1 \/ In (mkBlock x s v) l2)).
  { intros c x Hc Hx.
    destruct (node_block st _ _ HL HF c x Hc Hx) as (s & v & Hb & _).
    exists s, v. split; [exact Hb |].
    apply in_app_or in Hb. destruct Hb as [Hb | Hb]; [left; exact Hb |].
    apply in_app_or in Hb. destruct Hb as [Hb | Hb]; [| right; exact Hb].
    exfalso. apply (Hoff _ c Hb Hc). exact Hx. }
  assert (Hside : forall b, In b l1 \/ In b l2 ->
            In b (l1 ++ run ++ l2) /\ 32 <= b_size b /\
            (b_ptr b + b_size b <= p \/ p + t <= b_ptr b)).
  { intros b Hb.
    assert (Hin : In b (l1 ++ run ++ l2)).
    { apply in_or_app. destruct Hb as [Hb | Hb]; [left; exact Hb |].
      right. apply in_or_app. right. exact Hb. }
    split; [exact Hin |].
    destruct (layout_block st _ b HL Hin) as (_ & _ & _ & Bb).
    split; [lia |].
    destruct Hb as [Hb | Hb]; [left; apply (X1 b Hb) | right; apply (X3 b Hb)]. }
  assert (HF3 : free_lists st3 (l1 ++ [M] ++ l2) FL).
  { apply (free_lists_frame st st3 (l1 ++ run ++ l2) _ _ HF G3).
    - intros a Ha. apply Hfr3; consts; lia.
    - intros c x a Hc Hx Ha.
      destruct (Hnode c x Hc Hx) as (s & v & Hb & Hs).
      destruct (Hside _ Hs) as (_ & B & Hd). cbn [b_ptr b_size] in B, Hd.
      apply Hfr3; lia.
    - intros c x s v Hc Hx Hb. exists v.
      destruct (Hnode c x Hc Hx) as (s' & v' & Hb' & Hs).
      assert (E : mkBlock x s v = mkBlock x s' v')
        by (apply (layout_ptr_inj st (l1 ++ run ++ l2)); try assumption; reflexivity).
      rewrite E. apply in_or_app.
      destruct Hs; [left | right; right]; assumption. }
  split; [| split; [exact Hh3 | split; [| exact Hfr3]]].
  - split; [exact HL3 |]. split; [exact HF3 |]. split.
    + intros b Hb HnD.
      assert (Hbs : In b l1 \/ In b l2).
      { apply in_app_or in Hb. destruct Hb as [Hb | [Hb | Hb]];
          [left; exact Hb | | right; exact Hb].
        exfalso. apply HnD. left. rewrite <- Hb. reflexivity. }
      destruct (Hside b Hbs) as (Hin & B & Hd).
      apply (HI b Hin). intros HinD. apply HDsub in HinD.
      apply in_map_iff in HinD. destruct HinD as (y & Ey & Hy).
      specialize (X2 y Hy).
      assert (Hyin : In y (l1 ++ run ++ l2))
        by (apply in_or_app; right; apply in_or_app; left; exact Hy).
      destruct (layout_block st _ y HL Hyin) as (_ & _ & _ & By). lia.
    + intros c x Hc Hx [E | []]. subst x.
      apply (Hoff (hd d run) c); [| exact Hc | exact Hx].
      destruct run; [contradiction | left; reflexivity].
  - unfold FOOTER. rewrite (GET_SIZE_tag _ _ t bit Hh3 Ht8 Hbit). exact Hf3.
Qed.

Lemma heap_ok_except_used p st bs FL :
  heap_ok_except [p] st bs FL ->
  (forall b, In b bs -> b_ptr b = p -> b_used b = true) ->
  heap_ok st bs FL.
Proof.
  intros (HL & HF & HI & HD) Hu. split; [exact HL |]. split; [exact HF |].
  intros b Hb. destruct (Z.eq_dec (b_ptr b) p) as [E | Hne].
  - rewrite (Hu b Hb E). split; [discriminate |].
    intros [Hc Hin]. exfalso. apply (HD _ _ Hc Hin). left. symmetry. exact E.
  - apply (HI b Hb). intros [E | []]. apply Hne. symmetry. exact E.
Qed.

Lemma last_cons_nonempty {A : Type} (x : A) (l : list A) (d : A) :
  l <> [] -> last (x :: l) d = last l d.
Proof. destruct l; [congruence | reflexivity]. Qed.

Lemma last_default {A : Type} (l : list A) (d d' : A) :
  l <> [] -> last l d = last l d'.
Proof.
  induction l as [| x l IH]; [congruence |]. intros _.
  destruct l as [| y l]; [reflexivity |].
  cbn [last] in IH |- *. apply IH. discriminate.
Qed.

(** A used block on a well-formed heap is on no list. *)
Lemma used_not_listed st bs FL b c :
  heap_ok st bs FL -> In b bs -> b_used b = true ->
  0 <= c < CLASSES -> ~ In (b_ptr b) (FL c).
Proof.
  intros (HL & HF & HI) Hb Hu Hc Hin.
  pose proof (proj2 (HI b Hb)) as Hfree.
  destruct (node_block st bs FL HL HF c _ Hc Hin) as (s & u & Hb' & Hcl & _).
  assert (E : mkBlock (b_ptr b) s u = b)
    by (apply (layout_ptr_inj st bs); try assumption; reflexivity).
  assert (Es : b_size b = s) by (rewrite <- E; reflexivity).
  rewrite Es, Hcl in Hfree. rewrite Hfree in Hu; [discriminate | tauto].
Qed.

(** [mm_realloc] growing a block in place. *)
Lemma mm_realloc_grow_in_place st FL l1 l2 p s size fuel :
  heap_ok st (l1 ++ mkBlock p s true :: l2) FL ->
  0 < size ->
  let newsize :=
    if ALIGN (size + HF_OVERHEAD) <? MBS then MBS
    else ALIGN (size + HF_OVERHEAD) in
  s < newsize -> (length l2 < fuel)%nat ->
  simulate_right_coalesce fuel st p (wrap (newsize - s)) = Some true ->
  exists r rest st',
    absorb_run l2 (newsize - s) 0 = Some (r, rest) /\
    mm_realloc fuel st p size = Some (p, st') /\
    heap_ok st' (l1 ++ mkBlock p (s + total_size r) true :: rest)
            (without (map b_ptr r) FL) /\
    READ_DATA st' (HEADER p) = PACK (s + total_size r) 1 /\
    READ_DATA st' (FOOTER st' p) = PACK (s + total_size r) 1 /\
    end_heap st' =
      (if b_ptr (last r (mkBlock p s true)) =? end_heap st then p
       else end_heap st) /\
    mem_brk st' = mem_brk st /\ mem_max_addr st' = mem_max_addr st /\
    (forall a, p <= a < p + s - HF_OVERHEAD -> mem st' a = mem st a).
Proof.
  intros Hok Hsize newsize Hgrow Hfuel Hsim.
  set (P := mkBlock p s true) in *.
  pose proof Hok as (HL & HF & HI).
  assert (HP : In P (l1 ++ P :: l2)) by apply in_middle.
  destruct (layout_block st _ P HL HP) as (HokP & Bp1 & Bp2 & Bs).
  cbn [b_ptr b_size P] in Bp1, Bp2, Bs.
  assert (Hp0 : p <> NULL) by (destruct HL as (HT & Hfb & _); consts; lia).
  pose proof (newsize_props size) as Hns. cbv zeta in Hns. fold newsize in Hns.
  assert (Ediff : wrap (newsize - s) = newsize - s) by (apply wrap_small; lia).
  rewrite Ediff in Hsim.
  pose proof (layout_total st _ HL) as Htot.
  rewrite total_size_app in Htot. cbn [total_size fold_right] in Htot.
  fold (total_size l2) in Htot. cbn [b_size P] in Htot.
  pose proof HL as (_ & _ & _ & _ & _ & Hall).
  pose proof (block_ok_pos _ _ Hall) as Hpos.
  assert (Hp1 : 0 <= total_size l1).
  { apply total_size_nonneg. apply Forall_app in Hpos. apply Hpos. }
  assert (Hp2 : 0 <= total_size l2).
  { apply total_size_nonneg. apply Forall_app in Hpos. destruct Hpos as [_ Hp].
    inversion Hp; assumption. }
  (* the simulation *)
  unfold simulate_right_coalesce in Hsim.
  assert (Hspec := simulate_right_coalesce_loop_spec fuel st _ l1 P l2
                     (newsize - s) 0 HL eq_refl ltac:(lia) ltac:(lia) Hfuel).
  change (b_ptr P) with p in Hspec. rewrite Hspec in Hsim.
  destruct (absorb_run l2 (newsize - s) 0) as [[r rest] |] eqn:Erun;
    [clear Hsim | discriminate].
  destruct (absorb_run_props _ _ _ _ _ Erun) as (El2 & Hne & Hfree & Hreach).
  (* the absorption *)
  destruct (absorb_right_spec l1 P fuel st FL [] [] l2 (newsize - s) 0 p r rest)
    as (st1 & Eabs & HE1 & HG1 & Hfr1).
  { apply heap_ok_except_nil. exact Hok. }
  { intros b _ []. }
  { lia. }
  { lia. }
  { exact Hfuel. }
  { exact Erun. }
  cbn [app last] in Eabs, HE1. change (b_ptr P) with p in Eabs.
  rewrite Z.add_0_l in Eabs.
  assert (Htr : 0 <= total_size r /\ total_size r <= total_size l2).
  { rewrite El2, total_size_app.
    rewrite El2 in Hpos. apply Forall_app in Hpos. destruct Hpos as [_ Hp].
    inversion Hp as [| ? ? _ Hp']; subst. apply Forall_app in Hp'.
    destruct Hp' as [Q1 Q2].
    pose proof (total_size_nonneg _ Q1). pose proof (total_size_nonneg _ Q2). lia. }
  set (t := s + total_size r).
  set (st2 := WRITE_DATA st1 (HEADER p) (PACK t 1)).
  set (st3 := WRITE_DATA st2 (FOOTER st2 p) (PACK t 1)).
  set (st4 := if b_ptr (last r P) =? end_heap st3 then set_end_heap st3 p else st3).
  assert (Ere : mm_realloc fuel st p size = Some (p, st4)).
  { unfold mm_realloc.
    destruct (Z.eqb_spec p NULL) as [| _]; [contradiction |]. cbn [andb negb].
    destruct (Z.eqb_spec size 0) as [| _]; [lia |].
    destruct (Z.ltb_spec 0 size) as [_ |]; [| lia].
    pose proof (block_size_read st P HokP) as Hsz.
    change (b_ptr P) with p in Hsz. change (b_size P) with s in Hsz.
    rewrite Hsz. fold newsize.
    destruct (Z.eqb_spec newsize s) as [| _]; [lia |].
    destruct (Z.ltb_spec s newsize) as [_ |]; [| lia].
    rewrite Ediff. unfold simulate_right_coalesce.
    rewrite Hspec, Eabs. rewrite wrap_small by lia. reflexivity. }
  destruct HG1 as (G1 & G2 & G3 & G4 & G5).
  assert (Ebs : l1 ++ P :: l2 = l1 ++ (P :: r) ++ rest)
    by (rewrite El2; reflexivity).
  rewrite Ebs in HE1.
  destruct (merge_run (map b_ptr r ++ []) st1 l1 (P :: r) rest
              (without (map b_ptr r) FL) true P st4 HE1)
    as (HE4 & Hh4 & Hf4 & Hfr4).
  { discriminate. }
  { intros x Hx. rewrite app_nil_r in Hx. right. exact Hx. }
  { intros b c [Eb | Hb] Hc Hin.
    - subst b. apply in_without in Hin. destruct Hin as [Hin _].
      apply (used_not_listed st _ FL P c Hok HP eq_refl Hc Hin).
    - destruct HE1 as (_ & _ & _ & HD1). apply (HD1 c _ Hc Hin).
      apply in_or_app. left. apply in_map. exact Hb. }
  { unfold st4. destruct (_ =? _); reflexivity. }
  { unfold st4. destruct (_ =? _); reflexivity. }
  { unfold st4. destruct (_ =? _); reflexivity. }
  { unfold st4. destruct (_ =? _); reflexivity. }
  { rewrite (last_cons_nonempty P r P Hne). cbn [hd]. change (b_ptr P) with p.
    unfold st4. change (end_heap st3) with (end_heap st1).
    destruct (_ =? _); reflexivity. }
  cbn [hd total_size fold_right] in HE4, Hh4, Hf4, Hfr4.
  fold (total_size r) in HE4, Hh4, Hf4, Hfr4.
  change (b_ptr P) with p in HE4, Hh4, Hf4, Hfr4.
  change (b_size P) with s in HE4, Hh4, Hf4, Hfr4. fold t in HE4, Hh4, Hf4, Hfr4.
  exists r, rest, st4.
  split; [reflexivity |]. split; [exact Ere |].
  split; [| split; [exact Hh4 | split; [exact Hf4 | split; [| split; [| split]]]]].
  - apply (heap_ok_except_used p); [exact HE4 |].
    intros b Hb Eb.
    destruct HE4 as (HL4 & _).
    assert (HM : In (mkBlock p t true) (l1 ++ mkBlock p t true :: rest))
      by apply in_middle.
    rewrite (layout_ptr_inj st4 _ b _ HL4 Hb HM Eb). reflexivity.
  - unfold st4. change (end_heap st3) with (end_heap st1). rewrite G5.
    destruct (b_ptr (last r P) =? end_heap st); [reflexivity |].
    change (end_heap st3) with (end_heap st1). exact G5.

  - unfold st4. destruct (_ =? _); exact G1.
  - unfold st4. destruct (_ =? _); exact G2.
  - intros a Ha. rewrite Hfr4 by (unfold t; consts; lia).
    apply Hfr1.
    apply (used_block_not_link [] st (l1 ++ P :: l2) FL P a);
      [apply heap_ok_except_nil; exact Hok | exact HP | left; reflexivity |].
    cbn [b_ptr b_size P]. consts. lia.
Qed.
(** ** [mm_realloc]: growing in place *)

(** C5 (the code misses what the claim says).  A 64 MiB store is
    initialised, 16 and then [64 * 2^19] bytes are requested, and the
    second block, 4296, is freed: it is marked free, it is the last
    block, and its class index is 20, so it is on no list.  The request
    to resize the first block, 4264, to 100 bytes is served in place
    with that neighbour.  [remove_from_free_list], which does not test
    the class index as [put_on_front_of_class_list] does, is called with
    index 20: the table slot it computes is the header of 4264, and it
    stores NULL there.  [last] is then computed with the size read from
    that header and is 4264, not the consumed neighbour: the last-block
    pointer is not moved to 4264 and keeps the address of the block
    that no longer exists. *)
Theorem mm_realloc_top_class_neighbour_leaves_end_heap :
  exec 8 (snd (mm_init (backing_store 4096 67108864)))
       [Malloc 16; Malloc 33554432; Free 4296] = Some heap_huge_released /\
  BIT heap_huge_released (HEADER 4264) = 1 /\
  GET_SIZE heap_huge_released (HEADER 4264) = 32 /\
  RIGHT heap_huge_released 4264 = 4296 /\
  BIT heap_huge_released (HEADER 4296) = 0 /\
  GET_SIZE heap_huge_released (HEADER 4296) = 64 * 2 ^ 19 + 16 /\
  end_heap heap_huge_released = 4296 /\
  (forall c, 0 <= c < CLASSES ->
     READ_ADDR heap_huge_released (LOOKUP_TABLE heap_huge_released c) = NULL) /\
  simulate_right_coalesce 8 heap_huge_released 4264 (120 - 32) = Some true /\
  GET_CLASS (GET_SIZE heap_huge_released (HEADER 4296)) = CLASSES /\
  LOOKUP_TABLE heap_huge_released CLASSES = HEADER 4264 /\
  READ_DATA (remove_from_free_list heap_huge_released CLASSES 4296)
            (HEADER 4264) = 0 /\
  RIGHT (remove_from_free_list heap_huge_released CLASSES 4296) 4264 = 4264 /\
  exists st',
    mm_realloc 8 heap_huge_released 4264 100 = Some (4264, st') /\
    READ_DATA st' (HEADER 4264) = PACK (32 + (64 * 2 ^ 19 + 16)) 1 /\
    READ_DATA st' (FOOTER st' 4264) = PACK (32 + (64 * 2 ^ 19 + 16)) 1 /\
    mem_brk st' + HEADER_SIZE = 4264 + (32 + (64 * 2 ^ 19 + 16)) /\
    end_heap st' = 4296 /\ end_heap st' <> 4264.
Proof.
  split; [apply exec_after; vm_compute; reflexivity |].
  split; [by_compute |]. split; [by_compute |]. split; [by_compute |].
  split; [by_compute |]. split; [by_compute |]. split; [by_compute |].
  split.
  { intros c Hc.
    assert (Hall : forallb (fun i =>
              READ_ADDR heap_huge_released
                (LOOKUP_TABLE heap_huge_released (Z.of_nat i))
              =? NULL) (seq 0 (Z.to_nat CLASSES)) = true) by by_compute.
    rewrite forallb_forall in Hall.
    specialize (Hall (Z.to_nat c)). rewrite Z2Nat.id in Hall by lia.
    apply Z.eqb_eq, Hall, in_seq. unfold CLASSES in *. lia. }
  split; [by_compute |]. split; [by_compute |]. split; [by_compute |].
  split; [by_compute |]. split; [by_compute |].
  assert (F : option_map fst (mm_realloc 8 heap_huge_released 4264 100)
              = Some 4264) by (vm_compute; reflexivity).
  destruct (mm_realloc 8 heap_huge_released 4264 100)
    as [[q st'] |] eqn:E; [| discriminate].
  injection F as ->. exists st'. split; [reflexivity |].
  assert (Hst : st' = after 8 heap_huge_released [Realloc 4264 100])
    by (unfold after; cbn [exec step]; rewrite E; reflexivity).
  rewrite Hst.
  split; [by_compute |]. split; [by_compute |]. split; [by_compute |].
  split; by_compute.
Qed.

(** Growing in place in a well-formed heap.  Let [p] be a used block of
    size [s] and let the block size [newsize] computed for the request
    exceed [s].  If [simulate_right_coalesce] answers 1, then
    [mm_realloc] returns [p]; the blocks [r] it consumes are the
    shortest run of free right neighbours whose sizes add up to at
    least [newsize - s]; they are taken off their class lists; header
    and footer of [p] hold the sum [s + total_size r] with the in-use
    bit, so the surplus of the last consumed neighbour stays in the
    block and no remainder is split off; the heap is well formed again;
    and the last-block pointer becomes [p] exactly when the last
    consumed neighbour was the last block, and is unchanged otherwise. *)
Theorem mm_realloc_absorbs_right_neighbours
  (st : state) (FL : Z -> list Z) (l1 l2 : list block) (p s size : Z)
  (fuel : nat) :
  heap_ok st (l1 ++ mkBlock p s true :: l2) FL ->
  0 < size ->
  let newsize :=
    if ALIGN (size + HF_OVERHEAD) <? MBS then MBS
    else ALIGN (size + HF_OVERHEAD) in
  s < newsize -> (length l2 < fuel)%nat ->
  simulate_right_coalesce fuel st p (wrap (newsize - s)) = Some true ->
  exists r rest st',
    absorb_run l2 (newsize - s) 0 = Some (r, rest) /\
    l2 = r ++ rest /\ r <> [] /\ Forall (fun b => b_used b = false) r /\
    newsize <= s + total_size r /\
    mm_realloc fuel st p size = Some (p, st') /\
    READ_DATA st' (HEADER p) = PACK (s + total_size r) 1 /\
    READ_DATA st' (FOOTER st' p) = PACK (s + total_size r) 1 /\
    heap_ok st' (l1 ++ mkBlock p (s + total_size r) true :: rest)
            (without (map b_ptr r) FL) /\
    end_heap st' =
      (if b_ptr (last r (mkBlock p s true)) =? end_heap st then p
       else end_heap st) /\
    (end_heap st' = p <-> b_ptr (last r (mkBlock p s true)) = end_heap st).
Proof.
  intros Hok Hsize newsize Hgrow Hfuel Hsim.
  destruct (mm_realloc_grow_in_place st FL l1 l2 p s size fuel
              Hok Hsize Hgrow Hfuel Hsim)
    as (r & rest & st' & Erun & Ere & Hok' & Hh & Hf & Hend & _).
  fold newsize in Erun.
  destruct (absorb_run_props _ _ _ _ _ Erun) as (El2 & Hne & Hfree & Hreach).
  exists r, rest, st'.
  split; [exact Erun |]. split; [exact El2 |]. split; [exact Hne |].
  split; [exact Hfree |]. split; [lia |]. split; [exact Ere |].
  split; [exact Hh |]. split; [exact Hf |]. split; [exact Hok' |].
  split; [exact Hend |].
  rewrite Hend.
  destruct (Z.eqb_spec (b_ptr (last r (mkBlock p s true))) (end_heap st))
    as [E | Hn]; [tauto |].
  split; [| contradiction].
  intros Ep. exfalso.
  destruct Hok as (HL & _).
  assert (Hl2 : l2 = []).
  { apply (layout_last st _ l1 (mkBlock p s true) l2 HL eq_refl).
    symmetry. exact Ep. }
  rewrite Hl2 in El2. destruct r; [contradiction | discriminate].
Qed.

Lemma heap_two_free_neighbours_ok :
  heap_ok heap_two_free_neighbours blocks_two_free_neighbours
          (lists_of lists_two_free_neighbours).
Proof. apply heap_ok_b_sound. vm_compute. reflexivity. Qed.

Lemma mm_realloc_absorbs_right_neighbours_witness :
  heap_ok heap_two_free_neighbours
    ([mkBlock 4264 32 false] ++ mkBlock 4296 80 true
       :: [mkBlock 4376 80 false; mkBlock 4456 80 false; mkBlock 4536 80 true])
    (lists_of lists_two_free_neighbours) /\
  simulate_right_coalesce 8 heap_two_free_neighbours 4296 (wrap (216 - 80))
    = Some true /\
  exists st',
    mm_realloc 8 heap_two_free_neighbours 4296 200 = Some (4296, st') /\
    heap_ok st'
      [mkBlock 4264 32 false; mkBlock 4296 240 true; mkBlock 4536 80 true]
      (without [4376; 4456] (lists_of lists_two_free_neighbours)) /\
    end_heap st' = end_heap heap_two_free_neighbours.
Proof.
  split; [exact heap_two_free_neighbours_ok |].
  split; [vm_compute; reflexivity |].
  destruct (mm_realloc_absorbs_right_neighbours
              heap_two_free_neighbours (lists_of lists_two_free_neighbours)
              [mkBlock 4264 32 false]
              [mkBlock 4376 80 false; mkBlock 4456 80 false; mkBlock 4536 80 true]
              4296 80 200 8 heap_two_free_neighbours_ok)
    as (r & rest & st' & Erun & _ & _ & _ & _ & Ere & _ & _ & Hok' & Hend & _).
  - reflexivity.
  - reflexivity.
  - cbn. lia.
  - vm_compute. reflexivity.
  - vm_compute in Erun. injection Erun as <- <-.
    exists st'. split; [exact Ere |]. split; [exact Hok' |].
    rewrite Hend.
    replace (end_heap heap_two_free_neighbours) with 4536
      by (vm_compute; reflexivity).
    reflexivity.
Defined.
(** ** [mm_realloc]: the payload *)

(** C3 (the claim as stated fails).  The used block 4296 of
    [heap_before_shrink] has 1040 bytes, 1024 of payload.  For the
    request [2^64 - 1] the sum [size + HF_OVERHEAD] wraps around: the
    block size computed is 32, [mm_realloc] takes its last branch and
    returns the block, split; the footer of the block of 32 bytes is
    written at byte 16 of the payload. *)
Lemma mm_realloc_wrapped_size_loses_payload :
  exec 8 heap_1MiB [Malloc 1024; Malloc 1024; Free 5336]
    = Some heap_before_shrink /\
  GET_SIZE heap_before_shrink (HEADER 4296) = 1040 /\
  BIT heap_before_shrink (HEADER 4296) = 1 /\
  1040 - HF_OVERHEAD <= 2 ^ 64 - 1 /\
  exists st',
    mm_realloc 8 heap_before_shrink 4296 (2 ^ 64 - 1) = Some (4296, st') /\
    4296 <> NULL /\
    GET_SIZE st' (HEADER 4296) = 32 /\
    mem heap_before_shrink (4296 + 16) = Byte.x00 /\
    mem st' (4296 + 16) = Byte.x21 /\
    ~ payload_preserved heap_before_shrink st' 4296 4296 (1040 - HF_OVERHEAD).
Proof.
  split; [apply exec_after; vm_compute; reflexivity |].
  split; [by_compute |]. split; [by_compute |].
  split; [consts; lia |].
  assert (F : option_map fst
                (mm_realloc 8 heap_before_shrink 4296 (2 ^ 64 - 1))
              = Some 4296) by (vm_compute; reflexivity).
  destruct (mm_realloc 8 heap_before_shrink 4296 (2 ^ 64 - 1))
    as [[q st'] |] eqn:E; [| discriminate].
  injection F as ->. exists st'. split; [reflexivity |].
  split; [discriminate |].
  assert (Hst : st' = after 8 heap_before_shrink [Realloc 4296 (2 ^ 64 - 1)])
    by (unfold after; cbn [exec step]; rewrite E; reflexivity).
  assert (H0 : mem heap_before_shrink (4296 + 16) = Byte.x00) by by_compute.
  assert (H1 : mem st' (4296 + 16) = Byte.x21) by (rewrite Hst; by_compute).
  split; [rewrite Hst; by_compute |].
  split; [exact H0 |]. split; [exact H1 |].
  intros Hp. specialize (Hp 16 ltac:(consts; lia)).
  rewrite H0, H1 in Hp. discriminate.
Qed.

(** The used block 4264 of [heap_huge_freed] has 32 bytes and its right
    neighbour is the freed block of [64 * 2^19 + 16] bytes, which is on
    no list.  The request for 100 bytes is served in place;
    [remove_from_free_list], which does not test the class index, is
    called with the index 20 for the neighbour, follows the two words
    found at its start, and writes into the payload of 4264. *)
Lemma mm_realloc_unlisted_neighbour_loses_payload :
  exec 8 (snd (mm_init (backing_store 4096 67108864)))
       [Malloc 16; Malloc 33554432] = Some heap_huge_block /\
  BIT heap_huge_block (HEADER 4296) = 1 /\
  exec 8 (WRITE_ADDR (WRITE_ADDR heap_huge_block (PREV 4296) 4256)
                     (NEXT 4296) 4272)
       [Free 4296] = Some heap_huge_freed /\
  GET_SIZE heap_huge_freed (HEADER 4264) = 32 /\
  BIT heap_huge_freed (HEADER 4264) = 1 /\
  BIT heap_huge_freed (HEADER 4296) = 0 /\
  GET_CLASS (GET_SIZE heap_huge_freed (HEADER 4296)) = CLASSES /\
  simulate_right_coalesce 8 heap_huge_freed 4264 (120 - 32) = Some true /\
  exists st',
    mm_realloc 8 heap_huge_freed 4264 100 = Some (4264, st') /\
    GET_SIZE st' (HEADER 4264) = 32 + (64 * 2 ^ 19 + 16) /\
    mem heap_huge_freed 4264 = Byte.x00 /\
    mem st' 4264 = Byte.xb0 /\
    ~ payload_preserved heap_huge_freed st' 4264 4264 (32 - HF_OVERHEAD).
Proof.
  split; [apply exec_after; vm_compute; reflexivity |].
  split; [by_compute |].
  split; [apply exec_after; vm_compute; reflexivity |].
  split; [by_compute |]. split; [by_compute |]. split; [by_compute |].
  split; [by_compute |]. split; [by_compute |].
  assert (F : option_map fst (mm_realloc 8 heap_huge_freed 4264 100)
              = Some 4264) by (vm_compute; reflexivity).
  destruct (mm_realloc 8 heap_huge_freed 4264 100)
    as [[q st'] |] eqn:E; [| discriminate].
  injection F as ->. exists st'. split; [reflexivity |].
  assert (Hst : st' = after 8 heap_huge_freed [Realloc 4264 100])
    by (unfold after; cbn [exec step]; rewrite E; reflexivity).
  assert (H0 : mem heap_huge_freed 4264 = Byte.x00) by by_compute.
  assert (H1 : mem st' 4264 = Byte.xb0) by (rewrite Hst; by_compute).
  split; [rewrite Hst; by_compute |].
  split; [exact H0 |]. split; [exact H1 |].
  intros Hp. specialize (Hp 0 ltac:(consts; lia)).
  rewrite !Z.add_0_r in Hp. rewrite H0, H1 in Hp. discriminate.
Qed.
(** ** [mm_realloc]: moving a block *)

(** [mm_malloc] extending the heap: the new block follows the last one. *)
Lemma mm_malloc_grow_spec st bs FL need :
  heap_ok st bs FL -> 32 <= need -> need mod 8 = 0 ->
  mem_max_addr st + HEADER_SIZE <= 2 ^ 64 ->
  fst (mm_malloc_grow st need) <> NULL ->
  let q := mem_brk st + HEADER_SIZE in
  exists st',
    mm_malloc_grow st need = (q, st') /\
    heap_ok st' (bs ++ [mkBlock q need true]) FL /\
    mem_brk st' = mem_brk st + need /\ mem_max_addr st' = mem_max_addr st /\
    (forall a, ~ (mem_brk st <= a < mem_brk st + need) -> mem st' a = mem st a).
Proof.
  intros Hok Hneed Hneed8 Hmax Hq q.
  pose proof Hok as (HL & HF & HI).
  pose proof HL as (HT & Hfb & Hbrk & Htl & Hlast & Hall).
  pose proof (block_ok_pos _ _ Hall) as Hpos.
  pose proof (tiles_end _ _ _ Htl) as Eend.
  pose proof (total_size_nonneg _ Hpos) as Hts.
  unfold mm_malloc_grow, mem_sbrk in Hq |- *.
  destruct (Z.ltb_spec (mem_max_addr st) (mem_brk st + need)) as [Hfull | Hfit].
  { rewrite Z.eqb_refl in Hq. cbn [fst] in Hq. contradiction. }
  assert (Hbrk0 : mem_brk st <> NULL) by (consts; lia).
  destruct (Z.eqb_spec (mem_brk st) NULL) as [| _]; [contradiction |].
  fold q.
  set (st0 := mkState (mem st) (mem_brk st + need) (mem_max_addr st)
                      (lookup_table st) (first_block st) (end_heap st)) in *.
  assert (Hnr : 0 <= need < 2 ^ 64) by (consts; lia).
  destruct (write_tags st0 q need 1 Hnr Hneed8 ltac:(lia)) as (F1 & H1 & W1 & Fr).
  cbv zeta in F1, H1, W1, Fr.
  set (st1 := WRITE_DATA st0 (HEADER q) (PACK need 1)) in *.
  set (st2 := WRITE_DATA st1 (FOOTER st1 q) (PACK need 1)) in *.
  set (st3 := set_end_heap st2 q).
  assert (Hfr : forall a, ~ (mem_brk st <= a < mem_brk st + need) ->
                          mem st3 a = mem st a).
  { intros a Ha. change (mem st3 a) with (mem st2 a).
    rewrite Fr by (unfold q; consts; lia). reflexivity. }
  set (N := mkBlock q need true).
  assert (HokN : block_ok st3 N).
  { unfold block_ok, tag. cbn [b_ptr b_size b_used N].
    split; [change MBS with 32; lia |]. split; [exact Hneed8 |].
    split; [exact H1 | exact W1]. }
  assert (Hold : forall b, In b bs ->
            first_block st <= b_ptr b /\ b_ptr b + b_size b <= q /\ 32 <= b_size b).
  { intros b Hb. destruct (layout_block st bs b HL Hb) as (_ & B1 & B2 & B3).
    unfold q. lia. }
  assert (HL3 : heap_layout st3 (bs ++ [N])).
  { apply (heap_layout_intro st3 _ N).
    - exact HT.
    - exact Hfb.
    - change (mem_brk st3) with (mem_brk st + need). lia.
    - change (first_block st3) with (first_block st).
      change (mem_brk st3) with (mem_brk st + need).
      apply tiles_app. rewrite <- Eend. split; [exact Htl |].
      cbn [tiles b_ptr b_size N]. unfold q. consts. lia.
    - destruct bs; discriminate.
    - rewrite last_last. reflexivity.
    - apply Forall_app. split; [| constructor; [exact HokN | constructor]].
      apply Forall_forall. intros b Hb.
      destruct (Hold b Hb) as (B1 & B2 & B3).
      apply (block_ok_frame st); [apply (proj1 (Forall_forall _ _) Hall b Hb) | |];
        intros a Ha; apply Hfr; unfold q in B2; consts; lia. }
  assert (HF3 : free_lists st3 (bs ++ [N]) FL).
  { apply (free_lists_frame st st3 bs _ _ HF eq_refl).
    - intros a Ha. apply Hfr. consts. lia.
    - intros c x a Hc Hx Ha.
      destruct (node_block st bs FL HL HF c x Hc Hx) as (s & u & _ & _ & _ & B2 & B3).
      apply Hfr. consts. lia.
    - intros c x s u Hc Hx Hb. exists u. apply in_or_app. left. exact Hb. }
  exists st3. split; [reflexivity |].
  split; [| split; [reflexivity | split; [reflexivity | exact Hfr]]].
  split; [exact HL3 |]. split; [exact HF3 |].
  apply (linked_iff_free_update bs FL); [exact HI |].
  intros b Hb. apply in_app_or in Hb. destruct Hb as [Hb | [Hb | []]].
  - left. split; [exact Hb | tauto].
  - right. subst b. cbn [b_used b_size b_ptr N].
    split; [discriminate |]. intros [Hc Hin]. exfalso.
    destruct (node_block st bs FL HL HF _ q Hc Hin) as (s & u & _ & _ & _ & B2 & B3).
    unfold q in B2. lia.
Qed.

(** The payload of a block lies apart from the words of any other
    block, its header included. *)
Lemma payload_away st bs b b' a :
  heap_layout st bs -> In b bs -> In b' bs -> b <> b' ->
  b_ptr b <= a < b_ptr b + b_size b - HF_OVERHEAD ->
  ~ (b_ptr b' - 8 <= a < b_ptr b' + b_size b' - 8).
Proof.
  intros HL Hb Hb' Hne Ha.
  destruct (layout_disjoint st bs b b' HL Hb Hb') as [E | Hd]; [contradiction |].
  destruct (layout_block st bs b HL Hb) as (_ & _ & _ & B1).
  destruct (layout_block st bs b' HL Hb') as (_ & _ & _ & B2).
  consts. lia.
Qed.

Lemma used_payload_not_link st bs FL a :
  heap_ok st bs FL -> used_payload bs a -> ~ link_area st FL a.
Proof.
  intros Hok (b & Hb & Hu & Ha).
  apply (used_block_not_link [] st bs FL b a);
    [apply heap_ok_except_nil; exact Hok | exact Hb | left; exact Hu |].
  destruct Hok as (HL & _).
  destruct (layout_block st bs b HL Hb) as (_ & _ & _ & B1).
  consts. lia.
Qed.

(** What a successful [mm_malloc] does to a well-formed heap: the block
    returned is a used block of the new heap, the used blocks are still
    there, and their payloads are untouched. *)
Lemma mm_malloc_block st bs FL fuel size q st1 :
  heap_ok st bs FL -> 0 < size ->
  mem_max_addr st + HEADER_SIZE <= 2 ^ 64 ->
  mm_malloc fuel st size = Some (q, st1) -> q <> NULL ->
  let need :=
    if ALIGN (size + HF_OVERHEAD) <? MBS then MBS
    else ALIGN (size + HF_OVERHEAD) in
  exists bs1 FL1 sq,
    heap_ok st1 bs1 FL1 /\ In (mkBlock q sq true) bs1 /\ need <= sq /\
    (forall b, In b bs -> b_used b = true -> In b bs1 /\ b_ptr b <> q) /\
    (length bs1 <= S (length bs))%nat /\
    mem_max_addr st1 = mem_max_addr st /\
    (forall a, used_payload bs a -> mem st1 a = mem st a).
Proof.
  intros Hok Hsize Hmax Hm Hq need.
  destruct (newsize_props size) as [Hn Hn8]. fold need in Hn, Hn8.
  pose proof Hok as (HL & HF & HI).
  unfold mm_malloc in Hm.
  destruct (Z.leb_spec size 0) as [| _]; [lia |]. fold need in Hm.
  destruct (mm_malloc_search (Z.to_nat CLASSES) fuel st (GET_CLASS need) need)
    as [[B c] |] eqn:Hs; [| discriminate].
  destruct (Z.eqb_spec B NULL) as [EB | HB]; cbn [negb] in Hm.
  - (* the heap is extended *)
    injection Hm as Hm.
    destruct (mm_malloc_grow_spec st bs FL need Hok ltac:(lia) Hn8 Hmax)
      as (st' & Eg & Hok' & Hbrk' & Hmax' & Hfr).
    { rewrite Hm. exact Hq. }
    cbv zeta in Eg. rewrite Eg in Hm. injection Hm as <- <-.
    exists (bs ++ [mkBlock (mem_brk st + HEADER_SIZE) need true]), FL, need.
    split; [exact Hok' |]. split; [apply in_or_app; right; left; reflexivity |].
    split; [lia |]. split; [| split; [| split; [exact Hmax' |]]].
    + intros b Hb Hu. split; [apply in_or_app; left; exact Hb |].
      destruct (layout_block st bs b HL Hb) as (_ & _ & B2 & B3). lia.
    + rewrite length_app. cbn [length]. lia.
    + intros a (b & Hb & Hu & Ha). apply Hfr.
      destruct (layout_block st bs b HL Hb) as (_ & _ & B2 & B3). consts. lia.
  - (* a block of a list is taken *)
    destruct (found_block st bs FL fuel _ need B c Hok Hs HB)
      as (sB & l1 & l2 & m1 & m2 & Ebs & Hc & Hcl & EFL & Hfit & Hbig).
    assert (HBin : In (mkBlock B sB false) bs) by (rewrite Ebs; apply in_middle).
    assert (Hused : forall b, In b bs -> b_used b = true ->
              (In b l1 \/ In b l2) /\ b <> mkBlock B sB false /\ b_ptr b <> B).
    { intros b Hb Hu.
      assert (Hne : b <> mkBlock B sB false) by (intros E; subst b; discriminate).
      split; [| split; [exact Hne |]].
      - rewrite Ebs in Hb. apply in_app_or in Hb.
        destruct Hb as [Hb | [Hb | Hb]]; [left; exact Hb | | right; exact Hb].
        exfalso. apply Hne. symmetry. exact Hb.
      - intros E. apply Hne. apply (layout_ptr_inj st bs); assumption. }
    assert (Hpay : forall a, used_payload bs a ->
              ~ link_area st FL a /\ ~ (B - 8 <= a < B + sB - 8)).
    { intros a Hup. split; [apply (used_payload_not_link st bs); assumption |].
      destruct Hup as (b & Hb & Hu & Ha).
      destruct (Hused b Hb Hu) as (_ & Hne & _).
      apply (payload_away st bs b (mkBlock B sB false) a HL Hb HBin Hne Ha). }
    injection Hm as Hm.
    destruct (Z.leb_spec (sB - need) MBS) as [Hrem | Hrem].
    + destruct (place_whole st bs FL c B sB l1 l2 m1 m2 need Hok Ebs Hc Hcl EFL
                  ltac:(lia) Hrem) as (st' & Ep & Hok' & HG & Hfr).
      rewrite Ep in Hm. injection Hm as <- <-.
      exists (l1 ++ mkBlock B sB true :: l2), (upd FL c (m1 ++ m2)), sB.
      split; [exact Hok' |]. split; [apply in_middle |]. split; [exact Hfit |].
      split; [| split; [| split; [apply HG |]]].
      * intros b Hb Hu. destruct (Hused b Hb Hu) as (Hside & _ & Hp).
        split; [| exact Hp]. apply in_or_app.
        destruct Hside; [left | right; right]; assumption.
      * rewrite Ebs, !length_app. cbn [length]. lia.
      * intros a Hup. destruct (Hpay a Hup) as [N1 N2].
        apply Hfr; [exact N1 | |]; consts; lia.
    + destruct (place_split st bs FL c B sB l1 l2 m1 m2 need Hok Ebs Hc Hcl EFL
                  ltac:(lia) Hn8 Hrem Hbig)
        as (st' & Ep & Hok' & _ & _ & Hmax' & Hfr).
      rewrite Ep in Hm. injection Hm as <- <-.
      exists (l1 ++ mkBlock B need true :: mkBlock (B + need) (sB - need) false :: l2),
        (upd (upd FL c (m1 ++ m2)) (GET_CLASS (sB - need))
             (B + need :: upd FL c (m1 ++ m2) (GET_CLASS (sB - need)))), need.
      split; [exact Hok' |].
      split; [apply in_middle |]. split; [lia |].
      split; [| split; [| split; [exact Hmax' |]]].
      * intros b Hb Hu. destruct (Hused b Hb Hu) as (Hside & _ & Hp).
        split; [| exact Hp]. apply in_or_app.
        destruct Hside; [left | right; right; right]; assumption.
      * rewrite Ebs, !length_app. cbn [length]. lia.
      * intros a Hup. destruct (Hpay a Hup) as [N1 N2].
        apply Hfr; assumption.
Qed.

Lemma take_run_free l b : In b (fst (take_run l)) -> b_used b = false.
Proof.
  induction l as [| x l IH]; cbn [take_run]; [intros [] |].
  destruct (coalescible x) eqn:Ex; [| intros []].
  destruct (take_run l) as [r rest]. cbn [fst] in *.
  intros [<- | H]; [| apply IH; exact H].
  unfold coalescible in Ex. destruct (b_used x); [discriminate | reflexivity].
Qed.

(** [mm_free] leaves the payloads of the other used blocks alone. *)
Lemma mm_free_keeps_payloads st FL l1 l2 p s fuel :
  heap_ok st (l1 ++ mkBlock p s true :: l2) FL ->
  (length l1 < fuel)%nat -> (length l2 < fuel)%nat ->
  exists st',
    mm_free fuel st p = Some st' /\
    forall a, used_payload (l1 ++ l2) a -> mem st' a = mem st a.
Proof.
  intros Hok Hf1 Hf2.
  destruct (mm_free_spec st FL l1 l2 p s fuel Hok Hf1 Hf2)
    as (st' & E & _ & _ & _ & Hfr).
  exists st'. split; [exact E |].
  intros a (b & Hb & Hu & Ha).
  set (Pu := mkBlock p s true) in *.
  assert (Hbin : In b (l1 ++ Pu :: l2)).
  { apply in_app_or in Hb. apply in_or_app.
    destruct Hb; [left | right; right]; assumption. }
  pose proof Hok as (HL & _).
  pose proof HL as (_ & _ & _ & Htl & _ & Hall).
  pose proof (block_ok_pos _ _ Hall) as Hpos.
  destruct (layout_block st _ b HL Hbin) as (_ & _ & _ & Bb).
  apply Hfr.
  - apply (used_payload_not_link st (l1 ++ Pu :: l2)); [exact Hok |].
    exists b. split; [exact Hbin |]. split; [exact Hu | exact Ha].
  - destruct (LIMIT_COALESCE <? GET_CLASS s).
    + set (lrr := fst (take_run (rev l1))) in *.
      set (rr := fst (take_run l2)) in *.
      assert (Esp : l1 ++ Pu :: l2 =
                rev (snd (take_run (rev l1))) ++ (rev lrr ++ Pu :: rr)
                ++ snd (take_run l2)).
      { unfold rr, lrr. rewrite (take_run_app l2) at 1.
        rewrite <- (rev_involutive l1) at 1. rewrite (take_run_app (rev l1)) at 1.
        rewrite rev_app_distr. rewrite <- !app_assoc. reflexivity. }
      rewrite Esp in Htl, Hpos.
      destruct (tiles_run _ _ _ _ _ Htl Hpos) as (_ & T2 & _ & _ & _ & _ & X1 & _ & X3).
      assert (Et : total_size (rev lrr ++ mkBlock p s false :: rr)
                   = total_size (rev lrr ++ Pu :: rr)).
      { rewrite !total_size_app. reflexivity. }
      assert (Eq : b_ptr (hd (mkBlock p s false) (rev lrr))
                   = first_block st
                     + total_size (rev (snd (take_run (rev l1))))).
      { destruct (rev lrr) as [| y l0]; cbn [app hd tiles] in T2 |- *;
          destruct T2 as [T2 _]; exact T2. }
      rewrite Et, Eq.
      apply in_app_or in Hb. destruct Hb as [Hb | Hb].
      * apply in_rev in Hb. rewrite (take_run_app (rev l1)) in Hb.
        apply in_app_or in Hb. destruct Hb as [Hb | Hb].
        -- apply take_run_free in Hb. congruence.
        -- apply in_rev in Hb. specialize (X1 b Hb). consts. lia.
      * rewrite (take_run_app l2) in Hb.
        apply in_app_or in Hb. destruct Hb as [Hb | Hb].
        -- apply take_run_free in Hb. congruence.
        -- specialize (X3 b Hb). consts. lia.
    + cbn [rev app hd total_size fold_right b_ptr b_size].
      destruct (tiles_middle _ _ _ _ _ Htl Hpos) as (_ & _ & Xl & Xr).
      cbn [b_ptr b_size Pu] in Xl, Xr.
      apply in_app_or in Hb. destruct Hb as [Hb | Hb].
      * specialize (Xl b Hb). consts. lia.
      * specialize (Xr b Hb). consts. lia.
Qed.

(** [memcpy] into the payload of a used block. *)
Lemma memcpy_payload st bs FL dst src n sq :
  heap_ok st bs FL -> In (mkBlock dst sq true) bs ->
  n <= sq - HF_OVERHEAD ->
  let st' := memcpy st dst src n in
  heap_ok st' bs FL /\
  (forall i, 0 <= i < n -> mem st' (dst + i) = mem st (src + i)) /\
  (forall a, ~ (dst <= a < dst + n) -> mem st' a = mem st a).
Proof.
  intros Hok HN Hn st'.
  pose proof Hok as (HL & HF & HI).
  assert (Hin : forall i, 0 <= i < n -> mem st' (dst + i) = mem st (src + i)).
  { intros i Hi. unfold st', memcpy. cbn [mem set_mem].
    destruct (Z.leb_spec dst (dst + i)); [| lia].
    destruct (Z.ltb_spec (dst + i) (dst + n)); [| lia].
    cbn [andb]. f_equal. lia. }
  assert (Hout : forall a, ~ (dst <= a < dst + n) -> mem st' a = mem st a).
  { intros a Ha. unfold st', memcpy. cbn [mem set_mem].
    destruct (Z.leb_spec dst a); [| reflexivity].
    destruct (Z.ltb_spec a (dst + n)); [lia | reflexivity]. }
  split; [| split; [exact Hin | exact Hout]].
  assert (Hpay : forall a, dst <= a < dst + n -> used_payload bs a).
  { intros a Ha. exists (mkBlock dst sq true). cbn [b_ptr b_size b_used].
    split; [exact HN |]. split; [reflexivity | lia]. }
  split; [| split; [| exact HI]].
  - apply (heap_layout_frame st st' bs HL).
    + unfold same_globals. repeat split; reflexivity.
    + intros b a Hb Ha. apply Hout. intros Hd.
      destruct (Z.eq_dec (b_ptr b) dst) as [E | Hne].
      * assert (Eb : b = mkBlock dst sq true)
          by (apply (layout_ptr_inj st bs); assumption).
        subst b. cbn [b_ptr b_size] in Ha. consts. lia.
      * assert (Hneb : mkBlock dst sq true <> b) by (intros Eb; subst b; apply Hne; reflexivity).
        apply (payload_away st bs (mkBlock dst sq true) b a HL HN Hb Hneb).
        -- cbn [b_ptr b_size]. lia.
        -- destruct (layout_block st bs b HL Hb) as (_ & _ & _ & Bb).
           consts. lia.
  - apply (free_lists_frame st st' bs bs FL HF eq_refl).
    + intros a Ha. apply Hout. intros Hd.
      apply (used_payload_not_link st bs FL a Hok (Hpay a Hd)). left. exact Ha.
    + intros c x a Hc Hx Ha. apply Hout. intros Hd.
      apply (used_payload_not_link st bs FL a Hok (Hpay a Hd)).
      right. exists c, x. tauto.
    + intros c x s u _ _ Hb. exists u. exact Hb.
Qed.

(** C3 (as amended).  In a well-formed heap let [p] be a used block of
    size [s], so that its payload has [s - HF_OVERHEAD] bytes, and let
    the requested size be at least that and small enough for the size
    computations of [mm_realloc] and [mm_malloc] not to wrap around
    ([size + 46 < 2^64]); the addresses of the backing store are below
    [2^64 - 8].  If [mm_realloc] returns a block [q] other
    than [NULL], the first [s - HF_OVERHEAD] bytes at [q] are the bytes
    that were at [p] before the call: when the computed block size is
    the size of the block, when the block grows in place, and when a
    new block is allocated, filled by [memcpy], and the old one
    freed. *)
Theorem mm_realloc_preserves_payload
  (st : state) (FL : Z -> list Z) (l1 l2 : list block) (p s size : Z)
  (fuel : nat) (q : Z) (st' : state) :
  heap_ok st (l1 ++ mkBlock p s true :: l2) FL ->
  0 < size -> size + 46 < 2 ^ 64 -> s - HF_OVERHEAD <= size ->
  mem_max_addr st + HEADER_SIZE <= 2 ^ 64 ->
  (S (length (l1 ++ l2)) < fuel)%nat ->
  mm_realloc fuel st p size = Some (q, st') -> q <> NULL ->
  payload_preserved st st' p q (s - HF_OVERHEAD).
Proof.
  intros Hok Hsize Hwrap Hge Hmax Hfuel Hre Hq.
  set (P := mkBlock p s true) in *.
  set (bs := l1 ++ P :: l2) in *.
  pose proof Hok as (HL & HF & HI).
  assert (HP : In P bs) by apply in_middle.
  destruct (layout_block st bs P HL HP) as (HokP & Bp1 & Bp2 & Bs).
  cbn [b_ptr b_size P] in Bp1, Bp2, Bs.
  assert (Hp0 : p <> NULL) by (destruct HL as (HT & Hfb & _); consts; lia).
  pose proof (newsize_props size) as Hns. cbv zeta in Hns.
  pose proof (newsize_no_overflow size ltac:(lia) ltac:(lia)) as Hno.
  set (newsize := if ALIGN (size + HF_OVERHEAD) <? MBS then MBS
                  else ALIGN (size + HF_OVERHEAD)) in *.
  assert (Hnew : s <= newsize /\ size + HF_OVERHEAD <= newsize < size + HF_OVERHEAD + 8
                 \/ s <= newsize /\ newsize = 32).
  { unfold newsize. change MBS with 32 in *.
    destruct (Z.ltb_spec (ALIGN (size + HF_OVERHEAD)) 32); [right | left]; lia. }
  assert (Hnew' : s <= newsize /\ newsize + 23 < 2 ^ 64)
    by (consts; destruct Hnew as [H | H]; lia).
  pose proof (block_size_read st P HokP) as Hsz.
  change (b_ptr P) with p in Hsz. change (b_size P) with s in Hsz.
  rewrite length_app in Hfuel.
  pose proof Hre as Hre0.
  unfold mm_realloc in Hre.
  destruct (Z.eqb_spec p NULL) as [| _]; [contradiction |]. cbn [andb negb] in Hre.
  destruct (Z.eqb_spec size 0) as [| _]; [lia |].
  destruct (Z.ltb_spec 0 size) as [_ |]; [| lia].
  rewrite Hsz in Hre. fold newsize in Hre.
  destruct (Z.eqb_spec newsize s) as [Esame | Hdiff].
  { injection Hre as <- <-. intros i _. reflexivity. }
  destruct (Z.ltb_spec s newsize) as [Hgrow |]; [| lia].
  assert (Ediff : wrap (newsize - s) = newsize - s) by (apply wrap_small; lia).
  destruct (simulate_right_coalesce fuel st p (wrap (newsize - s)))
    as [[|] |] eqn:Hsim; [| | discriminate].
  - (* in place *)
    destruct (mm_realloc_grow_in_place st FL l1 l2 p s size fuel Hok Hsize
                Hgrow ltac:(lia) Hsim)
      as (r & rest & st2 & _ & Ere & _ & _ & _ & _ & _ & _ & Hfr).
    rewrite Ere in Hre0. injection Hre0 as <- <-.
    intros i Hi. apply Hfr. lia.
  - (* a new block *)
    clear Hre0.
    destruct (mm_malloc fuel st newsize) as [[nq st1] |] eqn:Em; [| discriminate].
    destruct (Z.eqb_spec nq NULL) as [| Hnq];
      [injection Hre as <- _; contradiction |].
    assert (Hn0 : 0 < newsize) by lia.
    destruct (mm_malloc_block st bs FL fuel newsize nq st1 Hok Hn0 Hmax Em Hnq)
      as (bs1 & FL1 & sq & Hok1 & HN & Hsq & Hkeep & Hlen & _ & Hfr1).
    pose proof (newsize_no_overflow newsize ltac:(lia) ltac:(lia)) as Hno2.
    assert (Hsq' : s + HF_OVERHEAD <= sq).
    { cbv zeta in Hsq. change MBS with 32 in Hsq.
      destruct (Z.ltb_spec (ALIGN (newsize + HF_OVERHEAD)) 32); lia. }
    destruct (Hkeep P HP eq_refl) as [HP1 HPq]. change (b_ptr P) with p in HPq.
    assert (Ew : wrap (s - HF_OVERHEAD) = s - HF_OVERHEAD)
      by (apply wrap_small; consts; lia).
    rewrite Ew in Hre.
    destruct (memcpy_payload st1 bs1 FL1 nq p (s - HF_OVERHEAD) sq Hok1 HN
                ltac:(consts; lia)) as (Hok2 & Hcp & _).
    cbv zeta in Hok2, Hcp.
    set (st2 := memcpy st1 nq p (s - HF_OVERHEAD)) in *.
    destruct (in_split _ _ HP1) as (k1 & k2 & Ebs1).
    rewrite Ebs1 in Hok2, Hlen, HN. rewrite length_app in Hlen.
    unfold bs in Hlen. rewrite length_app in Hlen. cbn [length] in Hlen.
    destruct (mm_free_keeps_payloads st2 FL1 k1 k2 p s fuel Hok2
                ltac:(lia) ltac:(lia)) as (st3 & Efree & Hfr3).
    rewrite Efree in Hre. injection Hre as <- <-.
    intros i Hi.
    rewrite Hfr3.
    + rewrite (Hcp i Hi). apply Hfr1.
      exists P. split; [exact HP |]. split; [reflexivity |].
      cbn [b_ptr b_size P]. lia.
    + exists (mkBlock nq sq true). cbn [b_ptr b_size b_used].
      split; [| split; [reflexivity | consts; lia]].
      apply in_app_or in HN. apply in_or_app.
      destruct HN as [HN | [HN | HN]]; [left; exact HN | | right; exact HN].
      exfalso. apply HPq. injection HN as -> _ . reflexivity.
Qed.

Lemma heap_pattern_ok :
  heap_ok heap_pattern blocks_pattern (lists_of lists_pattern).
Proof. apply heap_ok_b_sound. vm_compute. reflexivity. Qed.

Lemma mm_realloc_preserves_payload_witness :
  heap_ok heap_pattern
    ([mkBlock 4264 32 false] ++ mkBlock 4296 80 true :: [mkBlock 4376 80 true])
    (lists_of lists_pattern) /\
  READ_DATA heap_pattern 4296 = 1234605616436508552 /\
  simulate_right_coalesce 8 heap_pattern 4296 (528 - 80) = Some false /\
  exists st',
    mm_realloc 8 heap_pattern 4296 512 = Some (4456, st') /\
    payload_preserved heap_pattern st' 4296 4456 (80 - HF_OVERHEAD).
Proof.
  split; [exact heap_pattern_ok |].
  split; [vm_compute; reflexivity |].
  split; [vm_compute; reflexivity |].
  assert (F : option_map fst (mm_realloc 8 heap_pattern 4296 512) = Some 4456)
    by (vm_compute; reflexivity).
  destruct (mm_realloc 8 heap_pattern 4296 512) as [[q st'] |] eqn:E;
    [| discriminate].
  injection F as ->. exists st'. split; [reflexivity |].
  apply (mm_realloc_preserves_payload heap_pattern (lists_of lists_pattern)
           [mkBlock 4264 32 false] [mkBlock 4376 80 true] 4296 80 512 8
           4456 st' heap_pattern_ok).
  - reflexivity.
  - reflexivity.
  - vm_compute. discriminate.
  - vm_compute. discriminate.
  - cbn. lia.
  - exact E.
  - discriminate.
Defined.
(** * Further properties of the code *)

(** ** Macros *)

(** [ALIGN] rounds up to the next multiple of 8 as long as the sum
    [x + 7] fits in 64 bits; for the seven largest values the sum wraps
    around and the result is 0. *)
Theorem ALIGN_rounds_up (x : Z) :
  0 <= x < 2 ^ 64 ->
  (x + 7 < 2 ^ 64 ->
   x <= ALIGN x < x + 8 /\ ALIGN x mod 8 = 0 /\ (x mod 8 = 0 -> ALIGN x = x)) /\
  (2 ^ 64 <= x + 7 -> ALIGN x = 0).
Proof.
  intros Hx. rewrite ALIGN_spec. split.
  - intros Hfit. rewrite wrap_small by lia. zlia.
  - intros Hwrap. unfold wrap.
    replace (x + 7) with (x + 7 - 2 ^ 64 + 1 * 2 ^ 64) by lia.
    rewrite Z.mod_add by lia. rewrite Z.mod_small by lia. zlia.
Qed.

Lemma ALIGN_rounds_up_witness :
  0 <= 13 < 2 ^ 64 /\
  (13 <= ALIGN 13 < 13 + 8 /\ ALIGN 13 mod 8 = 0) /\
  ALIGN (2 ^ 64 - 3) = 0.
Proof.
  assert (H : 0 <= 13 < 2 ^ 64) by lia.
  split; [exact H |].
  destruct (ALIGN_rounds_up 13 H) as [H1 _].
  destruct (H1 ltac:(lia)) as (A & B & _).
  split; [split; [exact A | exact B] |].
  destruct (ALIGN_rounds_up (2 ^ 64 - 3) ltac:(lia)) as [_ H2].
  apply H2. lia.
Defined.

(** The boundary tags of a block that lies inside the address space:
    after the header and the footer have been written with [PACK s b],
    both read back the size [s] and the bit [b], [FOOTER] is the word
    that ends 8 bytes before the next payload, [RIGHT] leads to the
    next payload and [LEFT] leads back from it; no other byte has
    changed. *)
Theorem boundary_tags_round_trip (st : state) (p s b : Z) :
  0 <= s < 2 ^ 64 -> s mod 8 = 0 -> 0 <= b <= 1 ->
  HEADER_SIZE <= p -> HF_OVERHEAD <= p + s -> p + s < 2 ^ 64 ->
  let st1 := WRITE_DATA st (HEADER p) (PACK s b) in
  let st2 := WRITE_DATA st1 (FOOTER st1 p) (PACK s b) in
  GET_SIZE st2 (HEADER p) = s /\ BIT st2 (HEADER p) = b /\
  FOOTER st2 p = p + s - HF_OVERHEAD /\
  GET_SIZE st2 (FOOTER st2 p) = s /\ BIT st2 (FOOTER st2 p) = b /\
  RIGHT st2 p = p + s /\ LEFT st2 (RIGHT st2 p) = p /\
  (forall a, ~ (p - 8 <= a < p) -> ~ (p + s - 16 <= a < p + s - 8) ->
             mem st2 a = mem st a).
Proof.
  intros Hs Hm Hb _ _ _ st1 st2.
  destruct (write_tags st p s b Hs Hm Hb) as (F1 & H1 & W1 & Fr).
  cbv zeta in F1, H1, W1, Fr. fold st1 in F1, H1, W1, Fr. fold st2 in H1, W1, Fr.
  pose proof (GET_SIZE_tag st2 _ s b H1 Hm Hb) as Hsz.
  assert (Hf : FOOTER st2 p = p + s - HF_OVERHEAD)
    by (unfold FOOTER; rewrite Hsz; reflexivity).
  assert (Hr : RIGHT st2 p = p + s) by (unfold RIGHT; rewrite Hsz; reflexivity).
  split; [exact Hsz |]. split; [apply (BIT_tag st2 _ s b H1 Hm Hb) |].
  split; [exact Hf |]. rewrite Hf.
  split; [apply (GET_SIZE_tag st2 _ s b W1 Hm Hb) |].
  split; [apply (BIT_tag st2 _ s b W1 Hm Hb) |].
  split; [exact Hr |]. split.
  - rewrite Hr. unfold LEFT.
    rewrite (GET_SIZE_tag st2 (p + s - HF_OVERHEAD) s b W1 Hm Hb). lia.
  - intros a A1 A2. apply Fr; consts; lia.
Qed.

Lemma boundary_tags_round_trip_witness :
  let st := backing_store 4096 1048576 in
  let st1 := WRITE_DATA st (HEADER 4264) (PACK 80 1) in
  let st2 := WRITE_DATA st1 (FOOTER st1 4264) (PACK 80 1) in
  GET_SIZE st2 (HEADER 4264) = 80 /\ BIT st2 (HEADER 4264) = 1 /\
  LEFT st2 (RIGHT st2 4264) = 4264.
Proof.
  intros st st1 st2.
  destruct (boundary_tags_round_trip st 4264 80 1)
    as (A & B & _ & _ & _ & _ & C & _);
    [lia | reflexivity | lia | consts; lia | consts; lia | lia |].
  split; [exact A |]. split; [exact B | exact C].
Defined.

(** ** Size classes *)

(** The class index grows with the size: a block of a higher class is
    larger than every block of a lower class. *)
Theorem GET_CLASS_monotone (s s' : Z) :
  s <= s' -> GET_CLASS s <= GET_CLASS s'.
Proof.
  intros Hle. pose proof (GET_CLASS_range s) as R. pose proof (GET_CLASS_range s') as R'.
  destruct (Z.eq_dec (GET_CLASS s') 20) as [E | Hne]; [lia |].
  assert (Hk : 0 <= GET_CLASS s' < 20) by lia.
  apply (GET_CLASS_le s (GET_CLASS s') Hk).
  pose proof (proj1 (GET_CLASS_le s' (GET_CLASS s') Hk) ltac:(lia)). lia.
Qed.

Lemma GET_CLASS_monotone_witness : GET_CLASS 100 <= GET_CLASS 5000.
Proof. apply GET_CLASS_monotone. lia. Defined.
(** ** The class lists *)

Lemma load8_inj m m' p :
  load8 m p = load8 m' p -> forall a, p <= a < p + 8 -> m a = m' a.
Proof.
  unfold load8. intros E a Ha.
  apply le_combine_inj in E; [| rewrite !length_map; reflexivity].
  assert (Hi : In (Z.to_nat (a - p)) (seq 0 8)) by (apply in_seq; lia).
  pose proof (f_equal (fun l => nth (Z.to_nat (a - p)) l Byte.x00) E) as En.
  cbv beta in En.
  rewrite !(nth_indep _ Byte.x00 ((fun i => m (p + Z.of_nat i)) 0%nat)) in En
    by (rewrite length_map, length_seq; lia).
  rewrite (map_nth (fun i => m (p + Z.of_nat i)) (seq 0 8) 0%nat) in En.
  rewrite (nth_indep _ _ ((fun i => m' (p + Z.of_nat i)) 0%nat)) in En
    by (rewrite length_map, length_seq; lia).
  rewrite (map_nth (fun i => m' (p + Z.of_nat i)) (seq 0 8) 0%nat) in En.
  rewrite seq_nth in En by lia. cbn [Nat.add] in En.
  rewrite Z2Nat.id in En by lia.
  replace (p + (a - p)) with a in En by lia. exact En.
Qed.

(** Two states in which the same list is linked agree on its links. *)
Lemma dll_same_words st st' l : forall prev nxt,
  dll st prev l nxt -> dll st' prev l nxt ->
  forall x a, In x l -> x <= a < x + 16 -> mem st' a = mem st a.
Proof.
  induction l as [| q l IH]; intros prev nxt H H' x a Hx Ha; [destruct Hx |].
  cbn [dll] in H, H'. destruct H as (Hp & Hn & H). destruct H' as (Hp' & Hn' & H').
  destruct Hx as [<- | Hx]; [| apply (IH q nxt H H' x a Hx Ha)].
  unfold READ_ADDR, PREV, NEXT, ADDRESS_SIZE in *.
  destruct (Z_lt_dec a (q + 8)).
  - apply (load8_inj (mem st') (mem st) q); [congruence | lia].
  - apply (load8_inj (mem st') (mem st) (q + 8)); [congruence | lia].
Qed.

Lemma in_node_dec (l : list Z) (a : Z) :
  (exists x, In x l /\ x <= a < x + 16) \/
  (forall x, In x l -> ~ (x <= a < x + 16)).
Proof.
  induction l as [| y l IH]; [right; intros x [] |].
  destruct (Z_le_dec y a) as [L1 |]; [destruct (Z_lt_dec a (y + 16)) as [L2 |] |];
    [left; exists y; split; [left; reflexivity | lia] | |];
    (destruct IH as [(x & Hx & Hax) | IH];
     [ left; exists x; split; [right; exact Hx | exact Hax]
     | right; intros x [<- | Hx]; [lia | apply IH; exact Hx] ]).
Qed.

(** [remove_from_free_list] takes a block out of its class list wherever
    it stands (head, middle or end): the list of the class is the old
    one without the block, still doubly linked, the other lists and the
    blocks are as before, and only the head slot of the class and the
    link words of the blocks left on that list can have changed. *)
Theorem remove_from_free_list_unlinks
  (st : state) (bs : list block) (FL : Z -> list Z) (c : Z)
  (l1 : list Z) (q : Z) (l2 : list Z) :
  heap_layout st bs -> free_lists st bs FL ->
  0 <= c < CLASSES -> FL c = l1 ++ q :: l2 ->
  let st' := remove_from_free_list st c q in
  heap_layout st' bs /\
  free_lists st' bs (upd FL c (l1 ++ l2)) /\
  READ_ADDR st' (LOOKUP_TABLE st' c) = hd NULL (l1 ++ l2) /\
  same_globals st st' /\
  (forall a, ~ (LOOKUP_TABLE st c <= a < LOOKUP_TABLE st c + 8) ->
             (forall x, In x (l1 ++ l2) -> ~ (x <= a < x + 16)) ->
             mem st' a = mem st a).
Proof.
  intros HL HF Hc El st'.
  destruct (remove_free_lists st bs FL c l1 q l2 HL HF Hc El)
    as (HL' & HF' & HG & Hfr).
  cbv zeta in HL', HF', HG, Hfr. fold st' in HL', HF', HG, Hfr.
  split; [exact HL' |]. split; [exact HF' |].
  split; [| split; [exact HG | exact Hfr]].
  destruct (HF' c Hc) as (Hh & _). rewrite upd_same in Hh. exact Hh.
Qed.

Lemma remove_from_free_list_unlinks_witness :
  let st' := remove_from_free_list heap_three_free 1 4408 in
  lists_of lists_three_free 1 = [4536] ++ 4408 :: [4296] /\
  heap_layout st' blocks_three_free /\
  free_lists st' blocks_three_free
    (upd (lists_of lists_three_free) 1 ([4536] ++ [4296])).
Proof.
  split; [reflexivity |].
  destruct heap_three_free_ok as (HL & HF & _).
  destruct (remove_from_free_list_unlinks heap_three_free blocks_three_free
              (lists_of lists_three_free) 1 [4536] 4408 [4296] HL HF)
    as (A & B & _); [unfold CLASSES; lia | reflexivity |].
  split; [exact A | exact B].
Defined.

(** [put_on_front_of_class_list] pushes a block of the heap that is on
    no list of its class onto the list of its class: the block is the
    new head, in front of the old list (LIFO); the other lists and the
    blocks are as before; only the head slot, the two link words of the
    block and the predecessor word of the old head can have changed. *)
Theorem put_on_front_of_class_list_pushes
  (st : state) (bs : list block) (FL : Z -> list Z) (c q s : Z) (u : bool) :
  heap_layout st bs -> free_lists st bs FL ->
  0 <= c < CLASSES -> In (mkBlock q s u) bs -> GET_CLASS s = c ->
  ~ In q (FL c) ->
  let st' := put_on_front_of_class_list st c q in
  heap_layout st' bs /\
  free_lists st' bs (upd FL c (q :: FL c)) /\
  READ_ADDR st' (LOOKUP_TABLE st' c) = q /\
  READ_ADDR st' (PREV q) = NULL /\
  READ_ADDR st' (NEXT q) = hd NULL (FL c) /\
  same_globals st st' /\
  (forall a, ~ (LOOKUP_TABLE st c <= a < LOOKUP_TABLE st c + 8) ->
             ~ (q <= a < q + 16) ->
             (forall x, In x (FL c) -> ~ (x <= a < x + 8)) ->
             mem st' a = mem st a).
Proof.
  intros HL HF Hc Hin Hcl Hnot st'.
  destruct (insert_free_lists st bs FL c q s u HL HF Hc Hin Hcl Hnot)
    as (HL' & HF' & HG & Hfr).
  cbv zeta in HL', HF', HG, Hfr. fold st' in HL', HF', HG, Hfr.
  destruct (HF' c Hc) as (Hh & Hd & _). rewrite upd_same in Hh, Hd.
  cbn [hd dll] in Hh, Hd. destruct Hd as (Hp & Hn & _).
  split; [exact HL' |]. split; [exact HF' |]. split; [exact Hh |].
  split; [exact Hp |]. split; [exact Hn |]. split; [exact HG | exact Hfr].
Qed.

Lemma put_on_front_of_class_list_pushes_witness :
  let st' := put_on_front_of_class_list heap_before_shrink 5 4296 in
  In (mkBlock 4296 1040 true) blocks_before_shrink /\
  ~ In 4296 (lists_of lists_before_shrink 5) /\
  free_lists st' blocks_before_shrink
    (upd (lists_of lists_before_shrink) 5 [4296; 5336]) /\
  READ_ADDR st' (LOOKUP_TABLE st' 5) = 4296.
Proof.
  assert (Hin : In (mkBlock 4296 1040 true) blocks_before_shrink)
    by (right; left; reflexivity).
  assert (Hnot : ~ In 4296 (lists_of lists_before_shrink 5))
    by (intros [H | []]; discriminate).
  split; [exact Hin |]. split; [exact Hnot |].
  destruct heap_before_shrink_ok as (HL & HF & _).
  destruct (put_on_front_of_class_list_pushes heap_before_shrink
              blocks_before_shrink (lists_of lists_before_shrink)
              5 4296 1040 true HL HF ltac:(unfold CLASSES; lia) Hin
              eq_refl Hnot) as (_ & A & B & _).
  split; [exact A | exact B].
Defined.

(** Pushing a block onto its class list and taking it off again restores
    every list, and every byte of the memory except the two link words of
    the block itself. *)
Theorem put_on_front_then_remove_restores
  (st : state) (bs : list block) (FL : Z -> list Z) (c q s : Z) (u : bool) :
  heap_layout st bs -> free_lists st bs FL ->
  0 <= c < CLASSES -> In (mkBlock q s u) bs -> GET_CLASS s = c ->
  ~ In q (FL c) ->
  let st' :=
    remove_from_free_list (put_on_front_of_class_list st c q) c q in
  heap_layout st' bs /\ free_lists st' bs FL /\ same_globals st st' /\
  (forall a, ~ (q <= a < q + 16) -> mem st' a = mem st a).
Proof.
  intros HL HF Hc Hin Hcl Hnot st'.
  destruct (insert_free_lists st bs FL c q s u HL HF Hc Hin Hcl Hnot)
    as (HL1 & HF1 & HG1 & Hfr1).
  cbv zeta in HL1, HF1, HG1, Hfr1.
  set (st1 := put_on_front_of_class_list st c q) in *.
  destruct (remove_free_lists st1 bs (upd FL c (q :: FL c)) c [] q (FL c)
              HL1 HF1 Hc) as (HL2 & HF2 & HG2 & Hfr2).
  { rewrite upd_same. reflexivity. }
  cbv zeta in HL2, HF2, HG2, Hfr2. fold st' in HL2, HF2, HG2, Hfr2.
  cbn [app] in HF2, Hfr2.
  assert (HF' : free_lists st' bs FL).
  { apply (free_lists_ext st' bs (upd (upd FL c (q :: FL c)) c (FL c)));
      [| exact HF2].
    intros c' Hc'. unfold upd. destruct (c' =? c) eqn:E; [| reflexivity].
    apply Z.eqb_eq in E. subst c'. reflexivity. }
  split; [exact HL2 |]. split; [exact HF' |].
  split; [apply (same_globals_trans _ st1); assumption |].
  intros a Ha.
  destruct HG1 as (_ & _ & G3 & _). destruct HG2 as (_ & _ & G3' & _).
  assert (Hslot : forall c', 0 <= c' < CLASSES ->
            LOOKUP_TABLE st c' <= a < LOOKUP_TABLE st c' + 8 ->
            mem st' a = mem st a).
  { intros c' Hc' Hin'.
    destruct (HF c' Hc') as (Hh & _). destruct (HF' c' Hc') as (Hh' & _).
    unfold LOOKUP_TABLE in Hh'. rewrite G3', G3 in Hh'.
    fold (LOOKUP_TABLE st c') in Hh'.
    apply (load8_inj (mem st') (mem st) (LOOKUP_TABLE st c')); [| exact Hin'].
    unfold READ_ADDR in Hh, Hh'. congruence. }
  assert (Hnode : forall c' x, 0 <= c' < CLASSES -> In x (FL c') ->
            x <= a < x + 16 -> mem st' a = mem st a).
  { intros c' x Hc' Hx Hax.
    destruct (HF c' Hc') as (_ & Hd & _). destruct (HF' c' Hc') as (_ & Hd' & _).
    apply (dll_same_words st st' (FL c') NULL NULL Hd Hd' x a Hx Hax). }
  destruct (in_node_dec (FL c) a) as [(x & Hx & Hax) | Hfar];
    [apply (Hnode c x Hc Hx Hax) |].
  destruct (Z_le_dec (LOOKUP_TABLE st c) a) as [L1 |];
    [destruct (Z_lt_dec a (LOOKUP_TABLE st c + 8)) as [L2 |] |];
    [apply (Hslot c Hc); lia | |];
    (rewrite Hfr2;
     [ apply Hfr1; [lia | exact Ha |]; intros x Hx Hax; apply (Hfar x Hx); lia
     | unfold LOOKUP_TABLE; rewrite G3; fold (LOOKUP_TABLE st c); lia
     | exact Hfar ]).
Qed.

Lemma put_on_front_then_remove_restores_witness :
  let st' :=
    remove_from_free_list
      (put_on_front_of_class_list heap_before_shrink 5 4296) 5 4296 in
  free_lists st' blocks_before_shrink (lists_of lists_before_shrink) /\
  (forall a, ~ (4296 <= a < 4296 + 16) -> mem st' a = mem heap_before_shrink a).
Proof.
  destruct heap_before_shrink_ok as (HL & HF & _).
  destruct (put_on_front_then_remove_restores heap_before_shrink
              blocks_before_shrink (lists_of lists_before_shrink)
              5 4296 1040 true HL HF ltac:(unfold CLASSES; lia))
    as (_ & A & _ & B).
  - right. left. reflexivity.
  - reflexivity.
  - intros [H | []]. discriminate.
  - split; [exact A | exact B].
Defined.
(** ** [mm_init] *)

(** The loop that clears the lookup table. *)
Lemma clear_table n : forall st,
  (n <= 20)%nat ->
  let st' :=
    fold_left (fun s i => WRITE_ADDR s (LOOKUP_TABLE s (Z.of_nat i)) NULL)
              (seq 0 n) st in
  same_globals st st' /\
  (forall i, 0 <= i < Z.of_nat n -> READ_ADDR st' (LOOKUP_TABLE st' i) = NULL) /\
  (forall a, ~ (lookup_table st <= a < lookup_table st + 8 * Z.of_nat n) ->
             mem st' a = mem st a).
Proof.
  induction n as [| n IH]; intros st Hn.
  - cbn [seq fold_left]. split; [apply same_globals_refl |].
    split; [intros i Hi; lia | reflexivity].
  - rewrite seq_S, fold_left_app. cbn [Nat.add fold_left].
    destruct (IH st ltac:(lia)) as (HG & Hz & Hfr). cbv zeta in HG, Hz, Hfr.
    set (s1 := fold_left _ (seq 0 n) st) in *.
    destruct HG as (G1 & G2 & G3 & G4 & G5).
    cbv zeta. split; [| split].
    + unfold same_globals. cbn. tauto.
    + intros i Hi.
      change (LOOKUP_TABLE (WRITE_ADDR s1 (LOOKUP_TABLE s1 (Z.of_nat n)) NULL) i)
        with (LOOKUP_TABLE s1 i).
      destruct (Z.eq_dec i (Z.of_nat n)) as [-> | Hne].
      * rewrite READ_ADDR_WRITE_same. reflexivity.
      * rewrite READ_ADDR_WRITE_other
          by (unfold LOOKUP_TABLE, ADDRESS_SIZE; lia).
        apply Hz. lia.
    + intros a Ha. rewrite mem_WRITE_ADDR_outside.
      * apply Hfr. lia.
      * unfold LOOKUP_TABLE, ADDRESS_SIZE. rewrite G3. lia.
Qed.

(** [mm_init] with room for 192 bytes: it returns 0; the table is at
    the old break, its 20 heads are [NULL] but the one of class 0; the
    heap is the single free block of [MBS] bytes, which is the first and
    the last block and the only element of the class 0 list; nothing
    outside the 192 new bytes is written. *)
Theorem mm_init_well_formed (st : state) :
  0 < mem_brk st -> mem_brk st + 192 <= mem_max_addr st ->
  mem_max_addr st + HEADER_SIZE <= 2 ^ 64 ->
  let fb := mem_brk st + LOOKUP_TABLE_SIZE + HEADER_SIZE in
  exists st',
    mm_init st = (0, st') /\
    heap_ok st' [mkBlock fb MBS false] (upd (fun _ => []) 0 [fb]) /\
    lookup_table st' = mem_brk st /\ first_block st' = fb /\
    end_heap st' = fb /\
    mem_brk st' = mem_brk st + 192 /\ mem_max_addr st' = mem_max_addr st /\
    (forall a, ~ (mem_brk st <= a < mem_brk st + 192) -> mem st' a = mem st a).
Proof.
  intros Hbrk Hroom Hmax fb.
  unfold mm_init.
  change (wrap (wrap (ALIGN (LOOKUP_TABLE_SIZE + HEADER_SIZE) - LOOKUP_TABLE_SIZE)
                - HEADER_SIZE)) with 0.
  change (0 + LOOKUP_TABLE_SIZE + MBS) with 192.
  unfold mem_sbrk.
  destruct (Z.ltb_spec (mem_max_addr st) (mem_brk st + 192)) as [| _]; [lia |].
  destruct (Z.eqb_spec (mem_brk st) NULL) as [E |]; [unfold NULL in E; lia |].
  cbv zeta. cbn [mem mem_brk mem_max_addr first_block end_heap].
  set (st1 := mkState (mem st) (mem_brk st + 192) (mem_max_addr st)
                      (mem_brk st + 0) (first_block st) (end_heap st)).
  destruct (clear_table 20 st1 ltac:(lia)) as (HG2 & Hz & Hfr2).
  cbv zeta in HG2, Hz, Hfr2.
  change (Z.to_nat CLASSES) with 20%nat.
  set (st2 := fold_left _ (seq 0 20) st1) in *.
  destruct HG2 as (G1 & G2 & G3 & G4 & G5).
  change (lookup_table st1) with (mem_brk st + 0) in G3, Hfr2.
  change (mem_brk st1) with (mem_brk st + 192) in G1.
  change (mem_max_addr st1) with (mem_max_addr st) in G2.
  rewrite Z.add_0_r in G3, Hfr2.
  rewrite G1, G2, G3. fold fb.
  set (st3 := mkState (mem st2) (mem_brk st + 192) (mem_max_addr st)
                      (mem_brk st) fb (end_heap st2)).
  destruct (write_tags st3 fb MBS 0) as (F1 & H1 & W1 & Fr);
    [change MBS with 32; lia | reflexivity | lia |].
  cbv zeta in F1, H1, W1, Fr.
  set (st4 := WRITE_DATA st3 (HEADER fb) (PACK MBS 0)) in *.
  set (st5 := WRITE_DATA st4 (FOOTER st4 fb) (PACK MBS 0)) in *.
  rewrite <- put_on_front_set_end_heap.
  set (st5e := set_end_heap st5 fb).
  assert (Hmem5 : forall a, ~ (mem_brk st + 160 <= a < mem_brk st + 192) ->
                            mem st5e a = mem st2 a).
  { intros a Ha. change (mem st5e a) with (mem st5 a).
    rewrite Fr by (unfold fb; consts; change MBS with 32; lia). reflexivity. }
  set (B0 := mkBlock fb MBS false).
  assert (HL : heap_layout st5e [B0]).
  { apply (heap_layout_intro st5e [B0] B0).
    - exact Hbrk.
    - reflexivity.
    - change (mem_brk st5e) with (mem_brk st + 192). consts. lia.
    - cbn [tiles b_ptr b_size B0]. split; [reflexivity |].
      change (first_block st5e) with fb. change (mem_brk st5e) with (mem_brk st + 192).
      unfold fb. consts. change MBS with 32. lia.
    - discriminate.
    - reflexivity.
    - constructor; [| constructor]. unfold block_ok, tag.
      cbn [b_ptr b_size b_used B0].
      split; [lia |]. split; [reflexivity |]. split; [exact H1 | exact W1]. }
  assert (HF : free_lists st5e [B0] (fun _ => [])).
  { intros c Hc. cbn [hd dll]. split; [| split; [exact I | split; [constructor |]]].
    - unfold LOOKUP_TABLE at 1. change (lookup_table st5e) with (mem_brk st).
      rewrite <- G3. fold (LOOKUP_TABLE st2 c).
      rewrite <- (Hz c ltac:(unfold CLASSES in Hc; lia)).
      apply load8_ext. intros a Ha. apply Hmem5.
      unfold LOOKUP_TABLE, ADDRESS_SIZE, CLASSES in *. rewrite G3 in Ha. lia.
    - intros q []. }
  assert (HE : heap_ok_except [fb] st5e [B0] (fun _ => [])).
  { split; [exact HL |]. split; [exact HF |]. split.
    - intros b [<- | []] Hn. exfalso. apply Hn. left. reflexivity.
    - intros c x _ []. }
  destruct (push_block st5e [B0] (fun _ => []) fb MBS HE (or_introl eq_refl))
    as (Hok & HG6 & Hfr6); [reflexivity |].
  cbv zeta in Hok, HG6, Hfr6. change (GET_CLASS MBS) with 0 in Hok, HG6, Hfr6.
  eexists. split; [reflexivity |].
  destruct HG6 as (G1' & G2' & G3' & G4' & G5').
  split; [exact Hok |].
  split; [exact G3' |]. split; [exact G4' |]. split; [exact G5' |].
  split; [exact G1' |]. split; [exact G2' |].
  intros a Ha. rewrite Hfr6.
  - rewrite Hmem5 by lia. rewrite Hfr2 by lia. reflexivity.
  - intros [Ht | (c & x & _ & [] & _)].
    change (lookup_table st5e) with (mem_brk st) in Ht. consts. lia.
  - unfold fb. consts. lia.
Qed.

Lemma mm_init_well_formed_witness :
  exists st',
    mm_init (backing_store 4096 1048576) = (0, st') /\
    heap_ok st' [mkBlock 4264 32 false] (upd (fun _ => []) 0 [4264]) /\
    end_heap st' = 4264.
Proof.
  destruct (mm_init_well_formed (backing_store 4096 1048576))
    as (st' & E & Hok & _ & _ & Hend & _).
  - reflexivity.
  - vm_compute. discriminate.
  - vm_compute. discriminate.
  - exists st'. split; [exact E |]. split; [exact Hok | exact Hend].
Defined.

(** [mm_init] without room for 192 bytes returns -1; memory, break and
    block anchors are as before, and the table pointer is [NULL]. *)
Theorem mm_init_out_of_memory (st : state) :
  mem_max_addr st < mem_brk st + 192 ->
  fst (mm_init st) = -1 /\
  mem (snd (mm_init st)) = mem st /\
  mem_brk (snd (mm_init st)) = mem_brk st /\
  lookup_table (snd (mm_init st)) = NULL.
Proof.
  intros Hfull. unfold mm_init.
  change (wrap (wrap (ALIGN (LOOKUP_TABLE_SIZE + HEADER_SIZE) - LOOKUP_TABLE_SIZE)
                - HEADER_SIZE)) with 0.
  change (0 + LOOKUP_TABLE_SIZE + MBS) with 192.
  unfold mem_sbrk.
  destruct (Z.ltb_spec (mem_max_addr st) (mem_brk st + 192)) as [_ |]; [| lia].
  rewrite Z.eqb_refl. cbn. repeat split; reflexivity.
Qed.

Lemma mm_init_out_of_memory_witness :
  fst (mm_init (backing_store 4096 100)) = -1 /\
  mem_brk (snd (mm_init (backing_store 4096 100))) = 4096.
Proof.
  destruct (mm_init_out_of_memory (backing_store 4096 100))
    as (A & _ & B & _); [reflexivity |].
  split; [exact A | exact B].
Defined.
(** ** [mm_malloc] *)

(** The loop over the classes of [mm_malloc] on a well-formed heap, with
    fuel for the longest list. *)
Lemma mm_malloc_search_spec st bs FL fuel need n : forall c0,
  heap_layout st bs -> free_lists st bs FL ->
  (forall c, 0 <= c < CLASSES -> (length (FL c) <= fuel)%nat) ->
  0 <= c0 -> c0 + Z.of_nat n = CLASSES ->
  exists B c,
    mm_malloc_search n fuel st c0 need = Some (B, c) /\
    (forall c' x, c0 <= c' < c -> In x (FL c') -> GET_SIZE st (HEADER x) < need) /\
    (B = NULL -> c = CLASSES) /\
    (B <> NULL ->
       c0 <= c < CLASSES /\ In B (FL c) /\ need <= GET_SIZE st (HEADER B) /\
       forall x, In x (FL c) -> need <= GET_SIZE st (HEADER x) ->
                 GET_SIZE st (HEADER B) <= GET_SIZE st (HEADER x)).
Proof.
  induction n as [| n IH]; intros c0 HL HF Hfuel Hc0 Hn; cbn [mm_malloc_search].
  - exists NULL, c0. split; [reflexivity |].
    split; [intros c' x Hc'; lia |]. split; [intros _; lia | congruence].
  - destruct (Z.ltb_spec c0 CLASSES) as [Hlt |]; [| lia].
    assert (Hc : 0 <= c0 < CLASSES) by lia.
    destruct (HF c0 Hc) as (Hh & Hd & _ & _).
    assert (Hnn : forall x, In x (FL c0) -> x <> NULL).
    { intros x Hx. destruct (node_pos st bs FL HL HF c0 c0 x Hc Hc Hx) as [H _].
      unfold NULL. lia. }
    pose proof (dll_next_chain st (FL c0) NULL Hd Hnn) as Hch.
    rewrite <- Hh in Hch.
    destruct (search_free_list_spec st c0 need (FL c0) fuel Hc Hch (Hfuel c0 Hc))
      as (r & Er & Hnull & Hfit & _).
    rewrite Er.
    destruct (Z.eqb_spec r NULL) as [E | Hne]; cbn [negb].
    + destruct (IH (c0 + 1) HL HF Hfuel ltac:(lia) ltac:(lia))
        as (B & c & Es & Hlow & HB0 & HB).
      exists B, c. split; [exact Es |]. split; [| split; [exact HB0 |]].
      * intros c' x Hc' Hx. destruct (Z.eq_dec c' c0) as [-> | Hd'].
        -- apply (proj1 Hnull E x Hx).
        -- apply (Hlow c' x); [lia | exact Hx].
      * intros HBn. destruct (HB HBn) as (H1 & H2). split; [lia | exact H2].
    + exists r, c0. split; [reflexivity |].
      split; [intros c' x Hc'; lia |]. split; [contradiction |].
      intros _. destruct (Hfit Hne) as (H1 & H2 & H3).
      split; [lia |]. split; [exact H1 |]. split; [exact H2 | exact H3].
Qed.

(** The loop is left when the class index reaches [CLASSES]: rounds
    beyond that change nothing. *)
Lemma mm_malloc_search_rounds fuel st need : forall k m c,
  (k <= m)%nat -> c + Z.of_nat k = CLASSES ->
  mm_malloc_search m fuel st c need = mm_malloc_search k fuel st c need.
Proof.
  induction k as [| k IH]; intros m c Hkm Hck.
  - destruct m; cbn [mm_malloc_search]; [reflexivity |].
    destruct (Z.ltb_spec c CLASSES); [lia | reflexivity].
  - destruct m as [| m]; [lia |]. cbn [mm_malloc_search].
    destruct (c <? CLASSES); [| reflexivity].
    destruct (search_free_list fuel st c need) as [ptr |]; [| reflexivity].
    destruct (negb (ptr =? NULL)); [reflexivity |].
    apply IH; lia.
Qed.

(** Placement policy.  On a well-formed heap, with fuel for the longest
    list, the search of [mm_malloc] returns: it tries the classes from
    the class of the size asked for upwards and stops at the first one
    whose list holds a block that fits; the block it returns is a
    smallest fitting block of that list.  It returns [NULL] exactly when
    no list from that class upwards holds a block that fits. *)
Theorem mm_malloc_search_first_fitting_class
  (st : state) (bs : list block) (FL : Z -> list Z) (fuel : nat) (need : Z) :
  heap_ok st bs FL ->
  (forall c, 0 <= c < CLASSES -> (length (FL c) <= fuel)%nat) ->
  0 <= GET_CLASS need < CLASSES ->
  exists B c,
    mm_malloc_search (Z.to_nat CLASSES) fuel st (GET_CLASS need) need
      = Some (B, c) /\
    (forall c' x, GET_CLASS need <= c' < c -> In x (FL c') ->
                  GET_SIZE st (HEADER x) < need) /\
    (B = NULL <->
       forall c' x, GET_CLASS need <= c' < CLASSES -> In x (FL c') ->
                    GET_SIZE st (HEADER x) < need) /\
    (B <> NULL ->
       GET_CLASS need <= c < CLASSES /\ In B (FL c) /\
       need <= GET_SIZE st (HEADER B) /\
       forall x, In x (FL c) -> need <= GET_SIZE st (HEADER x) ->
                 GET_SIZE st (HEADER B) <= GET_SIZE st (HEADER x)).
Proof.
  intros (HL & HF & _) Hfuel Hc.
  remember (Z.to_nat (CLASSES - GET_CLASS need)) as n eqn:En.
  assert (Efuel : mm_malloc_search (Z.to_nat CLASSES) fuel st (GET_CLASS need) need
                  = mm_malloc_search n fuel st (GET_CLASS need) need).
  { subst n. apply mm_malloc_search_rounds; unfold CLASSES in *; lia. }
  rewrite Efuel.
  destruct (mm_malloc_search_spec st bs FL fuel need n (GET_CLASS need)
              HL HF Hfuel ltac:(lia) ltac:(subst n; lia))
    as (B & c & Es & Hlow & HB0 & HB).
  exists B, c. split; [exact Es |]. split; [exact Hlow |]. split; [| exact HB].
  split.
  - intros E c' x Hc' Hx. apply (Hlow c' x); [| exact Hx].
    rewrite (HB0 E). lia.
  - intros Hnone. destruct (Z.eq_dec B NULL) as [E | Hne]; [exact E | exfalso].
    destruct (HB Hne) as (H1 & H2 & H3 & _).
    specialize (Hnone c B H1 H2). lia.
Qed.

Lemma lists_of_length (fls : list (list Z)) (fuel : nat) :
  forallb (fun l => (length l <=? fuel)%nat) fls = true ->
  forall c, (length (lists_of fls c) <= fuel)%nat.
Proof.
  intros H c. unfold lists_of. rewrite forallb_forall in H.
  destruct (nth_in_or_default (Z.to_nat c) fls []) as [Hin | ->].
  - apply Nat.leb_le. apply (H _ Hin).
  - cbn [length]. lia.
Qed.

Lemma mm_malloc_search_first_fitting_class_witness :
  exists c,
    mm_malloc_search (Z.to_nat CLASSES) 8 heap_three_free (GET_CLASS 96) 96
      = Some (4408, c) /\
    GET_CLASS 96 <= c < CLASSES /\
    In 4408 (lists_of lists_three_free c).
Proof.
  destruct (mm_malloc_search_first_fitting_class heap_three_free
              blocks_three_free (lists_of lists_three_free) 8 96
              heap_three_free_ok)
    as (B & c & Es & _ & _ & HB).
  - intros c _. apply lists_of_length. reflexivity.
  - split; [vm_compute; discriminate | vm_compute; reflexivity].
  - assert (F : option_map fst
                  (mm_malloc_search (Z.to_nat CLASSES) 8 heap_three_free
                                    (GET_CLASS 96) 96) = Some 4408)
      by (vm_compute; reflexivity).
    rewrite Es in F. injection F as ->.
    exists c. split; [exact Es |].
    destruct (HB ltac:(discriminate)) as (H1 & H2 & _).
    split; [exact H1 | exact H2].
Defined.

(** When no listed block fits, [mm_malloc] asks [mem_sbrk] for exactly
    the block size: with room in the store the new block is appended
    behind the last block, marked used, and becomes the last block;
    without room [mm_malloc] returns [NULL] and leaves the state as it
    was. *)
Theorem mm_malloc_extends_heap
  (st : state) (bs : list block) (FL : Z -> list Z) (fuel : nat) (size : Z) :
  let need :=
    if ALIGN (size + HF_OVERHEAD) <? MBS then MBS
    else ALIGN (size + HF_OVERHEAD) in
  heap_ok st bs FL ->
  (forall c, 0 <= c < CLASSES -> (length (FL c) <= fuel)%nat) ->
  0 < size ->
  mem_max_addr st + HEADER_SIZE <= 2 ^ 64 ->
  (forall c x, GET_CLASS need <= c < CLASSES -> In x (FL c) ->
               GET_SIZE st (HEADER x) < need) ->
  (mem_brk st + need <= mem_max_addr st ->
   let q := mem_brk st + HEADER_SIZE in
   exists st',
     mm_malloc fuel st size = Some (q, st') /\
     heap_ok st' (bs ++ [mkBlock q need true]) FL /\
     end_heap st' = q /\
     mem_brk st' = mem_brk st + need /\
     (forall a, ~ (mem_brk st <= a < mem_brk st + need) -> mem st' a = mem st a)) /\
  (mem_max_addr st < mem_brk st + need ->
   mm_malloc fuel st size = Some (NULL, st)).
Proof.
  intros need Hok Hfuel Hsize Hmax Hnone.
  destruct (newsize_props size) as [Hn Hn8]. fold need in Hn, Hn8.
  pose proof Hok as (HL & HF & _).
  assert (Hsearch : exists c,
            mm_malloc_search (Z.to_nat CLASSES) fuel st (GET_CLASS need) need
            = Some (NULL, c)).
  { pose proof (GET_CLASS_range need) as Hr.
    destruct (Z.eq_dec (GET_CLASS need) CLASSES) as [E | Hne].
    - exists (GET_CLASS need). rewrite E. reflexivity.
    - destruct (mm_malloc_search_spec st bs FL fuel need
                  (Z.to_nat (CLASSES - GET_CLASS need)) (GET_CLASS need)
                  HL HF Hfuel ltac:(lia) ltac:(unfold CLASSES in *; lia))
        as (B & c & Es & _ & _ & HB).
      assert (EB : B = NULL).
      { destruct (Z.eq_dec B NULL) as [| HBn]; [assumption | exfalso].
        destruct (HB HBn) as (H1 & H2 & H3 & _).
        specialize (Hnone c B H1 H2). lia. }
      subst B. exists c. rewrite <- Es.
      apply mm_malloc_search_rounds; unfold CLASSES in *; lia. }
  destruct Hsearch as (c & Es).
  assert (Em : mm_malloc fuel st size = Some (mm_malloc_grow st need)).
  { unfold mm_malloc. destruct (Z.leb_spec size 0) as [| _]; [lia |].
    fold need. rewrite Es. rewrite Z.eqb_refl. reflexivity. }
  rewrite Em. split.
  - intros Hroom q.
    assert (Hb0 : 0 < mem_brk st).
    { destruct (layout_end_heap st bs (mkBlock 0 0 false) HL) as [Hne _].
      destruct bs as [| b0 bs0]; [contradiction |].
      destruct (layout_block st (b0 :: bs0) b0 HL (or_introl eq_refl))
        as (_ & B1 & B2 & B3).
      destruct HL as (HT & Hfb & _). consts. lia. }
    destruct (mm_malloc_grow_spec st bs FL need Hok ltac:(lia) Hn8 Hmax)
      as (st' & Eg & Hok' & Hbrk' & _ & Hfr).
    { unfold mm_malloc_grow, mem_sbrk.
      destruct (Z.ltb_spec (mem_max_addr st) (mem_brk st + need)); [lia |].
      destruct (Z.eqb_spec (mem_brk st) NULL) as [E |];
        [unfold NULL in E; lia |].
      cbn [fst]. consts. lia. }
    cbv zeta in Eg. fold q in Eg, Hok'.
    exists st'. split; [rewrite Eg; reflexivity |]. split; [exact Hok' |].
    split; [| split; [exact Hbrk' | exact Hfr]].
    destruct Hok' as (HL' & _).
    destruct (layout_end_heap st' _ (mkBlock 0 0 false) HL') as [_ He].
    rewrite last_last in He. symmetry. exact He.
  - intros Hfull. unfold mm_malloc_grow, mem_sbrk.
    destruct (Z.ltb_spec (mem_max_addr st) (mem_brk st + need)); [| lia].
    rewrite Z.eqb_refl. reflexivity.
Qed.

Lemma mm_malloc_extends_heap_witness :
  exists st',
    mm_malloc 8 heap_three_free 1000 = Some (4680, st') /\
    heap_ok st' (blocks_three_free ++ [mkBlock 4680 1016 true])
            (lists_of lists_three_free) /\
    end_heap st' = 4680.
Proof.
  destruct (mm_malloc_extends_heap heap_three_free blocks_three_free
              (lists_of lists_three_free) 8 1000 heap_three_free_ok)
    as [Hgrow _].
  - intros c _. apply lists_of_length. reflexivity.
  - reflexivity.
  - vm_compute. discriminate.
  - intros c x Hc Hx. exfalso.
    change (GET_CLASS _) with 4 in Hc.
    unfold lists_of, lists_three_free in Hx.
    destruct (Z.to_nat c) as [| [| n]] eqn:En; [lia | lia |].
    cbn [nth] in Hx. rewrite nth_repeat in Hx. destruct Hx.
  - destruct Hgrow as (st' & E & Hok & Hend & _); [vm_compute; discriminate |].
    exists st'. split; [exact E |]. split; [exact Hok | exact Hend].
Defined.

(** A successful [mm_malloc] never disturbs the blocks in use: the block
    it returns is a used block of the new heap with at least the size
    computed for the request, it is none of the blocks that were in use,
    these are all still there, and no byte of their payloads has
    changed. *)
Theorem mm_malloc_keeps_used_blocks
  (st : state) (bs : list block) (FL : Z -> list Z) (fuel : nat)
  (size q : Z) (st1 : state) :
  heap_ok st bs FL -> 0 < size ->
  mem_max_addr st + HEADER_SIZE <= 2 ^ 64 ->
  mm_malloc fuel st size = Some (q, st1) -> q <> NULL ->
  let need :=
    if ALIGN (size + HF_OVERHEAD) <? MBS then MBS
    else ALIGN (size + HF_OVERHEAD) in
  exists bs1 FL1 sq,
    heap_ok st1 bs1 FL1 /\ In (mkBlock q sq true) bs1 /\ need <= sq /\
    (forall b, In b bs -> b_used b = true -> In b bs1 /\ b_ptr b <> q) /\
    (forall a, used_payload bs a -> mem st1 a = mem st a).
Proof.
  intros Hok Hsize Hmax Hm Hq need.
  destruct (mm_malloc_block st bs FL fuel size q st1 Hok Hsize Hmax Hm Hq)
    as (bs1 & FL1 & sq & H1 & H2 & H3 & H4 & _ & _ & H5).
  exists bs1, FL1, sq. repeat (split; [assumption |]). assumption.
Qed.

Lemma mm_malloc_keeps_used_blocks_witness :
  exists st1,
    mm_malloc 8 heap_pattern 100 = Some (4456, st1) /\
    READ_DATA heap_pattern 4296 = 1234605616436508552 /\
    READ_DATA st1 4296 = 1234605616436508552 /\
    exists bs1 FL1, heap_ok st1 bs1 FL1 /\ In (mkBlock 4296 80 true) bs1.
Proof.
  assert (F : option_map fst (mm_malloc 8 heap_pattern 100) = Some 4456)
    by (vm_compute; reflexivity).
  destruct (mm_malloc 8 heap_pattern 100) as [[q st1] |] eqn:E; [| discriminate].
  injection F as ->. exists st1. split; [reflexivity |].
  assert (H0 : READ_DATA heap_pattern 4296 = 1234605616436508552)
    by (vm_compute; reflexivity).
  split; [exact H0 |].
  destruct (mm_malloc_keeps_used_blocks heap_pattern blocks_pattern
              (lists_of lists_pattern) 8 100 4456 st1 heap_pattern_ok
              ltac:(reflexivity) ltac:(vm_compute; discriminate) E
              ltac:(discriminate))
    as (bs1 & FL1 & sq & Hok1 & _ & _ & Hkeep & Hfr).
  split.
  - rewrite <- H0. apply READ_DATA_ext. intros a Ha. apply Hfr.
    exists (mkBlock 4296 80 true). cbn [b_ptr b_size b_used].
    split; [right; left; reflexivity |]. split; [reflexivity |].
    unfold HF_OVERHEAD, HEADER_SIZE, FOOTER_SIZE. lia.
  - exists bs1, FL1. split; [exact Hok1 |].
    apply (Hkeep (mkBlock 4296 80 true)); [right; left; reflexivity | reflexivity].
Defined.

Lemma tiles_aligned bs : forall p e,
  tiles p bs e -> Forall (fun b => b_size b mod 8 = 0) bs -> p mod 8 = 0 ->
  e mod 8 = 0 /\ forall b, In b bs -> b_ptr b mod 8 = 0.
Proof.
  induction bs as [| x bs IH]; intros p e Ht Hs Hp; cbn [tiles] in Ht.
  - subst e. split; [exact Hp | intros b []].
  - destruct Ht as [Ex Ht]. inversion Hs as [| ? ? Hx Hs']; subst.
    destruct (IH _ _ Ht Hs' ltac:(zlia)) as [He Hall].
    split; [exact He |]. intros b [<- | Hb]; [exact Hp | apply Hall; exact Hb].
Qed.

(** Alignment and capacity.  When the first block of a well-formed heap
    is 8-byte aligned and the size computation does not wrap around, the
    pointer a successful [mm_malloc] returns is 8-byte aligned, its
    block is marked used, and its payload has room for the [size] bytes
    asked for. *)
Theorem mm_malloc_aligned_and_roomy
  (st : state) (bs : list block) (FL : Z -> list Z) (fuel : nat)
  (size q : Z) (st1 : state) :
  heap_ok st bs FL -> first_block st mod 8 = 0 ->
  0 < size -> size + 23 < 2 ^ 64 ->
  mem_max_addr st + HEADER_SIZE <= 2 ^ 64 ->
  mm_malloc fuel st size = Some (q, st1) -> q <> NULL ->
  q mod 8 = 0 /\
  BIT st1 (HEADER q) = 1 /\
  size <= GET_SIZE st1 (HEADER q) - HF_OVERHEAD.
Proof.
  intros Hok Hal Hsize Hwrap Hmax Hm Hq.
  destruct (mm_malloc_block st bs FL fuel size q st1 Hok Hsize Hmax Hm Hq)
    as (bs1 & FL1 & sq & (HL1 & _) & HN & Hsq & _).
  cbv zeta in Hsq.
  destruct (layout_block st1 bs1 _ HL1 HN) as (HokN & _).
  pose proof (block_size_read st1 _ HokN) as Hsz.
  pose proof (block_bit_read st1 _ HokN) as Hbit.
  cbn [b_ptr b_size b_used] in Hsz, Hbit.
  pose proof (newsize_no_overflow size ltac:(lia) Hwrap) as Hno.
  split; [| split; [exact Hbit |]].
  - pose proof Hok as (HL & HF & HI).
    pose proof HL as (_ & _ & _ & Htl & _ & Hall).
    assert (Hs8 : Forall (fun b => b_size b mod 8 = 0) bs).
    { apply (Forall_impl _ (P := block_ok st)); [| exact Hall].
      intros b (_ & H & _). exact H. }
    destruct (tiles_aligned bs _ _ Htl Hs8 Hal) as [He Hptr].
    unfold mm_malloc in Hm.
    destruct (Z.leb_spec size 0) as [| _]; [lia |].
    set (need := if ALIGN (size + HF_OVERHEAD) <? MBS then MBS
                 else ALIGN (size + HF_OVERHEAD)) in *.
    destruct (mm_malloc_search (Z.to_nat CLASSES) fuel st (GET_CLASS need) need)
      as [[B c] |] eqn:Es; [| discriminate].
    destruct (Z.eqb_spec B NULL) as [EB | HB]; cbn [negb] in Hm.
    + unfold mm_malloc_grow, mem_sbrk in Hm.
      destruct (mem_max_addr st <? mem_brk st + need).
      * rewrite Z.eqb_refl in Hm. injection Hm as <- _. contradiction.
      * destruct (mem_brk st =? NULL); injection Hm as <- _;
          [contradiction | exact He].
    + destruct (found_block st bs FL fuel _ need B c Hok Es HB)
        as (sB & l1 & l2 & _ & _ & Ebs & _).
      assert (EqB : q = B).
      { unfold mm_malloc_place in Hm.
        destruct (_ <=? MBS); injection Hm as <- _; reflexivity. }
      subst q. apply (Hptr (mkBlock B sB false)). rewrite Ebs. apply in_middle.
  - rewrite Hsz. change MBS with 32 in Hsq.
    destruct (Z.ltb_spec (ALIGN (size + HF_OVERHEAD)) 32); consts; lia.
Qed.

Lemma mm_malloc_aligned_and_roomy_witness :
  exists st1,
    mm_malloc 8 heap_pattern 100 = Some (4456, st1) /\
    4456 mod 8 = 0 /\ 100 <= GET_SIZE st1 (HEADER 4456) - HF_OVERHEAD.
Proof.
  assert (F : option_map fst (mm_malloc 8 heap_pattern 100) = Some 4456)
    by (vm_compute; reflexivity).
  destruct (mm_malloc 8 heap_pattern 100) as [[q st1] |] eqn:E; [| discriminate].
  injection F as ->. exists st1. split; [reflexivity |].
  destruct (mm_malloc_aligned_and_roomy heap_pattern blocks_pattern
              (lists_of lists_pattern) 8 100 4456 st1 heap_pattern_ok
              ltac:(vm_compute; reflexivity) ltac:(reflexivity)
              ltac:(reflexivity) ltac:(vm_compute; discriminate) E
              ltac:(discriminate))
    as (A & _ & B).
  split; [exact A | exact B].
Defined.
(** ** [mm_free] and [coalesce] *)

(** [mm_free] of a used block of a well-formed heap returns, leaves the
    break where it is, and changes no byte of the payload of any other
    used block. *)
Theorem mm_free_keeps_other_payloads
  (st : state) (FL : Z -> list Z) (l1 l2 : list block) (p s : Z) (fuel : nat) :
  heap_ok st (l1 ++ mkBlock p s true :: l2) FL ->
  (length l1 < fuel)%nat -> (length l2 < fuel)%nat ->
  exists st',
    mm_free fuel st p = Some st' /\
    mem_brk st' = mem_brk st /\ mem_max_addr st' = mem_max_addr st /\
    forall a, used_payload (l1 ++ l2) a -> mem st' a = mem st a.
Proof.
  intros Hok Hf1 Hf2.
  destruct (mm_free_keeps_payloads st FL l1 l2 p s fuel Hok Hf1 Hf2)
    as (st' & E & Hfr).
  destruct (mm_free_spec st FL l1 l2 p s fuel Hok Hf1 Hf2)
    as (st2 & E2 & _ & Hb & Hm & _).
  rewrite E in E2. injection E2 as <-.
  exists st'. split; [exact E |]. split; [exact Hb |]. split; [exact Hm | exact Hfr].
Qed.

Lemma mm_free_keeps_other_payloads_witness :
  READ_DATA heap_pattern 4296 = 1234605616436508552 /\
  exists st',
    mm_free 8 heap_pattern 4376 = Some st' /\
    READ_DATA st' 4296 = 1234605616436508552.
Proof.
  assert (H0 : READ_DATA heap_pattern 4296 = 1234605616436508552)
    by (vm_compute; reflexivity).
  split; [exact H0 |].
  destruct (mm_free_keeps_other_payloads heap_pattern (lists_of lists_pattern)
              [mkBlock 4264 32 false; mkBlock 4296 80 true] [] 4376 80 8
              heap_pattern_ok ltac:(cbn; lia) ltac:(cbn; lia))
    as (st' & E & _ & _ & Hfr).
  exists st'. split; [exact E |].
  rewrite <- H0. apply READ_DATA_ext. intros a Ha. apply Hfr.
  exists (mkBlock 4296 80 true). cbn [b_ptr b_size b_used].
  split; [right; left; reflexivity |]. split; [reflexivity |].
  unfold HF_OVERHEAD, HEADER_SIZE, FOOTER_SIZE. lia.
Defined.

Lemma take_run_total l :
  Forall (fun b => 0 < b_size b) l ->
  0 <= total_size (fst (take_run l)) <= total_size l.
Proof.
  intros Hpos. rewrite (take_run_app l) in Hpos at 1.
  apply Forall_app in Hpos. destruct Hpos as [P1 P2].
  pose proof (total_size_nonneg _ P1). pose proof (total_size_nonneg _ P2).
  rewrite (take_run_app l) at 3. rewrite total_size_app. lia.
Qed.

(** In a heap of less than [64 * 2^19] bytes every block has a class
    index below [CLASSES], so [mm_free] always pushes the block it
    produces: the heap is well formed again after every [mm_free] of a
    used block. *)
Theorem mm_free_well_formed_in_small_heap
  (st : state) (FL : Z -> list Z) (l1 l2 : list block) (p s : Z) (fuel : nat) :
  heap_ok st (l1 ++ mkBlock p s true :: l2) FL ->
  (length l1 < fuel)%nat -> (length l2 < fuel)%nat ->
  mem_brk st + HEADER_SIZE - first_block st < 64 * 2 ^ 19 ->
  exists st' bs' FL',
    mm_free fuel st p = Some st' /\ heap_ok st' bs' FL' /\
    total_size bs' = total_size (l1 ++ mkBlock p s true :: l2) /\
    (forall b, In b (l1 ++ l2) -> b_used b = true -> In b bs') /\
    (forall b, In b bs' -> b_used b = true -> In b (l1 ++ l2)).
Proof.
  intros Hok Hf1 Hf2 Hsmall.
  destruct (mm_free_spec st FL l1 l2 p s fuel Hok Hf1 Hf2)
    as (st' & E & Hres & _).
  cbv zeta in Hres.
  pose proof Hok as (HL & _).
  pose proof HL as (_ & _ & _ & Htl & _ & Hall).
  pose proof (block_ok_pos _ _ Hall) as Hpos.
  pose proof (tiles_end _ _ _ Htl) as Eend.
  rewrite total_size_app in Eend. cbn [total_size fold_right b_size] in Eend.
  fold (total_size l2) in Eend.
  pose proof Hpos as Hpos'. apply Forall_app in Hpos'. destruct Hpos' as [P1 P2].
  inversion P2 as [| ? ? Ps P2']; subst. cbn [b_size] in Ps.
  pose proof (take_run_total l2 P2') as T2.
  assert (P1r : Forall (fun b => 0 < b_size b) (rev l1))
    by (apply Forall_rev; exact P1).
  pose proof (take_run_total (rev l1) P1r) as T1. rewrite total_size_rev in T1.
  pose proof (total_size_nonneg _ P1) as N1.
  pose proof (total_size_nonneg _ P2') as N2.
  set (P := mkBlock p s false) in *.
  set (coal := LIMIT_COALESCE <? GET_CLASS s) in *.
  set (rr := if coal then fst (take_run l2) else []) in *.
  set (l2' := if coal then snd (take_run l2) else l2) in *.
  set (lrr := if coal then fst (take_run (rev l1)) else []) in *.
  set (l1' := if coal then rev (snd (take_run (rev l1))) else l1) in *.
  set (t := total_size (rev lrr ++ P :: rr)) in *.
  assert (Esplit1 : l1 = l1' ++ rev lrr).
  { unfold l1', lrr. destruct coal; [| rewrite app_nil_r; reflexivity].
    rewrite <- rev_app_distr, <- take_run_app, rev_involutive. reflexivity. }
  assert (Esplit2 : l2 = rr ++ l2').
  { unfold l2', rr. destruct coal; [apply take_run_app | reflexivity]. }
  assert (Et : t = total_size (rev lrr) + (s + total_size rr)).
  { unfold t. rewrite total_size_app. reflexivity. }
  assert (Htb : t < 64 * 2 ^ 19).
  { assert (total_size rr <= total_size l2)
      by (unfold rr; destruct coal; [lia | cbn; lia]).
    assert (total_size (rev lrr) <= total_size l1).
    { rewrite total_size_rev. unfold lrr. destruct coal; [lia | cbn; lia]. }
    consts. lia. }
  assert (Hc : GET_CLASS t < CLASSES).
  { assert (GET_CLASS t <= 19); [| unfold CLASSES; lia].
    apply GET_CLASS_le; lia. }
  destruct (Z.ltb_spec (GET_CLASS t) CLASSES) as [_ |]; [| lia].
  eexists st', _, _. split; [exact E |]. split; [exact Hres |].
  assert (Hfree_run : forall b, In b (rev lrr) \/ In b rr -> b_used b = false).
  { intros b [Hb | Hb].
    - apply in_rev in Hb. unfold lrr in Hb. destruct coal; [| destruct Hb].
      apply (take_run_free _ _ Hb).
    - unfold rr in Hb. destruct coal; [| destruct Hb].
      apply (take_run_free _ _ Hb). }
  split; [| split].
  - rewrite !total_size_app. cbn [total_size fold_right b_size].
    fold (total_size l2'). fold (total_size l2). fold t.
    rewrite Esplit1, Esplit2, !total_size_app. lia.
  - intros b Hb Hu. apply in_or_app.
    apply in_app_or in Hb. destruct Hb as [Hb | Hb].
    + rewrite Esplit1 in Hb. apply in_app_or in Hb.
      destruct Hb as [Hb | Hb]; [left; exact Hb |].
      rewrite (Hfree_run b (or_introl Hb)) in Hu. discriminate.
    + rewrite Esplit2 in Hb. apply in_app_or in Hb.
      destruct Hb as [Hb | Hb]; [| right; right; exact Hb].
      rewrite (Hfree_run b (or_intror Hb)) in Hu. discriminate.
  - intros b Hb Hu. apply in_or_app.
    apply in_app_or in Hb. destruct Hb as [Hb | [Hb | Hb]].
    + left. rewrite Esplit1. apply in_or_app. left. exact Hb.
    + subst b. discriminate.
    + right. rewrite Esplit2. apply in_or_app. right. exact Hb.
Qed.

Lemma mm_free_well_formed_in_small_heap_witness :
  exists st' bs' FL',
    mm_free 8 heap_before_shrink 4296 = Some st' /\ heap_ok st' bs' FL' /\
    total_size bs' = 32 + 1040 + 1040.
Proof.
  destruct (mm_free_well_formed_in_small_heap heap_before_shrink
              (lists_of lists_before_shrink)
              [mkBlock 4264 32 false] [mkBlock 5336 1040 false] 4296 1040 8
              heap_before_shrink_ok ltac:(cbn; lia) ltac:(cbn; lia))
    as (st' & bs' & FL' & E & Hok & Ht & _).
  - vm_compute. reflexivity.
  - exists st', bs', FL'. split; [exact E |]. split; [exact Hok | exact Ht].
Defined.

(** [coalesce] of a block [P] that is marked free and on no list: the
    run of free blocks above 255 bytes on its right and the one on its
    left are taken off their lists and merged with it.  The result is the
    leftmost block of the merge; its header and footer hold the sum of
    the sizes; the block is on no list yet; the last-block pointer
    follows when the last block was merged; nothing outside the merged
    block and the list links has changed. *)
Theorem coalesce_merges_free_runs
  (st : state) (FL : Z -> list Z) (l1 l2 : list block) (P : block)
  (fuel : nat) :
  heap_ok_except [b_ptr P] st (l1 ++ P :: l2) FL ->
  (length l1 < fuel)%nat -> (length l2 < fuel)%nat ->
  let rr := fst (take_run l2) in
  let l2' := snd (take_run l2) in
  let lrr := fst (take_run (rev l1)) in
  let l1' := rev (snd (take_run (rev l1))) in
  let p' := b_ptr (hd P (rev lrr)) in
  let t := total_size (rev lrr ++ P :: rr) in
  let FL2 := without (map b_ptr (rr ++ lrr)) FL in
  exists st',
    coalesce fuel st (b_ptr P) = Some (p', st') /\
    heap_ok_except [p'] st' (l1' ++ mkBlock p' t false :: l2') FL2 /\
    GET_SIZE st' (HEADER p') = t /\ b_size P <= t /\
    mem_brk st' = mem_brk st /\
    (forall a, ~ link_area st FL a -> ~ (p' - 8 <= a < p' + t - 8) ->
               mem st' a = mem st a).
Proof.
  intros HE Hf1 Hf2 rr l2' lrr l1' p' t FL2.
  destruct (coalesce_spec st FL l1 l2 P fuel HE Hf1 Hf2)
    as (st' & E & HE' & Hb & _ & _ & Hsz & Ht & _ & Hfr).
  exists st'. split; [exact E |]. split; [exact HE' |].
  split; [exact Hsz |]. split; [exact Ht |]. split; [exact Hb | exact Hfr].
Qed.

Lemma coalesce_merges_free_runs_witness :
  let st1 :=
    WRITE_DATA heap_before_shrink (HEADER 4296)
               (PACK (GET_SIZE heap_before_shrink (HEADER 4296)) 0) in
  let st2 :=
    WRITE_DATA st1 (FOOTER st1 4296) (PACK (GET_SIZE st1 (HEADER 4296)) 0) in
  exists st',
    coalesce 8 st2 4296 = Some (4296, st') /\
    GET_SIZE st' (HEADER 4296) = 2080 /\
    heap_ok_except [4296] st'
      [mkBlock 4264 32 false; mkBlock 4296 2080 false]
      (without [5336] (lists_of lists_before_shrink)).
Proof.
  intros st1 st2.
  destruct (mark_free heap_before_shrink (lists_of lists_before_shrink)
              [mkBlock 4264 32 false] [mkBlock 5336 1040 false] 4296 1040
              heap_before_shrink_ok) as (HE & _).
  destruct (coalesce_merges_free_runs st2 (lists_of lists_before_shrink)
              [mkBlock 4264 32 false] [mkBlock 5336 1040 false]
              (mkBlock 4296 1040 false) 8 HE ltac:(cbn; lia) ltac:(cbn; lia))
    as (st' & E & HE' & Hsz & _).
  exists st'. split; [exact E |]. split; [exact Hsz | exact HE'].
Defined.
(** ** [mm_realloc]: shrinking *)

(** What [put_on_front_of_class_list] can write: the head slot, the two
    link words of the block, and the predecessor word of the old head. *)
Lemma put_on_front_of_class_list_frame st c q a :
  ~ (LOOKUP_TABLE st c <= a < LOOKUP_TABLE st c + 8) ->
  ~ (q <= a < q + 16) ->
  ~ (READ_ADDR st (LOOKUP_TABLE st c) <= a
     < READ_ADDR st (LOOKUP_TABLE st c) + 8) ->
  mem (put_on_front_of_class_list st c q) a = mem st a.
Proof.
  intros Hs Hq Hh. unfold put_on_front_of_class_list.
  destruct (_ || _); [reflexivity |]. cbv zeta.
  change (LOOKUP_TABLE (if READ_ADDR st (LOOKUP_TABLE st c) =? NULL then _ else _) c)
    with (LOOKUP_TABLE st c) || idtac.
  rewrite mem_WRITE_ADDR_outside by lia.
  destruct (READ_ADDR st (LOOKUP_TABLE st c) =? NULL).
  - rewrite !mem_WRITE_ADDR_outside by (unfold PREV, NEXT, ADDRESS_SIZE; lia).
    reflexivity.
  - rewrite !mem_WRITE_ADDR_outside by (unfold PREV, NEXT, ADDRESS_SIZE; lia).
    reflexivity.
Qed.

(** [mm_realloc] to a smaller block size on a well-formed heap returns
    the same pointer.  When the surplus is at most [MBS] nothing
    changes.  Otherwise the block is cut down to the computed size and
    the surplus becomes a free block that is the new head of the list of
    its class (it is not merged with a free right neighbour); the heap
    is well formed again, the last-block pointer moves to the surplus
    when the block was the last one, and the payload bytes that remain
    in the block are unchanged. *)
Theorem mm_realloc_shrinks_in_place
  (st : state) (FL : Z -> list Z) (l1 l2 : list block) (p s size : Z)
  (fuel : nat) :
  heap_ok st (l1 ++ mkBlock p s true :: l2) FL ->
  0 < size ->
  let newsize :=
    if ALIGN (size + HF_OVERHEAD) <? MBS then MBS
    else ALIGN (size + HF_OVERHEAD) in
  newsize < s -> s < 64 * 2 ^ 19 ->
  (s - newsize <= MBS -> mm_realloc fuel st p size = Some (p, st)) /\
  (MBS < s - newsize ->
   let R := p + newsize in
   let cR := GET_CLASS (s - newsize) in
   exists st',
     mm_realloc fuel st p size = Some (p, st') /\
     heap_ok st' (l1 ++ mkBlock p newsize true
                     :: mkBlock R (s - newsize) false :: l2)
             (upd FL cR (R :: FL cR)) /\
     end_heap st' = (if end_heap st =? p then R else end_heap st) /\
     mem_brk st' = mem_brk st /\
     (forall a, p <= a < p + newsize - HF_OVERHEAD -> mem st' a = mem st a)).
Proof.
  intros Hok Hsize newsize Hless Hbig.
  set (P := mkBlock p s true) in *.
  pose proof Hok as (HL & HF & HI).
  assert (HP : In P (l1 ++ P :: l2)) by apply in_middle.
  destruct (layout_block st _ P HL HP) as (HokP & Bp1 & Bp2 & Bs).
  cbn [b_ptr b_size P] in Bp1, Bp2, Bs.
  assert (Hp0 : p <> NULL) by (destruct HL as (HT & Hfb & _); consts; lia).
  destruct (newsize_props size) as [Hn Hn8]. fold newsize in Hn, Hn8.
  pose proof (block_size_read st P HokP) as Hsz.
  pose proof (block_bit_read st P HokP) as Hbit.
  change (b_ptr P) with p in Hsz, Hbit. change (b_size P) with s in Hsz.
  cbn [b_used P] in Hbit.
  assert (Ere : mm_realloc fuel st p size
                = if wrap (s - newsize) <=? MBS then Some (p, st)
                  else Some (p, split st p newsize)).
  { unfold mm_realloc.
    destruct (Z.eqb_spec p NULL) as [| _]; [contradiction |]. cbn [andb negb].
    destruct (Z.eqb_spec size 0) as [| _]; [lia |].
    destruct (Z.ltb_spec 0 size) as [_ |]; [| lia].
    rewrite Hsz. fold newsize.
    destruct (Z.eqb_spec newsize s) as [| _]; [lia |].
    destruct (Z.ltb_spec s newsize) as [| _]; [lia |]. reflexivity. }
  rewrite wrap_small in Ere by lia.
  rewrite Ere. split.
  - intros Hsmall. destruct (Z.leb_spec (s - newsize) MBS); [reflexivity | lia].
  - intros Hrem R cR.
    destruct (Z.leb_spec (s - newsize) MBS) as [| _]; [lia |].
    change MBS with 32 in Hrem.
    assert (HcR : cR < CLASSES).
    { unfold cR. assert (GET_CLASS (s - newsize) <= 19); [| unfold CLASSES; lia].
      apply GET_CLASS_le; lia. }
    assert (HcR' : 0 <= cR < CLASSES)
      by (pose proof (GET_CLASS_range (s - newsize)) as Hr; fold cR in Hr; lia).
    assert (Hoff : forall c, 0 <= c < CLASSES -> ~ In p (FL c)).
    { intros c Hc. apply (used_not_listed st _ FL P c Hok HP eq_refl Hc). }
    destruct (split_spec st FL FL l1 l2 p s true newsize HL HF ltac:(lia) Hn8
                ltac:(lia) HcR (conj Hoff eq_refl))
      as (HL' & HF' & Hend & Hbrk & _ & HnB & _ & _).
    fold R in HL', HF', Hend, HnB. fold cR in HL', HF', HnB.
    exists (split st p newsize). split; [reflexivity |].
    split; [| split; [exact Hend | split; [exact Hbrk |]]].
    + split; [exact HL' |]. split; [exact HF' |].
      apply (linked_iff_free_update (l1 ++ P :: l2) FL); [exact HI |].
      intros x Hx.
      assert (Hold : In x l1 \/ In x l2 ->
         In x (l1 ++ P :: l2) /\
         forall c', 0 <= c' < CLASSES ->
           (In (b_ptr x) (upd FL cR (R :: FL cR) c') <-> In (b_ptr x) (FL c'))).
      { intros Hx12.
        assert (Hxin : In x (l1 ++ P :: l2)).
        { apply in_or_app. destruct Hx12; [left | right; right]; assumption. }
        split; [exact Hxin |]. intros c' Hc'.
        destruct (layout_block st _ x HL Hxin) as (_ & _ & _ & Bx).
        assert (Hd : b_ptr x + b_size x <= p \/ p + s <= b_ptr x).
        { pose proof HL as (_ & _ & _ & Ht & _ & Hok').
          pose proof (block_ok_pos _ _ Hok') as Hpos.
          destruct (tiles_middle _ _ _ _ _ Ht Hpos) as (_ & _ & Hl & Hr).
          cbn [b_ptr b_size P] in Hl, Hr.
          destruct Hx12 as [H | H]; [left; apply (Hl x H) | right; apply (Hr x H)]. }
        apply in_upd_cons. unfold R. lia. }
      apply in_app_or in Hx. destruct Hx as [Hx | [Hx | [Hx | Hx]]].
      * left. apply Hold. left. exact Hx.
      * right. subst x. cbn [b_used b_size b_ptr].
        split; [discriminate |]. intros [Hcn H]. exfalso. apply (HnB _ Hcn H).
      * right. subst x. cbn [b_used b_size b_ptr]. fold cR. rewrite upd_same.
        split; [| reflexivity]. intros _. split; [exact HcR' | left; reflexivity].
      * left. apply Hold. right. exact Hx.
    + (* the payload that is kept *)
      intros a Ha.
      assert (Hrr : 0 <= s - newsize < 2 ^ 64) by lia.
      assert (Hr8 : (s - newsize) mod 8 = 0).
      { destruct HokP as (_ & Hm & _). cbn [b_size P] in Hm. zlia. }
      destruct (write_tags st p newsize 1 ltac:(lia) Hn8 ltac:(lia))
        as (F1 & H1 & _ & Fr1).
      cbv zeta in F1, H1, Fr1.
      set (st2 := WRITE_DATA st (HEADER p) (PACK newsize 1)) in *.
      set (st3 := WRITE_DATA st2 (FOOTER st2 p) (PACK newsize 1)) in *.
      pose proof (GET_SIZE_tag st3 _ newsize 1 H1 Hn8 ltac:(lia)) as Hsz3.
      destruct (write_tags st3 R (s - newsize) 0 Hrr Hr8 ltac:(lia))
        as (F2 & _ & _ & Fr2).
      cbv zeta in F2, Fr2.
      set (st4 := WRITE_DATA st3 (HEADER R) (PACK (s - newsize) 0)) in *.
      set (st5 := WRITE_DATA st4 (FOOTER st4 R) (PACK (s - newsize) 0)) in *.
      assert (Esplit : mem (split st p newsize)
                       = mem (put_on_front_of_class_list st5 cR R)).
      { unfold split. rewrite Hsz, Hbit.
        change (1 =? 0) with false. cbv iota.
        rewrite wrap_small by lia. fold st2. fold st3. rewrite Hsz3.
        fold R. fold st4. fold st5. fold cR.
        match goal with |- mem (if ?c then _ else _) = _ => destruct c end;
          reflexivity. }
      rewrite Esplit.
      assert (E53 : forall x, ~ (p - 8 <= x < p) ->
                ~ (p + newsize - 16 <= x < p + s - 8) ->
                mem st5 x = mem st x).
      { intros x X1 X2. rewrite Fr2 by (unfold R; consts; lia).
        apply Fr1; consts; lia. }
      destruct (slot_before_blocks st _ HL cR HcR') as (S1 & S2 & S3).
      assert (Eslot : READ_ADDR st5 (LOOKUP_TABLE st5 cR)
                      = READ_ADDR st (LOOKUP_TABLE st cR)).
      { change (LOOKUP_TABLE st5 cR) with (LOOKUP_TABLE st cR).
        apply load8_ext. intros x Hx. apply E53; unfold R; consts; lia. }
      rewrite put_on_front_of_class_list_frame.
      * apply E53; unfold R; consts; lia.
      * change (LOOKUP_TABLE st5 cR) with (LOOKUP_TABLE st cR). consts. lia.
      * unfold R. consts. lia.
      * rewrite Eslot. destruct (HF cR HcR') as (Hh & _). rewrite Hh.
        destruct (FL cR) as [| h tl] eqn:EFL; cbn [hd].
        -- unfold NULL. destruct HL as (HT & Hfb & _). consts. lia.
        -- assert (Hh_in : In h (FL cR)) by (rewrite EFL; left; reflexivity).
           destruct (node_block st _ FL HL HF cR h HcR' Hh_in)
             as (sh & uh & Hb & _ & _ & _ & Bh).
           assert (Hne : P <> mkBlock h sh uh).
           { intros E. injection E as E _ _. subst h.
             apply (Hoff cR HcR' Hh_in). }
           pose proof (payload_away st _ P (mkBlock h sh uh) a HL HP Hb Hne) as Haway.
           cbn [b_ptr b_size P] in Haway.
           assert (~ (h - 8 <= a < h + sh - 8)) by (apply Haway; consts; lia).
           lia.
Qed.

Lemma mm_realloc_shrinks_in_place_witness :
  exists st',
    mm_realloc 8 heap_before_shrink 4296 16 = Some (4296, st') /\
    heap_ok st'
      ([mkBlock 4264 32 false] ++ mkBlock 4296 32 true
         :: mkBlock 4328 1008 false :: [mkBlock 5336 1040 false])
      (upd (lists_of lists_before_shrink) 4
           (4328 :: lists_of lists_before_shrink 4)).
Proof.
  destruct (mm_realloc_shrinks_in_place heap_before_shrink
              (lists_of lists_before_shrink)
              [mkBlock 4264 32 false] [mkBlock 5336 1040 false] 4296 1040 16 8
              heap_before_shrink_ok) as [_ Hsplit].
  - reflexivity.
  - reflexivity.
  - reflexivity.
  - destruct Hsplit as (st' & E & Hok & _); [reflexivity |].
    exists st'. split; [exact E | exact Hok].
Defined.
(** ** [mm_check] *)

Lemma mm_check_blocks_spec st bs : forall rest fuel pre cur,
  heap_layout st bs -> bs = pre ++ cur :: rest ->
  (length rest < fuel)%nat ->
  mm_check_blocks fuel st (b_ptr cur) = Some (escaped_pairs (cur :: rest)).
Proof.
  induction rest as [| b rest IH]; intros fuel pre cur HL E Hf;
    (destruct fuel as [| fuel]; [cbn [length] in Hf; lia |]);
    cbn [mm_check_blocks].
  - assert (Eend : b_ptr cur = end_heap st)
      by (apply (layout_last st bs pre cur [] HL E); reflexivity).
    rewrite Eend, Z.eqb_refl. reflexivity.
  - assert (Hnend : b_ptr cur <> end_heap st).
    { intros H. apply (layout_last st bs pre cur (b :: rest) HL E) in H.
      discriminate. }
    destruct (Z.eqb_spec (b_ptr cur) (end_heap st)) as [| _]; [contradiction |].
    rewrite (layout_RIGHT st bs pre cur b rest HL E).
    assert (Hc : In cur bs) by (rewrite E; apply in_middle).
    assert (Hb : In b bs)
      by (rewrite E; apply in_or_app; right; right; left; reflexivity).
    destruct (layout_block st bs cur HL Hc) as (Hokc & _).
    destruct (layout_block st bs b HL Hb) as (Hokb & _).
    rewrite (big_free_block st cur Hokc), (big_free_block st b Hokb).
    rewrite (IH fuel (pre ++ [cur]) b HL);
      [reflexivity | rewrite E, <- app_assoc; reflexivity
      | cbn [length] in Hf; lia].
Qed.

Lemma mm_check_list_spec st : forall tl fuel x,
  next_chain st (READ_ADDR st (NEXT x)) tl NULL ->
  (forall y, In y tl -> BIT st (HEADER y) = 0) ->
  (length tl < fuel)%nat ->
  mm_check_list fuel st x = Some [].
Proof.
  induction tl as [| y tl IH]; intros fuel x Hch Hfree Hf;
    (destruct fuel as [| fuel]; [cbn [length] in Hf; lia |]);
    cbn [mm_check_list]; cbn [next_chain] in Hch.
  - rewrite Hch, Z.eqb_refl. reflexivity.
  - destruct Hch as (Ey & Hy & Hch). rewrite Ey.
    destruct (Z.eqb_spec y NULL) as [| _]; [contradiction |]. cbn [negb].
    rewrite (Hfree y (or_introl eq_refl)). change (0 =? 0) with true.
    cbn [negb]. cbv iota.
    rewrite (IH fuel y Hch); [reflexivity | | cbn [length] in Hf; lia].
    intros z Hz. apply Hfree. right. exact Hz.
Qed.

Lemma mm_check_classes_spec st bs FL fuel n : forall i,
  heap_ok st bs FL ->
  (forall c, 0 <= c < CLASSES -> (length (FL c) <= fuel)%nat) ->
  0 <= i -> i + Z.of_nat n <= CLASSES ->
  mm_check_classes n fuel st i = Some [].
Proof.
  induction n as [| n IH]; intros i Hok Hfuel Hi Hn; cbn [mm_check_classes];
    [reflexivity |].
  pose proof Hok as (HL & HF & HI).
  assert (Hc : 0 <= i < CLASSES) by lia.
  destruct (HF i Hc) as (Hh & Hd & _ & _).
  rewrite Hh.
  destruct (FL i) as [| x tl] eqn:EFL; cbn [hd].
  - rewrite Z.eqb_refl. reflexivity.
  - assert (Hnn : forall y, In y (x :: tl) -> y <> NULL).
    { intros y Hy. rewrite <- EFL in Hy.
      destruct (node_pos st bs FL HL HF i i y Hc Hc Hy) as [H _].
      unfold NULL. lia. }
    destruct (Z.eqb_spec x NULL) as [E |];
      [exfalso; apply (Hnn x (or_introl eq_refl) E) |].
    pose proof (dll_next_chain st (x :: tl) NULL Hd Hnn) as Hch.
    cbn [hd next_chain] in Hch. destruct Hch as (_ & _ & Hch).
    rewrite (mm_check_list_spec st tl fuel x Hch).
    + rewrite (IH (i + 1) Hok Hfuel ltac:(lia) ltac:(lia)). reflexivity.
    + intros y Hy.
      assert (Hy' : In y (FL i)) by (rewrite EFL; right; exact Hy).
      destruct (node_block st bs FL HL HF i y Hc Hy') as (s & u & Hb & Hcl & _).
      destruct (layout_block st bs _ HL Hb) as (Hokb & _).
      pose proof (block_bit_read st _ Hokb) as Hbit.
      cbn [b_ptr b_used] in Hbit. rewrite Hbit.
      assert (Hu : u = false).
      { apply (HI _ Hb). cbn [b_size b_ptr]. rewrite Hcl. split; assumption. }
      rewrite Hu. reflexivity.
    + specialize (Hfuel i Hc). rewrite EFL in Hfuel. cbn [length] in Hfuel. lia.
Qed.

(** On a well-formed heap [mm_check] raises no false alarm: it leaves
    the state as it is, reports no listed block as in use, and reports
    exactly the pairs of neighbours that are both free and above 255
    bytes, from left to right. *)
Theorem mm_check_reports_escaped_pairs
  (st : state) (bs : list block) (FL : Z -> list Z) (fuel : nat) :
  heap_ok st bs FL ->
  (length bs <= fuel)%nat ->
  (forall c, 0 <= c < CLASSES -> (length (FL c) <= fuel)%nat) ->
  mm_check fuel st = Some (escaped_pairs bs, st).
Proof.
  intros Hok Hf Hfl. pose proof Hok as (HL & _).
  destruct (layout_end_heap st bs (mkBlock 0 0 false) HL) as [Hne _].
  destruct bs as [| b0 rest]; [contradiction |].
  assert (E0 : b_ptr b0 = first_block st)
    by (apply (layout_first st _ [] b0 rest HL eq_refl); reflexivity).
  unfold mm_check. rewrite <- E0.
  rewrite (mm_check_blocks_spec st (b0 :: rest) rest fuel [] b0 HL eq_refl)
    by (cbn [length] in Hf; lia).
  rewrite (mm_check_classes_spec st (b0 :: rest) FL fuel (Z.to_nat CLASSES) 0
             Hok Hfl ltac:(lia) ltac:(unfold CLASSES; lia)).
  rewrite app_nil_r. reflexivity.
Qed.

Lemma heap_after_shrink_ok :
  heap_ok heap_after_shrink blocks_after_shrink (lists_of lists_after_shrink).
Proof. apply heap_ok_b_sound. vm_compute. reflexivity. Qed.

Lemma mm_check_reports_escaped_pairs_witness :
  mm_check 8 heap_after_shrink
  = Some ([EscapedCoalescing 4328 5336], heap_after_shrink).
Proof.
  apply (mm_check_reports_escaped_pairs heap_after_shrink blocks_after_shrink
           (lists_of lists_after_shrink) 8 heap_after_shrink_ok).
  - cbn. lia.
  - intros c _. apply lists_of_length. reflexivity.
Defined.
(** ** [simulate_right_coalesce] *)

(** The simulation answers 1 exactly when the free blocks that follow
    the block, up to the first used block or the end of the heap, add
    up to at least [diff]: it answers 0 for the last block and for a
    block whose right neighbour is in use. *)
Theorem simulate_right_coalesce_decides
  (st : state) (l1 l2 : list block) (P : block) (diff : Z) (fuel : nat) :
  heap_layout st (l1 ++ P :: l2) -> (length l2 < fuel)%nat ->
  simulate_right_coalesce fuel st (b_ptr P) diff
  = Some (match absorb_run l2 diff 0 with
          | Some _ => true
          | None => false
          end) /\
  (l2 = [] -> simulate_right_coalesce fuel st (b_ptr P) diff = Some false) /\
  (forall b l, l2 = b :: l -> b_used b = true ->
               simulate_right_coalesce fuel st (b_ptr P) diff = Some false).
Proof.
  intros HL Hf.
  pose proof (layout_total st _ HL) as Htot.
  rewrite total_size_app in Htot. cbn [total_size fold_right] in Htot.
  fold (total_size l2) in Htot.
  pose proof HL as (_ & _ & _ & _ & _ & Hall).
  pose proof (block_ok_pos _ _ Hall) as Hpos.
  apply Forall_app in Hpos. destruct Hpos as [P1 P2].
  inversion P2 as [| ? ? Ps P2']; subst.
  pose proof (total_size_nonneg _ P1). pose proof (total_size_nonneg _ P2').
  assert (E : simulate_right_coalesce fuel st (b_ptr P) diff
              = Some (match absorb_run l2 diff 0 with
                      | Some _ => true
                      | None => false
                      end)).
  { unfold simulate_right_coalesce.
    apply (simulate_right_coalesce_loop_spec fuel st _ l1 P l2 diff 0 HL eq_refl);
      lia. }
  split; [exact E |]. split.
  - intros ->. rewrite E. reflexivity.
  - intros b l -> Hu. rewrite E. cbn [absorb_run]. rewrite Hu. reflexivity.
Qed.

Lemma simulate_right_coalesce_decides_witness :
  simulate_right_coalesce 8 heap_pattern 4296 448 = Some false /\
  simulate_right_coalesce 8 heap_two_free_neighbours 4296 136 = Some true.
Proof.
  split.
  - destruct heap_pattern_ok as (HL & _).
    destruct (simulate_right_coalesce_decides heap_pattern
                [mkBlock 4264 32 false] [mkBlock 4376 80 true]
                (mkBlock 4296 80 true) 448 8 HL ltac:(cbn; lia))
      as (_ & _ & H).
    apply (H _ _ eq_refl eq_refl).
  - destruct heap_two_free_neighbours_ok as (HL & _).
    destruct (simulate_right_coalesce_decides heap_two_free_neighbours
                [mkBlock 4264 32 false]
                [mkBlock 4376 80 false; mkBlock 4456 80 false;
                 mkBlock 4536 80 true]
                (mkBlock 4296 80 true) 136 8 HL ltac:(cbn; lia))
      as (H & _).
    exact H.
Defined.

(** ** Freeing and allocating again *)

(** LIFO reuse.  When a used block of at most 255 bytes is freed and the
    next request computes exactly the size of that block, [mm_malloc]
    returns the block just freed, and the heap has the same blocks and
    the same class lists as before the two calls. *)
Theorem mm_free_then_mm_malloc_reuses_block
  (st : state) (FL : Z -> list Z) (l1 l2 : list block) (p s size : Z)
  (fuel : nat) :
  heap_ok st (l1 ++ mkBlock p s true :: l2) FL ->
  (length l1 < fuel)%nat -> (length l2 < fuel)%nat ->
  (forall c, 0 <= c < CLASSES -> (length (FL c) < fuel)%nat) ->
  s <= GET_MAX_DIM LIMIT_COALESCE ->
  0 < size ->
  (if ALIGN (size + HF_OVERHEAD) <? MBS then MBS
   else ALIGN (size + HF_OVERHEAD)) = s ->
  exists st1 st2,
    mm_free fuel st p = Some st1 /\
    mm_malloc fuel st1 size = Some (p, st2) /\
    heap_ok st2 (l1 ++ mkBlock p s true :: l2) FL.
Proof.
  intros Hok Hf1 Hf2 Hfl Hsmall Hsize Hneed.
  destruct (mm_free_spec st FL l1 l2 p s fuel Hok Hf1 Hf2)
    as (st1 & Efree & Hres & _).
  cbv zeta in Hres.
  assert (Hcl : GET_CLASS s <= LIMIT_COALESCE).
  { pose proof (GET_CLASS_coalesce_gate s). lia. }
  destruct (Z.ltb_spec LIMIT_COALESCE (GET_CLASS s)) as [| _]; [lia |].
  cbn [rev app hd total_size fold_right b_ptr b_size map] in Hres.
  rewrite Z.add_0_r in Hres.
  set (c := GET_CLASS s) in *.
  assert (Hc : 0 <= c < CLASSES).
  { pose proof (GET_CLASS_range s) as Hr. fold c in Hr. consts. lia. }
  destruct (Z.ltb_spec c CLASSES) as [_ |]; [| lia].
  assert (Hok1 : heap_ok st1 (l1 ++ mkBlock p s false :: l2) (upd FL c (p :: FL c))).
  { refine (heap_ok_ext _ _ _ _ _ Hres). intros c'. symmetry. apply upd_ext.
    - intros c''. apply without_nil.
    - rewrite without_nil. reflexivity. }
  clear Hres.
  pose proof Hok1 as (HL1 & HF1 & HI1).
  set (B := mkBlock p s false) in *.
  assert (HB : In B (l1 ++ B :: l2)) by apply in_middle.
  destruct (layout_block st1 _ B HL1 HB) as (HokB & Bp1 & _ & Bs).
  pose proof (block_size_read st1 B HokB) as Hsz.
  cbn [b_ptr b_size B] in Hsz, Bp1, Bs.
  assert (Hp0 : p <> NULL) by (destruct HL1 as (HT & Hfb & _); consts; lia).
  (* the search stops at the head of the list *)
  destruct (HF1 c Hc) as (Hh & Hd & _ & _). rewrite upd_same in Hh, Hd.
  assert (Hnn : forall x, In x (p :: FL c) -> x <> NULL).
  { intros x Hx.
    assert (Hx' : In x (upd FL c (p :: FL c) c)) by (rewrite upd_same; exact Hx).
    destruct (node_pos st1 _ _ HL1 HF1 c c x Hc Hc Hx') as [H _].
    unfold NULL. lia. }
  pose proof (dll_next_chain st1 (p :: FL c) NULL Hd Hnn) as Hch.
  rewrite <- Hh in Hch.
  destruct (search_free_list_spec st1 c s (p :: FL c) fuel Hc Hch)
    as (r & Er & _ & _ & Hexact).
  { specialize (Hfl c Hc). cbn [length]. lia. }
  destruct (Hexact [] p (FL c) eq_refl Hsz) as [Erp _]; [intros x [] |].
  subst r.
  assert (Esearch : mm_malloc_search (Z.to_nat CLASSES) fuel st1 c s = Some (p, c)).
  { change (Z.to_nat CLASSES) with 20%nat. cbn [mm_malloc_search].
    destruct (Z.ltb_spec c CLASSES) as [_ |]; [| lia].
    rewrite Er. destruct (Z.eqb_spec p NULL) as [| _]; [contradiction |].
    reflexivity. }
  destruct (place_whole st1 _ (upd FL c (p :: FL c)) c p s l1 l2 [] (FL c) s
              Hok1 eq_refl Hc eq_refl)
    as (st2 & Ep & Hok2 & _).
  { rewrite upd_same. reflexivity. }
  { lia. }
  { change MBS with 32. lia. }
  exists st1, st2. split; [exact Efree |]. split.
  - unfold mm_malloc. destruct (Z.leb_spec size 0) as [| _]; [lia |].
    rewrite Hneed. fold c. rewrite Esearch.
    destruct (Z.eqb_spec p NULL) as [| _]; [contradiction |]. cbn [negb].
    rewrite Ep. reflexivity.
  - refine (heap_ok_ext _ _ _ _ _ Hok2). intros c'. unfold upd.
    destruct (c' =? c) eqn:E; [| reflexivity].
    apply Z.eqb_eq in E. subst c'. reflexivity.
Qed.

Lemma mm_free_then_mm_malloc_reuses_block_witness :
  exists st1 st2,
    mm_free 8 heap_pattern 4296 = Some st1 /\
    mm_malloc 8 st1 64 = Some (4296, st2) /\
    heap_ok st2
      ([mkBlock 4264 32 false] ++ mkBlock 4296 80 true :: [mkBlock 4376 80 true])
      (lists_of lists_pattern).
Proof.
  apply (mm_free_then_mm_malloc_reuses_block heap_pattern
           (lists_of lists_pattern) [mkBlock 4264 32 false]
           [mkBlock 4376 80 true] 4296 80 64 8 heap_pattern_ok).
  - cbn. lia.
  - cbn. lia.
  - intros c _. apply Nat.lt_succ_r. apply lists_of_length. reflexivity.
  - vm_compute. discriminate.
  - reflexivity.
  - vm_compute. reflexivity.
Defined.
(** ** Class index 20 *)



